(* ===== verification/_CoqProject ===== *)
-Q . S2P
Prelude.v
CLib.v
Crc16.v
World.v
MqTypes.v
MqUtil.v
FileIo.v
MsgFormat.v
StorePath.v
StoreRtag.v
StoreFile.v
StoreManage.v
QueueManage.v
StoreInv.v
StoreWrite.v
Fifo.v
StoreRemove.v
Restart.v
StoreCount.v
Ini.v
IniSpec.v
MqConfig.v
EvHttp.v
HttpOpt.v
HttpStat.v
HttpSpec.v
Main.v
MainSpec.v
CStr.v
MqClient.v
ClientAnswer.v
ClientFds.v
ClientWire.v
ClientSpec.v
PhpClient.v
PhpFds.v
PhpAnswer.v
PhpSpec.v
Frame.v
Isolation.v
ServerSpec.v
Recovery.v
Threads.v
Log.v
LogThreads.v
LogSpec.v
Uthash.v
UthashChains.v
UthashSpec.v
UthashDelete.v
UthashTable.v
