(* ===== verification/Prelude.v ===== *)
(** * UCMQ: a message queue over HTTP

    This library models and verifies the server of the repository: the storage
    of the queues under source/, the requests that work on them, the start and
    the stop of the process, its configuration and its log, and the two client
    libraries, in C (client/c) and as an extension of PHP (client/php).  A client
    puts a message into a queue and gets the oldest one; a queue is a directory
    of data files that are mapped into memory, and one tag file with the
    positions of its reader and writer.

    ** The parts and their files

    - Prelude: machine integers as [Z] with their conversions, bytes, the monad
      of stateful code that can fault, loops with a bound.
    - CLib: the functions of the C library the code uses (decimal printing and
      parsing, comparison, strtok).
    - Crc16 (source/crc16.c): the checksum of a message.
    - World: the operating system as the code sees it: directories, names,
      files, descriptors, mappings, a clock, free space, and a list that says
      which system calls fail next.  An access outside a mapping or through a
      mapping that is gone is [Fault]; a call on a descriptor that is closed fails.
      A new descriptor or mapping has a number that was never used before: what a
      stale handle leads to when its number is used again is not modelled.
    - MqTypes (source/mq_util.h, source/mq_config.h): constants and structures.
    - MqUtil (source/mq_util.c, source/mq_errno.c): helpers.
    - FileIo (source/file.c, source/util.c): reading and writing n bytes, over
      any kernel (class [Posix]) and over World.
    - MsgFormat (source/mq_store_msg.c): messages in a data file.
    - StorePath (source/mq_store_file.h): the paths of the files.
    - StoreRtag (source/mq_store_rtag.c): the tag file.
    - StoreFile (source/mq_store_file.c): the next data file of the reader and
      the writer, and the files found at start.
    - StoreManage (source/mq_store_manage.c): put, get, open, close, create,
      remove and count, for one queue.
    - QueueManage (source/mq_queue_manage.c): the table of the queues, the
      settings of a queue, push and pop, the whole store.
    - Uthash (source/uthash.h): the hash table behind the table of the queues, on a
      heap of nodes; UthashChains, UthashSpec, UthashDelete: its buckets and their
      growth, finding, adding and deleting; UthashTable: that it is the list of
      QueueManage.
    - StoreInv, StoreWrite: the invariant of a queue and its files, and that the
      operations of the three files above keep it.
    - Fifo: the abstract queue, and that the store refines it.
    - StoreRemove: removing a directory and a queue.
    - Restart: closing and opening again a queue and a whole store.
    - StoreCount: counting the messages of a queue at its start.
    - Ini, IniSpec (source/ini.c): the parser of configuration files, from the
      characters of a line to the references between variables; and what it does.
    - MqConfig (source/mq_config.c): the record of the settings.  The parser is
      the class [ConfSource], with its laws [ConfLaws]; Ini is an instance.
    - EvHttp, HttpOpt (source/mq_evhttp.c): the state of a request, the macros
      that answer, the names of queues; one definition for each handler, and the
      dispatch.  libevent is the class [Evhttp].
    - HttpStat (source/mq_evhttp.c): the status page and the two timers.
    - HttpSpec: what the requests do, from the request down to the files and
      back to the answer.
    - Main, MainSpec (source/main.c, the rest of source/mq_evhttp.c): the page
      /exec, the handlers, the start and the stop; and what they do.  The loop of
      events is libevent's: a field of [boot], any function on the process.
    - Frame, Isolation: that each operation, and each request, works on the
      queue it names and leaves the rest of the store alone.
    - ServerSpec, Recovery: the abstract server, a map from names to abstract
      queues; that the server refines it, and what a restart finds of it.
    - Threads: threads that share a state, as trees of atomic actions that a
      schedule interleaves; a rely and guarantee logic for them.
    - Log (source/log.c, log.h, source/atomic.h): the log, with the steps of its
      loops on atomic variables as such actions; LogThreads: any number of
      threads that log; LogSpec: the files that one thread writes.
    - CStr: searching in strings, and the sockets of the client, class [Sockets],
      with what is in memory behind a text ([behind_text]), as the search for a
      header goes on there after a NUL.
    - MqClient (client/c/mq_client.c): the client library.
    - ClientAnswer: how it reads an answer, on a connection that delivers it in
      any parts (class [SocketStream]).
    - ClientFds: its descriptors, with what a kernel does to them (class
      [SocketFds]: the open descriptors, and those that were connected at once).
    - ClientWire, ClientSpec: an instance of these classes for examples; the
      order of the servers, and concrete runs.
    - PhpClient (client/php/ucmq.c): the extension of PHP; [zif_mq_put_msg] is the
      PHP_FUNCTION mq_put_msg, [zm_startup_ucmq] its PHP_MINIT_FUNCTION, and so on.
      What it asks of the system beside [Sockets] is the class [PhpSockets]; the
      values of the scripts are a type with its conversions.
    - PhpFds: the slots of its pool of connections and their descriptors; PhpAnswer:
      a simulation by the client in C, with which it reads an answer; PhpSpec: any
      calls of the scripts, and concrete runs.

    A definition has the name of the C function it models.  A function on one
    queue is of type [M qstate], with the world and the [mq_queue_t]; one on the
    table is of type [M store]; a handler is of type [M (hstate KV)].  A pointer
    to a queue of the table is the key of its node; in UthashTable, where it is an
    address, the two are shown to name the same queue.  The calls to the log from other
    parts are left out, as nothing reads it back; the log itself is in Log.

    ** The invariant and the abstract queue

    [StoreInv.queue_inv] relates a queue, the world and a list of messages with
    their time stamps: the data files from the reader's to the writer's hold the
    encodings of the messages, one after the other, with nothing between them
    that could be taken for a message; the handles of the queue are open on
    their files; the names of the files to come are free.  [Fifo.refines] adds
    the counter and the settings, and so ties the state of the store to an
    abstract queue: a list of messages, a limit, a delay, and a lock.
    [ServerSpec.served] ties the table, the directories and all the files to a
    map of abstract queues; [lasting] and [settled] say what a restart finds.

    ** The theorems

    - The server is a table of FIFO queues: [ServerSpec.server_refinement], for
      every sequence of well formed requests on any queues; one request touches no
      other queue, [Isolation.serve_isolated]; and nothing settled is lost by a kill
      or a stop, [Recovery.server_survives].  They hold while no system call fails
      and the disk has room.
    - One queue: [Fifo.fifo_refinement] for every sequence of operations, with
      its steps [push_item_spec], [pop_item_spec] and [add_queue_refines]; one
      request, [HttpSpec.serve_put], [serve_get], [serve_setting],
      [serve_reset] and [serve_remove].
    - Restart: [Restart.restart_refinement] for one queue, [Restart.stop_start]
      for a table and [StoreCount.msg_count_spec] for the counts;
      [StoreFile.find_handle_file_spec] and [file_id_roundtrip] for the
      choice of the files; [StoreRtag.rtag_roundtrip], [rtag_torn_write],
      [rtag_torn_first_line] and [rtag_read_total] for the positions.
    - The data files: [MsgFormat.parse_msg_roundtrip], [parse_msg_safe],
      [cal_msg_count_layout], [cal_msg_count_total]; the checksum,
      [Crc16.crc16_append_ref] and [crc16_detects_burst].
    - Transfers: [FileIo.write_n_prefix], whatever the kernel answers.
    - The table: [QueueManage.queue_table_spec], and [UthashTable.table_refines_list]:
      the hash table answers as the list does, for every sequence of operations
      and every distribution of the hash values, and a pointer stays valid until
      its queue is deleted.
    - The requests: [HttpSpec.qname_check_spec], [qname_check_confines] and
      [long_data_path], [serve_refuses] for those that are refused before they come
      to the files, [bad_number_faults], [set_headers_safe]; the timer,
      [HttpStat.dump_spec].
    - The configuration: [IniSpec.ini_load_total] (a text of at most 32768 lines
      gives a well formed list of variables or none, while malloc succeeds),
      [too_many_values] and [grow_without_memory] otherwise; [IniSpec.ini_roundtrip] and
      [IniSpec.replace_expand]; [MqConfig.read_conf_typed] and
      [MqConfig.conf_roundtrip].
    - The process: [MainSpec.stop_not_lost], [main_entrance_end] for any event loop,
      [exec_refused] and [reload_breaks_mapping].
    - The log: [LogThreads.rotation_safe] and [init_once] for any schedule of any
      threads, [waiter_hangs] for the threads that wait for a failed
      initialisation, [LogSpec.log_refines] for the contents of the files of one
      thread, with messages less than 23 hours apart.
    - The client: [ClientAnswer.recv_answer_spec], [ClientFds.no_descriptor_leak]
      and [ClientSpec.lookup_once]; then, in ClientSpec, runs that do not end as
      its header says, such as [remove_sends_delay] and [set_all_stops].
    - The extension of PHP: [PhpSpec.pool_holds_connections] and
      [PhpAnswer.read_answer_spec]; which slot is used again, [PhpFds.choose_slot_free]
      and [choose_slot_oldest]; in PhpSpec runs such as [idle_time_not_read].

    ** Bounds and fuel

    Loops have the bound of their definition: [rw_fuel] for transfers of n bytes,
    one round for each byte; [count_fuel] and [rtag_fuel], one round for each
    position or line of a file; [get_data_fuel], more rounds than there are
    positions and files; [token_rounds], one round for each character
    of a text and one for each reference the parser replaces (MAX_TOKENS of them,
    then it stops itself).  The loops of the clients have the bound [fuel]; one more
    than the bytes of an answer and the calls that come too early is enough to
    read it.  The theorems show that the results are reached within
    these bounds; [OutOfFuel] is no result of any of them.  The theorems on
    sequences ask that the number of the last data file plus the length of the
    sequence stays below 2^63, and that a data file is 1 to 64 MB, which is what
    the configuration allows; those on restarts also that the tag stays below
    2 GB and the numbers of the files below [MAX_INDEX].  The loops of the log have
    no bound of the model: they are [Iter], and take one step for each turn.  A walk
    along a chain of the hash table has [chain_fuel], one more than there are nodes;
    its memory is limited to less than 32 GB, so that the number of the buckets
    stays below 2^31, and the process ends when the array can not be doubled.

    ** What is not modelled

    Forking into the background and the handler of SIGCHLD; what is printed to
    the terminal.  The handler of the other signals is a handler of Main, that runs
    between two others: what it finds when it interrupts one is not modelled.  The
    store calls malloc for the node of a queue, which can fail, and in the hash
    table, which then ends the process.  The macros of source/uthash.h that the program does not use.  The
    hex dump of source/trace.c, which nothing calls.  Tests, examples and build
    files.  Of the clients, memory that is freed, and the size of the stack on which
    they put the body of an answer; of the extension, its table for the engine and
    its part of phpinfo. *)
From Stdlib Require Export ZArith Lia Ascii String.
From stdpp Require Export base numbers list strings gmap.
#[global] Open Scope Z_scope.

(** ** Machine integers *)

Definition u8 (x : Z) : Z := x mod 256.
Definition u16 (x : Z) : Z := x mod 65536.
Definition u32 (x : Z) : Z := x mod 4294967296.
Definition u64 (x : Z) : Z := x mod 18446744073709551616.
Definition i32 (x : Z) : Z :=
  if u32 x <? 2147483648 then u32 x else u32 x - 4294967296.
Definition i64 (x : Z) : Z :=
  if u64 x <? 9223372036854775808 then u64 x else u64 x - 18446744073709551616.

Definition INT_MAX : Z := 2147483647.
Definition UINT_MAX : Z := 4294967295.
Definition LLONG_MAX : Z := 9223372036854775807.
Definition LLONG_MIN : Z := -9223372036854775808.

(** The conversions are evaluated only when they are asked for. *)
#[global] Arguments u8 : simpl never.
#[global] Arguments u16 : simpl never.
#[global] Arguments u32 : simpl never.
#[global] Arguments u64 : simpl never.
#[global] Arguments i32 : simpl never.
#[global] Arguments i64 : simpl never.

(** Small enough values are not changed by a conversion.  The hint database
    [wrap] discharges the side conditions with [lia]. *)
Create HintDb wrap.
Create Rewrite HintDb wrap.

Lemma u8_small (x : Z) : 0 <= x < 256 -> u8 x = x.
Proof. apply Z.mod_small. Qed.
Lemma u16_small (x : Z) : 0 <= x < 65536 -> u16 x = x.
Proof. apply Z.mod_small. Qed.
Lemma u32_small (x : Z) : 0 <= x < 4294967296 -> u32 x = x.
Proof. apply Z.mod_small. Qed.
Lemma u64_small (x : Z) : 0 <= x < 18446744073709551616 -> u64 x = x.
Proof. apply Z.mod_small. Qed.
Lemma i32_small (x : Z) : -2147483648 <= x < 2147483648 -> i32 x = x.
Proof.
  intros Hx. unfold i32, u32. destruct (decide (0 <= x)).
  - rewrite Z.mod_small by lia. destruct (Z.ltb_spec x 2147483648); lia.
  - rewrite <- (Z.mod_add x 1) by lia. rewrite Z.mod_small by lia.
    destruct (Z.ltb_spec (x + 1 * 4294967296) 2147483648); lia.
Qed.
Lemma i64_small (x : Z) :
  -9223372036854775808 <= x < 9223372036854775808 -> i64 x = x.
Proof.
  intros Hx. unfold i64, u64. destruct (decide (0 <= x)).
  - rewrite Z.mod_small by lia. destruct (Z.ltb_spec x 9223372036854775808); lia.
  - rewrite <- (Z.mod_add x 1) by lia. rewrite Z.mod_small by lia.
    destruct (Z.ltb_spec (x + 1 * 18446744073709551616) 9223372036854775808); lia.
Qed.

Lemma u8_range (x : Z) : 0 <= u8 x < 256.
Proof. apply Z.mod_pos_bound; lia. Qed.
Lemma u16_range (x : Z) : 0 <= u16 x < 65536.
Proof. apply Z.mod_pos_bound; lia. Qed.
Lemma u32_range (x : Z) : 0 <= u32 x < 4294967296.
Proof. apply Z.mod_pos_bound; lia. Qed.
Lemma u64_range (x : Z) : 0 <= u64 x < 18446744073709551616.
Proof. apply Z.mod_pos_bound; lia. Qed.
Lemma i32_range (x : Z) : -2147483648 <= i32 x < 2147483648.
Proof.
  unfold i32. pose proof (u32_range x).
  destruct (Z.ltb_spec (u32 x) 2147483648); lia.
Qed.
(** Converting an [int] to [unsigned] and back is the identity. *)
Lemma i32_u32 (x : Z) : i32 (u32 x) = i32 x.
Proof. unfold i32, u32. rewrite !Z.mod_mod by lia. done. Qed.
Lemma u32_i32 (x : Z) : u32 (i32 x) = u32 x.
Proof.
  unfold i32. pose proof (u32_range x).
  destruct (Z.ltb_spec (u32 x) 2147483648); unfold u32.
  - by rewrite Z.mod_mod by lia.
  - rewrite <- (Z.mod_add _ 1) by lia.
    replace (x mod 4294967296 - 4294967296 + 1 * 4294967296)
      with (x mod 4294967296) by lia.
    by rewrite Z.mod_mod by lia.
Qed.

#[export] Hint Rewrite u8_small u16_small u32_small u64_small i32_small i64_small
  using lia : wrap.
#[export] Hint Rewrite i32_u32 u32_i32 : wrap.
#[export] Hint Resolve u8_range u16_range u32_range u64_range i32_range : wrap.

(** Removes every conversion whose argument [lia] can show to be in range. *)
Ltac wrap_simpl := autorewrite with wrap in *.

(** ** Byte strings

    A C character array is a list of byte values; a C string is such a list
    without its terminating NUL.  [B] gives the bytes of a literal. *)
Abbreviation bytes := (list Z).

Definition byte_of_ascii (a : ascii) : Z := Z.of_N (N_of_ascii a).
Definition B (s : string) : bytes := byte_of_ascii <$> list_ascii_of_string s.

Definition is_byte (b : Z) : Prop := 0 <= b < 256.
#[export] Instance is_byte_dec (b : Z) : Decision (is_byte b).
Proof. unfold is_byte. apply _. Defined.

(** Decides a closed decidable proposition by evaluation. *)
Ltac decide_it := refine (bool_decide_unpack _ _); vm_compute; exact I.

(** The characters before the first NUL of a buffer. *)
Fixpoint cstr (buf : bytes) : bytes :=
  match buf with
  | [] => []
  | b :: rest => if b =? 0 then [] else b :: cstr rest
  end.

Lemma cstr_no_nul (s rest : bytes) :
  0 ∉ s -> cstr (s ++ 0 :: rest) = s.
Proof.
  induction s as [|b s IH]; intros Hs; [done|]. simpl.
  apply not_elem_of_cons in Hs as [Hb Hs].
  destruct (Z.eqb_spec b 0); [congruence|]. by rewrite IH.
Qed.
Lemma cstr_id (s : bytes) : 0 ∉ s -> cstr s = s.
Proof.
  induction s as [|b s IH]; intros Hs; [done|]. simpl.
  apply not_elem_of_cons in Hs as [Hb Hs].
  destruct (Z.eqb_spec b 0); [congruence|]. by rewrite IH.
Qed.

(** ** The effect monad

    Code that changes a state [S] and may hit undefined behaviour (an access to
    memory that is not mapped, a use after free) is a function of type [M S A].
    [OutOfFuel] is the result of a loop that does not end within its bound;
    the termination theorems show that it does not occur. *)
Inductive outcome (A : Type) : Type :=
| Ok (a : A)
| Fault
| OutOfFuel.
Arguments Ok {_} _.
Arguments Fault {_}.
Arguments OutOfFuel {_}.

Definition M (S A : Type) : Type := S -> outcome (A * S).

Definition ret {S A} (a : A) : M S A := fun s => Ok (a, s).
Definition bind {S A B} (m : M S A) (f : A -> M S B) : M S B := fun s =>
  match m s with
  | Ok (a, s') => f a s'
  | Fault => Fault
  | OutOfFuel => OutOfFuel
  end.
Definition fault {S A} : M S A := fun _ => Fault.
Definition get {S} : M S S := fun s => Ok (s, s).
Definition gets {S A} (f : S -> A) : M S A := fun s => Ok (f s, s).
Definition modify {S} (f : S -> S) : M S unit := fun s => Ok (tt, f s).

Declare Scope ucmq_scope.
Delimit Scope ucmq_scope with ucmq.
Notation "'let!' x := m 'in' k" := (bind m (fun x => k))
  (at level 10, x binder, m at level 100, k at level 200,
   format "'[v' 'let!'  x  :=  m  'in' '/' k ']'") : ucmq_scope.
Notation "m ;;; k" := (bind m (fun _ => k))
  (at level 100, k at level 200, right associativity) : ucmq_scope.
#[global] Open Scope ucmq_scope.

Lemma bind_ok {S A C} (m : M S A) (f : A -> M S C) s a s' :
  m s = Ok (a, s') -> bind m f s = f a s'.
Proof. intros H. unfold bind. by rewrite H. Qed.
Lemma bind_inv {S A C} (m : M S A) (f : A -> M S C) s r :
  bind m f s = Ok r -> exists a s', m s = Ok (a, s') /\ f a s' = Ok r.
Proof. unfold bind. destruct (m s) as [[a s']| |]; naive_solver. Qed.
Lemma bind_assoc {S A C D} (m : M S A) (f : A -> M S C) (g : C -> M S D) s :
  bind (bind m f) g s = bind m (fun a => bind (f a) g) s.
Proof. unfold bind. by destruct (m s) as [[a s']| |]. Qed.

(** Runs the next statement with the equation [H] about it. *)
Ltac run H := erewrite bind_ok by (apply H).
(** Runs the primitive statements at the head of the goal. *)
Ltac prim :=
  cbn [bind ret get gets modify fault].

(** ** Loops

    [iterate p body] runs [body] at most [p] times, until it returns
    [Some result].  The bound is a binary number, so that a bound of many
    millions costs nothing; [while_loop] is the loop of the code under a bound. *)
Section Loop.
Context {S A : Type}.
Implicit Types (body : M S (option A)).

Fixpoint iterate (p : positive) body : M S (option A) := fun s =>
  match p with
  | xH => body s
  | xO p => match iterate p body s with
            | Ok (None, s') => iterate p body s'
            | r => r
            end
  | xI p => match body s with
            | Ok (None, s1) =>
                match iterate p body s1 with
                | Ok (None, s2) => iterate p body s2
                | r => r
                end
            | r => r
            end
  end.

Definition while_loop (fuel : positive) body : M S A := fun s =>
  match iterate fuel body s with
  | Ok (Some a, s') => Ok (a, s')
  | Ok (None, _) => OutOfFuel
  | Fault => Fault
  | OutOfFuel => OutOfFuel
  end.

(** The same with a unary bound. *)
Fixpoint iterate_nat (n : nat) body : M S (option A) := fun s =>
  match n with
  | O => Ok (None, s)
  | Datatypes.S n => match body s with
           | Ok (None, s') => iterate_nat n body s'
           | r => r
           end
  end.

Lemma iterate_nat_add n m body s :
  iterate_nat (n + m) body s =
  match iterate_nat n body s with
  | Ok (None, s') => iterate_nat m body s'
  | r => r
  end.
Proof.
  revert s. induction n as [|n IH]; intros s; simpl; [done|].
  destruct (body s) as [[[a|] s']| |]; [done| apply IH |done|done].
Qed.

Lemma iterate_unary p body s : iterate p body s = iterate_nat (Pos.to_nat p) body s.
Proof.
  revert s. induction p as [p IH|p IH|]; intros s.
  - rewrite Pos2Nat.inj_xI. simpl.
    destruct (body s) as [[[a|] s']| |]; [done| |done|done].
    replace (Pos.to_nat p + (Pos.to_nat p + 0))%nat
      with (Pos.to_nat p + Pos.to_nat p)%nat by lia.
    rewrite iterate_nat_add, IH.
    destruct (iterate_nat _ _ s') as [[[a|] s'']| |]; [done|apply IH|done|done].
  - rewrite Pos2Nat.inj_xO. simpl.
    replace (Pos.to_nat p + (Pos.to_nat p + 0))%nat
      with (Pos.to_nat p + Pos.to_nat p)%nat by lia.
    rewrite iterate_nat_add, IH.
    destruct (iterate_nat _ _ s) as [[[a|] s'']| |]; [done|apply IH|done|done].
  - simpl. by destruct (body s) as [[[a|] s']| |].
Qed.

(** [loops body n s a s']: the loop ends after [n] rounds that continue. *)
Inductive loops body : nat -> S -> A -> S -> Prop :=
| loops_done s a s' : body s = Ok (Some a, s') -> loops body 0 s a s'
| loops_more n s s1 a s' :
    body s = Ok (None, s1) -> loops body n s1 a s' ->
    loops body (Datatypes.S n) s a s'.

Lemma loops_iterate body n s a s' m :
  loops body n s a s' -> (n < m)%nat -> iterate_nat m body s = Ok (Some a, s').
Proof.
  intros H. revert m. induction H as [s a s' H|n s s1 a s' H _ IH]; intros m Hm.
  - destruct m; [lia|]. simpl. by rewrite H.
  - destruct m; [lia|]. simpl. rewrite H. apply IH. lia.
Qed.

Lemma while_loop_ok body n s a s' fuel :
  loops body n s a s' -> (n < Pos.to_nat fuel)%nat ->
  while_loop fuel body s = Ok (a, s').
Proof.
  intros H Hf. unfold while_loop. rewrite iterate_unary.
  by erewrite loops_iterate by eauto.
Qed.

(** A loop whose rounds preserve [I] and decrease [mu] ends within its bound,
    with a result or with a fault. *)
Lemma while_loop_terminates (I : S -> Prop) (mu : S -> Z) body fuel s :
  (forall s s', I s -> body s = Ok (None, s') -> I s' /\ 0 <= mu s' < mu s) ->
  (forall s, I s -> body s <> OutOfFuel) ->
  I s -> mu s < Z.pos fuel -> while_loop fuel body s <> OutOfFuel.
Proof.
  intros Hdec Hnof Hs Hmu. unfold while_loop. rewrite iterate_unary.
  assert (mu s < Z.of_nat (Pos.to_nat fuel)) as Hmu' by lia. clear Hmu.
  assert (0 < Pos.to_nat fuel)%nat as Hpos by lia.
  revert s Hs Hmu' Hpos. generalize (Pos.to_nat fuel) as n.
  induction n as [|n IH]; intros s Hs Hmu Hn; [lia|]. simpl.
  destruct (body s) as [[[a|] s']| |] eqn:E; [done| |done|].
  - destruct (Hdec _ _ Hs E) as [Hs' ?].
    apply IH; [done|lia|lia].
  - by apply Hnof in E.
Qed.
End Loop.

(** A loop with local variables [l]: each round either continues with new
    locals or returns. *)
Section LoopFrom.
Context {S L A : Type}.
Implicit Types (body : L -> M S (L + A)).

Definition with_locals body : M (S * L) (option A) := fun sl =>
  match body sl.2 sl.1 with
  | Ok (inl l, s) => Ok (None, (s, l))
  | Ok (inr a, s) => Ok (Some a, (s, sl.2))
  | Fault => Fault
  | OutOfFuel => OutOfFuel
  end.

Definition loop_from (fuel : positive) body (l : L) : M S A := fun s =>
  match while_loop fuel (with_locals body) (s, l) with
  | Ok (a, sl) => Ok (a, sl.1)
  | Fault => Fault
  | OutOfFuel => OutOfFuel
  end.

(** [rounds body n l s a s']: started with [l] and [s] the loop returns [a]
    in [s'] after [n] rounds that continue. *)
Inductive rounds body : nat -> L -> S -> A -> S -> Prop :=
| rounds_done l s a s' : body l s = Ok (inr a, s') -> rounds body 0 l s a s'
| rounds_more n l s l1 s1 a s' :
    body l s = Ok (inl l1, s1) -> rounds body n l1 s1 a s' ->
    rounds body (Datatypes.S n) l s a s'.

(** The continuing rounds alone. *)
Inductive steps body : nat -> L -> S -> L -> S -> Prop :=
| steps_refl l s : steps body 0 l s l s
| steps_cons n l s l1 s1 l' s' :
    body l s = Ok (inl l1, s1) -> steps body n l1 s1 l' s' ->
    steps body (Datatypes.S n) l s l' s'.

Lemma steps_rounds body n m l s l1 s1 a s' :
  steps body n l s l1 s1 -> rounds body m l1 s1 a s' -> rounds body (n + m) l s a s'.
Proof. induction 1; intros H2; simpl; [done|]. eapply rounds_more; eauto. Qed.

Lemma rounds_loops body n l s a s' :
  rounds body n l s a s' -> exists l', loops (with_locals body) n (s, l) a (s', l').
Proof.
  induction 1 as [l s a s' H|n l s l1 s1 a s' H _ [l' IH]].
  - exists l. apply loops_done. unfold with_locals. simpl. by rewrite H.
  - exists l'. eapply loops_more; [|done]. unfold with_locals. simpl. by rewrite H.
Qed.

Lemma loop_from_ok body n l s a s' fuel :
  rounds body n l s a s' -> Z.of_nat n < Z.pos fuel ->
  loop_from fuel body l s = Ok (a, s').
Proof.
  intros H Hf. apply rounds_loops in H as [l' H]. unfold loop_from.
  erewrite while_loop_ok by (try apply H; lia). done.
Qed.

Lemma loop_from_terminates (I : L -> S -> Prop) (mu : L -> S -> Z) body fuel l s :
  (forall l s l' s', I l s -> body l s = Ok (inl l', s') ->
    I l' s' /\ 0 <= mu l' s' < mu l s) ->
  (forall l s, I l s -> body l s <> OutOfFuel) ->
  I l s -> mu l s < Z.pos fuel -> loop_from fuel body l s <> OutOfFuel.
Proof.
  intros Hdec Hnof Hi Hmu. unfold loop_from.
  pose proof (while_loop_terminates (fun sl => I sl.2 sl.1) (fun sl => mu sl.2 sl.1)
                (with_locals body) fuel (s, l)) as Ht.
  simpl in Ht. destruct (while_loop _ _ _) as [[a sl]| |]; [done|done|].
  exfalso. apply Ht; try done.
  - intros [s1 l1] [s2 l2] Hi1 E. unfold with_locals in E. simpl in *.
    destruct (body l1 s1) as [[[l3|a] s3]| |] eqn:Eb; simplify_eq. eauto.
  - intros [s1 l1] Hi1 E. unfold with_locals in E. simpl in *.
    destruct (body l1 s1) as [[[l3|a] s3]| |] eqn:Eb; simplify_eq. by eapply Hnof.
Qed.
End LoopFrom.

(** ** Invariants of a program

    From a state in which [P] holds, [m] leads to one in which it holds again,
    and its result satisfies [Q].  Nothing is said of a run that does not end
    with a result. *)
Definition maintains {S A} (P : S -> Prop) (m : M S A) (Q : A -> Prop) : Prop :=
  forall s a s', P s -> m s = Ok (a, s') -> P s' /\ Q a.

Abbreviation anything := (fun _ => True).
Create HintDb maintain.

Section Maintains.
Context {S : Type} (P : S -> Prop).

Lemma mt_ret {A} (a : A) (Q : A -> Prop) : Q a -> maintains P (ret a) Q.
Proof. intros Hq s b s' Hp [= <- <-]. done. Qed.
Lemma mt_fault {A} (Q : A -> Prop) : maintains P fault Q.
Proof. intros s b s' Hp E. done. Qed.
Lemma mt_fuel {A} (Q : A -> Prop) : maintains P (fun _ => OutOfFuel) Q.
Proof. intros s b s' Hp E. done. Qed.
Lemma mt_gets {A} (f : S -> A) (Q : A -> Prop) :
  (forall s, P s -> Q (f s)) -> maintains P (gets f) Q.
Proof. intros Hf s b s' Hp [= <- <-]. auto. Qed.
Lemma mt_modify (f : S -> S) : (forall s, P s -> P (f s)) -> maintains P (modify f) anything.
Proof. intros Hf s b s' Hp [= <- <-]. auto. Qed.
Lemma mt_weaken {A} (m : M S A) (Q Q' : A -> Prop) :
  maintains P m Q -> (forall a, Q a -> Q' a) -> maintains P m Q'.
Proof. intros Hm Hq s a s' Hp E. destruct (Hm s a s' Hp E). auto. Qed.
Lemma mt_any {A} (m : M S A) (Q : A -> Prop) : maintains P m Q -> maintains P m anything.
Proof. intros H. by eapply mt_weaken. Qed.
Lemma mt_bind {A C} (Q : A -> Prop) (m : M S A) (f : A -> M S C) (R : C -> Prop) :
  maintains P m Q -> (forall a, Q a -> maintains P (f a) R) -> maintains P (bind m f) R.
Proof.
  intros Hm Hf s c s' Hp (a & s1 & E1 & E2)%bind_inv. destruct (Hm _ _ _ Hp E1) as [Hp1 Hq].
  by apply (Hf a Hq s1).
Qed.
Lemma mt_then {A C} (m : M S A) (f : A -> M S C) (R : C -> Prop) :
  maintains P m anything -> (forall a, maintains P (f a) R) -> maintains P (bind m f) R.
Proof. intros Hm Hf. apply (mt_bind anything); auto. Qed.

Lemma mt_iterate_nat {A} (body : M S (option A)) Q n :
  maintains P body (fun r => match r with Some a => Q a | None => True end) ->
  maintains P (iterate_nat n body) (fun r => match r with Some a => Q a | None => True end).
Proof.
  intros Hb. induction n as [|n IH]; [by apply mt_ret|]. intros s r s' Hp E. simpl in E.
  destruct (body s) as [[[a|] s1]| |] eqn:E1; [| |done|done].
  - injection E as <- <-. by apply (Hb s (Some a) s1).
  - apply (IH s1); [|done]. by destruct (Hb s None s1 Hp E1).
Qed.
End Maintains.

(** Locals may have an invariant of their own. *)
Lemma mt_loop_from {S L A} (P : S -> Prop) (I : L -> Prop) (body : L -> M S (L + A)) Q fuel l :
  I l -> (forall l, I l -> maintains P (body l)
            (fun r => match r with inl l' => I l' | inr a => Q a end)) ->
  maintains P (loop_from fuel body l) Q.
Proof.
  intros Hl Hb s a s' Hp E. unfold loop_from, while_loop in E. rewrite iterate_unary in E.
  destruct (iterate_nat _ _ _) as [[[b|] [s1 l1]]| |] eqn:E1; [|done..]. injection E as <- <-.
  destruct (mt_iterate_nat (fun sl : S * L => P sl.1 /\ I sl.2) (with_locals body) Q (Pos.to_nat fuel))
    with (s := (s, l)) (a := Some b) (s' := (s1, l1)) as [[? _] ?]; [|done|exact E1|done].
  intros [s2 l2] r [s3 l3] [Hp2 Hi2] E2. unfold with_locals in E2. cbn in *.
  destruct (body l2 s2) as [[[l4|c] s4]| |] eqn:E3; [..|done|done]; injection E2 as <- <- <-;
    by destruct (Hb l2 Hi2 _ _ _ Hp2 E3).
Qed.

#[export] Hint Resolve mt_fault mt_fuel : maintain.

(** Walks through a program: [bind]s and case distinctions are taken apart, what
    the database [maintain] knows is used, with its result where there is one. *)
Ltac maintain_step :=
  match goal with
  | H : _ /\ _ |- _ => destruct H
  | |- maintains _ (ret _) _ => apply mt_ret; solve [eauto 8 with maintain]
  | |- maintains _ (bind ?m _) _ =>
      lazymatch m with
      | match _ with _ => _ end => apply mt_then; [|intros ?]
      | bind _ _ => apply mt_then; [|intros ?]
      | _ => eapply mt_bind; [solve [eauto 8 with maintain]|cbv beta; intros ? ?]
      end
  | |- maintains _ (match ?x with _ => _ end) _ => destruct x
  | |- maintains _ _ _ => solve [eauto 8 with maintain | eapply mt_any; eauto 8 with maintain]
  end.
Ltac maintain := repeat (cbv beta zeta; maintain_step).
