(* ===== verification/CLib.v ===== *)
(** * The C library functions the program uses

    Character classes, decimal printing and parsing, string comparison and
    splitting, on the byte strings of [Prelude].  [fixed n v] is what the
    conversion [%0<n>u] prints for a [v] of at most [n] digits. *)
From Stdlib Require Import SpecFloat.
From S2P Require Import Prelude.

(** ** The type [double]: binary64 values of [SpecFloat] *)
Definition double := spec_float.
Definition double_of (z : Z) : double := binary_normalize 53 1024 z 0 false.
Definition dadd (x y : double) : double := SFadd 53 1024 x y.
Definition dmul (x y : double) : double := SFmul 53 1024 x y.
Definition ddiv (x y : double) : double := SFdiv 53 1024 x y.
(** The integer part; an infinity and a NaN have none. *)
Definition int_of_double (x : double) : option Z :=
  match x with
  | S754_zero _ => Some 0
  | S754_finite s m e => Some ((if s : bool then -1 else 1) * Z.shiftl (Z.pos m) e)
  | _ => None
  end.

(** ** Character classes *)
Definition isdigit (c : Z) : bool := (48 <=? c) && (c <=? 57).
Definition isupper (c : Z) : bool := (65 <=? c) && (c <=? 90).
Definition islower (c : Z) : bool := (97 <=? c) && (c <=? 122).
Definition isspace (c : Z) : bool := (c =? 32) || ((9 <=? c) && (c <=? 13)).
Definition isblank (c : Z) : bool := (c =? 32) || (c =? 9).
Definition tolower (c : Z) : Z := if isupper c then c + 32 else c.

(** ** Decimal printing *)

(** The [n] low decimal digits of [v]. *)
Fixpoint fixed (n : nat) (v : Z) : bytes :=
  match n with
  | O => []
  | S n => fixed n (v / 10) ++ [48 + v mod 10]
  end.

Fixpoint count_digits (fuel : nat) (v : Z) : nat :=
  match fuel with
  | O => 1
  | S fuel => if v <? 10 then 1 else S (count_digits fuel (v / 10))
  end.
(** Twenty digits are enough for the 64-bit values the program prints. *)
Definition ndigits (v : Z) : nat := count_digits 19 v.

(** [%u] and [%0<n>u] *)
Definition dec (v : Z) : bytes := fixed (ndigits v) v.
Definition pad (n : nat) (v : Z) : bytes := fixed (n `max` ndigits v) v.
(** [%d] *)
Definition sdec (v : Z) : bytes := if v <? 0 then 45 :: dec (- v) else dec v.

(** [snprintf(buf, size, ...)] keeps at most [size - 1] characters. *)
Definition snprintf (size : nat) (s : bytes) : bytes := take (size - 1) s.

(** ** Decimal parsing *)
Fixpoint digits_value (acc : Z) (s : bytes) : Z * bytes :=
  match s with
  | c :: rest => if isdigit c then digits_value (acc * 10 + (c - 48)) rest else (acc, s)
  | [] => (acc, [])
  end.

Fixpoint skip_space (s : bytes) : bytes :=
  match s with
  | c :: rest => if isspace c then skip_space rest else s
  | [] => []
  end.

Definition clamp_ll (v : Z) : Z := Z.max LLONG_MIN (Z.min LLONG_MAX v).

(** [strtoll(s, &endptr, 10)]: the value, the rest of the string at [endptr],
    and whether [errno] is set to [ERANGE].  Without a digit the value is 0 and
    [endptr] is the start of the string. *)
Definition strtoll (s : bytes) : Z * bytes * bool :=
  let t := skip_space s in
  let '(neg, d) := match t with
                   | 45 :: d => (true, d)
                   | 43 :: d => (false, d)
                   | _ => (false, t)
                   end in
  match d with
  | c :: _ =>
      if isdigit c then
        let '(v, rest) := digits_value 0 d in
        let v := if neg : bool then - v else v in
        (clamp_ll v, rest, bool_decide (clamp_ll v <> v))
      else (0, s, false)
  | [] => (0, s, false)
  end.
Definition atoll (s : bytes) : Z := (strtoll s).1.1.
Definition atoi (s : bytes) : Z := i32 (atoll s).

(** ** Strings *)
Fixpoint strcmp (a b : bytes) : Z :=
  match a, b with
  | [], [] => 0
  | [], _ :: _ => -1
  | _ :: _, [] => 1
  | x :: a, y :: b => if x <? y then -1 else if y <? x then 1 else strcmp a b
  end.
Definition strncmp (a b : bytes) (n : nat) : Z := strcmp (take n a) (take n b).
Definition streq (a b : bytes) : bool := bool_decide (a = b).
Definition strlen (s : bytes) : Z := Z.of_nat (length s).

(** The successive results of [strtok(s, sep); strtok(NULL, sep); ...] for a
    separator of one character. *)
Fixpoint strtok_from (sep : Z) (cur s : bytes) : list bytes :=
  match s with
  | [] => match cur with [] => [] | _ => [rev cur] end
  | c :: rest =>
      if c =? sep
      then match cur with
           | [] => strtok_from sep [] rest
           | _ => rev cur :: strtok_from sep [] rest
           end
      else strtok_from sep (c :: cur) rest
  end.
Definition strtok (sep : Z) (s : bytes) : list bytes := strtok_from sep [] s.

(** ** Facts about decimal numbers *)
Lemma length_fixed n v : length (fixed n v) = n.
Proof.
  revert v. induction n as [|n IH]; intros v; simpl; [done|].
  rewrite length_app, IH. simpl. lia.
Qed.

Lemma digit_char v : isdigit (48 + v mod 10) = true.
Proof.
  pose proof (Z.mod_pos_bound v 10 ltac:(lia)).
  unfold isdigit. apply andb_true_iff. split; apply Z.leb_le; lia.
Qed.

Lemma fixed_digits n v : Forall (fun c => isdigit c = true) (fixed n v).
Proof.
  revert v. induction n as [|n IH]; intros v; simpl; [constructor|].
  apply Forall_app. split; [apply IH|]. constructor; [apply digit_char|constructor].
Qed.

Lemma fixed_bytes n v : Forall is_byte (fixed n v).
Proof.
  eapply Forall_impl; [apply fixed_digits|]. intros c Hc.
  unfold isdigit in Hc. apply andb_true_iff in Hc as [H1 H2].
  apply Z.leb_le in H1, H2. unfold is_byte. lia.
Qed.

Lemma fixed_no (n : nat) (v c : Z) : isdigit c = false -> c ∉ fixed n v.
Proof.
  intros Hc Hin. pose proof (fixed_digits n v) as Hd.
  rewrite Forall_forall in Hd. apply Hd in Hin. congruence.
Qed.

Lemma mod_pow10_S (n : nat) (v : Z) :
  v mod 10 ^ Z.of_nat (S n) = (v / 10) mod 10 ^ Z.of_nat n * 10 + v mod 10.
Proof.
  rewrite Nat2Z.inj_succ, Z.pow_succ_r by lia.
  rewrite Z.rem_mul_r by (try apply Z.pow_pos_nonneg; lia). lia.
Qed.

Lemma digits_value_app acc n v rest :
  digits_value acc (fixed n v ++ rest) =
  digits_value (acc * 10 ^ Z.of_nat n + v mod 10 ^ Z.of_nat n) rest.
Proof.
  revert acc v rest. induction n as [|n IH]; intros acc v rest.
  - simpl. rewrite Z.mod_1_r. f_equal. lia.
  - simpl fixed. rewrite <- app_assoc, IH. simpl ([_] ++ rest). cbn [digits_value].
    rewrite digit_char, mod_pow10_S. f_equal.
    rewrite Nat2Z.inj_succ, Z.pow_succ_r by lia. lia.
Qed.

Lemma digits_value_fixed n v :
  0 <= v < 10 ^ Z.of_nat n -> digits_value 0 (fixed n v) = (v, []).
Proof.
  intros Hv. rewrite <- (app_nil_r (fixed n v)), digits_value_app.
  rewrite Z.mod_small by lia. simpl. f_equal; lia.
Qed.

Lemma fixed_inj n v w :
  0 <= v < 10 ^ Z.of_nat n -> 0 <= w < 10 ^ Z.of_nat n ->
  fixed n v = fixed n w -> v = w.
Proof.
  intros Hv Hw E. apply (f_equal (digits_value 0)) in E.
  rewrite !digits_value_fixed in E by done. congruence.
Qed.

Lemma count_digits_bound fuel v :
  0 <= v < 10 ^ Z.of_nat (S fuel) -> v < 10 ^ Z.of_nat (count_digits fuel v).
Proof.
  revert v. induction fuel as [|fuel IH]; intros v Hv; [simpl in *; lia|].
  simpl count_digits. destruct (Z.ltb_spec v 10).
  - simpl. lia.
  - rewrite Nat2Z.inj_succ, Z.pow_succ_r by lia.
    rewrite Nat2Z.inj_succ, Z.pow_succ_r in Hv by lia.
    assert (v / 10 < 10 ^ Z.of_nat (count_digits fuel (v / 10))).
    { apply IH. split; [apply Z.div_pos; lia|]. apply Z.div_lt_upper_bound; lia. }
    pose proof (Z.div_mod v 10 ltac:(lia)). pose proof (Z.mod_pos_bound v 10 ltac:(lia)).
    lia.
Qed.

Lemma ndigits_bound v : 0 <= v < 10 ^ 20 -> v < 10 ^ Z.of_nat (ndigits v).
Proof. intros Hv. by apply count_digits_bound. Qed.

Lemma count_digits_le fuel v k :
  (1 <= k)%nat -> 0 <= v < 10 ^ Z.of_nat k -> (count_digits fuel v <= k)%nat.
Proof.
  revert v k. induction fuel as [|fuel IH]; intros v k Hk Hv; simpl; [lia|].
  destruct (Z.ltb_spec v 10); [lia|].
  destruct k as [|[|k]]; [lia|simpl in Hv; lia|].
  apply le_n_S. apply IH; [lia|].
  rewrite Nat2Z.inj_succ, Z.pow_succ_r in Hv by lia.
  split; [apply Z.div_pos; lia|]. apply Z.div_lt_upper_bound; lia.
Qed.

(** A number of at most [n] digits is printed by [%0<n>u] as [n] digits. *)
Lemma pad_fixed n v :
  (1 <= n)%nat -> 0 <= v < 10 ^ Z.of_nat n -> pad n v = fixed n v.
Proof.
  intros Hn Hv. unfold pad. f_equal. apply Nat.max_l. by apply count_digits_le.
Qed.

Lemma pad_length n v : (length (pad n v) = n `max` ndigits v)%nat.
Proof. apply length_fixed. Qed.

Lemma pow10_le (a b : nat) : (a <= b)%nat -> 10 ^ Z.of_nat a <= 10 ^ Z.of_nat b.
Proof. intros. apply Z.pow_le_mono_r; lia. Qed.

Lemma digits_value_pad n v :
  0 <= v < 10 ^ 20 -> digits_value 0 (pad n v) = (v, []).
Proof.
  intros Hv. apply digits_value_fixed. split; [lia|].
  eapply Z.lt_le_trans; [by apply ndigits_bound|]. apply pow10_le. lia.
Qed.

Lemma pad_cons n v : exists c rest, pad n v = c :: rest /\ isdigit c = true.
Proof.
  pose proof (pad_length n v) as Hl. pose proof (fixed_digits (n `max` ndigits v) v) as Hd.
  fold (pad n v) in Hd. destruct (pad n v) as [|c rest] eqn:E.
  - exfalso. simpl in Hl. unfold ndigits in Hl. simpl in Hl.
    destruct (v <? 10) in Hl; lia.
  - exists c, rest. split; [done|]. by inversion Hd.
Qed.

Lemma strtoll_digits s v c rest :
  s = c :: rest -> isdigit c = true -> digits_value 0 s = (v, []) ->
  0 <= v <= LLONG_MAX -> strtoll s = (v, [], false).
Proof.
  intros Hs Hc Hd Hv. unfold strtoll.
  assert (skip_space s = s) as ->.
  { subst s. simpl. replace (isspace c) with false; [done|].
    unfold isdigit in Hc. unfold isspace. symmetry.
    apply andb_true_iff in Hc as [?%Z.leb_le ?%Z.leb_le].
    apply orb_false_iff. split; [apply Z.eqb_neq; lia|].
    apply andb_false_iff. right. apply Z.leb_gt. lia. }
  assert (match s with 45 :: d => (true, d) | 43 :: d => (false, d) | _ => (false, s) end
          = (false, s)) as ->.
  { subst s. unfold isdigit in Hc.
    apply andb_true_iff in Hc as [?%Z.leb_le ?%Z.leb_le].
    destruct c as [|p|p]; try lia.
    do 6 (destruct p as [p|p|]; try lia; try done). }
  rewrite Hd. subst s. rewrite Hc.
  replace (clamp_ll v) with v by (unfold clamp_ll, LLONG_MIN; lia).
  rewrite bool_decide_false by congruence. done.
Qed.

(** Printing with [%0<n>u] and reading back with [atoll] or [atoi]. *)
Lemma strtoll_pad n v :
  0 <= v <= LLONG_MAX -> strtoll (pad n v) = (v, [], false).
Proof.
  intros Hv. destruct (pad_cons n v) as (c & rest & E & Hc).
  eapply strtoll_digits; [done|done| |done].
  apply digits_value_pad. unfold LLONG_MAX in *. lia.
Qed.
Lemma atoll_pad n v : 0 <= v <= LLONG_MAX -> atoll (pad n v) = v.
Proof. intros Hv. unfold atoll. by rewrite strtoll_pad. Qed.
Lemma atoi_pad n v : 0 <= v <= INT_MAX -> atoi (pad n v) = v.
Proof.
  intros Hv. unfold atoi. unfold INT_MAX in *.
  rewrite atoll_pad by (unfold LLONG_MAX; lia). apply i32_small. lia.
Qed.

(** ** Facts about string comparison and splitting *)
Definition sign_of (c : comparison) : Z :=
  match c with Lt => -1 | Eq => 0 | Gt => 1 end.

Lemma strcmp_refl a : strcmp a a = 0.
Proof. induction a as [|x a IH]; simpl; [done|]. by rewrite Z.ltb_irrefl. Qed.

Lemma strcmp_prefix p a b : strcmp (p ++ a) (p ++ b) = strcmp a b.
Proof. induction p as [|x p IH]; simpl; [done|]. by rewrite Z.ltb_irrefl. Qed.

Lemma strcmp_app a b x y :
  length a = length b ->
  strcmp (a ++ x) (b ++ y) = if strcmp a b =? 0 then strcmp x y else strcmp a b.
Proof.
  revert b. induction a as [|c a IH]; intros [|d b] Hl; try done.
  simpl in *. destruct (c <? d); [done|]. destruct (d <? c); [done|].
  apply IH. lia.
Qed.

(** Numbers printed with the same width compare as numbers. *)
Lemma strcmp_fixed n v w :
  0 <= v < 10 ^ Z.of_nat n -> 0 <= w < 10 ^ Z.of_nat n ->
  strcmp (fixed n v) (fixed n w) = sign_of (v ?= w).
Proof.
  revert v w. induction n as [|n IH]; intros v w Hv Hw.
  - simpl in *. by replace w with v by lia; rewrite Z.compare_refl.
  - simpl fixed. rewrite strcmp_app by (by rewrite !length_fixed).
    rewrite Nat2Z.inj_succ, Z.pow_succ_r in Hv, Hw by lia.
    rewrite IH by (split; [apply Z.div_pos|apply Z.div_lt_upper_bound]; lia).
    pose proof (Z.div_mod v 10 ltac:(lia)). pose proof (Z.mod_pos_bound v 10 ltac:(lia)).
    pose proof (Z.div_mod w 10 ltac:(lia)). pose proof (Z.mod_pos_bound w 10 ltac:(lia)).
    simpl. destruct (Z.compare_spec (v / 10) (w / 10)); simpl;
      destruct (Z.compare_spec v w); simpl;
      destruct (Z.ltb_spec (48 + v mod 10) (48 + w mod 10));
      destruct (Z.ltb_spec (48 + w mod 10) (48 + v mod 10)); try lia; done.
Qed.

Lemma strtok_from_word sep cur w rest :
  sep ∉ w -> strtok_from sep cur (w ++ sep :: rest) =
  match rev cur ++ w with [] => strtok_from sep [] rest | t => t :: strtok_from sep [] rest end.
Proof.
  revert cur. induction w as [|c w IH]; intros cur Hw; simpl.
  - rewrite Z.eqb_refl, app_nil_r. destruct cur as [|x cur]; [done|].
    simpl. by destruct (rev cur ++ [x]) eqn:E; [destruct (rev cur)|].
  - apply not_elem_of_cons in Hw as [Hc Hw].
    destruct (Z.eqb_spec c sep); [congruence|]. rewrite IH by done. simpl.
    by rewrite <- app_assoc.
Qed.

Lemma strtok_from_last sep cur w :
  sep ∉ w -> strtok_from sep cur w =
  match rev cur ++ w with [] => [] | t => [t] end.
Proof.
  revert cur. induction w as [|c w IH]; intros cur Hw; simpl.
  - rewrite app_nil_r. destruct cur as [|x cur]; [done|].
    simpl. by destruct (rev cur ++ [x]) eqn:E; [destruct (rev cur)|].
  - apply not_elem_of_cons in Hw as [Hc Hw].
    destruct (Z.eqb_spec c sep); [congruence|]. rewrite IH by done. simpl.
    by rewrite <- app_assoc.
Qed.

Lemma strtok_cons sep w rest :
  sep ∉ w -> w <> [] -> strtok sep (w ++ sep :: rest) = w :: strtok sep rest.
Proof.
  intros Hw Hne. unfold strtok. rewrite strtok_from_word by done. simpl.
  by destruct w.
Qed.
Lemma strtok_one sep w : sep ∉ w -> w <> [] -> strtok sep w = [w].
Proof.
  intros Hw Hne. unfold strtok. rewrite strtok_from_last by done. simpl.
  by destruct w.
Qed.
