(* ===== verification/Crc16.v ===== *)
(** * source/crc16.c

    The table driven CRC of a message body, a bitwise reference definition of
    the same CRC (reflected polynomial [0xA001]), their equivalence, and the
    errors the CRC detects. *)
From S2P Require Import Prelude.

(** ** The code *)
Definition crc16tab : list Z :=
  [0x0000; 0xC0C1; 0xC181; 0x0140; 0xC301; 0x03C0; 0x0280; 0xC241;
   0xC601; 0x06C0; 0x0780; 0xC741; 0x0500; 0xC5C1; 0xC481; 0x0440;
   0xCC01; 0x0CC0; 0x0D80; 0xCD41; 0x0F00; 0xCFC1; 0xCE81; 0x0E40;
   0x0A00; 0xCAC1; 0xCB81; 0x0B40; 0xC901; 0x09C0; 0x0880; 0xC841;
   0xD801; 0x18C0; 0x1980; 0xD941; 0x1B00; 0xDBC1; 0xDA81; 0x1A40;
   0x1E00; 0xDEC1; 0xDF81; 0x1F40; 0xDD01; 0x1DC0; 0x1C80; 0xDC41;
   0x1400; 0xD4C1; 0xD581; 0x1540; 0xD701; 0x17C0; 0x1680; 0xD641;
   0xD201; 0x12C0; 0x1380; 0xD341; 0x1100; 0xD1C1; 0xD081; 0x1040;
   0xF001; 0x30C0; 0x3180; 0xF141; 0x3300; 0xF3C1; 0xF281; 0x3240;
   0x3600; 0xF6C1; 0xF781; 0x3740; 0xF501; 0x35C0; 0x3480; 0xF441;
   0x3C00; 0xFCC1; 0xFD81; 0x3D40; 0xFF01; 0x3FC0; 0x3E80; 0xFE41;
   0xFA01; 0x3AC0; 0x3B80; 0xFB41; 0x3900; 0xF9C1; 0xF881; 0x3840;
   0x2800; 0xE8C1; 0xE981; 0x2940; 0xEB01; 0x2BC0; 0x2A80; 0xEA41;
   0xEE01; 0x2EC0; 0x2F80; 0xEF41; 0x2D00; 0xEDC1; 0xEC81; 0x2C40;
   0xE401; 0x24C0; 0x2580; 0xE541; 0x2700; 0xE7C1; 0xE681; 0x2640;
   0x2200; 0xE2C1; 0xE381; 0x2340; 0xE101; 0x21C0; 0x2080; 0xE041;
   0xA001; 0x60C0; 0x6180; 0xA141; 0x6300; 0xA3C1; 0xA281; 0x6240;
   0x6600; 0xA6C1; 0xA781; 0x6740; 0xA501; 0x65C0; 0x6480; 0xA441;
   0x6C00; 0xACC1; 0xAD81; 0x6D40; 0xAF01; 0x6FC0; 0x6E80; 0xAE41;
   0xAA01; 0x6AC0; 0x6B80; 0xAB41; 0x6900; 0xA9C1; 0xA881; 0x6840;
   0x7800; 0xB8C1; 0xB981; 0x7940; 0xBB01; 0x7BC0; 0x7A80; 0xBA41;
   0xBE01; 0x7EC0; 0x7F80; 0xBF41; 0x7D00; 0xBDC1; 0xBC81; 0x7C40;
   0xB401; 0x74C0; 0x7580; 0xB541; 0x7700; 0xB7C1; 0xB681; 0x7640;
   0x7200; 0xB2C1; 0xB381; 0x7340; 0xB101; 0x71C0; 0x7080; 0xB041;
   0x5000; 0x90C1; 0x9181; 0x5140; 0x9301; 0x53C0; 0x5280; 0x9241;
   0x9601; 0x56C0; 0x5780; 0x9741; 0x5500; 0x95C1; 0x9481; 0x5440;
   0x9C01; 0x5CC0; 0x5D80; 0x9D41; 0x5F00; 0x9FC1; 0x9E81; 0x5E40;
   0x5A00; 0x9AC1; 0x9B81; 0x5B40; 0x9901; 0x59C0; 0x5880; 0x9841;
   0x8801; 0x48C0; 0x4980; 0x8941; 0x4B00; 0x8BC1; 0x8A81; 0x4A40;
   0x4E00; 0x8EC1; 0x8F81; 0x4F40; 0x8D01; 0x4DC0; 0x4C80; 0x8C41;
   0x4400; 0x84C1; 0x8581; 0x4540; 0x8701; 0x47C0; 0x4680; 0x8641;
   0x8201; 0x42C0; 0x4380; 0x8341; 0x4100; 0x81C1; 0x8081; 0x4040].

(** One round of the loop: [c16 = (c16 >> 8) ^ crc16tab[(c16 ^ buf[i]) & 0xff]]. *)
Definition crc16_step (c16 b : Z) : Z :=
  Z.lxor (Z.shiftr c16 8) (crc16tab !!! Z.to_nat (Z.land (Z.lxor c16 b) 255)).

(** [crc16_append(&crc, data, len)] on the [len] bytes [data]: the value stored
    through the pointer.  The function always returns true. *)
Definition crc16_append (data : bytes) : Z := foldl crc16_step 0 data.

(** ** The reference: one shift per bit *)
Definition crc_bit (c : Z) : Z :=
  if Z.testbit c 0 then Z.lxor (Z.shiftr c 1) 0xA001 else Z.shiftr c 1.
Definition crc_bits (n : nat) (c : Z) : Z := Nat.iter n crc_bit c.
Definition crc_ref_step (c b : Z) : Z := crc_bits 8 (Z.lxor c b).
Definition crc_ref (data : bytes) : Z := foldl crc_ref_step 0 data.

(** ** Linearity and bounds *)
Lemma lxor_bound n x y :
  0 <= n -> 0 <= x < 2 ^ n -> 0 <= y < 2 ^ n -> 0 <= Z.lxor x y < 2 ^ n.
Proof.
  intros Hn Hx Hy. split; [by apply Z.lxor_nonneg; lia|].
  destruct (decide (Z.lxor x y = 0)) as [->|Hne]; [apply Z.pow_pos_nonneg; lia|].
  assert (0 < Z.lxor x y).
  { pose proof (proj2 (Z.lxor_nonneg x y) ltac:(lia)). lia. }
  apply Z.log2_lt_pow2; [done|].
  pose proof (Z.log2_lxor x y ltac:(lia) ltac:(lia)).
  destruct (decide (n = 0)) as [->|]; [simpl in *; replace x with 0 in * by lia;
    replace y with 0 in * by lia; done|].
  assert (Z.log2 x < n).
  { destruct (decide (x = 0)) as [->|]; [simpl; lia|]. apply Z.log2_lt_pow2; lia. }
  assert (Z.log2 y < n).
  { destruct (decide (y = 0)) as [->|]; [simpl; lia|]. apply Z.log2_lt_pow2; lia. }
  lia.
Qed.

Lemma crc_bit_lxor x y : crc_bit (Z.lxor x y) = Z.lxor (crc_bit x) (crc_bit y).
Proof.
  unfold crc_bit. rewrite Z.lxor_spec, Z.shiftr_lxor.
  destruct (Z.testbit x 0), (Z.testbit y 0); simpl; apply Z.bits_inj'; intros n Hn;
    rewrite !Z.lxor_spec; destruct (Z.testbit (Z.shiftr x 1) n),
    (Z.testbit (Z.shiftr y 1) n), (Z.testbit 40961 n); done.
Qed.

Lemma crc_bits_lxor n x y :
  crc_bits n (Z.lxor x y) = Z.lxor (crc_bits n x) (crc_bits n y).
Proof.
  unfold crc_bits. induction n as [|n IH]; simpl; [done|].
  by rewrite IH, crc_bit_lxor.
Qed.

Lemma crc_bit_range c : 0 <= c < 65536 -> 0 <= crc_bit c < 65536.
Proof.
  intros Hc. unfold crc_bit.
  assert (0 <= Z.shiftr c 1 < 65536).
  { rewrite Z.shiftr_div_pow2 by lia. change (2 ^ 1) with 2.
    split; [apply Z.div_pos; lia|apply Z.div_lt_upper_bound; lia]. }
  destruct (Z.testbit c 0); [|done].
  apply (lxor_bound 16); [lia|done|lia].
Qed.

Lemma crc_bits_range n c : 0 <= c < 65536 -> 0 <= crc_bits n c < 65536.
Proof.
  intros Hc. unfold crc_bits. induction n as [|n IH]; simpl; [done|].
  by apply crc_bit_range.
Qed.

(** The top bit of the result tells which branch was taken. *)
Lemma crc_bit_inj x y :
  0 <= x < 65536 -> 0 <= y < 65536 -> crc_bit x = crc_bit y -> x = y.
Proof.
  intros Hx Hy E.
  assert (forall c, 0 <= c < 65536 -> Z.testbit (crc_bit c) 15 = Z.testbit c 0) as Htop.
  { intros c Hc. unfold crc_bit.
    assert (Z.testbit (Z.shiftr c 1) 15 = false) as H15.
    { rewrite Z.shiftr_spec by lia. change (15 + 1) with 16.
      rewrite <- (Z.mod_small c (2 ^ 16)) by lia. apply Z.mod_pow2_bits_high; lia. }
    destruct (Z.testbit c 0); [|done]. by rewrite Z.lxor_spec, H15. }
  assert (Z.testbit x 0 = Z.testbit y 0) as Hb.
  { rewrite <- (Htop x Hx), <- (Htop y Hy). by rewrite E. }
  assert (Z.shiftr x 1 = Z.shiftr y 1) as Hs.
  { unfold crc_bit in E. rewrite <- Hb in E. destruct (Z.testbit x 0); [|done].
    apply (f_equal (fun c => Z.lxor c 0xA001)) in E.
    by rewrite !Z.lxor_assoc, !Z.lxor_nilpotent, !Z.lxor_0_r in E. }
  rewrite !Z.shiftr_div_pow2 in Hs by lia. change (2 ^ 1) with 2 in Hs.
  rewrite !Z.bit0_odd in Hb.
  rewrite (Z.div_mod x 2), (Z.div_mod y 2) by lia.
  rewrite !Zmod_odd, Hs, Hb. done.
Qed.

Lemma crc_bits_inj n x y :
  0 <= x < 65536 -> 0 <= y < 65536 -> crc_bits n x = crc_bits n y -> x = y.
Proof.
  intros Hx Hy. unfold crc_bits. induction n as [|n IH]; simpl; intros E; [done|].
  apply IH. apply crc_bit_inj in E; [done| |]; by apply (crc_bits_range n).
Qed.

(** ** The table *)
Lemma crc16tab_length : length crc16tab = 256%nat.
Proof. reflexivity. Qed.

Lemma crc16tab_entry (i : nat) :
  (i < 256)%nat -> crc16tab !!! i = crc_bits 8 (Z.of_nat i).
Proof.
  intros Hi.
  assert (forallb (fun i => crc16tab !!! i =? crc_bits 8 (Z.of_nat i)) (seq 0 256) = true)
    as Hall by (vm_compute; reflexivity).
  rewrite forallb_forall in Hall. apply Z.eqb_eq, Hall, in_seq. lia.
Qed.

(** Eight shifts of a multiple of 256 shift in no bit of the polynomial. *)
Lemma crc_bits_high (h : Z) : 0 <= h < 256 -> crc_bits 8 (h * 256) = h.
Proof.
  intros Hh.
  assert (forallb (fun i => crc_bits 8 (Z.of_nat i * 256) =? Z.of_nat i) (seq 0 256) = true)
    as Hall by (vm_compute; reflexivity).
  rewrite forallb_forall in Hall.
  specialize (Hall (Z.to_nat h) ltac:(apply in_seq; lia)).
  apply Z.eqb_eq in Hall. by rewrite Z2Nat.id in Hall by lia.
Qed.

Lemma split_byte (c : Z) : 0 <= c -> c = Z.lxor (c / 256 * 256) (Z.land c 255).
Proof.
  intros Hc. change 255 with (Z.ones 8). change 256 with (2 ^ 8).
  rewrite <- Z.shiftl_mul_pow2, <- Z.shiftr_div_pow2 by lia.
  apply Z.bits_inj'. intros n Hn. rewrite Z.lxor_spec, Z.land_spec.
  destruct (decide (n < 8)).
  - rewrite Z.shiftl_spec_low, Z.ones_spec_low by lia. by rewrite andb_true_r.
  - rewrite Z.shiftl_spec_high, Z.shiftr_spec, Z.ones_spec_high by lia.
    rewrite andb_false_r, xorb_false_r. f_equal. lia.
Qed.

Lemma land_255_range c : 0 <= Z.land c 255 < 256.
Proof. change 255 with (Z.ones 8). rewrite Z.land_ones by lia. by apply Z.mod_pos_bound. Qed.

Lemma crc16_step_ref c b :
  0 <= c < 65536 -> is_byte b -> crc16_step c b = crc_ref_step c b.
Proof.
  unfold is_byte. intros Hc Hb. unfold crc16_step, crc_ref_step.
  pose proof (lxor_bound 16 c b ltac:(lia) ltac:(lia) ltac:(lia)) as Hx.
  pose proof (land_255_range (Z.lxor c b)).
  rewrite crc16tab_entry, Z2Nat.id by lia.
  rewrite (split_byte (Z.lxor c b)) at 2 by lia.
  rewrite crc_bits_lxor. f_equal.
  rewrite crc_bits_high.
  - change 256 with (2 ^ 8). rewrite <- Z.shiftr_div_pow2 by lia.
    rewrite Z.shiftr_lxor, (Z.shiftr_div_pow2 b) by lia.
    by rewrite (Z.div_small b), Z.lxor_0_r by lia.
  - split; [apply Z.div_pos; lia|apply Z.div_lt_upper_bound; lia].
Qed.

Lemma crc_ref_step_range c b :
  0 <= c < 65536 -> is_byte b -> 0 <= crc_ref_step c b < 65536.
Proof.
  unfold is_byte. intros Hc Hb. apply crc_bits_range.
  apply (lxor_bound 16); lia.
Qed.

Lemma crc_foldl_ref data c :
  0 <= c < 65536 -> Forall is_byte data ->
  foldl crc16_step c data = foldl crc_ref_step c data /\
  0 <= foldl crc_ref_step c data < 65536.
Proof.
  revert c. induction data as [|b data IH]; intros c Hc Hd; simpl; [done|].
  inversion_clear Hd as [|? ? Hb Hd'].
  rewrite crc16_step_ref by done. apply IH; [by apply crc_ref_step_range|done].
Qed.

(** A message CRC fits in 16 bits. *)
Lemma crc16_append_range data :
  Forall is_byte data -> 0 <= crc16_append data < 65536.
Proof.
  intros Hd. unfold crc16_append.
  destruct (crc_foldl_ref data 0) as [-> ?]; [lia|done|done].
Qed.

Lemma crc_foldl_inj data x y :
  0 <= x < 65536 -> 0 <= y < 65536 -> Forall is_byte data ->
  foldl crc_ref_step x data = foldl crc_ref_step y data -> x = y.
Proof.
  revert x y. induction data as [|b data IH]; intros x y Hx Hy Hd E; simpl in *; [done|].
  inversion_clear Hd as [|? ? Hb Hd'].
  apply IH in E; [|by apply crc_ref_step_range..|done].
  unfold crc_ref_step in E. unfold is_byte in Hb.
  apply crc_bits_inj in E; [|apply (lxor_bound 16); lia..].
  apply (f_equal (fun c => Z.lxor c b)) in E.
  by rewrite !Z.lxor_assoc, !Z.lxor_nilpotent, !Z.lxor_0_r in E.
Qed.

Lemma crc_bits_add n m c : crc_bits (n + m) c = crc_bits n (crc_bits m c).
Proof. unfold crc_bits. by rewrite Nat.iter_add. Qed.

(** ** The message as one number *)

(** The bits of a message in the order in which the CRC takes them: the bytes in
    order, each from its lowest bit on. *)
Definition bit (data : bytes) (i : Z) : bool :=
  Z.testbit (nth (Z.to_nat (i / 8)) data 0) (i mod 8).
Fixpoint bits_value (data : bytes) : Z :=
  match data with [] => 0 | b :: data => Z.lxor b (Z.shiftl (bits_value data) 8) end.

Lemma byte_high b n : is_byte b -> 8 <= n -> Z.testbit b n = false.
Proof.
  unfold is_byte. intros Hb Hn. rewrite <- (Z.mod_small b (2 ^ 8)) by lia. by apply Z.mod_pow2_bits_high.
Qed.
Lemma bits_value_bit data i : Forall is_byte data -> 0 <= i -> Z.testbit (bits_value data) i = bit data i.
Proof.
  intros Hd. revert i. induction Hd as [|b data Hb Hd IH]; intros i Hi; cbn [bits_value].
  { unfold bit. rewrite Z.bits_0. by destruct (Z.to_nat (i / 8)); rewrite Z.bits_0. }
  rewrite Z.lxor_spec. unfold bit. destruct (decide (i < 8)) as [Hlt|Hge].
  - rewrite Z.shiftl_spec_low, xorb_false_r by lia. by rewrite Z.div_small, Z.mod_small by lia.
  - rewrite Z.shiftl_spec, (byte_high b i), IH by (done || lia). unfold bit. cbn [xorb].
    replace i with (i - 8 + 1 * 8) at 3 4 by lia. rewrite Z.div_add, Z.mod_add by lia.
    assert (0 <= (i - 8) / 8) by (apply Z.div_pos; lia).
    by rewrite (Z2Nat.inj_add ((i - 8) / 8) 1), Nat.add_comm by lia.
Qed.
Lemma bits_value_nonneg data : Forall is_byte data -> 0 <= bits_value data.
Proof.
  induction 1 as [|b data Hb Hd IH]; cbn [bits_value]; [lia|]. unfold is_byte in Hb.
  apply Z.lxor_nonneg. rewrite Z.shiftl_nonneg. lia.
Qed.

(** A bit that is not set is only shifted out. *)
Lemma crc_bits_shiftl k v : crc_bits k (Z.shiftl v (Z.of_nat k)) = v.
Proof.
  induction k as [|k IH]; [apply Z.shiftl_0_r|]. rewrite <- Nat.add_1_r, crc_bits_add. cbn [crc_bits Nat.iter nat_rect].
  rewrite <- IH at 2. f_equal. unfold crc_bit. rewrite Z.shiftl_spec_low by lia.
  rewrite Z.shiftr_shiftl_l by lia. f_equal. lia.
Qed.
Lemma crc_bits_0 n : crc_bits n 0 = 0.
Proof. pose proof (crc_bits_lxor n 0 0) as H. by rewrite Z.lxor_0_l, Z.lxor_nilpotent in H. Qed.

(** The CRC divides that number. *)
Lemma crc_foldl_value data : forall c,
  foldl crc_ref_step c data = crc_bits (8 * length data) (Z.lxor c (bits_value data)).
Proof.
  induction data as [|b data IH]; intros c; [by rewrite Z.lxor_0_r|]. cbn [foldl bits_value length].
  replace (8 * S (length data))%nat with (8 * length data + 8)%nat by lia.
  rewrite crc_bits_add, IH, <- Z.lxor_assoc, (crc_bits_lxor 8).
  f_equal. f_equal. symmetry. apply (crc_bits_shiftl 8).
Qed.
Lemma crc_value data data' : length data = length data' ->
  crc_bits (8 * length data) (Z.lxor (bits_value data) (bits_value data')) = Z.lxor (crc_ref data) (crc_ref data').
Proof. intros Hl. unfold crc_ref. rewrite !crc_foldl_value, !Z.lxor_0_l, <- Hl. apply crc_bits_lxor. Qed.

(** A number with bits at [k] to [k + 15] only. *)
Lemma burst_value e k : 0 <= e -> 0 <= k -> (forall i, 0 <= i -> Z.testbit e i = true -> k <= i < k + 16) ->
  e = Z.shiftl (Z.shiftr e k) k /\ 0 <= Z.shiftr e k < 65536.
Proof.
  intros He Hk Hb. split; [|split; [by apply Z.shiftr_nonneg|]].
  - apply Z.bits_inj'. intros i Hi. destruct (decide (i < k)) as [Hlt|Hge].
    + rewrite Z.shiftl_spec_low by done. destruct (Z.testbit e i) eqn:E; [|done]. apply Hb in E; lia.
    + rewrite Z.shiftl_spec, Z.shiftr_spec by lia. f_equal. lia.
  - replace (Z.shiftr e k) with (Z.shiftr e k mod 2 ^ 16); [apply Z.mod_pos_bound; lia|].
    apply Z.bits_inj'. intros i Hi. destruct (decide (i < 16)) as [Hlt|Hge]; [by rewrite Z.mod_pow2_bits_low|].
    rewrite Z.mod_pow2_bits_high, Z.shiftr_spec by lia. destruct (Z.testbit e (i + k)) eqn:E; [|done]. apply Hb in E; lia.
Qed.
Lemma bits_value_inj data data' : length data = length data' -> Forall is_byte data -> Forall is_byte data' ->
  bits_value data = bits_value data' -> data = data'.
Proof.
  revert data'. induction data as [|b data IH]; intros [|b' data'] Hl Hd Hd' E; try done.
  inversion_clear Hd as [|? ? Hb Hd1]. inversion_clear Hd' as [|? ? Hb' Hd1']. cbn [bits_value] in E.
  assert (b = b') as <-.
  { apply Z.bits_inj'. intros n Hn. destruct (decide (n < 8)) as [Hlt|Hge]; [|by rewrite !byte_high by (done || lia)].
    apply (f_equal (fun x => Z.testbit x n)) in E. rewrite !Z.lxor_spec, !Z.shiftl_spec_low in E by lia.
    by rewrite !xorb_false_r in E. }
  f_equal. apply IH; [by injection Hl|done..|]. apply (f_equal (fun x => Z.shiftr (Z.lxor b x) 8)) in E.
  rewrite <- !Z.lxor_assoc, !Z.lxor_nilpotent, !Z.lxor_0_l in E. by rewrite !Z.shiftr_shiftl_l, !Z.shiftl_0_r in E by lia.
Qed.

(** C35: the table driven CRC of the code is the bitwise CRC with the reflected
    polynomial [0xA001], on every byte string. *)
Theorem crc16_append_ref (data : bytes) :
  Forall is_byte data -> crc16_append data = crc_ref data.
Proof. intros Hd. by apply crc_foldl_ref. Qed.

Lemma crc16_append_ref_witness :
  Forall is_byte (B "123456789") /\ crc16_append (B "123456789") = crc_ref (B "123456789")
  /\ crc_ref (B "123456789") = 0xBB3D.
Proof.
  split_and!; [decide_it| |reflexivity].
  apply (crc16_append_ref (B "123456789")). decide_it.
Defined.

(** C36: every burst error of at most 16 bits is detected: two messages of the same
    length that differ, and whose bits, in the order in which the CRC takes them
    (each byte from its lowest bit on), are the same outside of 16 consecutive
    places, wherever these start, have different CRCs. *)
Theorem crc16_detects_burst (data data' : bytes) (k : Z) :
  Forall is_byte data -> Forall is_byte data' -> length data = length data' -> data <> data' -> 0 <= k ->
  (forall i, 0 <= i -> bit data i <> bit data' i -> k <= i < k + 16) ->
  crc16_append data <> crc16_append data'.
Proof.
  intros Hd Hd' Hl Hne Hk Hb E. rewrite !crc16_append_ref in E by done.
  pose proof (crc_value data data' Hl) as Hv. rewrite E, Z.lxor_nilpotent in Hv.
  set (e := Z.lxor (bits_value data) (bits_value data')) in *.
  destruct (burst_value e k) as [He Hr]; [|done| |].
  { apply Z.lxor_nonneg. split; intros _; by apply bits_value_nonneg. }
  { intros i Hi Hbit. apply Hb; [done|]. unfold e in Hbit. rewrite Z.lxor_spec, !bits_value_bit in Hbit by done.
    intros Hsame. rewrite Hsame, xorb_nilpotent in Hbit. done. }
  assert (Z.shiftr e k = 0) as H0.
  { destruct (decide (Z.of_nat (8 * length data) <= k)) as [Hge|Hlt].
    - rewrite He in Hv. replace k with (k - Z.of_nat (8 * length data) + Z.of_nat (8 * length data)) in Hv at 2 by lia.
      rewrite <- Z.shiftl_shiftl, crc_bits_shiftl in Hv by lia. apply Z.shiftl_eq_0_iff in Hv; lia.
    - apply (crc_bits_inj (8 * length data - Z.to_nat k)); [done|lia|].
      rewrite crc_bits_0. transitivity (crc_bits (8 * length data) e); [|exact Hv]. rewrite He at 2.
      replace (crc_bits (8 * length data) (Z.shiftl (Z.shiftr e k) k))
        with (crc_bits (8 * length data - Z.to_nat k) (crc_bits (Z.to_nat k) (Z.shiftl (Z.shiftr e k) (Z.of_nat (Z.to_nat k)))));
        [by rewrite crc_bits_shiftl|].
      rewrite Z2Nat.id, <- crc_bits_add by done. f_equal. lia. }
  apply Hne, bits_value_inj; [done..|]. rewrite H0, Z.shiftl_0_l in He. by apply Z.lxor_eq.
Qed.

(** A burst of 16 bits over three bytes. *)
Lemma crc16_detects_burst_witness :
  crc16_append (B "hello") <> crc16_append [104; 101 + 128; 108 + 1; 108 + 2; 111].
Proof.
  apply (crc16_detects_burst (B "hello") [104; 101 + 128; 108 + 1; 108 + 2; 111] 10);
    [decide_it|decide_it|reflexivity|discriminate|lia|].
  intros i Hi Hb. destruct (decide (10 <= i < 26)) as [|Hout]; [done|exfalso; apply Hb].
  destruct (decide (40 <= i)) as [Hge|Hlt].
  - assert (5 <= i / 8) by (apply Z.div_le_lower_bound; lia). unfold bit.
    rewrite !nth_overflow; [done|change (5 <= Z.to_nat (i / 8))%nat; lia..].
  - assert (forallb (fun n => let i := Z.of_nat n in (10 <=? i) && (i <? 26) ||
      eqb (bit (B "hello") i) (bit [104; 101 + 128; 108 + 1; 108 + 2; 111] i)) (seq 0 40) = true) as Hall by reflexivity.
    rewrite forallb_forall in Hall. specialize (Hall (Z.to_nat i) ltac:(apply in_seq; lia)).
    rewrite Z2Nat.id in Hall by lia. apply orb_true_iff in Hall as [[?%Z.leb_le ?%Z.ltb_lt]%andb_true_iff|Hs]; [lia|].
    by apply eqb_prop in Hs.
Defined.
