(* ===== verification/World.v ===== *)
(** * The operating system under the store

    What the store uses of POSIX: directories and names, inodes with their
    bytes, open file descriptors with their offsets, shared mappings, the free
    space of the disk and the clock.  A system call that can fail for reasons
    outside the program first consumes one element of [w_faults]: [true] makes
    the call fail, an exhausted list means no failure.  Descriptors, inodes and
    addresses are drawn from one counter and never reused.  An access to memory
    that is not mapped, or past the end of the mapped file, is a [Fault]. *)
From S2P Require Import Prelude.

Record file := File { f_size : Z; f_data : gmap Z Z }.
Record ofd := Ofd { o_ino : Z; o_pos : Z; o_append : bool; o_nonblock : bool }.
Record mapping := Mapping { m_ino : Z; m_len : Z }.

Record world := World {
  w_dirs : gset bytes;
  w_names : gmap bytes Z;
  w_inodes : gmap Z file;
  w_fds : gmap Z ofd;
  w_maps : gmap Z mapping;
  w_next : Z;
  w_free : Z;
  w_clock : Z;
  w_faults : list bool
}.

Definition set_dirs d w := World d (w_names w) (w_inodes w) (w_fds w) (w_maps w)
  (w_next w) (w_free w) (w_clock w) (w_faults w).
Definition set_names n w := World (w_dirs w) n (w_inodes w) (w_fds w) (w_maps w)
  (w_next w) (w_free w) (w_clock w) (w_faults w).
Definition set_inodes i w := World (w_dirs w) (w_names w) i (w_fds w) (w_maps w)
  (w_next w) (w_free w) (w_clock w) (w_faults w).
Definition set_fds f w := World (w_dirs w) (w_names w) (w_inodes w) f (w_maps w)
  (w_next w) (w_free w) (w_clock w) (w_faults w).
Definition set_maps m w := World (w_dirs w) (w_names w) (w_inodes w) (w_fds w) m
  (w_next w) (w_free w) (w_clock w) (w_faults w).
Definition set_next n w := World (w_dirs w) (w_names w) (w_inodes w) (w_fds w) (w_maps w)
  n (w_free w) (w_clock w) (w_faults w).
Definition set_clock c w := World (w_dirs w) (w_names w) (w_inodes w) (w_fds w) (w_maps w)
  (w_next w) (w_free w) c (w_faults w).
Definition set_faults f w := World (w_dirs w) (w_names w) (w_inodes w) (w_fds w) (w_maps w)
  (w_next w) (w_free w) (w_clock w) f.

(** ** Bytes of a file: absent keys are zero bytes *)
Definition byte_at (d : gmap Z Z) (i : Z) : Z := default 0 (d !! i).

Fixpoint put_bytes (d : gmap Z Z) (off : Z) (bs : bytes) : gmap Z Z :=
  match bs with
  | [] => d
  | b :: bs => put_bytes (<[off := b]> d) (off + 1) bs
  end.

Definition get_bytes (d : gmap Z Z) (off : Z) (n : nat) : bytes :=
  (fun k => byte_at d (off + Z.of_nat k)) <$> seq 0 n.

(** ** Paths *)
Definition slash : Z := 47.

(** The part of a path before its last slash; a path without one is in the
    current directory, the empty path. *)
Fixpoint drop_name (rev_path : bytes) : bytes :=
  match rev_path with
  | [] => []
  | c :: rest => if c =? slash then rest else drop_name rest
  end.
Definition dirname (path : bytes) : bytes := rev (drop_name (rev path)).

Definition dir_exists (w : world) (dir : bytes) : bool :=
  bool_decide (dir = [] \/ dir ∈ w_dirs w).

(** ** System calls *)
Definition pick_fault : M world bool := fun w =>
  match w_faults w with
  | [] => Ok (false, w)
  | b :: rest => Ok (b, set_faults rest w)
  end.

(** [malloc]: whether there is memory. *)
Definition sys_malloc : M world bool := let! bad := pick_fault in ret (negb bad).

(** [open]: the descriptor, or -1. *)
Definition sys_open (path : bytes) (creat append nonblock : bool) : M world Z :=
  let! bad := pick_fault in
  if bad then ret (-1) else fun w =>
  let fd := w_next w in
  if bool_decide (path ∈ w_dirs w) then Ok (-1, w) else
  match w_names w !! path with
  | Some ino =>
      Ok (fd, set_next (fd + 1) (set_fds (<[fd := Ofd ino 0 append nonblock]> (w_fds w)) w))
  | None =>
      if creat && dir_exists w (dirname path) then
        let ino := fd + 1 in
        Ok (fd, set_next (fd + 2)
                 (set_names (<[path := ino]> (w_names w))
                 (set_inodes (<[ino := File 0 ∅]> (w_inodes w))
                 (set_fds (<[fd := Ofd ino 0 append nonblock]> (w_fds w)) w))))
      else Ok (-1, w)
  end.

Definition sys_close (fd : Z) : M world unit :=
  modify (fun w => set_fds (delete fd (w_fds w)) w).

Definition sys_unlink (path : bytes) : M world unit :=
  modify (fun w => set_names (delete path (w_names w)) w).

(** The open file behind a descriptor. *)
Definition fd_file (w : world) (fd : Z) : option (ofd * file) :=
  match w_fds w !! fd with
  | Some o => match w_inodes w !! o_ino o with
              | Some f => Some (o, f)
              | None => None
              end
  | None => None
  end.

(** [ftruncate]: true on success. *)
Definition sys_ftruncate (fd size : Z) : M world bool :=
  let! bad := pick_fault in
  if bad then ret false else fun w =>
  match fd_file w fd with
  | Some (o, f) =>
      Ok (true, set_inodes (<[o_ino o := File size (filter (fun kv => kv.1 < size) (f_data f))]>
                              (w_inodes w)) w)
  | None => Ok (false, w)
  end.

Inductive whence := SEEK_SET | SEEK_END.

(** [lseek]: the new offset, or -1. *)
Definition sys_lseek (fd off : Z) (wh : whence) : M world Z := fun w =>
  match fd_file w fd with
  | Some (o, f) =>
      let pos := match wh with SEEK_SET => off | SEEK_END => f_size f + off end in
      if pos <? 0 then Ok (-1, w)
      else Ok (pos, set_fds (<[fd := Ofd (o_ino o) pos (o_append o) (o_nonblock o)]> (w_fds w)) w)
  | None => Ok (-1, w)
  end.

(** [write] on a regular file: the number of bytes written, or -1. *)
Definition sys_write (fd : Z) (bs : bytes) : M world Z :=
  let! bad := pick_fault in
  if bad then ret (-1) else fun w =>
  match fd_file w fd with
  | Some (o, f) =>
      let n := Z.of_nat (length bs) in
      let pos := if o_append o then f_size f else o_pos o in
      let f' := File (Z.max (f_size f) (pos + n)) (put_bytes (f_data f) pos bs) in
      Ok (n, set_inodes (<[o_ino o := f']> (w_inodes w))
            (set_fds (<[fd := Ofd (o_ino o) (pos + n) (o_append o) (o_nonblock o)]>
                        (w_fds w)) w))
  | None => Ok (-1, w)
  end.

(** [read] on a regular file: the bytes read (none at the end), or an error. *)
Definition sys_read (fd n : Z) : M world (option bytes) :=
  let! bad := pick_fault in
  if bad then ret None else fun w =>
  match fd_file w fd with
  | Some (o, f) =>
      let k := Z.to_nat (Z.min n (f_size f - o_pos o)) in
      Ok (Some (get_bytes (f_data f) (o_pos o) k),
          set_fds (<[fd := Ofd (o_ino o) (o_pos o + Z.of_nat k) (o_append o) (o_nonblock o)]>
                     (w_fds w)) w)
  | None => Ok (None, w)
  end.

(** [fcntl(fd, F_GETFL)] tested for [O_NONBLOCK]; an error for a bad descriptor. *)
Definition sys_getfl (fd : Z) : M world (option bool) :=
  gets (fun w => o_nonblock <$> w_fds w !! fd).

Definition sys_fsync (fd : Z) : M world Z :=
  gets (fun w => match w_fds w !! fd with Some _ => 0 | None => -1 end).

(** [stat(path).st_size] *)
Definition sys_stat_size (path : bytes) : M world (option Z) :=
  gets (fun w => match w_names w !! path with
                 | Some ino => f_size <$> w_inodes w !! ino
                 | None => if bool_decide (path ∈ w_dirs w) then Some 4096 else None
                 end).

Definition sys_is_dir (path : bytes) : M world bool :=
  gets (fun w => bool_decide (path ∈ w_dirs w)).
Definition sys_is_file (path : bytes) : M world bool :=
  gets (fun w => bool_decide (is_Some (w_names w !! path))).

(** [access(path, F_OK | R_OK | W_OK)]: true when the path exists. *)
Definition sys_access (path : bytes) : M world bool :=
  gets (fun w => bool_decide (path ∈ w_dirs w \/ is_Some (w_names w !! path))).

Inductive mkdir_ret := MKDIR_OK | MKDIR_EEXIST | MKDIR_ERR.

Definition sys_mkdir (path : bytes) : M world mkdir_ret :=
  let! bad := pick_fault in
  if bad then ret MKDIR_ERR else fun w =>
  if bool_decide (path ∈ w_dirs w \/ is_Some (w_names w !! path)) then Ok (MKDIR_EEXIST, w)
  else if dir_exists w (dirname path)
       then Ok (MKDIR_OK, set_dirs ({[path]} ∪ w_dirs w) w)
       else Ok (MKDIR_ERR, w).

(** [rmdir]: removes an empty directory. *)
Definition dir_empty (w : world) (dir : bytes) : bool :=
  forallb (fun kv => negb (bool_decide (dirname kv.1 = dir))) (map_to_list (w_names w)) &&
  forallb (fun d => negb (bool_decide (dirname d = dir))) (elements (w_dirs w)).
Definition sys_rmdir (path : bytes) : M world unit :=
  modify (fun w => if dir_empty w path then set_dirs (w_dirs w ∖ {[path]}) w else w).

Inductive d_type := DT_REG | DT_DIR.
#[export] Instance d_type_eq_dec : EqDecision d_type.
Proof. solve_decision. Defined.
Record dirent := Dirent { d_name : bytes; d_ty : d_type }.

Definition basename (path : bytes) : bytes :=
  drop (length (dirname path) + 1) path.

Definition dir_entries (w : world) (dir : bytes) : list dirent :=
  Dirent (B ".") DT_DIR :: Dirent (B "..") DT_DIR ::
  ((fun kv => Dirent (basename kv.1) DT_REG) <$>
     filter (fun kv => dirname kv.1 = dir) (map_to_list (w_names w))) ++
  ((fun d => Dirent (basename d) DT_DIR) <$>
     filter (fun d => dirname d = dir) (elements (w_dirs w))).

(** [opendir] and the [readdir]s that follow. *)
Definition sys_opendir (path : bytes) : M world (option (list dirent)) :=
  gets (fun w => if bool_decide (path ∈ w_dirs w) then Some (dir_entries w path) else None).

(** [mmap(0, len, PROT_WRITE, MAP_SHARED, fd, 0)]: the address, or [None] for
    [MAP_FAILED]. *)
Definition sys_mmap (len fd : Z) : M world (option Z) :=
  let! bad := pick_fault in
  if bad then ret None else fun w =>
  match w_fds w !! fd with
  | Some o =>
      let addr := w_next w in
      Ok (Some addr, set_next (addr + 1)
                      (set_maps (<[addr := Mapping (o_ino o) len]> (w_maps w)) w))
  | None => Ok (None, w)
  end.

Definition sys_munmap (addr : Z) : M world unit :=
  modify (fun w => set_maps (delete addr (w_maps w)) w).

(** [msync] has no effect on the contents; it fails on unmapped memory. *)
Definition sys_msync (addr len : Z) : M world Z :=
  gets (fun w => match w_maps w !! addr with Some _ => 0 | None => -1 end).

(** [statfs(path).f_bavail * f_bsize] *)
Definition sys_statfs_free : M world Z := gets w_free.
(** [gettimeofday(...).tv_sec] *)
Definition sys_time : M world Z := gets w_clock.

(** ** Memory accesses through a mapping *)
Definition map_file (w : world) (addr : Z) : option (mapping * file) :=
  match w_maps w !! addr with
  | Some m => match w_inodes w !! m_ino m with
              | Some f => Some (m, f)
              | None => None
              end
  | None => None
  end.

Definition in_map (m : mapping) (f : file) (off n : Z) : bool :=
  (0 <=? off) && (0 <=? n) && (off + n <=? m_len m) && (off + n <=? f_size f).

Definition mem_load (addr off n : Z) : M world bytes := fun w =>
  match map_file w addr with
  | Some (m, f) =>
      if in_map m f off n then Ok (get_bytes (f_data f) off (Z.to_nat n), w) else Fault
  | None => Fault
  end.

Definition mem_store (addr off : Z) (bs : bytes) : M world unit := fun w =>
  match map_file w addr with
  | Some (m, f) =>
      if in_map m f off (Z.of_nat (length bs))
      then Ok (tt, set_inodes (<[m_ino m := File (f_size f) (put_bytes (f_data f) off bs)]>
                                 (w_inodes w)) w)
      else Fault
  | None => Fault
  end.

(** ** Facts about bytes *)
Lemma byte_at_insert (d : gmap Z Z) i j b :
  byte_at (<[i := b]> d) j = if decide (i = j) then b else byte_at d j.
Proof. unfold byte_at. rewrite lookup_insert. by case_decide. Qed.

Lemma byte_at_put_out (d : gmap Z Z) off (bs : bytes) i :
  (i < off \/ off + Z.of_nat (length bs) <= i) ->
  byte_at (put_bytes d off bs) i = byte_at d i.
Proof.
  revert d off. induction bs as [|b bs IH]; intros d off Hi; simpl; [done|].
  simpl in Hi. rewrite IH by lia. rewrite byte_at_insert.
  destruct (decide (off = i)); [lia|done].
Qed.

Lemma byte_at_put_in (d : gmap Z Z) off (bs : bytes) k b :
  bs !! k = Some b -> byte_at (put_bytes d off bs) (off + Z.of_nat k) = b.
Proof.
  revert d off k. induction bs as [|c bs IH]; intros d off k Hk; [done|].
  destruct k as [|k]; simpl in *.
  - injection Hk as ->. rewrite byte_at_put_out by lia.
    by rewrite byte_at_insert, decide_True by lia.
  - rewrite <- (IH (<[off := c]> d) (off + 1) k Hk). f_equal. lia.
Qed.

Lemma length_get_bytes d off n : length (get_bytes d off n) = n.
Proof. unfold get_bytes. by rewrite length_fmap, length_seq. Qed.

Lemma lookup_get_bytes d off n k :
  (k < n)%nat -> get_bytes d off n !! k = Some (byte_at d (off + Z.of_nat k)).
Proof.
  intros Hk. unfold get_bytes. rewrite list_lookup_fmap, lookup_seq_lt by done. reflexivity.
Qed.

Lemma get_bytes_eq d off n (bs : bytes) :
  length bs = n ->
  (forall k b, bs !! k = Some b -> byte_at d (off + Z.of_nat k) = b) ->
  get_bytes d off n = bs.
Proof.
  intros Hl Hb. apply list_eq. intros k. destruct (decide (k < n)%nat) as [Hk|Hk].
  - rewrite lookup_get_bytes by done.
    destruct (lookup_lt_is_Some_2 bs k ltac:(lia)) as [b Eb]. rewrite Eb.
    f_equal. by apply Hb.
  - rewrite !lookup_ge_None_2; [done|lia|rewrite length_get_bytes; lia].
Qed.

Lemma get_bytes_put d off (bs : bytes) :
  get_bytes (put_bytes d off bs) off (length bs) = bs.
Proof. apply get_bytes_eq; [done|]. intros k b Hk. by apply byte_at_put_in. Qed.

Lemma get_bytes_put_out d off (bs : bytes) off' n :
  (off' + Z.of_nat n <= off \/ off + Z.of_nat (length bs) <= off') ->
  get_bytes (put_bytes d off bs) off' n = get_bytes d off' n.
Proof.
  intros H. apply get_bytes_eq; [apply length_get_bytes|]. intros k b Hk.
  assert (k < n)%nat by (apply lookup_lt_Some in Hk; by rewrite length_get_bytes in Hk).
  rewrite lookup_get_bytes in Hk by done. injection Hk as <-.
  apply byte_at_put_out. lia.
Qed.

Lemma get_bytes_app d off n m :
  get_bytes d off (n + m) = get_bytes d off n ++ get_bytes d (off + Z.of_nat n) m.
Proof.
  apply get_bytes_eq; [by rewrite length_app, !length_get_bytes|].
  intros k b Hk. destruct (decide (k < n)%nat).
  - rewrite lookup_app_l, lookup_get_bytes in Hk by (rewrite ?length_get_bytes; lia).
    congruence.
  - rewrite lookup_app_r in Hk by (rewrite length_get_bytes; lia).
    assert (k - n < m)%nat.
    { apply lookup_lt_Some in Hk. by rewrite !length_get_bytes in Hk. }
    rewrite length_get_bytes, lookup_get_bytes in Hk by lia.
    injection Hk as <-. f_equal. lia.
Qed.

Lemma put_bytes_app d off (a b : bytes) :
  put_bytes d off (a ++ b) = put_bytes (put_bytes d off a) (off + Z.of_nat (length a)) b.
Proof.
  revert d off. induction a as [|x a IH]; intros d off; simpl.
  - f_equal. lia.
  - rewrite IH. f_equal. lia.
Qed.

Definition data_bytes (d : gmap Z Z) : Prop := forall i, is_byte (byte_at d i).

Lemma get_bytes_byte d off n : data_bytes d -> Forall is_byte (get_bytes d off n).
Proof.
  intros Hd. apply Forall_forall. intros b Hb. unfold get_bytes in Hb.
  apply list_elem_of_fmap in Hb as (k & -> & _). apply Hd.
Qed.

Lemma put_bytes_byte d off bs :
  data_bytes d -> Forall is_byte bs -> data_bytes (put_bytes d off bs).
Proof.
  revert d off. induction bs as [|b bs IH]; intros d off Hd Hb; simpl; [done|].
  inversion_clear Hb. apply IH; [|done]. intros i. rewrite byte_at_insert.
  destruct (decide (off = i)); [done|apply Hd].
Qed.

Lemma empty_bytes : data_bytes ∅.
Proof. intros i. unfold byte_at. rewrite lookup_empty. simpl. unfold is_byte. lia. Qed.

(** ** Facts about paths *)
Lemma drop_name_rev (name dir : bytes) :
  slash ∉ name -> drop_name (rev name ++ slash :: dir) = dir.
Proof.
  intros Hn. assert (slash ∉ rev name) as Hr.
  { intros Hin. apply Hn. rewrite list_elem_of_In in *. by apply in_rev. }
  clear Hn. induction (rev name) as [|c r IH]; simpl; [done|].
  apply not_elem_of_cons in Hr as [Hc Hr]. destruct (Z.eqb_spec c slash); [congruence|].
  by apply IH.
Qed.

Lemma dirname_child (dir name : bytes) :
  slash ∉ name -> dirname (dir ++ slash :: name) = dir.
Proof.
  intros Hn. unfold dirname. rewrite rev_app_distr. simpl. rewrite <- app_assoc. simpl.
  rewrite drop_name_rev by done. by rewrite rev_involutive.
Qed.

Lemma basename_child (dir name : bytes) :
  slash ∉ name -> basename (dir ++ slash :: name) = name.
Proof.
  intros Hn. unfold basename. rewrite dirname_child by done.
  rewrite cons_middle, app_assoc.
  apply drop_app_length'. by rewrite length_app.
Qed.

(** ** A mapping that covers the first [len] bytes of a file *)
Definition mapped (w : world) (addr len : Z) (d : gmap Z Z) : Prop :=
  exists m f, map_file w addr = Some (m, f) /\ len <= m_len m /\ len <= f_size f /\
              f_data f = d.

Lemma mem_load_mapped w addr len d off n :
  mapped w addr len d -> 0 <= off -> 0 <= n -> off + n <= len ->
  mem_load addr off n w = Ok (get_bytes d off (Z.to_nat n), w).
Proof.
  intros (m & f & Hm & Hl & Hs & <-) Ho Hn Hr. unfold mem_load. rewrite Hm.
  assert (in_map m f off n = true) as ->; [|done].
  unfold in_map. rewrite !andb_true_iff, !Z.leb_le. lia.
Qed.

(** [holds d off bs]: the bytes [bs] are at offset [off]. *)
Definition holds (d : gmap Z Z) (off : Z) (bs : bytes) : Prop :=
  get_bytes d off (length bs) = bs.

Lemma holds_app d off (a b : bytes) :
  holds d off (a ++ b) <-> holds d off a /\ holds d (off + Z.of_nat (length a)) b.
Proof.
  unfold holds. rewrite length_app, get_bytes_app. split.
  - intros H. apply app_inj_1 in H; [done|]. by rewrite length_get_bytes.
  - by intros [-> ->].
Qed.

Lemma holds_put d off (bs : bytes) : holds (put_bytes d off bs) off bs.
Proof. apply get_bytes_put. Qed.

Lemma holds_put_out d off (bs : bytes) off' (bs' : bytes) :
  (off' + Z.of_nat (length bs') <= off \/ off + Z.of_nat (length bs) <= off') ->
  holds d off' bs' -> holds (put_bytes d off bs) off' bs'.
Proof. unfold holds. intros H1 H2. by rewrite get_bytes_put_out. Qed.
