(* ===== verification/MqTypes.v ===== *)
(** * The data types of the server

    The structures and constants of source/mq_util.h and the configuration
    record of source/mq_config.h.  Integer fields are [Z] and hold the value of
    the C type of their comment; each operation converts where C converts. *)
From S2P Require Import Prelude.
From S2P Require Import CLib.
From S2P Require Import World.

(** ** Constants of mq_util.h *)
Definition DB_FILE_HEAD_LEN : Z := 128.
Definition DB_FILE_HEAD_OF_COUNT_LEN : Z := 12.
Definition DB_FILE_HEAD_OF_VERSION_LEN : Z := 1.
Definition DB_FILE_VERSION : Z := 1.
Definition MAX_DB_FILE_SIZE_LIMIT : Z := 64.
Definition MAX_FULL_FILE_NAME_LEN : nat := 256.
Definition MAX_DATA_PATH_NAME_LEN : nat := 128.
Definition MAX_DATA_FILE_NAME_LEN : nat := 128.
Definition MSG_HEAD_LEN : Z := 12.
Definition MSG_HEAD_OF_FIRST_MAGIC_NUM : Z := 0xFE.
Definition MSG_HEAD_OF_SECOND_MAGIC_NUM : Z := 0xAC.

(** ** Configuration *)
Record ucmq_conf := UcmqConf {
  http_listen_addr : bytes;      (* char[16] *)
  http_listen_port : Z;          (* int *)
  allow_exec_ip : bytes;         (* char[16] *)
  output_log_path : bytes;       (* char[128] *)
  output_log_level : bytes;      (* char[16] *)
  binlog_file_path : bytes;      (* char[128] *)
  keep_alive : bytes;            (* char[16] *)
  conf_file : bytes;             (* char[128] *)
  pid_file : bytes;              (* char[128] *)
  res_store_space : Z;           (* uint64_t *)
  max_qlist_itmes : Z;           (* int *)
  sync_interval : Z;             (* int *)
  sync_time_interval : Z;        (* int *)
  def_max_queue : Z;             (* uint32_t *)
  def_delay : Z;                 (* uint32_t *)
  data_file_path : bytes;        (* char[128] *)
  db_file_max_size : Z           (* int *)
}.

(** [MAX_DB_FILE_SIZE]: the [int] [g_mq_conf.db_file_max_size * 1024 * 1024]. *)
Definition MAX_DB_FILE_SIZE (c : ucmq_conf) : Z := i32 (i32 (db_file_max_size c * 1024) * 1024).

#[global] Arguments MAX_DB_FILE_SIZE : simpl never.

Lemma MAX_DB_FILE_SIZE_eq c :
  0 <= db_file_max_size c <= MAX_DB_FILE_SIZE_LIMIT ->
  MAX_DB_FILE_SIZE c = db_file_max_size c * 1048576.
Proof.
  unfold MAX_DB_FILE_SIZE, MAX_DB_FILE_SIZE_LIMIT. intros H.
  rewrite (i32_small (db_file_max_size c * 1024)) by lia. rewrite i32_small by lia. lia.
Qed.

(** The configurations the store works with: a database file is 1 to 64 MB. *)
Definition conf_wf (c : ucmq_conf) : Prop :=
  1 <= db_file_max_size c <= MAX_DB_FILE_SIZE_LIMIT.

Lemma MAX_DB_FILE_SIZE_range c :
  conf_wf c -> 1048576 <= MAX_DB_FILE_SIZE c <= 67108864.
Proof.
  intros H. unfold conf_wf, MAX_DB_FILE_SIZE_LIMIT in H.
  rewrite MAX_DB_FILE_SIZE_eq by (unfold MAX_DB_FILE_SIZE_LIMIT; lia). lia.
Qed.

(** ** Queues *)
Record mq_db_map := MqDbMap {
  fd : Z;                        (* int *)
  stat : Z;                      (* int, not used *)
  flag : Z;                      (* int, is mapped *)
  map_mem : Z;                   (* char *, 0 is NULL *)
  pos : Z;                       (* uint32_t *)
  opt_count : Z;                 (* uint32_t *)
  cur_index : Z                  (* uint64_t *)
}.

Record mq_queue := MqQueue {
  qname : bytes;                 (* char[32 + 1] *)
  rtag_fd : Z;                   (* int *)
  wlock : Z;                     (* int *)
  sync_intv : Z;                 (* int *)
  delay : Z;                     (* uint32_t *)
  maxque : Z;                    (* uint32_t *)
  put_num : Z;                   (* uint64_t *)
  get_num : Z;                   (* uint64_t *)
  unread_count : Z;              (* uint64_t *)
  cur_rdb : mq_db_map;
  cur_wdb : mq_db_map
}.

(** The structures after [memset(.., 0, ..)]. *)
Definition mq_db_map_zero : mq_db_map := MqDbMap 0 0 0 0 0 0 0.
Definition mq_queue_zero : mq_queue :=
  MqQueue [] 0 0 0 0 0 0 0 0 mq_db_map_zero mq_db_map_zero.

(** Field updates of a database file handle. *)
Definition with_fd v d := MqDbMap v (stat d) (flag d) (map_mem d) (pos d) (opt_count d) (cur_index d).
Definition with_flag v d := MqDbMap (fd d) (stat d) v (map_mem d) (pos d) (opt_count d) (cur_index d).
Definition with_map_mem v d := MqDbMap (fd d) (stat d) (flag d) v (pos d) (opt_count d) (cur_index d).
Definition with_pos v d := MqDbMap (fd d) (stat d) (flag d) (map_mem d) v (opt_count d) (cur_index d).
Definition with_opt_count v d := MqDbMap (fd d) (stat d) (flag d) (map_mem d) (pos d) v (cur_index d).
Definition with_cur_index v d := MqDbMap (fd d) (stat d) (flag d) (map_mem d) (pos d) (opt_count d) v.

(** Field updates of a queue. *)
Definition with_qname v q := MqQueue v (rtag_fd q) (wlock q) (sync_intv q) (delay q) (maxque q)
  (put_num q) (get_num q) (unread_count q) (cur_rdb q) (cur_wdb q).
Definition with_rtag_fd v q := MqQueue (qname q) v (wlock q) (sync_intv q) (delay q) (maxque q)
  (put_num q) (get_num q) (unread_count q) (cur_rdb q) (cur_wdb q).
Definition with_wlock v q := MqQueue (qname q) (rtag_fd q) v (sync_intv q) (delay q) (maxque q)
  (put_num q) (get_num q) (unread_count q) (cur_rdb q) (cur_wdb q).
Definition with_sync_intv v q := MqQueue (qname q) (rtag_fd q) (wlock q) v (delay q) (maxque q)
  (put_num q) (get_num q) (unread_count q) (cur_rdb q) (cur_wdb q).
Definition with_delay v q := MqQueue (qname q) (rtag_fd q) (wlock q) (sync_intv q) v (maxque q)
  (put_num q) (get_num q) (unread_count q) (cur_rdb q) (cur_wdb q).
Definition with_maxque v q := MqQueue (qname q) (rtag_fd q) (wlock q) (sync_intv q) (delay q) v
  (put_num q) (get_num q) (unread_count q) (cur_rdb q) (cur_wdb q).
Definition with_put_num v q := MqQueue (qname q) (rtag_fd q) (wlock q) (sync_intv q) (delay q)
  (maxque q) v (get_num q) (unread_count q) (cur_rdb q) (cur_wdb q).
Definition with_get_num v q := MqQueue (qname q) (rtag_fd q) (wlock q) (sync_intv q) (delay q)
  (maxque q) (put_num q) v (unread_count q) (cur_rdb q) (cur_wdb q).
Definition with_unread v q := MqQueue (qname q) (rtag_fd q) (wlock q) (sync_intv q) (delay q)
  (maxque q) (put_num q) (get_num q) v (cur_rdb q) (cur_wdb q).
Definition with_rdb (f : mq_db_map -> mq_db_map) q :=
  MqQueue (qname q) (rtag_fd q) (wlock q) (sync_intv q) (delay q)
  (maxque q) (put_num q) (get_num q) (unread_count q) (f (cur_rdb q)) (cur_wdb q).
Definition with_wdb (f : mq_db_map -> mq_db_map) q :=
  MqQueue (qname q) (rtag_fd q) (wlock q) (sync_intv q) (delay q)
  (maxque q) (put_num q) (get_num q) (unread_count q) (cur_rdb q) (f (cur_wdb q)).

Record queue_file := QueueFile {
  rtag_fname : bytes;            (* char[64 + 1] *)
  read_fname : bytes;            (* char[64 + 1] *)
  write_fname : bytes;           (* char[64 + 1] *)
  rtag_fid : Z;                  (* uint64_t *)
  read_fid : Z;                  (* uint64_t *)
  write_fid : Z                  (* uint64_t *)
}.
Definition queue_file_zero : queue_file := QueueFile [] [] [] 0 0 0.

(** A [char *]: null, a buffer of the caller, or an offset into a mapping. *)
Inductive cptr := PNull | PBuf (b : bytes) | PMap (addr off : Z).

Record msg_item := MsgItem {
  magic_num1 : Z;                (* char *)
  magic_num2 : Z;                (* char *)
  mdelay : Z;                    (* uint32_t delay *)
  crc16 : Z;                     (* uint16_t *)
  mlen : Z;                      (* uint32_t len *)
  msg : cptr                     (* char * *)
}.

Definition with_crc16 v i := MsgItem (magic_num1 i) (magic_num2 i) (mdelay i) v (mlen i) (msg i).
Definition with_mdelay v i := MsgItem (magic_num1 i) (magic_num2 i) v (crc16 i) (mlen i) (msg i).
Definition with_msg v i := MsgItem (magic_num1 i) (magic_num2 i) (mdelay i) (crc16 i) (mlen i) v.

(** [n] bytes read through a pointer. *)
Definition load_ptr (p : cptr) (n : Z) : M world bytes :=
  match p with
  | PNull => fault
  | PBuf b => if (0 <=? n) && (n <=? Z.of_nat (length b)) then ret (take (Z.to_nat n) b) else fault
  | PMap addr off => mem_load addr off n
  end.

(** ** The state of an operation on one queue *)
Record qstate := QState { qs_w : world; qs_q : mq_queue }.

(** A system call or memory access made by a queue operation. *)
Definition sys {A} (m : M world A) : M qstate A := fun s =>
  match m (qs_w s) with
  | Ok (a, w) => Ok (a, QState w (qs_q s))
  | Fault => Fault
  | OutOfFuel => OutOfFuel
  end.
Definition queue : M qstate mq_queue := gets qs_q.
Definition update (f : mq_queue -> mq_queue) : M qstate unit :=
  modify (fun s => QState (qs_w s) (f (qs_q s))).
Definition update_rdb (f : mq_db_map -> mq_db_map) : M qstate unit := update (with_rdb f).
Definition update_wdb (f : mq_db_map -> mq_db_map) : M qstate unit := update (with_wdb f).

Lemma sys_ok {A} (m : M world A) w q a w' :
  m w = Ok (a, w') -> sys m (QState w q) = Ok (a, QState w' q).
Proof. intros H. unfold sys. simpl. by rewrite H. Qed.

(** ** A small instance for the witnesses

    One-megabyte database files under [data], and a world in which descriptor 1
    is open on inode 2, which is also mapped at address 3. *)
Definition sample_conf : ucmq_conf :=
  UcmqConf (B "0.0.0.0") 1818 (B "127.0.0.1") (B "log") (B "debug") (B "binlog") (B "keep-alive")
    (B "ucmq.ini") (B "pid") 0 1024 100 100 10000 0 (B "data") 1.
Definition sample_world (size : Z) (d : gmap Z Z) : world :=
  World {[B "data"]} {[B "file" := 2]} {[2 := File size d]} {[1 := Ofd 2 0 true true]}
    {[3 := Mapping 2 size]} 4 (2 ^ 40) 1000 [].
Lemma sample_conf_wf : conf_wf sample_conf.
Proof. unfold conf_wf, MAX_DB_FILE_SIZE_LIMIT. cbn. lia. Qed.
Lemma sample_mapped d : mapped (sample_world 1048576 d) 3 (MAX_DB_FILE_SIZE sample_conf) d.
Proof. exists (Mapping 2 1048576), (File 1048576 d). split_and!; done. Qed.
