(* ===== verification/MqUtil.v ===== *)
(** * source/mq_util.c and source/mq_errno.c

    Integer and string helpers, file sizes, and the recursive removal of a
    directory. *)
From S2P Require Import Prelude.
From S2P Require Import CLib.
From S2P Require Import World.

(** ** mq_errno.c: error numbers are kept non positive *)
Definition mq_errno (errno : Z) : Z := if errno <=? 0 then errno else - errno.
(** The previous and the new value of [errno]. *)
Definition set_errno (errno error_number : Z) : Z * Z :=
  (errno, if error_number <=? 0 then error_number else - error_number).

(** ** Integers *)
Definition min (a b : Z) : Z := if b <=? a then b else a.
Definition max (a b : Z) : Z := if a <? b then b else a.

(** ** Files *)
Definition get_storage_free : M world Z :=
  let! free_byte := sys_statfs_free in
  ret (i32 (u64 free_byte / (1024 * 1024 * 1024))).

(** The byte written at the end of the file is the first character of the
    literal ["0x00"], a digit zero. *)
Definition extend_file_size (fd length : Z) : M world bool :=
  let file_size := i32 length in
  if file_size <? 0 then ret false
  else
    let! _ := sys_ftruncate fd file_size in
    let! off := sys_lseek fd (-1) SEEK_END in
    let offset := i32 off in
    if offset <? 0 then ret false
    else sys_write fd [48] ;;; ret true.

Definition get_file_size (path : bytes) : M world Z :=
  let! sz := sys_stat_size path in
  ret (match sz with None => -1 | Some n => i32 n end).

Definition get_cur_timestamp : M world Z :=
  let! t := sys_time in ret (i32 t).

(** ** Strings *)
Definition is_num_str (s : bytes) : bool := forallb isdigit s.

(** [str_to_ll]: -1 for a null pointer, a value out of range, or a string that
    is not entirely a number. *)
Definition str_to_ll (str : option bytes) : Z :=
  match str with
  | None => -1
  | Some s =>
      let '(t_val, rest, erange) := strtoll s in
      if erange && ((t_val =? LLONG_MAX) || (t_val =? LLONG_MIN)) || (erange && (t_val =? 0))
      then -1
      else if bool_decide (rest = s) then -1
      else if bool_decide (rest <> []) then -1
      else t_val
  end.

Definition is_special_dir (path : bytes) : bool := streq path (B ".") || streq path (B "..").

Definition get_file_path (path file_name : bytes) : bytes :=
  (if bool_decide (last path = Some slash) then path else path ++ [slash]) ++ file_name.

(** ** Removing a tree

    [delete_each] is the loop over the entries of a directory; [fuel] bounds the
    depth of the recursion. *)
Fixpoint delete_each (del : bytes -> M world unit) (path : bytes) (l : list dirent) : M world unit :=
  match l with
  | [] => ret tt
  | e :: l =>
      (if is_special_dir (d_name e) then ret tt
       else
         let file_path := get_file_path path (d_name e) in
         del file_path ;;; sys_rmdir file_path) ;;;
      delete_each del path l
  end.

Fixpoint delete_file_rec (fuel : nat) (path : bytes) : M world unit :=
  match fuel with
  | O => fun _ => OutOfFuel
  | S fuel =>
      let! file := sys_is_file path in
      if file then sys_unlink path
      else
        let! dir := sys_is_dir path in
        if dir then
          let! ents := sys_opendir path in
          match ents with
          | None => ret tt
          | Some l => delete_each (delete_file_rec fuel) path l ;;; sys_rmdir path
          end
        else sys_rmdir path
  end.

(** A directory is nested at most as deep as there are directories. *)
Definition delete_file (path : bytes) : M world unit := fun w =>
  delete_file_rec (S (S (size (w_dirs w)))) path w.

(** ** Facts *)
Lemma is_num_str_spec (s : bytes) :
  is_num_str s = true <-> Forall (fun c => isdigit c = true) s.
Proof. unfold is_num_str. rewrite forallb_forall, List.Forall_forall. done. Qed.

Lemma i32_div_free (b : Z) :
  0 <= b < 18446744073709551616 -> i32 (u64 b / 1073741824) <> 0 -> 1073741824 <= b.
Proof.
  intros Hb H. rewrite u64_small in H by lia.
  destruct (decide (1073741824 <= b)); [done|]. exfalso. apply H.
  rewrite Z.div_small by lia. done.
Qed.

(** [str_to_ll] reads back every number that fits. *)
Lemma str_to_ll_pad n v : 0 <= v <= LLONG_MAX -> str_to_ll (Some (pad n v)) = v.
Proof.
  intros Hv. unfold str_to_ll. rewrite strtoll_pad by done. simpl.
  destruct (pad_cons n v) as (c & rest & -> & _).
  by rewrite bool_decide_false by done.
Qed.
