(* ===== verification/FileIo.v ===== *)
(** * source/file.c and the time functions of source/util.c

    [read_n] and [write_n]: reading and writing a whole buffer with a time out,
    on blocking and non blocking descriptors, over partial transfers and
    interrupted calls.  They are written against the interface [Posix]; the
    laws of a byte sink, [PosixSink], give the main theorem of [write_n], and
    regular files ([World]) are an instance. *)
From S2P Require Import Prelude.
From S2P Require Import CLib.
From S2P Require Import World.

(** ** The interface *)
Inductive errno := EINTR | EAGAIN | EOTHER.
#[export] Instance errno_eq_dec : EqDecision errno.
Proof. solve_decision. Defined.

Inductive rd_res := RD (bs : bytes) | RD_ERR (e : errno).
Inductive wr_res := WR (n : Z) | WR_ERR (e : errno).
Inductive events := POLLIN | POLLOUT.
#[export] Instance events_eq_dec : EqDecision events.
Proof. solve_decision. Defined.
(** The events [poll] reports: the requested one alone, none (a time out),
    anything else, or an error. *)
Inductive poll_res := PR_READY | PR_NONE | PR_OTHER | PR_ERR (e : errno).

Record timespec := Timespec { tv_sec : Z; tv_nsec : Z }.

Class Posix (S : Type) := {
  px_getfl : Z -> M S (option bool);
  px_read : Z -> Z -> M S rd_res;
  px_write : Z -> bytes -> M S wr_res;
  px_poll : Z -> events -> Z -> M S poll_res;
  px_clock : M S timespec
}.

Inductive fd_block := FD_INVALID | FD_UNKNOWN | FD_BLOCK | FD_NONBLOCK.

(** Every loop of this file runs as long as the kernel answers [EINTR] or makes
    progress; [fuel] bounds the number of rounds. *)
Section FileIo.
Context {S : Type} `{Posix S}.

(** util.c: [get_abs_time], [get_rel_time].  The sum of milliseconds is a [double];
    it has no [int32_t] when it is out of range. *)
Definition NS_2_MS (x : double) : double := dmul x (ddiv (double_of 1) (double_of 1000000)).
Definition get_time_tick : M S timespec := px_clock.
Definition get_abs_time (time_affter : Z) : M S timespec :=
  let! ts := get_time_tick in
  ret (Timespec (tv_sec ts + Z.quot time_affter 1000)
                (tv_nsec ts + Z.rem time_affter 1000 * 1000000)).
Definition get_rel_time (abs_time : timespec) : M S Z :=
  let! now := get_time_tick in
  let ms := dadd (double_of ((tv_sec abs_time - tv_sec now) * 1000))
              (NS_2_MS (double_of (tv_nsec abs_time - tv_nsec now))) in
  match int_of_double ms with
  | Some v => if (- INT_MAX - 1 <=? v) && (v <=? INT_MAX) then ret v else fault
  | None => fault
  end.

(** [wait_fd]: [poll] again after an interruption. *)
Fixpoint wait_fd (fuel : nat) (fd : Z) (ev : events) (timeout : Z) : M S poll_res :=
  match fuel with
  | O => fun _ => OutOfFuel
  | Datatypes.S fuel =>
      let! r := px_poll fd ev timeout in
      match r with
      | PR_ERR EINTR => wait_fd fuel fd ev timeout
      | r => ret r
      end
  end.

(** [is_nonblock]: -1 when the descriptor is invalid. *)
Definition is_nonblock (fd : Z) (block_type : fd_block) : M S Z :=
  match block_type with
  | FD_BLOCK => ret 0
  | FD_NONBLOCK => ret 1
  | FD_INVALID => ret (-1)
  | FD_UNKNOWN =>
      let! flags := px_getfl fd in
      ret (match flags with None => -1 | Some true => 1 | Some false => 0 end)
  end.

(** The condition of the four [do .. while] loops. *)
Definition again (total size timeout : Z) : bool := (total <? size) && negb (timeout =? 0).

Definition remaining (buf : bytes) (size total : Z) : bytes :=
  take (Z.to_nat (size - total)) (drop (Z.to_nat total) buf).

(** [nonblock_write_n]: [total] is [total_write_size]. *)
Fixpoint nonblock_write_loop (fuel : nat) (fd : Z) (buf : bytes) (size timeout : Z)
    (abs_to : timespec) (total : Z) : M S Z :=
  match fuel with
  | O => fun _ => OutOfFuel
  | Datatypes.S fuel =>
      let next total :=
        if again total size timeout
        then nonblock_write_loop fuel fd buf size timeout abs_to total
        else ret total in
      let! r := px_write fd (remaining buf size total) in
      match r with
      | WR n => if 0 <? n then next (total + n) else ret total
      | WR_ERR EINTR => next total
      | WR_ERR EAGAIN =>
          let! next_to := get_rel_time abs_to in
          if (timeout =? 0) || ((0 <? timeout) && (next_to <=? 0)) then ret (-1)
          else let! revents := wait_fd fuel fd POLLOUT
                                 (if timeout <? 0 then timeout else next_to) in
               match revents with
               | PR_READY => next total
               | _ => ret (-1)
               end
      | WR_ERR EOTHER => ret (-1)
      end
  end.
Definition nonblock_write_n (fuel : nat) (fd : Z) (buf : bytes) (size timeout : Z) : M S Z :=
  let! abs_to := get_abs_time timeout in
  nonblock_write_loop fuel fd buf size timeout abs_to 0.

(** [block_write_n]: the inner loop repeats an interrupted [write]. *)
Fixpoint write_retry (fuel : nat) (fd : Z) (bs : bytes) : M S (option Z) :=
  match fuel with
  | O => fun _ => OutOfFuel
  | Datatypes.S fuel =>
      let! r := px_write fd bs in
      match r with
      | WR n => ret (Some n)
      | WR_ERR EINTR => write_retry fuel fd bs
      | WR_ERR _ => ret None
      end
  end.
Fixpoint block_write_loop (fuel : nat) (fd : Z) (buf : bytes) (size timeout : Z)
    (abs_to : timespec) (total : Z) : M S Z :=
  match fuel with
  | O => fun _ => OutOfFuel
  | Datatypes.S fuel =>
      let next total :=
        if again total size timeout
        then block_write_loop fuel fd buf size timeout abs_to total
        else ret total in
      let! next_to := get_rel_time abs_to in
      if (0 <? timeout) && (next_to <=? 0) then ret (-1)
      else
        let! revents := wait_fd fuel fd POLLOUT (if timeout <=? 0 then timeout else next_to) in
        match revents with
        | PR_READY =>
            let! w := write_retry fuel fd (remaining buf size total) in
            match w with
            | Some n => if 0 <? n then next (total + n) else ret total
            | None => ret (-1)
            end
        | _ => ret (-1)
        end
  end.
Definition block_write_n (fuel : nat) (fd : Z) (buf : bytes) (size timeout : Z) : M S Z :=
  let! abs_to := get_abs_time timeout in
  block_write_loop fuel fd buf size timeout abs_to 0.

Definition write_n (fuel : nat) (fd : Z) (block_type : fd_block) (buf : bytes)
    (size timeout : Z) : M S Z :=
  let! nb := is_nonblock fd block_type in
  if nb <? 0 then ret (-1)
  else if nb =? 0 then block_write_n fuel fd buf size timeout
  else nonblock_write_n fuel fd buf size timeout.

(** The reading loops return the result and the bytes stored in the buffer. *)
Fixpoint nonblock_read_loop (fuel : nat) (fd : Z) (size timeout : Z)
    (abs_to : timespec) (got : bytes) : M S (Z * bytes) :=
  match fuel with
  | O => fun _ => OutOfFuel
  | Datatypes.S fuel =>
      let total (g : bytes) := Z.of_nat (length g) in
      let next (g : bytes) :=
        if again (total g) size timeout
        then nonblock_read_loop fuel fd size timeout abs_to g
        else ret (total g, g) in
      let! r := px_read fd (size - total got) in
      match r with
      | RD [] => ret (total got, got)
      | RD bs => next (got ++ bs)
      | RD_ERR EINTR => next got
      | RD_ERR EAGAIN =>
          let! next_to := get_rel_time abs_to in
          if (timeout =? 0) || ((0 <? timeout) && (next_to <=? 0)) then ret (-1, got)
          else let! revents := wait_fd fuel fd POLLIN
                                 (if timeout <? 0 then timeout else next_to) in
               match revents with
               | PR_READY => next got
               | _ => ret (-1, got)
               end
      | RD_ERR EOTHER => ret (-1, got)
      end
  end.
Definition nonblock_read_n (fuel : nat) (fd size timeout : Z) : M S (Z * bytes) :=
  let! abs_to := get_abs_time timeout in
  nonblock_read_loop fuel fd size timeout abs_to [].

Fixpoint read_retry (fuel : nat) (fd n : Z) : M S (option bytes) :=
  match fuel with
  | O => fun _ => OutOfFuel
  | Datatypes.S fuel =>
      let! r := px_read fd n in
      match r with
      | RD bs => ret (Some bs)
      | RD_ERR EINTR => read_retry fuel fd n
      | RD_ERR _ => ret None
      end
  end.
Fixpoint block_read_loop (fuel : nat) (fd : Z) (size timeout : Z)
    (abs_to : timespec) (got : bytes) : M S (Z * bytes) :=
  match fuel with
  | O => fun _ => OutOfFuel
  | Datatypes.S fuel =>
      let total (g : bytes) := Z.of_nat (length g) in
      let next (g : bytes) :=
        if again (total g) size timeout
        then block_read_loop fuel fd size timeout abs_to g
        else ret (total g, g) in
      let! next_to := get_rel_time abs_to in
      if (0 <? timeout) && (next_to <=? 0) then ret (-1, got)
      else
        let! revents := wait_fd fuel fd POLLIN (if timeout <=? 0 then timeout else next_to) in
        match revents with
        | PR_READY =>
            let! r := read_retry fuel fd (size - total got) in
            match r with
            | Some [] => ret (total got, got)
            | Some bs => next (got ++ bs)
            | None => ret (-1, got)
            end
        | _ => ret (-1, got)
        end
  end.
Definition block_read_n (fuel : nat) (fd size timeout : Z) : M S (Z * bytes) :=
  let! abs_to := get_abs_time timeout in
  block_read_loop fuel fd size timeout abs_to [].

Definition read_n (fuel : nat) (fd : Z) (block_type : fd_block) (size timeout : Z)
    : M S (Z * bytes) :=
  let! nb := is_nonblock fd block_type in
  if nb <? 0 then ret (-1, [])
  else if nb =? 0 then block_read_n fuel fd size timeout
  else nonblock_read_n fuel fd size timeout.
End FileIo.

(** ** Byte sinks: what [write_n] relies on *)
Class PosixSink (S : Type) `{Posix S} (sink : S -> bytes) : Prop := {
  sink_write fd bs s r s' : px_write fd bs s = Ok (r, s') ->
    match r with
    | WR n => 0 <= n <= Z.of_nat (length bs) /\ sink s' = sink s ++ take (Z.to_nat n) bs
    | WR_ERR _ => sink s' = sink s
    end;
  sink_poll fd ev t s r s' : px_poll fd ev t s = Ok (r, s') -> sink s' = sink s;
  sink_clock s r s' : px_clock s = Ok (r, s') -> sink s' = sink s;
  sink_getfl fd s r s' : px_getfl fd s = Ok (r, s') -> sink s' = sink s
}.

Section Sink.
Context {S : Type} {PS : Posix S} {sink : S -> bytes} {LS : PosixSink S sink}.

Ltac step H :=
  let a := fresh "r" in let s := fresh "s" in let E := fresh "E" in
  apply bind_inv in H as (a & s & E & H).

Lemma rel_time_sink abs s r s' : get_rel_time abs s = Ok (r, s') -> sink s' = sink s.
Proof.
  intros E. step E. apply sink_clock in E0. unfold ret, fault in E. by repeat case_match; simplify_eq.
Qed.
Lemma abs_time_sink t s r s' : get_abs_time t s = Ok (r, s') -> sink s' = sink s.
Proof.
  intros E. step E. apply sink_clock in E0. unfold ret in E. by simplify_eq.
Qed.
Lemma wait_fd_sink fuel fd ev t s r s' :
  wait_fd fuel fd ev t s = Ok (r, s') -> sink s' = sink s.
Proof.
  revert s. induction fuel as [|fuel IH]; intros s E; [done|].
  simpl in E. step E. apply sink_poll in E0. rewrite <- E0.
  destruct r0 as [| | |[]]; unfold ret in E; simplify_eq; eauto.
Qed.
Lemma write_retry_sink fuel fd bs s r s' :
  write_retry fuel fd bs s = Ok (r, s') ->
  match r with
  | Some n => 0 <= n <= Z.of_nat (length bs) /\ sink s' = sink s ++ take (Z.to_nat n) bs
  | None => sink s' = sink s
  end.
Proof.
  revert s. induction fuel as [|fuel IH]; intros s E; [done|].
  simpl in E. step E. apply sink_write in E0.
  destruct r0 as [n|[]]; unfold ret in E; simplify_eq; [done| |done|done].
  rewrite <- E0. by apply IH.
Qed.

(** After a partial transfer of [n] bytes the next call continues behind it. *)
Lemma take_remaining (buf : bytes) size total n :
  0 <= total -> 0 <= n <= Z.of_nat (length (remaining buf size total)) ->
  take (Z.to_nat total) buf ++ take (Z.to_nat n) (remaining buf size total)
    = take (Z.to_nat (total + n)) buf.
Proof.
  intros Ht Hn. unfold remaining in *. rewrite length_take, length_drop in Hn.
  rewrite take_take, Nat.min_l by lia.
  rewrite Z2Nat.inj_add by lia. apply take_take_drop.
Qed.

Lemma remaining_length (buf : bytes) size total :
  0 <= total <= size -> Z.of_nat (length (remaining buf size total)) <= size - total.
Proof. intros. unfold remaining. rewrite length_take. lia. Qed.

(** What a run that started with [total] bytes sent has sent at its end. *)
Definition sent (buf : bytes) (size : Z) (s0 s' : S) (r : Z) : Prop :=
  (0 <= r <= size /\ sink s' = sink s0 ++ take (Z.to_nat r) buf) \/
  (r = -1 /\ exists n, 0 <= n <= size /\ sink s' = sink s0 ++ take (Z.to_nat n) buf).

Lemma sent_done buf size s0 s' total :
  0 <= total <= size -> sink s' = sink s0 ++ take (Z.to_nat total) buf ->
  sent buf size s0 s' total.
Proof. left. done. Qed.
Lemma sent_fail buf size s0 s' total :
  0 <= total <= size -> sink s' = sink s0 ++ take (Z.to_nat total) buf ->
  sent buf size s0 s' (-1).
Proof. right. eauto. Qed.

Lemma nonblock_write_sent fuel fd buf size timeout abs total s0 s r s' :
  0 <= total <= size -> sink s = sink s0 ++ take (Z.to_nat total) buf ->
  nonblock_write_loop fuel fd buf size timeout abs total s = Ok (r, s') ->
  sent buf size s0 s' r.
Proof.
  revert total s. induction fuel as [|fuel IH]; intros total s Ht Hs E; [done|].
  cbn [nonblock_write_loop] in E.
  assert (forall tot s1, 0 <= tot <= size -> sink s1 = sink s0 ++ take (Z.to_nat tot) buf ->
    (if again tot size timeout
     then nonblock_write_loop fuel fd buf size timeout abs tot else ret tot) s1 = Ok (r, s') ->
    sent buf size s0 s' r) as Hnext.
  { intros tot s1 Htot Hs1 E1. destruct (again tot size timeout); [by eauto|].
    unfold ret in E1. simplify_eq. by apply sent_done. }
  step E. apply sink_write in E0. destruct r0 as [n|[]].
  - destruct E0 as [Hn E0]. pose proof (remaining_length buf size total Ht).
    assert (sink s1 = sink s0 ++ take (Z.to_nat (total + n)) buf) as Hs1.
    { rewrite E0, Hs, <- app_assoc, take_remaining by lia. done. }
    destruct (Z.ltb_spec 0 n).
    + eapply Hnext; [|exact Hs1|exact E]. lia.
    + unfold ret in E. simplify_eq. apply sent_done; [done|].
      by replace (r + n) with r in Hs1 by lia.
  - eapply Hnext; [done| |exact E]. congruence.
  - step E. apply rel_time_sink in E1.
    assert (sink s2 = sink s0 ++ take (Z.to_nat total) buf) as Hs2 by congruence.
    destruct (_ || _).
    + unfold ret in E. simplify_eq. by eauto using sent_fail.
    + step E. apply wait_fd_sink in E2. rewrite <- E2 in Hs2.
      destruct r1; first [by eauto|unfold ret in E; simplify_eq; by eauto using sent_fail].
  - unfold ret in E. simplify_eq. eapply sent_fail; [exact Ht|congruence].
Qed.

Lemma block_write_sent fuel fd buf size timeout abs total s0 s r s' :
  0 <= total <= size -> sink s = sink s0 ++ take (Z.to_nat total) buf ->
  block_write_loop fuel fd buf size timeout abs total s = Ok (r, s') ->
  sent buf size s0 s' r.
Proof.
  revert total s. induction fuel as [|fuel IH]; intros total s Ht Hs E; [done|].
  cbn [block_write_loop] in E. step E. apply rel_time_sink in E0.
  assert (sink s1 = sink s0 ++ take (Z.to_nat total) buf) as Hs1 by congruence.
  destruct (_ && _); [unfold ret in E; simplify_eq; by eauto using sent_fail|].
  step E. apply wait_fd_sink in E1. rewrite <- E1 in Hs1.
  destruct r1; try (unfold ret in E; simplify_eq; by eauto using sent_fail).
  step E. apply write_retry_sink in E2. destruct r1 as [n|].
  - destruct E2 as [Hn E2]. pose proof (remaining_length buf size total Ht).
    assert (sink s3 = sink s0 ++ take (Z.to_nat (total + n)) buf) as Hs3.
    { rewrite E2, Hs1, <- app_assoc, take_remaining by lia. done. }
    destruct (Z.ltb_spec 0 n).
    + destruct (again (total + n) size timeout); [eapply IH; [|exact Hs3|exact E]; lia|].
      unfold ret in E. simplify_eq. apply sent_done; [lia|done].
    + unfold ret in E. simplify_eq. apply sent_done; [done|].
      by replace (r + n) with r in Hs3 by lia.
  - unfold ret in E. simplify_eq. eapply sent_fail; [exact Ht|congruence].
Qed.

(** C37: whatever the kernel answers, [write_n] puts a prefix of the buffer on
    the descriptor, in order and without repetition; a result [r >= 0] is the
    length of that prefix. *)
Theorem write_n_prefix fuel fd bt buf size timeout s r s' :
  0 <= size -> write_n fuel fd bt buf size timeout s = Ok (r, s') ->
  sent buf size s s' r.
Proof.
  intros Hsize E. step E.
  assert (sink s0 = sink s) as Hs0.
  { destruct bt; unfold is_nonblock, ret in E0; simplify_eq; try done.
    step E0. apply sink_getfl in E1. unfold ret in E0. by simplify_eq. }
  assert (forall s1, sink s1 = sink s -> sink s1 = sink s ++ take (Z.to_nat 0) buf) as Hz.
  { intros s1 ->. by rewrite app_nil_r. }
  destruct (_ <? 0).
  - unfold ret in E. simplify_eq. eapply sent_fail; [|by apply Hz]. lia.
  - destruct (_ =? 0); step E; apply abs_time_sink in E1.
    + eapply block_write_sent; [|apply Hz|exact E]; [lia|congruence].
    + eapply nonblock_write_sent; [|apply Hz|exact E]; [lia|congruence].
Qed.
End Sink.

(** ** Regular files *)
#[export] Instance world_posix : Posix world := {
  px_getfl := sys_getfl;
  px_read fd n :=
    let! r := sys_read fd n in
    ret (match r with Some bs => RD bs | None => RD_ERR EOTHER end);
  px_write fd bs :=
    let! n := sys_write fd bs in
    ret (if n <? 0 then WR_ERR EOTHER else WR n);
  px_poll fd ev t := ret PR_READY;
  px_clock := gets (fun w => Timespec (w_clock w) 0)
}.

(** A kernel that accepts the bytes in the given amounts, with the given errors
    in between: the instance of the witness. *)
Record script := Script { sc_writes : list wr_res; sc_out : bytes }.
#[export] Instance script_posix : Posix script := {
  px_getfl fd := ret (Some true);
  px_read fd n := ret (RD []);
  px_write fd bs := fun s =>
    match sc_writes s with
    | [] => Ok (WR 0, s)
    | WR n :: rest =>
        let n := Z.max 0 (Z.min n (Z.of_nat (length bs))) in
        Ok (WR n, Script rest (sc_out s ++ take (Z.to_nat n) bs))
    | e :: rest => Ok (e, Script rest (sc_out s))
    end;
  px_poll fd ev t := ret PR_READY;
  px_clock := ret (Timespec 0 0)
}.
#[export] Instance script_sink : PosixSink script sc_out.
Proof.
  split; simpl.
  - intros fd bs s r s' E. destruct (sc_writes s) as [|[n|e] rest]; simplify_eq; simpl.
    + split; [lia|]. by rewrite app_nil_r.
    + split; [lia|done].
    + done.
  - unfold ret. intros. by simplify_eq.
  - unfold ret. intros. by simplify_eq.
  - unfold ret. intros. by simplify_eq.
Qed.

Lemma write_n_prefix_witness :
  let s := Script [WR 3; WR_ERR EINTR; WR 2; WR_ERR EAGAIN; WR 9] [] in
  let s' := Script [] (B "queue0") in
  write_n 9 5 FD_UNKNOWN (B "queue0") 6 1 s = Ok (6, s') /\
  sent (sink := sc_out) (B "queue0") 6 s s' 6.
Proof.
  intros s s'. assert (write_n 9 5 FD_UNKNOWN (B "queue0") 6 1 s = Ok (6, s')) as E
    by reflexivity.
  split; [exact E|]. apply (write_n_prefix 9 5 FD_UNKNOWN (B "queue0") 6 1 s 6 s'); [lia|exact E].
Defined.
