(* ===== verification/MsgFormat.v ===== *)
(** * source/mq_store_msg.c, the message format

    The layout of a message in a database file (magic numbers, time stamp, CRC,
    length, body), parsing it back from a mapping, the head of a database file
    and the scan that counts messages. *)
From S2P Require Import Prelude.
From S2P Require Import CLib.
From S2P Require Import World.
From S2P Require Import Crc16.
From S2P Require Import MqTypes.

(** ** Integers in memory: little endian, as on the supported machines *)
Fixpoint le_bytes (n : nat) (v : Z) : bytes :=
  match n with
  | O => []
  | S n => v mod 256 :: le_bytes n (v / 256)
  end.
Fixpoint le_val (bs : bytes) : Z :=
  match bs with
  | [] => 0
  | b :: bs => b + 256 * le_val bs
  end.

Inductive msg_check_ret :=
| MSG_CHECK_RET_OK
| MSG_CHECK_RET_MSG_ERR
| MSG_CHECK_RET_MAG_NUM_ERR
| MSG_CHECK_RET_PARSE_ERR
| MSG_CHECK_RET_CRC_ERR
| MSG_CHECK_RET_LEN_BEY.
#[export] Instance msg_check_ret_eq_dec : EqDecision msg_check_ret.
Proof. solve_decision. Defined.

Section MsgFormat.
Context (conf : ucmq_conf).

(** [mq_sm_db_build_msg_crc16(&crc, data, len)]: the value stored in [crc],
    or [None] when the function returns false. *)
Definition mq_sm_db_build_msg_crc16 (data : cptr) (len : Z) : M world (option Z) :=
  if (len <? 0) || match data with PNull => true | _ => false end then ret None
  else let! bs := load_ptr data len in ret (Some (crc16_append bs)).

(** [mq_sm_db_parse_msg_head(item, msg_head)] at offset [off] of a mapping;
    the function always returns true. *)
Definition mq_sm_db_parse_msg_head (item : msg_item) (addr off : Z) : M world msg_item :=
  let! h := mem_load addr off MSG_HEAD_LEN in
  ret (MsgItem (h !!! 0%nat) (h !!! 1%nat)
               (le_val (take 4 (drop 2 h)))
               (le_val (take 2 (drop 6 h)))
               (le_val (take 4 (drop 8 h)))
               (msg item)).

(** [mq_sm_db_parse_msg(msg, cur_pos, &msg_item)] *)
Definition mq_sm_db_parse_msg (addr cur_pos : Z) (item : msg_item)
    : M world (msg_check_ret * msg_item) :=
  if addr =? 0 then ret (MSG_CHECK_RET_MSG_ERR, item)
  else if u32 (MAX_DB_FILE_SIZE conf) <=? u32 (cur_pos + MSG_HEAD_LEN)
  then ret (MSG_CHECK_RET_LEN_BEY, item)
  else
    let! m := mem_load addr cur_pos 2 in
    if negb (m !!! 0%nat =? MSG_HEAD_OF_FIRST_MAGIC_NUM)
       || negb (m !!! 1%nat =? MSG_HEAD_OF_SECOND_MAGIC_NUM)
    then ret (MSG_CHECK_RET_MAG_NUM_ERR, item)
    else
      let! item := mq_sm_db_parse_msg_head item addr cur_pos in
      if u32 (MAX_DB_FILE_SIZE conf) <? u32 (u32 (cur_pos + mlen item) + MSG_HEAD_LEN)
      then ret (MSG_CHECK_RET_LEN_BEY, item)
      else
        let msg_body := PMap addr (cur_pos + MSG_HEAD_LEN) in
        let! tmp_crc16 := mq_sm_db_build_msg_crc16 msg_body (i32 (mlen item)) in
        if bool_decide (tmp_crc16 = Some (crc16 item))
        then ret (MSG_CHECK_RET_OK, with_msg msg_body item)
        else ret (MSG_CHECK_RET_CRC_ERR, item).

(** The bytes [mq_sm_db_write_file_head] puts at the start of the file. *)
Definition db_file_head (opt_count : Z) : bytes :=
  let text := snprintf (Z.to_nat DB_FILE_HEAD_LEN)
                (pad 1 DB_FILE_VERSION ++ pad 12 opt_count) in
  text ++ replicate (Z.to_nat DB_FILE_HEAD_LEN - length text) 0.

Definition mq_sm_db_write_file_head : M qstate bool :=
  let! q := queue in
  sys (mem_store (map_mem (cur_wdb q)) 0 (db_file_head (opt_count (cur_wdb q)))) ;;;
  let! _ := sys (sys_msync (map_mem (cur_wdb q)) DB_FILE_HEAD_LEN) in
  ret true.

(** [mq_sm_db_cal_msg_count(fd, end_pos)]: the locals of the loop are
    [curr_file_pos], [db_count] and [msg_item].  Every round advances the
    position by at least one, so that 2^32 rounds are enough. *)
Definition count_fuel : positive := 4294967296.
Definition count_round (addr end_pos : Z) (l : Z * Z * msg_item)
    : M world ((Z * Z * msg_item) + Z) :=
  let '(curr_file_pos, db_count, item) := l in
  if negb (u32 curr_file_pos <? end_pos) then ret (inr db_count)
  else
    let! '(r, item) := mq_sm_db_parse_msg addr (u32 curr_file_pos) item in
    match r with
    | MSG_CHECK_RET_OK =>
        ret (inl (i32 (curr_file_pos + (MSG_HEAD_LEN + mlen item)), i32 (db_count + 1), item))
    | MSG_CHECK_RET_MAG_NUM_ERR => ret (inl (i32 (curr_file_pos + 1), db_count, item))
    | MSG_CHECK_RET_PARSE_ERR | MSG_CHECK_RET_CRC_ERR =>
        ret (inl (i32 (curr_file_pos + 2), db_count, item))
    | MSG_CHECK_RET_MSG_ERR => ret (inr db_count)
    | MSG_CHECK_RET_LEN_BEY => ret (inl (i32 (curr_file_pos + 2), db_count, item))
    end.
(** The uninitialised [msg_item] of the C function is never read. *)
Definition msg_item_uninit : msg_item := MsgItem 0 0 0 0 0 PNull.
Definition mq_sm_db_cal_msg_count (fd end_pos : Z) : M world Z :=
  let! m := sys_mmap (MAX_DB_FILE_SIZE conf) fd in
  match m with
  | None => ret UINT_MAX
  | Some ergodic_mmap =>
      let! db_count := loop_from count_fuel (count_round ergodic_mmap end_pos)
                         (0, 0, msg_item_uninit) in
      sys_munmap ergodic_mmap ;;;
      ret (u32 db_count)
  end.
End MsgFormat.

(** ** Little endian integers *)
Lemma length_le_bytes n v : length (le_bytes n v) = n.
Proof. revert v. induction n; intros v; simpl; [done|]. by rewrite IHn. Qed.

Lemma le_bytes_byte n v : Forall is_byte (le_bytes n v).
Proof.
  revert v. induction n; intros v; simpl; constructor; [|done]. apply Z.mod_pos_bound; lia.
Qed.

Lemma le_val_bytes n v : le_val (le_bytes n v) = v mod 256 ^ Z.of_nat n.
Proof.
  revert v. induction n as [|n IH]; intros v; simpl le_bytes; simpl le_val.
  - by rewrite Z.mod_1_r.
  - rewrite IH, Nat2Z.inj_succ, Z.pow_succ_r, Z.rem_mul_r
      by (try apply Z.pow_pos_nonneg; lia). done.
Qed.

Lemma le_val_range bs : Forall is_byte bs -> 0 <= le_val bs < 256 ^ Z.of_nat (length bs).
Proof.
  induction bs as [|b bs IH]; intros Hb; simpl le_val.
  - simpl. lia.
  - inversion_clear Hb as [|? ? H1 H2]. apply IH in H2. unfold is_byte in H1.
    simpl length. rewrite Nat2Z.inj_succ, Z.pow_succ_r by lia. lia.
Qed.

(** ** The format as a specification *)
Definition msg_header (t crc len : Z) : bytes :=
  [MSG_HEAD_OF_FIRST_MAGIC_NUM; MSG_HEAD_OF_SECOND_MAGIC_NUM] ++
  le_bytes 4 t ++ le_bytes 2 crc ++ le_bytes 4 len.

(** A stored message: its time stamp and its body. *)
Definition smsg : Type := Z * bytes.
Definition blen (m : smsg) : Z := Z.of_nat (length m.2).
Definition encode (m : smsg) : bytes :=
  msg_header m.1 (crc16_append m.2) (blen m) ++ m.2.

Definition wf_msg (m : smsg) : Prop :=
  0 <= m.1 < 4294967296 /\ Forall is_byte m.2 /\ 0 < blen m < 4294967296.

(** The messages [ms] are stored one behind the other from [p] to [e]. *)
Fixpoint layout (d : gmap Z Z) (p : Z) (ms : list smsg) (e : Z) : Prop :=
  match ms with
  | [] => p = e
  | m :: ms => wf_msg m /\ holds d p (encode m) /\
               layout d (p + MSG_HEAD_LEN + blen m) ms e
  end.

(** No message can start between [a] and [b]. *)
Definition clean (d : gmap Z Z) (a b : Z) : Prop :=
  forall i, a <= i < b -> byte_at d i <> MSG_HEAD_OF_FIRST_MAGIC_NUM.

Lemma length_header t c l : length (msg_header t c l) = 12%nat.
Proof. unfold msg_header. by rewrite !length_app, !length_le_bytes. Qed.

Lemma length_encode m : Z.of_nat (length (encode m)) = MSG_HEAD_LEN + blen m.
Proof. unfold encode, blen, MSG_HEAD_LEN. rewrite length_app, length_header. lia. Qed.

Lemma header_bytes t c l : Forall is_byte (msg_header t c l).
Proof.
  unfold msg_header. repeat apply Forall_app_2; try apply le_bytes_byte. decide_it.
Qed.

Lemma encode_bytes m : Forall is_byte m.2 -> Forall is_byte (encode m).
Proof. intros H. apply Forall_app_2; [apply header_bytes|done]. Qed.

Lemma layout_range d p ms e : layout d p ms e -> p <= e.
Proof.
  revert p. induction ms as [|m ms IH]; intros p; simpl; [lia|].
  intros ((_ & _ & Hb) & _ & H). apply IH in H. unfold MSG_HEAD_LEN in *. lia.
Qed.

Lemma layout_count d p ms e : layout d p ms e -> Z.of_nat (length ms) * MSG_HEAD_LEN <= e - p.
Proof.
  revert p. induction ms as [|m ms IH]; intros p Hl; simpl in Hl; [simpl; lia|].
  destruct Hl as ((_ & _ & ?) & _ & Hl). apply IH in Hl. simpl length.
  unfold MSG_HEAD_LEN in *. lia.
Qed.

Lemma layout_app d p ms m e :
  layout d p ms e -> wf_msg m -> holds d e (encode m) ->
  layout d p (ms ++ [m]) (e + MSG_HEAD_LEN + blen m).
Proof.
  revert p. induction ms as [|x ms IH]; intros p H Hm He; simpl in *.
  - subst p. done.
  - destruct H as (Hx & Hh & Hl). eauto.
Qed.

Lemma layout_frame d d' p ms e :
  (forall i, p <= i < e -> byte_at d' i = byte_at d i) ->
  layout d p ms e -> layout d' p ms e.
Proof.
  revert p. induction ms as [|m ms IH]; intros p Hd; simpl; [done|].
  intros (Hm & Hh & Hl). pose proof (layout_range _ _ _ _ Hl) as Hr.
  destruct Hm as (? & ? & ?). unfold MSG_HEAD_LEN in *.
  split; [done|]. split.
  - unfold holds in *. rewrite <- Hh at 2. apply get_bytes_eq.
    + by rewrite length_get_bytes.
    + intros k b Hk. pose proof (lookup_lt_Some _ _ _ Hk) as Hlt.
      rewrite length_get_bytes in Hlt. rewrite lookup_get_bytes in Hk by done.
      injection Hk as <-. pose proof (length_encode m) as Hle. unfold MSG_HEAD_LEN in Hle.
      apply Hd. lia.
  - apply IH; [|done]. intros i Hi. apply Hd. lia.
Qed.

(** ** Parsing *)
Section Parse.
Context (conf : ucmq_conf) (Hconf : conf_wf conf).
Context (w : world) (addr : Z) (d : gmap Z Z).
Context (Hmap : mapped w addr (MAX_DB_FILE_SIZE conf) d) (Haddr : addr <> 0).
Context (Hbytes : data_bytes d).
#[local] Abbreviation MAX := (MAX_DB_FILE_SIZE conf).

Local Ltac max_range :=
  pose proof (MAX_DB_FILE_SIZE_range conf Hconf); unfold MSG_HEAD_LEN in *.

(** Near the end of the file there is no room for a message. *)
Lemma parse_msg_end p item :
  0 <= p < 4294967284 -> MAX <= p + MSG_HEAD_LEN ->
  mq_sm_db_parse_msg conf addr p item w = Ok ((MSG_CHECK_RET_LEN_BEY, item), w).
Proof using Hmap Haddr Hconf.
  max_range. intros Hp Hend. unfold mq_sm_db_parse_msg.
  destruct (Z.eqb_spec addr 0); [done|]. unfold MSG_HEAD_LEN.
  rewrite !u32_small by lia. by rewrite (proj2 (Z.leb_le _ _)) by lia.
Qed.

(** The first two tests of the function, past the end of the file check. *)
Lemma parse_msg_magic p item :
  0 <= p -> p + MSG_HEAD_LEN < MAX ->
  mq_sm_db_parse_msg conf addr p item w =
  if negb (byte_at d p =? MSG_HEAD_OF_FIRST_MAGIC_NUM)
     || negb (byte_at d (p + 1) =? MSG_HEAD_OF_SECOND_MAGIC_NUM)
  then Ok ((MSG_CHECK_RET_MAG_NUM_ERR, item), w)
  else (let! item := mq_sm_db_parse_msg_head item addr p in
      if u32 MAX <? u32 (u32 (p + mlen item) + MSG_HEAD_LEN)
      then ret (MSG_CHECK_RET_LEN_BEY, item)
      else
        let! tmp_crc16 := mq_sm_db_build_msg_crc16 (PMap addr (p + MSG_HEAD_LEN))
                            (i32 (mlen item)) in
        if bool_decide (tmp_crc16 = Some (crc16 item))
        then ret (MSG_CHECK_RET_OK, with_msg (PMap addr (p + MSG_HEAD_LEN)) item)
        else ret (MSG_CHECK_RET_CRC_ERR, item)) w.
Proof using Hmap Haddr Hconf.
  max_range. intros Hp Hend. unfold mq_sm_db_parse_msg.
  destruct (Z.eqb_spec addr 0); [done|].
  unfold MSG_HEAD_LEN in *. rewrite (proj2 (Z.leb_gt _ _)) by (rewrite !u32_small; lia).
  erewrite bind_ok by (apply (mem_load_mapped _ _ _ _ _ _ Hmap); lia).
  change (get_bytes d p (Z.to_nat 2)) with [byte_at d (p + 0); byte_at d (p + 1)].
  rewrite Z.add_0_r. cbn [lookup_total list_lookup_total].
  by destruct (_ || _).
Qed.

(** Where no magic number starts the scan moves on by one byte. *)
Lemma parse_msg_skip p item :
  0 <= p -> p + MSG_HEAD_LEN < MAX -> byte_at d p <> MSG_HEAD_OF_FIRST_MAGIC_NUM ->
  mq_sm_db_parse_msg conf addr p item w = Ok ((MSG_CHECK_RET_MAG_NUM_ERR, item), w).
Proof using Hmap Haddr Hconf.
  intros Hp Hend Hb. rewrite parse_msg_magic by done.
  by rewrite (proj2 (Z.eqb_neq _ _) Hb).
Qed.

Lemma parse_msg_head_ok p item :
  0 <= p -> p + MSG_HEAD_LEN <= MAX ->
  exists h, length h = 12%nat /\ get_bytes d p 12 = h /\
  mq_sm_db_parse_msg_head item addr p w =
    Ok (MsgItem (h !!! 0%nat) (h !!! 1%nat) (le_val (take 4 (drop 2 h)))
                (le_val (take 2 (drop 6 h))) (le_val (take 4 (drop 8 h))) (msg item), w).
Proof using Hmap Haddr Hconf.
  intros Hp Hend. exists (get_bytes d p 12).
  split_and!; [apply length_get_bytes|done|].
  unfold mq_sm_db_parse_msg_head.
  by erewrite bind_ok by (apply (mem_load_mapped _ _ _ _ _ _ Hmap); unfold MSG_HEAD_LEN in *; lia).
Qed.

(** A stored message is parsed back. *)
Lemma parse_msg_encode p m item :
  wf_msg m -> holds d p (encode m) -> 0 <= p -> p + MSG_HEAD_LEN + blen m <= MAX ->
  mq_sm_db_parse_msg conf addr p item w =
    Ok ((MSG_CHECK_RET_OK,
         MsgItem MSG_HEAD_OF_FIRST_MAGIC_NUM MSG_HEAD_OF_SECOND_MAGIC_NUM
           m.1 (crc16_append m.2) (blen m) (PMap addr (p + MSG_HEAD_LEN))), w).
Proof using Hmap Haddr Hconf.
  intros (Ht & Hb & Hl) Hh Hp Hend. max_range.
  unfold encode in Hh. apply holds_app in Hh as [Hh Hbody]. rewrite length_header in Hbody.
  assert (get_bytes d p 12 = msg_header m.1 (crc16_append m.2) (blen m)) as Hg.
  { by rewrite <- Hh, length_header at 1. }
  rewrite parse_msg_magic by (unfold MSG_HEAD_LEN; lia).
  assert (byte_at d p = 254 /\ byte_at d (p + 1) = 172) as [-> ->].
  { pose proof (lookup_get_bytes d p 12 0 ltac:(lia)) as H0.
    pose proof (lookup_get_bytes d p 12 1 ltac:(lia)) as H1.
    rewrite Hg in H0, H1. rewrite Z.add_0_r in H0.
    split; [injection H0|injection H1]; done. }
  cbn [negb orb Z.eqb Pos.eqb MSG_HEAD_OF_FIRST_MAGIC_NUM MSG_HEAD_OF_SECOND_MAGIC_NUM].
  destruct (parse_msg_head_ok p item) as (h & _ & Eh & Ehead);
    [lia|unfold MSG_HEAD_LEN; lia|].
  rewrite Hg in Eh. subst h. erewrite bind_ok by exact Ehead. clear Ehead.
  pose proof (crc16_append_range m.2 Hb) as Hcrc.
  change (le_val (take 4 (drop 2 (msg_header m.1 (crc16_append m.2) (blen m)))))
    with (le_val (le_bytes 4 m.1)).
  change (le_val (take 2 (drop 6 (msg_header m.1 (crc16_append m.2) (blen m)))))
    with (le_val (le_bytes 2 (crc16_append m.2))).
  change (le_val (take 4 (drop 8 (msg_header m.1 (crc16_append m.2) (blen m)))))
    with (le_val (le_bytes 4 (blen m))).
  rewrite !le_val_bytes. change (256 ^ Z.of_nat 4) with 4294967296.
  change (256 ^ Z.of_nat 2) with 65536. rewrite !Z.mod_small by lia.
  cbn [mlen crc16]. unfold MSG_HEAD_LEN in *.
  rewrite (u32_small (p + blen m)), !u32_small by lia.
  rewrite (proj2 (Z.ltb_ge _ _)) by lia. rewrite i32_small by lia.
  unfold mq_sm_db_build_msg_crc16. rewrite (proj2 (Z.ltb_ge (blen m) 0)) by lia.
  cbn [orb]. unfold load_ptr. rewrite bind_assoc.
  erewrite bind_ok by (apply (mem_load_mapped _ _ _ _ _ _ Hmap); lia).
  unfold blen. rewrite Nat2Z.id. unfold holds in Hbody. change (Z.of_nat 12) with 12 in Hbody.
  rewrite Hbody. unfold ret, bind. by rewrite bool_decide_true by done.
Qed.

(** Whatever the contents, parsing inside the file neither faults nor changes
    the world, and a message it accepts lies within the file. *)
Lemma parse_msg_total p item :
  0 <= p < 4294967284 ->
  exists r item', mq_sm_db_parse_msg conf addr p item w = Ok ((r, item'), w) /\
    r <> MSG_CHECK_RET_MSG_ERR /\ r <> MSG_CHECK_RET_PARSE_ERR /\
    (r = MSG_CHECK_RET_LEN_BEY \/ p + MSG_HEAD_LEN < MAX) /\
    (r = MSG_CHECK_RET_OK ->
       0 <= mlen item' /\ p + MSG_HEAD_LEN + mlen item' <= MAX /\
       msg item' = PMap addr (p + MSG_HEAD_LEN) /\
       crc16_append (get_bytes d (p + MSG_HEAD_LEN) (Z.to_nat (mlen item'))) = crc16 item').
Proof.
  intros Hp. max_range. destruct (decide (MAX <= p + 12)) as [Hend|Hend].
  { rewrite parse_msg_end by (unfold MSG_HEAD_LEN; lia). naive_solver. }
  rewrite parse_msg_magic by (unfold MSG_HEAD_LEN; lia).
  destruct (negb _ || negb _).
  { eexists _, _. split; [done|]. split_and!; try done. right. lia. }
  destruct (parse_msg_head_ok p item) as (h & Hlen & Hg & Ehead);
    [lia|unfold MSG_HEAD_LEN; lia|].
  assert (Forall is_byte h) as Hh by (rewrite <- Hg; by apply get_bytes_byte).
  erewrite bind_ok by exact Ehead. cbn [mlen crc16 with_msg].
  assert (0 <= le_val (take 4 (drop 8 h)) < 4294967296) as Hl.
  { pose proof (le_val_range (take 4 (drop 8 h))
      ltac:(by apply Forall_take, Forall_drop)) as Hr.
    rewrite length_take, length_drop, Hlen in Hr. exact Hr. }
  set (l := le_val (take 4 (drop 8 h))) in *. unfold MSG_HEAD_LEN in *.
  destruct (u32 MAX <? u32 (u32 (p + l) + 12)) eqn:Ebey.
  { eexists _, _. split; [done|]. naive_solver. }
  unfold mq_sm_db_build_msg_crc16. destruct (i32 l <? 0) eqn:Eneg.
  { eexists _, _. split; [done|]. split_and!; try done. right. lia. }
  apply Z.ltb_ge in Eneg, Ebey.
  assert (l < 2147483648) as Hl31.
  { unfold i32 in Eneg. rewrite u32_small in Eneg by lia.
    destruct (Z.ltb_spec l 2147483648); lia. }
  rewrite (u32_small (p + l)), !u32_small in Ebey by lia.
  rewrite i32_small by lia. cbn [orb]. unfold load_ptr. rewrite bind_assoc.
  erewrite bind_ok by (apply (mem_load_mapped _ _ _ _ _ _ Hmap); lia).
  unfold ret, bind. case_bool_decide as Hcrc.
  - eexists _, _. split; [done|]. cbn [mlen crc16 with_msg msg]. injection Hcrc as Hcrc.
    fold l. split_and!; try done; [right; lia|]. intros _. split_and!; try done; lia.
  - eexists _, _. split; [done|]. split_and!; try done. right. lia.
Qed.

(** *** Counting *)

(** One round on each kind of position. *)
Lemma count_round_msg p n m item end_pos :
  wf_msg m -> holds d p (encode m) -> 0 <= p -> p + MSG_HEAD_LEN + blen m <= MAX ->
  p < end_pos -> 0 <= n < 2147483647 -> exists item',
  count_round conf addr end_pos (p, n, item) w =
    Ok (inl (p + MSG_HEAD_LEN + blen m, n + 1, item'), w).
Proof using Hmap Haddr Hconf.
  intros Hm Hh Hp Hend He Hn. destruct Hm as (Ht & Hb & Hl). max_range.
  eexists. unfold count_round. rewrite u32_small by lia.
  rewrite (proj2 (Z.ltb_lt _ _)) by done. cbn [negb].
  erewrite bind_ok by (apply (parse_msg_encode p m); unfold MSG_HEAD_LEN; done || lia).
  cbn [mlen]. unfold ret. rewrite !i32_small by (unfold MSG_HEAD_LEN; lia).
  do 5 f_equal. unfold MSG_HEAD_LEN. lia.
Qed.

Lemma count_round_skip p n item end_pos :
  0 <= p < end_pos -> end_pos <= MAX -> clean d p end_pos ->
  exists p', p < p' <= p + 2 /\
  count_round conf addr end_pos (p, n, item) w = Ok (inl (p', n, item), w).
Proof using Hmap Haddr Hconf.
  intros Hp He Hc. max_range. unfold count_round. rewrite u32_small by lia.
  rewrite (proj2 (Z.ltb_lt _ _)) by lia. cbn [negb].
  destruct (decide (p + 12 < MAX)).
  - exists (p + 1). split; [lia|]. erewrite bind_ok
      by (apply parse_msg_skip; [lia|unfold MSG_HEAD_LEN; lia|apply Hc; lia]).
    unfold ret. by rewrite i32_small by lia.
  - exists (p + 2). split; [lia|]. erewrite bind_ok
      by (apply parse_msg_end; unfold MSG_HEAD_LEN; lia).
    unfold ret. by rewrite i32_small by lia.
Qed.

Lemma count_round_end p n item end_pos :
  0 <= end_pos <= p -> p < 2147483648 ->
  count_round conf addr end_pos (p, n, item) w = Ok (inr n, w).
Proof using Hmap Haddr Hconf.
  intros Hp Hp'. unfold count_round. rewrite u32_small by lia.
  by rewrite (proj2 (Z.ltb_ge _ _)) by lia.
Qed.

Lemma count_rounds_clean p n item end_pos :
  0 <= p <= end_pos + 1 -> 0 <= end_pos <= MAX -> clean d p end_pos ->
  exists k, rounds (count_round conf addr end_pos) k (p, n, item) w n w /\
            Z.of_nat k <= Z.max 0 (end_pos - p).
Proof using Hmap Haddr Hconf.
  max_range. intros Hp He. remember (Z.to_nat (end_pos - p)) as g eqn:Hg.
  revert p item Hp Hg. induction g as [g IH] using lt_wf_ind. intros p item Hp Hg Hc.
  destruct (decide (end_pos <= p)).
  - exists 0%nat. split; [|lia]. apply rounds_done, count_round_end; lia.
  - destruct (count_round_skip p n item end_pos ltac:(lia) ltac:(lia) Hc) as (p' & Hp' & E).
    destruct (IH (Z.to_nat (end_pos - p')) ltac:(lia) p' item) as (k & Hk & Hkb);
      [lia|done|intros i Hi; apply Hc; lia|].
    exists (S k). split; [|lia]. by eapply rounds_more.
Qed.

Lemma count_rounds_layout p n item ms e end_pos :
  layout d p ms e -> 0 <= p -> e <= end_pos <= MAX -> clean d e end_pos -> 0 <= n -> n * 12 <= p ->
  exists k, rounds (count_round conf addr end_pos) k (p, n, item) w
              (n + Z.of_nat (length ms)) w /\
            Z.of_nat k <= Z.max 0 (end_pos - p).
Proof using Hmap Haddr Hconf.
  revert p n item. induction ms as [|m ms IH]; intros p n item Hl Hp He Hc Hn Hnp; simpl in Hl.
  - subst e. rewrite Z.add_0_r. apply count_rounds_clean; [lia..|done].
  - destruct Hl as (Hm & Hh & Hl). pose proof (layout_range _ _ _ _ Hl).
    pose proof Hm as (_ & _ & ?). unfold MSG_HEAD_LEN in *.
    destruct (count_round_msg p n m item end_pos) as [item' E]; try done;
      [unfold MSG_HEAD_LEN; lia|lia|max_range; lia|].
    destruct (IH _ (n + 1) item' Hl ltac:(lia) He Hc ltac:(lia) ltac:(lia)) as (k & Hk & Hkb).
    exists (S k). split; [|lia]. eapply rounds_more; [exact E|].
    replace (n + Z.of_nat (length (m :: ms))) with (n + 1 + Z.of_nat (length ms))
      by (simpl length; lia). exact Hk.
Qed.

(** Whatever the contents, a round advances by at least one byte. *)
Lemma count_rounds_total p n item end_pos :
  0 <= p <= MAX + 1 -> 0 <= end_pos <= MAX -> 0 <= n -> n * 12 <= p ->
  exists k c, rounds (count_round conf addr end_pos) k (p, n, item) w c w /\
              n <= c /\ Z.of_nat k <= Z.max 0 (end_pos - p) /\
              (c - n) * MSG_HEAD_LEN <= Z.max 0 (MAX - p).
Proof.
  max_range. intros Hp He Hn Hnp. remember (Z.to_nat (end_pos - p)) as g eqn:Hg.
  revert p n item Hp Hn Hnp Hg. induction g as [g IH] using lt_wf_ind. intros p n item Hp Hn Hnp Hg.
  destruct (decide (end_pos <= p)).
  { exists 0%nat, n. split_and!; try lia. apply rounds_done, count_round_end; lia. }
  destruct (parse_msg_total p item ltac:(lia)) as (r & it & E & Hne1 & Hne2 & _ & Hok).
  assert (forall p' n' it', p < p' <= MAX + 1 ->
    (n' = n \/ n' = n + 1 /\ p + MSG_HEAD_LEN <= p' <= MAX) ->
    count_round conf addr end_pos (p, n, item) w = Ok (inl (p', n', it'), w) ->
    exists k c, rounds (count_round conf addr end_pos) k (p, n, item) w c w /\
      n <= c /\ Z.of_nat k <= Z.max 0 (end_pos - p) /\
      (c - n) * 12 <= Z.max 0 (MAX - p)) as Hgo.
  { intros p' n' it' Hp' Hn' E'. unfold MSG_HEAD_LEN in *.
    destruct (IH (Z.to_nat (end_pos - p')) ltac:(lia) p' n' it') as (k & c & Hk & ? & ? & ?);
      [lia|lia|lia|done|]. exists (S k), c. split_and!; [by eapply rounds_more|lia..]. }
  unfold count_round in Hgo. unfold MSG_HEAD_LEN. rewrite u32_small in Hgo by lia.
  rewrite (proj2 (Z.ltb_lt p end_pos)) in Hgo by lia. cbn [negb] in Hgo.
  erewrite bind_ok in Hgo by exact E. destruct r; try done.
  - destruct (Hok eq_refl) as (Hl0 & Hl & _). unfold MSG_HEAD_LEN in *.
    eapply Hgo; [| |unfold ret; by rewrite !i32_small by lia]; [lia|right; lia].
  - eapply Hgo; [| |unfold ret; by rewrite i32_small by lia]; lia.
  - eapply Hgo; [| |unfold ret; by rewrite i32_small by lia]; lia.
  - eapply Hgo; [| |unfold ret; by rewrite i32_small by lia]; lia.
Qed.
End Parse.

(** ** The properties *)

(** The world after a temporary mapping was made and removed. *)
Definition after_map (w : world) : world := set_next (w_next w + 1) w.

(** [fd] is open on a file that holds [d] and is at least [len] bytes long. *)
Definition opened (w : world) (fd len : Z) (d : gmap Z Z) : Prop :=
  exists o f, fd_file w fd = Some (o, f) /\ len <= f_size f /\ f_data f = d.

(** The count of a file is that of the scan on a temporary mapping of it. *)
Lemma cal_msg_count_run conf w fd d end_pos (Q : Z -> Prop) :
  conf_wf conf -> opened w fd (MAX_DB_FILE_SIZE conf) d ->
  w_faults w = [] -> 0 < w_next w -> w_maps w !! w_next w = None ->
  0 <= end_pos <= MAX_DB_FILE_SIZE conf ->
  (forall w' addr, mapped w' addr (MAX_DB_FILE_SIZE conf) d -> addr <> 0 ->
     exists k res, rounds (count_round conf addr end_pos) k (0, 0, msg_item_uninit) w' res w' /\
               Z.of_nat k <= end_pos /\ Q res) ->
  exists res, Q res /\ mq_sm_db_cal_msg_count conf fd end_pos w = Ok (u32 res, after_map w).
Proof.
  intros Hconf (o & f & Hf & Hsz & Hd) Hnf Hnext Hfresh He Hrun.
  pose proof (MAX_DB_FILE_SIZE_range conf Hconf).
  unfold fd_file in Hf. destruct (w_fds w !! fd) as [o'|] eqn:Efd; [|done].
  destruct (w_inodes w !! o_ino o') as [f'|] eqn:Eino; [|done]. injection Hf as -> ->.
  unfold mq_sm_db_cal_msg_count.
  set (w1 := set_next (w_next w + 1)
     (set_maps (<[w_next w := Mapping (o_ino o) (MAX_DB_FILE_SIZE conf)]> (w_maps w)) w)).
  assert (sys_mmap (MAX_DB_FILE_SIZE conf) fd w = Ok (Some (w_next w), w1)) as Emap.
  { unfold sys_mmap, pick_fault, bind, ret. by rewrite Hnf, Efd. }
  destruct (Hrun w1 (w_next w)) as (k & res & Hk & Hkb & HQ); [|lia|].
  { exists (Mapping (o_ino o) (MAX_DB_FILE_SIZE conf)), f. split_and!; try done.
    unfold map_file, w1. cbn. rewrite lookup_insert_eq. cbn. by rewrite Eino. }
  exists res. split; [done|]. erewrite bind_ok by exact Emap. cbv beta iota.
  erewrite bind_ok by (eapply loop_from_ok; [exact Hk|unfold count_fuel; lia]).
  unfold sys_munmap, modify, bind, ret, after_map, w1, set_maps, set_next. cbn.
  do 3 f_equal. by rewrite delete_insert_id.
Qed.

(** C20: a stored message is read back: at the place where the bytes of message
    [m] are, [mq_sm_db_parse_msg] answers OK with the time stamp, CRC and length
    of [m] and a pointer to its body, and leaves the world unchanged. *)
Theorem parse_msg_roundtrip conf w addr d p m item :
  conf_wf conf -> mapped w addr (MAX_DB_FILE_SIZE conf) d -> addr <> 0 ->
  wf_msg m -> holds d p (encode m) ->
  0 <= p -> p + MSG_HEAD_LEN + blen m <= MAX_DB_FILE_SIZE conf ->
  exists item',
    mq_sm_db_parse_msg conf addr p item w = Ok ((MSG_CHECK_RET_OK, item'), w) /\
    mdelay item' = m.1 /\ mlen item' = blen m /\
    load_ptr (msg item') (mlen item') w = Ok (m.2, w).
Proof.
  intros Hc Hm Ha Hwf Hh Hp He. eexists. split; [by apply (parse_msg_encode conf Hc w addr d Hm Ha p m item)|].
  split_and!; [done|done|]. cbn [msg mlen load_ptr].
  apply holds_app in Hh as [_ Hbody]. rewrite length_header in Hbody.
  destruct Hwf as (_ & _ & Hl). unfold MSG_HEAD_LEN in *.
  erewrite mem_load_mapped by (try apply Hm; lia).
  unfold blen. rewrite Nat2Z.id. by rewrite Hbody.
Qed.

(** C21: parsing is safe on any contents: on a mapped file no byte outside the
    file is read whatever its bytes are, the world does not change, and an
    accepted message lies inside the file and has the CRC of its header. *)
Theorem parse_msg_safe conf w addr d p item :
  conf_wf conf -> mapped w addr (MAX_DB_FILE_SIZE conf) d -> addr <> 0 -> data_bytes d ->
  0 <= p < 4294967284 ->
  exists r item', mq_sm_db_parse_msg conf addr p item w = Ok ((r, item'), w) /\
    (r = MSG_CHECK_RET_OK ->
       p + MSG_HEAD_LEN + mlen item' <= MAX_DB_FILE_SIZE conf /\
       msg item' = PMap addr (p + MSG_HEAD_LEN) /\
       crc16_append (get_bytes d (p + MSG_HEAD_LEN) (Z.to_nat (mlen item'))) = crc16 item').
Proof.
  intros Hc Hm Ha Hb Hp.
  destruct (parse_msg_total conf Hc w addr d Hm Ha Hb p item Hp) as (r & it & E & H).
  exists r, it. naive_solver.
Qed.

(** [mq_sm_db_cal_msg_count] counts the messages of a file: with messages
    [ms] from [p] to [e], nothing that looks like a message before or after
    them, and an end position behind them, the count is the number of messages. *)
Theorem cal_msg_count_layout conf w fd d p ms e end_pos :
  conf_wf conf -> opened w fd (MAX_DB_FILE_SIZE conf) d -> data_bytes d ->
  w_faults w = [] -> 0 < w_next w -> w_maps w !! w_next w = None ->
  layout d p ms e -> 0 <= p <= MAX_DB_FILE_SIZE conf - 13 -> clean d 0 p ->
  e <= end_pos <= MAX_DB_FILE_SIZE conf -> clean d e end_pos ->
  mq_sm_db_cal_msg_count conf fd end_pos w = Ok (Z.of_nat (length ms), after_map w).
Proof.
  intros Hc Ho Hb Hnf Hn Hfr Hl Hp Hcl He Hcl'.
  pose proof (MAX_DB_FILE_SIZE_range conf Hc). pose proof (layout_range _ _ _ _ Hl).
  pose proof (layout_count _ _ _ _ Hl) as Hlen. unfold MSG_HEAD_LEN in Hlen.
  destruct (cal_msg_count_run conf w fd d end_pos (eq (Z.of_nat (length ms))))
    as (res & <- & E); try done; [lia| |by rewrite E, u32_small by lia].
  intros w' addr Hm Ha.
  destruct (count_rounds_layout conf Hc w' addr d Hm Ha p 0 msg_item_uninit ms e end_pos)
    as (k & Hk & Hkb); [done|lia|done|done|lia|lia|].
  assert (forall q, 0 <= q <= p -> exists k',
    rounds (count_round conf addr end_pos) k' (q, 0, msg_item_uninit) w'
      (Z.of_nat (length ms)) w' /\ Z.of_nat k' <= end_pos - q) as Hfrom.
  { intros q Hq. remember (Z.to_nat (p - q)) as g eqn:Hg. revert q Hq Hg.
    induction g as [|g IH]; intros q Hq Hg.
    - replace q with p by lia. exists k. split; [done|lia].
    - destruct (IH (q + 1) ltac:(lia) ltac:(lia)) as (k' & Hk' & Hkb').
      exists (S k'). split; [|lia]. eapply rounds_more; [|exact Hk'].
      unfold count_round. rewrite u32_small by lia.
      rewrite (proj2 (Z.ltb_lt _ _)) by lia. cbn [negb].
      by erewrite bind_ok by (apply (parse_msg_skip conf Hc w' addr d Hm Ha);
        [lia|unfold MSG_HEAD_LEN; lia|apply Hcl; lia]); unfold ret; rewrite i32_small by lia. }
  destruct (Hfrom 0 ltac:(lia)) as (k' & Hk' & Hkb'). exists k', (Z.of_nat (length ms)). split_and!; [done|lia|done].
Qed.

(** The scan ends on any file: for every contents and every end position
    within the file, [mq_sm_db_cal_msg_count] returns, without a fault, a count
    of at most one message per twelve bytes. *)
Theorem cal_msg_count_total conf w fd d end_pos :
  conf_wf conf -> opened w fd (MAX_DB_FILE_SIZE conf) d -> data_bytes d ->
  w_faults w = [] -> 0 < w_next w -> w_maps w !! w_next w = None ->
  0 <= end_pos <= MAX_DB_FILE_SIZE conf ->
  exists c, mq_sm_db_cal_msg_count conf fd end_pos w = Ok (c, after_map w) /\
            0 <= c /\ c * MSG_HEAD_LEN <= MAX_DB_FILE_SIZE conf.
Proof.
  intros Hc Ho Hb Hnf Hn Hfr He. pose proof (MAX_DB_FILE_SIZE_range conf Hc).
  destruct (cal_msg_count_run conf w fd d end_pos
    (fun c => 0 <= c /\ c * MSG_HEAD_LEN <= MAX_DB_FILE_SIZE conf)) as (c & Hb' & E); try done.
  - intros w' addr Hm Ha.
    destruct (count_rounds_total conf Hc w' addr d Hm Ha Hb 0 0 msg_item_uninit end_pos)
      as (k & c & Hk & Hc0 & Hkb & Hcb); [lia|lia|lia|lia|].
    exists k, c. split_and!; [done|lia..].
  - exists c. unfold MSG_HEAD_LEN in *. by rewrite E, u32_small by lia.
Qed.

(** ** Witnesses: a file with one message behind its head *)
Definition sample_msg : smsg := (5, B "hi").
Definition sample_data : gmap Z Z := put_bytes ∅ 128 (encode sample_msg).

Lemma clean_put_empty off bs a b :
  b <= off \/ off + Z.of_nat (length bs) <= a -> clean (put_bytes ∅ off bs) a b.
Proof.
  intros H i Hi. rewrite byte_at_put_out by lia. unfold byte_at. by rewrite lookup_empty.
Qed.

Lemma sample_data_bytes : data_bytes sample_data.
Proof. apply put_bytes_byte; [apply empty_bytes|decide_it]. Qed.
Lemma sample_msg_wf : wf_msg sample_msg.
Proof. unfold wf_msg. split_and!; [cbn; lia|cbn; lia|decide_it|reflexivity|reflexivity]. Qed.
Lemma sample_layout : layout sample_data 128 [sample_msg] 142.
Proof. split; [exact sample_msg_wf|]. split; [exact (holds_put ∅ 128 _)|reflexivity]. Qed.
Lemma sample_opened :
  opened (sample_world 1048576 sample_data) 1 (MAX_DB_FILE_SIZE sample_conf) sample_data.
Proof. exists (Ofd 2 0 true true), (File 1048576 sample_data). split_and!; done. Qed.

Lemma parse_msg_roundtrip_witness : exists item',
  mq_sm_db_parse_msg sample_conf 3 128 msg_item_uninit (sample_world 1048576 sample_data)
    = Ok ((MSG_CHECK_RET_OK, item'), sample_world 1048576 sample_data) /\
  mdelay item' = 5 /\ mlen item' = 2 /\
  load_ptr (msg item') (mlen item') (sample_world 1048576 sample_data)
    = Ok (B "hi", sample_world 1048576 sample_data).
Proof.
  apply (parse_msg_roundtrip sample_conf (sample_world 1048576 sample_data) 3 sample_data 128
           sample_msg msg_item_uninit);
    [exact sample_conf_wf|exact (sample_mapped sample_data)|lia|exact sample_msg_wf
    |exact (holds_put ∅ 128 _)|lia|reflexivity || (vm_compute; discriminate)].
Defined.

Lemma parse_msg_safe_witness : exists r item',
  mq_sm_db_parse_msg sample_conf 3 130 msg_item_uninit (sample_world 1048576 sample_data)
    = Ok ((r, item'), sample_world 1048576 sample_data) /\
  (r = MSG_CHECK_RET_OK ->
     130 + MSG_HEAD_LEN + mlen item' <= MAX_DB_FILE_SIZE sample_conf /\
     msg item' = PMap 3 (130 + MSG_HEAD_LEN) /\
     crc16_append (get_bytes sample_data (130 + MSG_HEAD_LEN) (Z.to_nat (mlen item')))
       = crc16 item').
Proof.
  apply (parse_msg_safe sample_conf (sample_world 1048576 sample_data) 3 sample_data 130);
    [exact sample_conf_wf|exact (sample_mapped sample_data)|lia|exact sample_data_bytes|lia].
Defined.

Lemma cal_msg_count_layout_witness :
  mq_sm_db_cal_msg_count sample_conf 1 142 (sample_world 1048576 sample_data)
    = Ok (1, after_map (sample_world 1048576 sample_data)).
Proof.
  apply (cal_msg_count_layout sample_conf (sample_world 1048576 sample_data) 1 sample_data
           128 [sample_msg] 142 142);
    [exact sample_conf_wf|exact sample_opened|exact sample_data_bytes|reflexivity|reflexivity
    |reflexivity|exact sample_layout|vm_compute; split; discriminate
    |apply clean_put_empty; lia|vm_compute; split; discriminate|intros i; lia].
Defined.

Lemma cal_msg_count_total_witness : exists c,
  mq_sm_db_cal_msg_count sample_conf 1 1000 (sample_world 1048576 sample_data)
    = Ok (c, after_map (sample_world 1048576 sample_data)) /\
  0 <= c /\ c * MSG_HEAD_LEN <= MAX_DB_FILE_SIZE sample_conf.
Proof.
  apply (cal_msg_count_total sample_conf (sample_world 1048576 sample_data) 1 sample_data 1000);
    [exact sample_conf_wf|exact sample_opened|exact sample_data_bytes|reflexivity|reflexivity
    |reflexivity|vm_compute; split; discriminate].
Defined.
