(* ===== verification/StorePath.v ===== *)
(** * Names in the data directory (macros of source/mq_store_file.h)

    The paths of a queue's directory, of its data files and of its read tags,
    each printed into a fixed buffer and cut to fit.  [path_fits] is the
    condition under which nothing is cut; under it the paths of a queue are
    distinct for distinct indexes and kinds. *)
From S2P Require Import Prelude.
From S2P Require Import CLib.
From S2P Require Import World.
From S2P Require Import MqTypes.

Section Paths.
Context (conf : ucmq_conf).

Definition GEN_QUEUE_PATH_BY_QNAME (qname : bytes) : bytes :=
  snprintf MAX_DATA_PATH_NAME_LEN (data_file_path conf ++ B "/" ++ qname).
Definition GEN_RTAG_FULL_PATH_BY_QNAME_INDEX (qname : bytes) (index : Z) : bytes :=
  snprintf MAX_FULL_FILE_NAME_LEN
    (data_file_path conf ++ B "/" ++ qname ++ B "/rtag_" ++ pad 12 index).
Definition GEN_DATA_FULL_PATH_BY_QNAME_INDEX (qname : bytes) (index : Z) : bytes :=
  snprintf MAX_FULL_FILE_NAME_LEN
    (data_file_path conf ++ B "/" ++ qname ++ B "/db_" ++ pad 12 index).
Definition GEN_DATA_FULL_PATH_BY_FNAME (qname fname : bytes) : bytes :=
  snprintf MAX_FULL_FILE_NAME_LEN (data_file_path conf ++ B "/" ++ qname ++ B "/" ++ fname).
End Paths.

(** ** The names without the cut *)
Definition queue_dir (conf : ucmq_conf) (qn : bytes) : bytes := data_file_path conf ++ B "/" ++ qn.
Definition rtag_name (i : Z) : bytes := B "rtag_" ++ pad 12 i.
Definition db_name (i : Z) : bytes := B "db_" ++ pad 12 i.
Definition in_queue (conf : ucmq_conf) (qn name : bytes) : bytes := queue_dir conf qn ++ slash :: name.

#[global] Arguments queue_dir : simpl never.
#[global] Arguments rtag_name : simpl never.
#[global] Arguments db_name : simpl never.
#[global] Arguments in_queue : simpl never.

(** The path of the queue's directory fits its buffer. *)
Definition path_fits (conf : ucmq_conf) (qn : bytes) : Prop :=
  (length (data_file_path conf) + 1 + length qn <= 127)%nat.
#[export] Instance path_fits_dec conf qn : Decision (path_fits conf qn).
Proof. unfold path_fits. apply _. Defined.

Lemma snprintf_fits n s : (length s <= n - 1)%nat -> snprintf n s = s.
Proof. intros H. unfold snprintf. by rewrite take_ge. Qed.

Lemma length_B s : length (B s) = length (list_ascii_of_string s).
Proof. unfold B. by rewrite length_fmap. Qed.

Lemma ndigits_le20 v : 0 <= v -> (ndigits v <= 20)%nat.
Proof.
  intros _. unfold ndigits. generalize v. change 20%nat with (S 19). generalize 19%nat as n.
  induction n as [|n IH]; intros u; simpl; [lia|].
  destruct (u <? 10); [lia|]. specialize (IH (u / 10)). lia.
Qed.

Section Fits.
Context (conf : ucmq_conf) (qn : bytes) (Hfit : path_fits conf qn).

Lemma queue_path_eq : GEN_QUEUE_PATH_BY_QNAME conf qn = queue_dir conf qn.
Proof.
  apply snprintf_fits. unfold path_fits, MAX_DATA_PATH_NAME_LEN, queue_dir in *.
  rewrite !length_app. simpl. lia.
Qed.

Lemma full_fits name :
  (length name <= 25)%nat ->
  snprintf MAX_FULL_FILE_NAME_LEN (data_file_path conf ++ B "/" ++ qn ++ B "/" ++ name)
    = in_queue conf qn name.
Proof.
  intros Hn. rewrite snprintf_fits.
  - unfold in_queue, queue_dir. by rewrite <- !app_assoc.
  - unfold path_fits, MAX_FULL_FILE_NAME_LEN in *. rewrite !length_app. simpl. lia.
Qed.

Lemma rtag_path_eq i : 0 <= i ->
  GEN_RTAG_FULL_PATH_BY_QNAME_INDEX conf qn i = in_queue conf qn (rtag_name i).
Proof.
  intros Hi. rewrite <- full_fits; [done|].
  unfold rtag_name. rewrite length_app, pad_length. pose proof (ndigits_le20 i Hi). simpl. lia.
Qed.
Lemma db_path_eq i : 0 <= i ->
  GEN_DATA_FULL_PATH_BY_QNAME_INDEX conf qn i = in_queue conf qn (db_name i).
Proof.
  intros Hi. rewrite <- full_fits; [done|].
  unfold db_name. rewrite length_app, pad_length. pose proof (ndigits_le20 i Hi). simpl. lia.
Qed.
End Fits.

(** ** Distinct names *)
Lemma slash_not_pad n i : slash ∉ pad n i.
Proof. unfold pad. by apply fixed_no. Qed.

Lemma slash_not_db i : slash ∉ db_name i.
Proof.
  unfold db_name. rewrite elem_of_app. intros [H|H]; [|by apply slash_not_pad in H].
  revert H. decide_it.
Qed.
Lemma slash_not_rtag i : slash ∉ rtag_name i.
Proof.
  unfold rtag_name. rewrite elem_of_app. intros [H|H]; [|by apply slash_not_pad in H].
  revert H. decide_it.
Qed.

(** Ten to the twelfth: the indexes that print with exactly twelve digits. *)
Definition MAX_INDEX : Z := 10 ^ 12.

Lemma pad_inj i j : 0 <= i < LLONG_MAX -> 0 <= j < LLONG_MAX -> pad 12 i = pad 12 j -> i = j.
Proof.
  intros Hi Hj E. rewrite <- (atoll_pad 12 i), <- (atoll_pad 12 j) by lia. by rewrite E.
Qed.

Lemma db_name_inj i j :
  0 <= i < LLONG_MAX -> 0 <= j < LLONG_MAX -> db_name i = db_name j -> i = j.
Proof. intros Hi Hj E. apply app_inv_head in E. by apply pad_inj. Qed.

Lemma rtag_db_names i j : rtag_name i <> db_name j.
Proof. intros E%(f_equal head). discriminate. Qed.

Lemma in_queue_inj conf qn a b : in_queue conf qn a = in_queue conf qn b -> a = b.
Proof. unfold in_queue. intros E. apply app_inv_head in E. congruence. Qed.
