(* ===== verification/StoreRtag.v ===== *)
(** * source/mq_store_rtag.c

    The read tag of a queue: a text file to which every synchronisation appends
    one line of six ten-digit fields, and from which a restart takes the last
    line that can be parsed. *)
From S2P Require Import Prelude.
From S2P Require Import CLib.
From S2P Require Import World.
From S2P Require Import MqTypes.
From S2P Require Import MqUtil.
From S2P Require Import FileIo.
From S2P Require Import StorePath.

Definition READ_OPT_TIMEOUT : Z := 1.
Definition RTAG_ITEM_LEN : Z := 60.
Definition RTAG_FIELD_LEN : nat := 10.
Definition RTAG_FILE_HEAD_LEN : Z := 0.

(** The bound on the rounds of [read_n] and [write_n] on a regular file: each
    round but the last transfers at least one byte. *)
Definition rw_fuel (size : Z) : nat := S (S (Z.to_nat size)).

Section Rtag.
Context (conf : ucmq_conf).

Definition mq_sm_rtag_open_next_file (file_name : bytes) : M world Z :=
  let! fd := sys_open file_name true false true in
  if fd <? 0 then ret (-1) else ret fd.

Definition mq_sm_rtag_open_file (queue_file : queue_file) : M qstate bool :=
  let! q := queue in
  let rtag_file_name := GEN_DATA_FULL_PATH_BY_FNAME conf (qname q) (rtag_fname queue_file) in
  let! size := sys (get_file_size rtag_file_name) in
  if size <=? 0 then ret false
  else
    let! fd := sys (sys_open rtag_file_name false true true) in
    if fd <? 0 then ret false
    else update (with_rtag_fd fd) ;;; ret true.

Definition mq_sm_rtag_close_file : M qstate bool :=
  let! q := queue in
  if rtag_fd q <? 0 then ret true
  else
    let! _ := sys (sys_fsync (rtag_fd q)) in
    sys (sys_close (rtag_fd q)) ;;; ret true.

(** The digits of [str] as an [uint32_t]; [None] on another character. *)
Fixpoint str_to_num_from (num : Z) (str : bytes) : option Z :=
  match str with
  | [] => Some num
  | c :: rest => if (48 <=? c) && (c <=? 57)
                 then str_to_num_from (u32 (num * 10 + (c - 48))) rest else None
  end.
Definition str_to_num (str : bytes) (len : Z) : option Z :=
  if len <=? 0 then None else str_to_num_from 0 (take (Z.to_nat len) str).

(** Tests on unsigned fields that C makes with [< 0] are never true; [wlock]
    is an [int] and never above [INT_MAX]. *)
Definition check_rtag_item (q : mq_queue) : bool :=
  if u32 (MAX_DB_FILE_SIZE conf `quot` MSG_HEAD_LEN) <? opt_count (cur_rdb q) then false
  else if u32 (MAX_DB_FILE_SIZE conf) <? pos (cur_rdb q) then false
  else if u32 (MAX_DB_FILE_SIZE conf) <? pos (cur_wdb q) then false
  else if UINT_MAX <? maxque q then false
  else if INT_MAX <? wlock q then false
  else true.

(** [STR_TO_LL]: the field is stored, or the function returns false. *)
Definition STR_TO_LL (set : Z -> mq_queue -> mq_queue) (str : bytes) (k : M qstate (option bool))
    : M qstate (option bool) :=
  match str_to_num str (Z.of_nat RTAG_FIELD_LEN) with
  | Some num => update (set num) ;;; k
  | None => ret (Some false)
  end.

(** The fields of one token; [None] when the next token is tried. *)
Definition parse_rtag_token (token : bytes) : M qstate (option bool) :=
  if strlen token <? RTAG_ITEM_LEN then ret None
  else
    STR_TO_LL (fun v => with_rdb (with_opt_count v)) token
   (STR_TO_LL (fun v => with_rdb (with_pos v)) (drop RTAG_FIELD_LEN token)
   (STR_TO_LL (fun v => with_wdb (with_pos v)) (drop (2 * RTAG_FIELD_LEN) token)
   (STR_TO_LL with_maxque (drop (3 * RTAG_FIELD_LEN) token)
   (STR_TO_LL with_delay (drop (4 * RTAG_FIELD_LEN) token)
   (STR_TO_LL (fun v => with_wlock (i32 v)) (drop (5 * RTAG_FIELD_LEN) token)
     (let! q := queue in
      ret (if check_rtag_item q then Some true else None))))))).

Fixpoint parse_rtag_tokens (tokens : list bytes) : M qstate bool :=
  match tokens with
  | [] => ret false
  | token :: rest =>
      let! r := parse_rtag_token token in
      match r with
      | Some b => ret b
      | None => parse_rtag_tokens rest
      end
  end.
Definition parse_rtag_item (rtag_str : bytes) : M qstate bool :=
  parse_rtag_tokens (strtok 10 rtag_str).

(** One round of the [do .. while (1)] with the local [i]: [inr (Some b)]
    returns [b], [inr None] leaves the loop. *)
Definition rtag_read_round (i : Z) : M qstate (Z + option bool) :=
  let! q := queue in
  let read_interval := i32 (- (i * (RTAG_ITEM_LEN + 1))) in
  let! off := sys (sys_lseek (rtag_fd q) read_interval SEEK_END) in
  let offset := i32 off in
  if offset <? RTAG_FILE_HEAD_LEN then ret (inr None)
  else
    let size := 2 * (RTAG_ITEM_LEN + 1) in
    let! '(read_len, line) := sys (read_n (rw_fuel size) (rtag_fd q) FD_UNKNOWN size
                                     READ_OPT_TIMEOUT) in
    if 0 <=? read_len then
      let! ok := if RTAG_ITEM_LEN + 1 <=? read_len then parse_rtag_item (cstr line)
                 else ret false in
      if (ok : bool) then
        (if 1 <? i then update_wdb (with_pos (u32 (MAX_DB_FILE_SIZE conf))) else ret tt) ;;;
        ret (inr (Some true))
      else ret (inl (i32 (i + 1)))
    else ret (inr (Some false)).

(** Each round moves one line towards the head of the file; a file below
    2 GB has less than 2^26 lines. *)
Definition rtag_fuel : positive := 67108864.
Definition mq_sm_rtag_read_item : M qstate bool :=
  let! r := loop_from rtag_fuel rtag_read_round 1 in
  match r with
  | Some b => ret b
  | None =>
      update_rdb (with_opt_count 0) ;;;
      update_rdb (with_pos 0) ;;;
      update_wdb (with_pos (u32 (MAX_DB_FILE_SIZE conf))) ;;;
      update (with_maxque (def_max_queue conf)) ;;;
      update (with_delay (def_delay conf)) ;;;
      update (with_wlock 0) ;;;
      ret true
  end.

(** The line [mq_sm_rtag_write_item] prints. *)
Definition rtag_line (q : mq_queue) : bytes :=
  pad 10 (opt_count (cur_rdb q)) ++ pad 10 (pos (cur_rdb q)) ++ pad 10 (pos (cur_wdb q)) ++
  pad 10 (maxque q) ++ pad 10 (delay q) ++ pad 10 (u32 (wlock q)) ++ [10].

Definition mq_sm_rtag_write_item : M qstate bool :=
  let! q := queue in
  let rtag_buf := rtag_line q in
  let buf_size := Z.of_nat (length rtag_buf) in
  let! r := sys (write_n (rw_fuel buf_size) (rtag_fd q) FD_UNKNOWN rtag_buf buf_size
                   READ_OPT_TIMEOUT) in
  if r <? 0 then ret false else if r =? 0 then ret false else ret true.
End Rtag.

(** ** Whole transfers on regular files *)

(** [fd] is open for non blocking access on the file [f]. *)
Definition open_nb (w : world) (fd : Z) (o : ofd) (f : file) : Prop :=
  fd_file w fd = Some (o, f) /\ o_nonblock o = true.

(** The world after [bs] was written to [fd]. *)
Definition wrote (w : world) (fd : Z) (o : ofd) (f : file) (bs : bytes) : world :=
  let n := Z.of_nat (length bs) in
  let at_ := if o_append o then f_size f else o_pos o in
  set_inodes (<[o_ino o := File (Z.max (f_size f) (at_ + n)) (put_bytes (f_data f) at_ bs)]>
                (w_inodes w))
    (set_fds (<[fd := Ofd (o_ino o) (at_ + n) (o_append o) (o_nonblock o)]> (w_fds w)) w).

Lemma fd_file_fds w fd o f : fd_file w fd = Some (o, f) ->
  w_fds w !! fd = Some o /\ w_inodes w !! o_ino o = Some f.
Proof.
  unfold fd_file. intros H. destruct (w_fds w !! fd) as [o'|] eqn:E; [|done].
  destruct (w_inodes w !! o_ino o') eqn:Ei; [|done]. by simplify_eq.
Qed.

Lemma getfl_nb w fd o f : open_nb w fd o f -> is_nonblock fd FD_UNKNOWN w = Ok (1, w).
Proof.
  intros [H Hn]. apply fd_file_fds in H as [H _]. unfold is_nonblock, px_getfl, world_posix.
  unfold sys_getfl, gets, bind, ret. rewrite H. simpl. by rewrite Hn.
Qed.

Lemma write_n_file w fd o f bs :
  open_nb w fd o f -> w_faults w = [] -> bs <> [] ->
  write_n (rw_fuel (Z.of_nat (length bs))) fd FD_UNKNOWN bs (Z.of_nat (length bs))
    READ_OPT_TIMEOUT w = Ok (Z.of_nat (length bs), wrote w fd o f bs).
Proof.
  intros Hnb Hnf Hne. destruct Hnb as [Hf Hn] eqn:E. unfold write_n.
  erewrite bind_ok by (by eapply getfl_nb). cbn [Z.ltb Z.eqb Z.compare].
  unfold nonblock_write_n. erewrite bind_ok by done. cbn [nonblock_write_loop rw_fuel].
  set (n := Z.of_nat (length bs)).
  assert (remaining bs n 0 = bs) as Hrem.
  { unfold remaining, n. rewrite Z.sub_0_r. simpl. rewrite Nat2Z.id. by apply take_ge. }
  assert (0 < n) as Hpos by (unfold n; destruct bs; simpl; [done|lia]).
  erewrite bind_ok; cycle 1.
  { unfold px_write, world_posix, sys_write, pick_fault, bind, ret.
    rewrite Hnf, Hrem, Hf. cbn. fold n.
    rewrite (proj2 (Z.ltb_ge n 0)) by lia. reflexivity. }
  cbv beta iota. rewrite (proj2 (Z.ltb_lt 0 n)) by lia. unfold again. rewrite Z.add_0_l, Z.ltb_irrefl. done.
Qed.

(** The world after [k] bytes were read from [fd]. *)
Definition moved (w : world) (fd : Z) (o : ofd) (k : Z) : world :=
  set_fds (<[fd := Ofd (o_ino o) k (o_append o) (o_nonblock o)]> (w_fds w)) w.

Lemma fd_file_moved w fd o f k : fd_file w fd = Some (o, f) ->
  fd_file (moved w fd o k) fd = Some (Ofd (o_ino o) k (o_append o) (o_nonblock o), f).
Proof.
  intros [_ H]%fd_file_fds. unfold fd_file, moved. cbn. rewrite lookup_insert_eq. cbn.
  by rewrite H.
Qed.

Lemma moved_moved w fd o k k' ap nb :
  moved (moved w fd o k) fd (Ofd (o_ino o) k ap nb) k' = moved w fd (Ofd (o_ino o) 0 ap nb) k'.
Proof. unfold moved, set_fds. cbn. f_equal. by rewrite insert_insert_eq. Qed.

Lemma sys_read_file w fd o f n k :
  fd_file w fd = Some (o, f) -> w_faults w = [] ->
  Z.to_nat (Z.min n (f_size f - o_pos o)) = k ->
  sys_read fd n w =
    Ok (Some (get_bytes (f_data f) (o_pos o) k), moved w fd o (o_pos o + Z.of_nat k)).
Proof.
  intros Hf Hnf <-. unfold sys_read, pick_fault, bind, ret. rewrite Hnf, Hf. done.
Qed.

Lemma read_loop_eof {S : Type} `{Posix S} fuel fd size t abs got (s s' : S) :
  px_read fd (size - Z.of_nat (length got)) s = Ok (RD [], s') ->
  nonblock_read_loop (Datatypes.S fuel) fd size t abs got s = Ok ((Z.of_nat (length got), got), s').
Proof. intros E. cbn [nonblock_read_loop]. by erewrite bind_ok by exact E. Qed.

Lemma read_loop_more {S : Type} `{Posix S} fuel fd size t abs got bs (s s' : S) :
  px_read fd (size - Z.of_nat (length got)) s = Ok (RD bs, s') -> bs <> [] ->
  nonblock_read_loop (Datatypes.S fuel) fd size t abs got s =
  if again (Z.of_nat (length (got ++ bs))) size t
  then nonblock_read_loop fuel fd size t abs (got ++ bs) s'
  else Ok ((Z.of_nat (length (got ++ bs)), got ++ bs), s').
Proof.
  intros E Hne. cbn [nonblock_read_loop]. erewrite bind_ok by exact E. cbv beta iota.
  destruct bs; [done|]. by destruct (again _ _ _).
Qed.

(** [read_n] takes what is left of the file, at most [n] bytes. *)
Lemma read_n_file w fd o f n k :
  open_nb w fd o f -> w_faults w = [] -> 0 < n ->
  Z.to_nat (Z.min n (f_size f - o_pos o)) = k -> (0 < k)%nat ->
  read_n (rw_fuel n) fd FD_UNKNOWN n READ_OPT_TIMEOUT w =
    Ok ((Z.of_nat k, get_bytes (f_data f) (o_pos o) k), moved w fd o (o_pos o + Z.of_nat k)).
Proof.
  intros Hnb Hnf Hn Hk Hk0. pose proof Hnb as [Hf Hnbl]. unfold read_n.
  erewrite bind_ok by (by eapply getfl_nb). cbn [Z.ltb Z.eqb Z.compare].
  unfold nonblock_read_n. erewrite bind_ok by done. unfold rw_fuel.
  set (g := get_bytes (f_data f) (o_pos o) k).
  assert (length g = k) as Hg by apply length_get_bytes.
  erewrite read_loop_more; cycle 1.
  { unfold px_read, world_posix. rewrite Z.sub_0_r.
    erewrite bind_ok by (by eapply sys_read_file). reflexivity. }
  { fold g. intros E. rewrite E in Hg. simpl in Hg. lia. }
  fold g. change ([] ++ g) with g. rewrite Hg. unfold again.
  destruct (Z.ltb_spec (Z.of_nat k) n); [|done]. cbn [andb negb Z.eqb READ_OPT_TIMEOUT].
  erewrite read_loop_eof; cycle 1.
  { unfold px_read, world_posix. rewrite Hg. erewrite bind_ok; cycle 1.
    { eapply (sys_read_file _ _ _ _ _ 0); [by apply fd_file_moved|done|cbn; lia]. }
    reflexivity. }
  rewrite Hg, Z.add_0_r. cbn [o_pos o_append o_nonblock]. by rewrite moved_moved.
Qed.

(** ** Printing and parsing a line *)
Lemma str_to_num_from_app num a b :
  str_to_num_from num (a ++ b) =
  match str_to_num_from num a with Some v => str_to_num_from v b | None => None end.
Proof.
  revert num. induction a as [|c a IH]; intros num; simpl; [done|].
  destruct (_ && _); [apply IH|done].
Qed.

Lemma str_to_num_from_fixed n v :
  0 <= v -> str_to_num_from 0 (fixed n v) = Some (u32 (v mod 10 ^ Z.of_nat n)).
Proof.
  revert v. induction n as [|n IH]; intros v Hv.
  - simpl. by rewrite Z.mod_1_r.
  - cbn [fixed]. rewrite str_to_num_from_app, IH by (apply Z.div_pos; lia).
    pose proof (Z.mod_pos_bound v 10 ltac:(lia)). cbn [str_to_num_from].
    rewrite (proj2 (Z.leb_le 48 _)), (proj2 (Z.leb_le _ 57)) by lia. cbn [andb].
    rewrite mod_pow10_S. f_equal. unfold u32.
    rewrite Z.add_mod, Z.mul_mod_idemp_l, <- Z.add_mod by lia. f_equal. lia.
Qed.

Lemma pad10_fixed v : 0 <= v < 4294967296 -> pad 10 v = fixed 10 v.
Proof. intros Hv. apply pad_fixed; [lia|]. change (10 ^ Z.of_nat 10) with 10000000000. lia. Qed.

Lemma length_pad10 v : 0 <= v < 4294967296 -> length (pad 10 v) = 10%nat.
Proof. intros Hv. rewrite pad10_fixed by done. apply length_fixed. Qed.

Lemma str_to_num_pad10 v rest :
  0 <= v < 4294967296 -> str_to_num (pad 10 v ++ rest) 10 = Some v.
Proof.
  intros Hv. unfold str_to_num. cbn [Z.leb Z.compare].
  rewrite take_app_length' by (by rewrite length_pad10).
  rewrite pad10_fixed, str_to_num_from_fixed by lia.
  change (10 ^ Z.of_nat 10) with 10000000000. by rewrite Z.mod_small, u32_small by lia.
Qed.

(** The queues whose tag [check_rtag_item] accepts, with fields in the range of
    their C types. *)
Definition rtag_ok (conf : ucmq_conf) (q : mq_queue) : Prop :=
  0 <= opt_count (cur_rdb q) <= MAX_DB_FILE_SIZE conf `quot` MSG_HEAD_LEN /\
  0 <= pos (cur_rdb q) <= MAX_DB_FILE_SIZE conf /\
  0 <= pos (cur_wdb q) <= MAX_DB_FILE_SIZE conf /\
  0 <= maxque q <= UINT_MAX /\ 0 <= delay q <= UINT_MAX /\
  -2147483648 <= wlock q <= INT_MAX.

(** The queue [q] with the positions and settings of [t]. *)
Definition restore (t q : mq_queue) : mq_queue :=
  with_wlock (wlock t) (with_delay (delay t) (with_maxque (maxque t)
    (with_wdb (with_pos (pos (cur_wdb t))) (with_rdb (with_pos (pos (cur_rdb t)))
      (with_rdb (with_opt_count (opt_count (cur_rdb t))) q))))).

(** A line without its newline. *)
Definition rtag_text (q : mq_queue) : bytes :=
  pad 10 (opt_count (cur_rdb q)) ++ pad 10 (pos (cur_rdb q)) ++ pad 10 (pos (cur_wdb q)) ++
  pad 10 (maxque q) ++ pad 10 (delay q) ++ pad 10 (u32 (wlock q)).

Lemma rtag_line_text q : rtag_line q = rtag_text q ++ [10].
Proof. unfold rtag_line, rtag_text. by rewrite <- !app_assoc. Qed.

Lemma rtag_text_digits q : Forall (fun c => isdigit c = true) (rtag_text q).
Proof. unfold rtag_text. repeat apply Forall_app_2; apply fixed_digits. Qed.

Lemma digits_not c s : isdigit c = false -> Forall (fun c => isdigit c = true) s -> c ∉ s.
Proof. intros Hc H Hin. rewrite Forall_forall in H. apply H in Hin. congruence. Qed.

Section Line.
Context (conf : ucmq_conf) (Hconf : conf_wf conf).
Implicit Types (t q : mq_queue).

Lemma rtag_ok_u32 t : rtag_ok conf t ->
  (0 <= opt_count (cur_rdb t) < 4294967296 /\ 0 <= pos (cur_rdb t) < 4294967296 /\
   0 <= pos (cur_wdb t) < 4294967296) /\
  (0 <= maxque t < 4294967296 /\ 0 <= delay t < 4294967296).
Proof.
  pose proof (MAX_DB_FILE_SIZE_range conf Hconf). unfold rtag_ok, MSG_HEAD_LEN, UINT_MAX.
  rewrite Z.quot_div_nonneg by lia. intros (?&?&?&?&?&?).
  assert (MAX_DB_FILE_SIZE conf / 12 < 4294967296)
    by (apply Z.div_lt_upper_bound; lia). lia.
Qed.

Lemma length_rtag_text t : rtag_ok conf t -> length (rtag_text t) = 60%nat.
Proof.
  intros Ht. destruct (rtag_ok_u32 t Ht) as ((?&?&?)&?&?).
  unfold rtag_text. rewrite !length_app, !length_pad10; try done. apply u32_range.
Qed.
Lemma length_rtag_line t : rtag_ok conf t -> length (rtag_line t) = 61%nat.
Proof. intros Ht. rewrite rtag_line_text, length_app, length_rtag_text by done. done. Qed.

Lemma check_restored t q : rtag_ok conf t -> check_rtag_item conf (restore t q) = true.
Proof.
  intros Ht. pose proof (MAX_DB_FILE_SIZE_range conf Hconf).
  destruct Ht as (?&?&?&?&?&?). unfold check_rtag_item, restore. cbn.
  unfold MSG_HEAD_LEN in *. rewrite Z.quot_div_nonneg in * by lia.
  assert (MAX_DB_FILE_SIZE conf / 12 < 4294967296) by (apply Z.div_lt_upper_bound; lia).
  assert (0 <= MAX_DB_FILE_SIZE conf / 12) by (apply Z.div_pos; lia).
  rewrite !u32_small by lia. by rewrite !(proj2 (Z.ltb_ge _ _)) by lia.
Qed.

Lemma STR_TO_LL_pad v rest set k w q :
  0 <= v < 4294967296 ->
  STR_TO_LL set (pad 10 v ++ rest) k (QState w q) = k (QState w (set v q)).
Proof.
  intros Hv. unfold STR_TO_LL. change (Z.of_nat RTAG_FIELD_LEN) with 10.
  by rewrite str_to_num_pad10.
Qed.

Lemma drop_pad10 v rest n : 0 <= v < 4294967296 ->
  drop (10 + n) (pad 10 v ++ rest) = drop n rest.
Proof. intros Hv. rewrite <- drop_drop. by rewrite drop_app_length' by (by rewrite length_pad10). Qed.

Lemma drop_pad10_0 v rest : 0 <= v < 4294967296 -> drop 10 (pad 10 v ++ rest) = rest.
Proof. intros Hv. by rewrite drop_app_length' by (by rewrite length_pad10). Qed.

(** A printed line is read back. *)
Lemma parse_rtag_text t w q :
  rtag_ok conf t ->
  parse_rtag_token conf (rtag_text t) (QState w q) =
    Ok (Some true, QState w (restore t q)).
Proof.
  intros Ht. unfold parse_rtag_token, strlen. rewrite length_rtag_text by done.
  change (Z.of_nat 60 <? RTAG_ITEM_LEN) with false. cbv iota.
  destruct (rtag_ok_u32 t Ht) as ((?&?&?)&?&?). pose proof (u32_range (wlock t)).
  unfold rtag_text at 1. rewrite STR_TO_LL_pad by done. unfold rtag_text, RTAG_FIELD_LEN.
  change (5 * 10)%nat with (10 + (10 + (10 + (10 + (10 + 0)))))%nat.
  change (4 * 10)%nat with (10 + (10 + (10 + (10 + 0))))%nat.
  change (3 * 10)%nat with (10 + (10 + (10 + 0)))%nat.
  change (2 * 10)%nat with (10 + (10 + 0))%nat.
  rewrite drop_pad10_0, !drop_pad10 by done. rewrite !drop_0.
  rewrite !STR_TO_LL_pad by done. rewrite <- (app_nil_r (pad 10 (u32 (wlock t)))).
  rewrite STR_TO_LL_pad by done. unfold bind, queue, gets, ret. cbn [qs_q].
  rewrite i32_u32, (i32_small (wlock t)) by (destruct Ht as (?&?&?&?&?&?); unfold INT_MAX in *; lia).
  fold (restore t q). by rewrite check_restored.
Qed.

(** Tokens that are too short are skipped. *)
Lemma parse_short_token s rest st :
  (length s < 60)%nat -> parse_rtag_tokens conf (s :: rest) st = parse_rtag_tokens conf rest st.
Proof.
  intros Hs. cbn [parse_rtag_tokens]. unfold parse_rtag_token, strlen, RTAG_ITEM_LEN.
  by rewrite (proj2 (Z.ltb_lt _ _)) by lia.
Qed.

Lemma strtok_short s rest st :
  10 ∉ s -> (length s < 60)%nat ->
  parse_rtag_tokens conf (strtok 10 (s ++ 10 :: rest)) st =
  parse_rtag_tokens conf (strtok 10 rest) st.
Proof.
  intros Hs Hl. destruct (decide (s = [])) as [->|Hne]; [done|].
  rewrite strtok_cons by done. by apply parse_short_token.
Qed.

Lemma parse_rtag_line t rest w q :
  rtag_ok conf t ->
  parse_rtag_tokens conf (strtok 10 (rtag_line t ++ rest)) (QState w q) =
    Ok (true, QState w (restore t q)).
Proof.
  intros Ht. rewrite rtag_line_text, <- app_assoc. cbn [app].
  rewrite strtok_cons.
  - cbn [parse_rtag_tokens]. by erewrite bind_ok by (by apply parse_rtag_text).
  - by apply digits_not, rtag_text_digits.
  - intros E. apply (f_equal length) in E. by rewrite length_rtag_text in E.
Qed.
End Line.

(** ** Reading the file *)
Lemma cstr_nonzero s : 0 ∉ s -> cstr s = s.
Proof. apply cstr_id. Qed.

Lemma text_no_nul q : 0 ∉ rtag_line q.
Proof.
  rewrite rtag_line_text. intros [H|H]%elem_of_app.
  - revert H. by apply digits_not, rtag_text_digits.
  - revert H. decide_it.
Qed.

Lemma holds_suffix d off a b :
  holds d off (a ++ b) -> get_bytes d (off + Z.of_nat (length a)) (length b) = b.
Proof. by intros [_ H]%holds_app. Qed.

Lemma lseek_end w fd o f off :
  fd_file w fd = Some (o, f) -> 0 <= f_size f + off ->
  sys_lseek fd off SEEK_END w = Ok (f_size f + off, moved w fd o (f_size f + off)).
Proof.
  intros Hf Ho. unfold sys_lseek. rewrite Hf.
  by rewrite (proj2 (Z.ltb_ge (f_size f + off) 0)) by lia.
Qed.

Section Read.
Context (conf : ucmq_conf) (Hconf : conf_wf conf).

(** Round [i] parses the line [i] from the end, and the one behind it. *)
Lemma rtag_read_round_eq w q o f i line :
  open_nb w (rtag_fd q) o f -> w_faults w = [] -> f_size f < 2147483648 ->
  1 <= i -> 61 * i <= f_size f ->
  get_bytes (f_data f) (f_size f - 61 * i) (Z.to_nat (61 * Z.min i 2)) = line ->
  exists w1 o1, open_nb w1 (rtag_fd q) o1 f /\ w_faults w1 = [] /\
  (exists k, w1 = moved w (rtag_fd q) o k) /\
  rtag_read_round conf i (QState w q) =
    (let! ok := parse_rtag_item conf (cstr line) in
     if (ok : bool) then
       (if 1 <? i then update_wdb (with_pos (u32 (MAX_DB_FILE_SIZE conf))) else ret tt) ;;;
       ret (inr (Some true))
     else ret (inl (i32 (i + 1)))) (QState w1 q).
Proof.
  intros Hnb Hnf Hsz Hi Hle Hline. pose proof Hnb as [Hf Hn].
  set (p := f_size f + - (61 * i)).
  set (k := Z.to_nat (61 * Z.min i 2)) in *.
  set (o1 := Ofd (o_ino o) p (o_append o) (o_nonblock o)).
  set (w1 := moved w (rtag_fd q) o p).
  assert (open_nb w1 (rtag_fd q) o1 f) as Hnb1 by (split; [by apply fd_file_moved|done]).
  exists (moved w1 (rtag_fd q) o1 (p + Z.of_nat k)), (Ofd (o_ino o1) (p + Z.of_nat k)
    (o_append o1) (o_nonblock o1)).
  split_and!; [split; [apply fd_file_moved; apply Hnb1|done]|done|eexists; apply moved_moved|].
  unfold rtag_read_round. erewrite bind_ok by done. cbv beta zeta. cbn [qs_q].
  unfold RTAG_ITEM_LEN, RTAG_FILE_HEAD_LEN. rewrite (i32_small (- (i * (60 + 1)))) by lia.
  replace (- (i * (60 + 1))) with (- (61 * i)) by lia.
  erewrite bind_ok by (apply sys_ok; apply lseek_end; [exact Hf|lia]). cbv beta.
  fold p. fold w1. rewrite (i32_small p) by (unfold p; lia).
  rewrite (proj2 (Z.ltb_ge p 0)) by (unfold p; lia).
  erewrite bind_ok; cycle 1.
  { apply sys_ok. apply (read_n_file w1 (rtag_fd q) o1 f _ k); try done.
    - unfold k, p. cbn [o_pos o1]. unfold p. lia.
    - unfold k. lia. }
  cbv beta iota. rewrite (proj2 (Z.leb_le 0 _)) by lia.
  rewrite (proj2 (Z.leb_le (60 + 1) _)) by (unfold k; lia).
  replace (o_pos o1) with (f_size f - 61 * i) by (cbn; unfold p; lia). by rewrite Hline.
Qed.

(** The last line of the file is a printed tag. *)
Lemma rtag_read_last w q o f t :
  open_nb w (rtag_fd q) o f -> w_faults w = [] -> 61 <= f_size f < 2147483648 ->
  rtag_ok conf t -> holds (f_data f) (f_size f - 61) (rtag_line t) ->
  exists k, mq_sm_rtag_read_item conf (QState w q)
            = Ok (true, QState (moved w (rtag_fd q) o k) (restore t q)).
Proof.
  intros Hnb Hnf Hsz Ht Hh. unfold holds in Hh. rewrite (length_rtag_line conf) in Hh by done.
  destruct (rtag_read_round_eq w q o f 1 (rtag_line t)) as (w1 & o1 & _ & _ & (k & ->) & E);
    try done; try lia.
  rewrite (cstr_nonzero _ (text_no_nul t)) in E.
  unfold parse_rtag_item in E. rewrite <- (app_nil_r (rtag_line t)) in E.
  erewrite bind_ok in E by (by apply parse_rtag_line).
  exists k. unfold mq_sm_rtag_read_item.
  by erewrite bind_ok by (eapply loop_from_ok; [by apply rounds_done, E|unfold rtag_fuel; lia]).
Qed.
End Read.

(** The world after the line of [q] was written. *)
Lemma rtag_write_ok conf w q o f :
  conf_wf conf -> rtag_ok conf q -> open_nb w (rtag_fd q) o f -> w_faults w = [] ->
  mq_sm_rtag_write_item (QState w q) = Ok (true, QState (wrote w (rtag_fd q) o f (rtag_line q)) q).
Proof.
  intros Hc Hq Hnb Hnf. unfold mq_sm_rtag_write_item. erewrite bind_ok by done. cbv beta zeta.
  pose proof (length_rtag_line conf Hc q Hq) as Hl. cbn [qs_q].
  erewrite bind_ok; cycle 1.
  { apply sys_ok. apply write_n_file; [exact Hnb|done|]. intros E. by rewrite E in Hl. }
  cbv beta. by rewrite Hl.
Qed.

(** ** Torn writes *)
Section Torn.
Context (conf : ucmq_conf) (Hconf : conf_wf conf).

(** [drop j] of a line is a short token and its newline. *)
Lemma drop_line q j : rtag_ok conf q -> (j <= 60)%nat ->
  drop j (rtag_line q) = drop j (rtag_text q) ++ [10].
Proof.
  intros Hq Hj. rewrite rtag_line_text, drop_app_le; [done|].
  by rewrite (length_rtag_text conf).
Qed.

Lemma parse_dropped q j rest st : rtag_ok conf q -> (1 <= j <= 60)%nat ->
  parse_rtag_tokens conf (strtok 10 (drop j (rtag_line q) ++ rest)) st =
  parse_rtag_tokens conf (strtok 10 rest) st.
Proof.
  intros Hq Hj. rewrite drop_line, <- app_assoc by (done || lia). apply strtok_short.
  - apply digits_not; [done|]. apply Forall_drop, rtag_text_digits.
  - rewrite length_drop, (length_rtag_text conf) by done. lia.
Qed.

Lemma parse_junk junk st : 10 ∉ junk -> (0 < length junk < 60)%nat ->
  parse_rtag_tokens conf (strtok 10 junk) st = Ok (false, st).
Proof.
  intros Hj Hl. rewrite strtok_one; [|done|by intros ->; simpl in Hl; lia].
  by rewrite parse_short_token by lia.
Qed.

Lemma drop_no_nul q j : 0 ∉ drop j (rtag_line q).
Proof. intros H. apply (text_no_nul q). eapply elem_of_subseteq; [apply subseteq_drop|done]. Qed.

Lemma torn_first_round w q o f t junk :
  open_nb w (rtag_fd q) o f -> w_faults w = [] -> f_size f < 2147483648 ->
  rtag_ok conf t -> 10 ∉ junk -> 0 ∉ junk -> (0 < length junk < 60)%nat ->
  61 + Z.of_nat (length junk) <= f_size f ->
  holds (f_data f) (f_size f - 61 - Z.of_nat (length junk)) (rtag_line t ++ junk) ->
  exists w1 o1, open_nb w1 (rtag_fd q) o1 f /\ w_faults w1 = [] /\
    rtag_read_round conf 1 (QState w q) = Ok (inl 2, QState w1 q).
Proof.
  intros Hnb Hnf Hsz Ht H10 H0 Hj Hlen Hh. set (j := length junk) in *.
  pose proof (length_rtag_line conf Hconf t Ht) as Hl.
  destruct (rtag_read_round_eq conf w q o f 1 (drop j (rtag_line t) ++ junk))
    as (w1 & o1 & Hnb1 & Hnf1 & _ & E); try done; try lia.
  { rewrite <- (take_drop j (rtag_line t)), <- app_assoc in Hh. apply holds_suffix in Hh.
    rewrite !length_app, length_take, length_drop, Hl in Hh. fold j in Hh. rewrite <- Hh. f_equal; lia. }
  exists w1, o1. split_and!; [done..|]. rewrite E, cstr_nonzero; cycle 1.
  { intros [H|H]%elem_of_app; [by apply drop_no_nul in H|done]. }
  unfold parse_rtag_item. erewrite bind_ok; [|rewrite parse_dropped by (done || lia);
    by apply parse_junk]. done.
Qed.

Lemma torn_second_round w q o f t0 t junk :
  open_nb w (rtag_fd q) o f -> w_faults w = [] -> f_size f < 2147483648 ->
  rtag_ok conf t0 -> rtag_ok conf t -> 0 ∉ junk -> (0 < length junk < 60)%nat ->
  122 + Z.of_nat (length junk) <= f_size f ->
  holds (f_data f) (f_size f - 122 - Z.of_nat (length junk))
    (rtag_line t0 ++ rtag_line t ++ junk) ->
  exists w1, rtag_read_round conf 2 (QState w q) =
    Ok (inr (Some true),
        QState w1 (with_wdb (with_pos (u32 (MAX_DB_FILE_SIZE conf))) (restore t q))).
Proof.
  intros Hnb Hnf Hsz Ht0 Ht H0 Hj Hlen Hh. set (j := length junk) in *.
  pose proof (length_rtag_line conf Hconf t Ht) as Hl.
  pose proof (length_rtag_line conf Hconf t0 Ht0) as Hl0.
  destruct (rtag_read_round_eq conf w q o f 2 (drop j (rtag_line t0) ++ rtag_line t ++ junk))
    as (w1 & o1 & Hnb1 & Hnf1 & _ & E); try done; try lia.
  { rewrite <- (take_drop j (rtag_line t0)), <- app_assoc in Hh.
    apply holds_suffix in Hh. rewrite !length_app, length_take, length_drop, Hl, Hl0 in Hh.
    fold j in Hh. rewrite <- Hh. f_equal; lia. }
  exists w1. rewrite E, cstr_nonzero; cycle 1.
  { intros [H|[H|H]%elem_of_app]%elem_of_app;
      [by apply drop_no_nul in H|by apply text_no_nul in H|done]. }
  unfold parse_rtag_item. erewrite bind_ok;
    [|rewrite parse_dropped by (done || lia); by apply parse_rtag_line]. done.
Qed.
End Torn.

(** ** Reading ends on every file *)
Lemma px_read_total w fd o f n :
  open_nb w fd o f ->
  exists r o' w', px_read fd n w = Ok (r, w') /\ open_nb w' fd o' f /\
    match r with
    | RD bs => (length bs <= Z.to_nat n)%nat
    | RD_ERR e => e = EOTHER
    end.
Proof.
  intros [Hf Hn]. unfold px_read, world_posix, sys_read, pick_fault.
  destruct (w_faults w) as [|[] fl] eqn:Ef.
  - unfold bind, ret. rewrite Ef, Hf. eexists _, _, _. split; [done|].
    split; [split; [by apply fd_file_moved|done]|]. rewrite length_get_bytes. lia.
  - unfold bind, ret. rewrite Ef. eexists _, o, _. split; [done|]. done.
  - unfold bind, ret. rewrite Ef. change (fd_file (set_faults fl w) fd) with (fd_file w fd). rewrite Hf.
    eexists _, _, _. split; [done|].
    split; [split; [by apply (fd_file_moved (set_faults fl w))|done]|].
    rewrite length_get_bytes. lia.
Qed.

Lemma nonblock_read_total fuel w fd o f size t abs got :
  open_nb w fd o f -> (Z.to_nat size < fuel + length got)%nat ->
  Z.of_nat (length got) <= size ->
  exists r o' w', nonblock_read_loop fuel fd size t abs got w = Ok (r, w') /\ open_nb w' fd o' f.
Proof.
  revert w o got. induction fuel as [|fuel IH]; intros w o got Hnb Hfuel Hgot; [lia|].
  destruct (px_read_total w fd o f (size - Z.of_nat (length got)) Hnb)
    as (r & o' & w' & E & Hnb' & Hr). destruct r as [bs|e].
  - destruct (decide (bs = [])) as [->|Hne].
    + erewrite read_loop_eof by exact E. eauto.
    + erewrite read_loop_more by (exact E || done). destruct (again _ _ _); [|eauto].
      assert (0 < length bs)%nat by (destruct bs; simpl; [done|lia]).
      eapply IH; [exact Hnb'|rewrite length_app; lia|rewrite length_app; lia].
  - subst e. cbn [nonblock_read_loop]. erewrite bind_ok by exact E. eauto.
Qed.

Lemma read_n_total w fd o f n :
  open_nb w fd o f -> 0 <= n ->
  exists r o' w', read_n (rw_fuel n) fd FD_UNKNOWN n READ_OPT_TIMEOUT w = Ok (r, w') /\
                  open_nb w' fd o' f.
Proof.
  intros Hnb Hn. unfold read_n. erewrite bind_ok by (by eapply getfl_nb).
  cbn [Z.ltb Z.eqb Z.compare]. unfold nonblock_read_n. erewrite bind_ok by done.
  eapply nonblock_read_total; [exact Hnb|unfold rw_fuel; simpl; lia|simpl; lia].
Qed.

(** Parsing keeps the world and the descriptor. *)
Lemma parse_rtag_token_total conf token w q :
  exists r q', parse_rtag_token conf token (QState w q) = Ok (r, QState w q') /\
    rtag_fd q' = rtag_fd q /\ (r = Some true -> check_rtag_item conf q' = true).
Proof.
  unfold parse_rtag_token, STR_TO_LL. destruct (_ <? _); [by eexists _, q|].
  repeat (destruct (str_to_num _ _); [|by eexists _, _]).
  unfold bind, update, modify, queue, gets, ret. cbn [qs_w qs_q].
  eexists _, _. split; [done|]. split; [done|]. by destruct (check_rtag_item _ _).
Qed.

Lemma parse_rtag_tokens_total conf tokens w q :
  exists r q', parse_rtag_tokens conf tokens (QState w q) = Ok (r, QState w q') /\
    rtag_fd q' = rtag_fd q /\ (r = true -> check_rtag_item conf q' = true).
Proof.
  revert q. induction tokens as [|t ts IH]; intros q; [by eexists _, q|].
  cbn [parse_rtag_tokens].
  destruct (parse_rtag_token_total conf t w q) as (r & q1 & E & Hfd & Hok).
  erewrite bind_ok by exact E. destruct r as [b|].
  - eexists _, _. split; [done|]. split; [done|]. intros ->. auto.
  - destruct (IH q1) as (r & q2 & E2 & Hfd2 & Hok2). exists r, q2. rewrite Hfd2. eauto.
Qed.

Lemma check_rtag_positions conf q :
  conf_wf conf -> check_rtag_item conf q = true ->
  pos (cur_rdb q) <= MAX_DB_FILE_SIZE conf /\ pos (cur_wdb q) <= MAX_DB_FILE_SIZE conf.
Proof.
  intros Hc. pose proof (MAX_DB_FILE_SIZE_range conf Hc). unfold check_rtag_item.
  rewrite (u32_small (MAX_DB_FILE_SIZE conf)) by lia.
  destruct (_ <? opt_count _); [done|].
  destruct (Z.ltb_spec (MAX_DB_FILE_SIZE conf) (pos (cur_rdb q))); [done|].
  destruct (Z.ltb_spec (MAX_DB_FILE_SIZE conf) (pos (cur_wdb q))); [done|]. lia.
Qed.

(** One round on any file: it ends the loop, or goes on with the next line. *)
Lemma rtag_read_round_total conf w q o f i :
  conf_wf conf -> open_nb w (rtag_fd q) o f -> 0 <= f_size f < 2147483587 ->
  1 <= i -> 61 * i <= 2147483648 ->
  exists r o' w' q', rtag_read_round conf i (QState w q) = Ok (r, QState w' q') /\
    rtag_fd q' = rtag_fd q /\ open_nb w' (rtag_fd q') o' f /\
    (forall j, r = inl j -> j = i + 1 /\ 61 * i <= f_size f) /\
    (r = inr (Some true) -> pos (cur_rdb q') <= MAX_DB_FILE_SIZE conf /\
                            pos (cur_wdb q') <= MAX_DB_FILE_SIZE conf).
Proof.
  intros Hc Hnb Hsz Hi Hi'. pose proof Hnb as [Hf Hn]. unfold rtag_read_round.
  erewrite bind_ok by done. cbv beta zeta. cbn [qs_q].
  unfold RTAG_ITEM_LEN, RTAG_FILE_HEAD_LEN. rewrite (i32_small (- _)) by lia.
  destruct (decide (f_size f + - (i * 61) < 0)) as [Hneg|Hpos].
  { erewrite bind_ok by (apply sys_ok; unfold sys_lseek; rewrite Hf, (proj2 (Z.ltb_lt _ 0)) by lia;
      reflexivity).
    eexists _, o, w, q. by split_and!. }
  erewrite bind_ok by (apply sys_ok; apply lseek_end; [exact Hf|lia]). cbv beta.
  rewrite (i32_small (f_size f + _)), (proj2 (Z.ltb_ge _ 0)) by lia.
  set (w1 := moved w (rtag_fd q) o _).
  destruct (read_n_total w1 (rtag_fd q) (Ofd (o_ino o) (f_size f + - (i * (60 + 1)))
    (o_append o) (o_nonblock o)) f (2 * (60 + 1))) as ([n line] & o2 & w2 & E & Hnb2);
    [split; [by apply fd_file_moved|done]|lia|].
  erewrite bind_ok by (apply sys_ok; exact E). cbv beta iota.
  destruct (0 <=? n); [|by eexists _, o2, w2, q].
  destruct (60 + 1 <=? n); unfold parse_rtag_item.
  - destruct (parse_rtag_tokens_total conf (strtok 10 (cstr line)) w2 q) as (r & q2 & E2 & Hfd & Hok).
    erewrite bind_ok by exact E2. destruct r.
    + destruct (check_rtag_positions conf q2 Hc (Hok eq_refl)).
      destruct (1 <? i); eexists _, o2, w2, _; (split; [done|]); cbn; rewrite Hfd;
        split_and!; try done. rewrite u32_small by (pose proof (MAX_DB_FILE_SIZE_range conf Hc); lia).
      intros _. lia.
    + eexists _, o2, w2, q2. split; [done|]. rewrite Hfd. split_and!; try done.
      intros j [= <-]. rewrite i32_small by lia. lia.
  - eexists _, o2, w2, q. split; [done|]. split_and!; try done.
    intros j [= <-]. rewrite i32_small by lia. lia.
Qed.

Lemma rtag_read_rounds conf w q o f i :
  conf_wf conf -> open_nb w (rtag_fd q) o f -> 0 <= f_size f < 2147483587 ->
  1 <= i -> 61 * (i - 1) <= f_size f ->
  exists n r s', rounds (rtag_read_round conf) n i (QState w q) r s' /\
    61 * (i + Z.of_nat n - 1) <= f_size f /\
    (r = Some true -> pos (cur_rdb (qs_q s')) <= MAX_DB_FILE_SIZE conf /\
                      pos (cur_wdb (qs_q s')) <= MAX_DB_FILE_SIZE conf).
Proof.
  intros Hc. remember (Z.to_nat (67108864 - i)) as g eqn:Hg. revert w q o i Hg.
  induction g as [|g IH]; intros w q o i Hg Hnb Hsz Hi Hle; [lia|].
  destruct (rtag_read_round_total conf w q o f i) as (r & o' & w' & q' & E & Hfd & Hnb' & Hl & Ho);
    try done; try lia.
  destruct r as [j|r].
  - destruct (Hl j eq_refl) as [-> Hle'].
    destruct (IH w' q' o' (i + 1)) as (n & r & s' & Hr & Hn & Hs); try done; try lia.
    exists (S n), r, s'. split; [by eapply rounds_more|]. split; [lia|done].
  - exists 0%nat, r, (QState w' q'). split; [by apply rounds_done|]. split; [lia|].
    intros ->. auto.
Qed.

(** C18: a read tag survives a restart: the line [mq_sm_rtag_write_item] appends
    for a queue is read back by [mq_sm_rtag_read_item] through any descriptor of
    the same file, with every position and setting (a write lock of -1 too). *)
Theorem rtag_roundtrip conf w q q2 o f o2 :
  conf_wf conf -> rtag_ok conf q -> w_faults w = [] ->
  open_nb w (rtag_fd q) o f -> open_nb w (rtag_fd q2) o2 f -> o_ino o2 = o_ino o ->
  o_append o = true \/ o_pos o = f_size f ->
  0 <= f_size f < 2147483587 ->
  exists w1 w2,
    mq_sm_rtag_write_item (QState w q) = Ok (true, QState w1 q) /\
    mq_sm_rtag_read_item conf (QState w1 q2) = Ok (true, QState w2 (restore q q2)).
Proof.
  intros Hc Hq Hnf Hnb Hnb2 Hino Hend Hsz.
  exists (wrote w (rtag_fd q) o f (rtag_line q)).
  pose proof (length_rtag_line conf Hc q Hq) as Hl.
  assert ((if o_append o then f_size f else o_pos o) = f_size f) as Hat.
  { destruct Hend as [-> | ->]; [done|by destruct (o_append o)]. }
  set (f' := File (f_size f + 61) (put_bytes (f_data f) (f_size f) (rtag_line q))).
  assert (exists o', open_nb (wrote w (rtag_fd q) o f (rtag_line q)) (rtag_fd q2) o' f')
    as [o' Hnb'].
  { destruct Hnb as [Hf Hn], Hnb2 as [Hf2 Hn2]. apply fd_file_fds in Hf2 as [Hf2 _].
    unfold wrote. rewrite Hat, Hl. rewrite Z.max_r by lia. fold f'.
    unfold open_nb, fd_file. cbn. rewrite lookup_insert. case_decide as Hd.
    - eexists. cbn. rewrite lookup_insert_eq. done.
    - eexists. rewrite Hf2, Hino, lookup_insert_eq. done. }
  destruct (rtag_read_last conf Hc _ q2 o' f' q Hnb') as [k E]; [done|cbn; lia|done| |].
  - cbn. replace (f_size f + 61 - 61) with (f_size f) by lia. apply holds_put.
  - eexists. split; [|exact E]. by apply (rtag_write_ok conf).
Qed.

(** C19: a torn write of a read tag after two or more complete ones loses only that
    write: when the file ends in two complete lines and an incomplete one, of 1 to 59
    characters without a newline or a NUL, the last complete line is restored, and
    the write position is set to the end of the file so that nothing is overwritten. *)
Theorem rtag_torn_write conf w q o f t0 t junk :
  conf_wf conf -> open_nb w (rtag_fd q) o f -> w_faults w = [] -> f_size f < 2147483648 ->
  rtag_ok conf t0 -> rtag_ok conf t -> 10 ∉ junk -> 0 ∉ junk -> (0 < length junk < 60)%nat ->
  122 + Z.of_nat (length junk) <= f_size f ->
  holds (f_data f) (f_size f - 122 - Z.of_nat (length junk))
    (rtag_line t0 ++ rtag_line t ++ junk) ->
  exists w', mq_sm_rtag_read_item conf (QState w q) =
    Ok (true, QState w' (with_wdb (with_pos (MAX_DB_FILE_SIZE conf)) (restore t q))).
Proof.
  intros Hc Hnb Hnf Hsz Ht0 Ht H10 H0 Hj Hlen Hh.
  destruct (torn_first_round conf Hc w q o f t junk) as (w1 & o1 & Hnb1 & Hnf1 & E1); try done; try lia.
  { apply holds_suffix in Hh. rewrite (length_rtag_line conf Hc t0 Ht0) in Hh.
    by replace (f_size f - 61 - Z.of_nat (length junk)) with (f_size f - 122 - Z.of_nat (length junk) + Z.of_nat 61) by lia. }
  destruct (torn_second_round conf Hc w1 q o1 f t0 t junk) as (w2 & E2); try done.
  exists w2. unfold mq_sm_rtag_read_item. pose proof (MAX_DB_FILE_SIZE_range conf Hc).
  rewrite u32_small in E2 by lia.
  by erewrite bind_ok by (eapply loop_from_ok;
    [eapply rounds_more; [exact E1|by apply rounds_done, E2]|unfold rtag_fuel; lia]).
Qed.

(** Not so after a single complete line: for the second round the position is
    before the start of the file, and the defaults are taken instead of the line. *)
Theorem rtag_torn_first_line conf w q o f t junk :
  conf_wf conf -> open_nb w (rtag_fd q) o f -> w_faults w = [] -> f_size f = 61 + Z.of_nat (length junk) ->
  rtag_ok conf t -> 10 ∉ junk -> 0 ∉ junk -> (0 < length junk < 60)%nat ->
  holds (f_data f) 0 (rtag_line t ++ junk) ->
  exists w', mq_sm_rtag_read_item conf (QState w q) =
    Ok (true, QState w' (with_wlock 0 (with_delay (def_delay conf) (with_maxque (def_max_queue conf)
      (with_wdb (with_pos (MAX_DB_FILE_SIZE conf)) (with_rdb (with_pos 0) (with_rdb (with_opt_count 0) q))))))).
Proof.
  intros Hc Hnb Hnf Hsz Ht H10 H0 Hj Hh. pose proof (MAX_DB_FILE_SIZE_range conf Hc).
  destruct (torn_first_round conf Hc w q o f t junk) as (w1 & o1 & [Hf1 Hn1] & Hnf1 & E1); try done; try lia.
  { by replace (f_size f - 61 - Z.of_nat (length junk)) with 0 by lia. }
  assert (rtag_read_round conf 2 (QState w1 q) = Ok (inr None, QState w1 q)) as E2.
  { unfold rtag_read_round. erewrite bind_ok by done. cbv beta zeta. cbn [qs_q].
    erewrite bind_ok; cycle 1.
    { apply sys_ok. unfold sys_lseek. rewrite Hf1. change (i32 (- (2 * (RTAG_ITEM_LEN + 1)))) with (-122).
      rewrite (proj2 (Z.ltb_lt _ _)) by lia. reflexivity. }
    done. }
  exists w1. unfold mq_sm_rtag_read_item.
  erewrite bind_ok by (eapply loop_from_ok;
    [eapply rounds_more; [exact E1|by apply rounds_done, E2]|unfold rtag_fuel; lia]).
  unfold bind, update_rdb, update_wdb, update, modify, ret. cbn. by rewrite u32_small by lia.
Qed.

(** C38: reading a tag ends on every file, whatever it contains and whichever
    reads fail; a restored tag never points outside the database files. *)
Theorem rtag_read_total conf w q o f :
  conf_wf conf -> open_nb w (rtag_fd q) o f -> 0 <= f_size f < 2147483587 ->
  exists b s', mq_sm_rtag_read_item conf (QState w q) = Ok (b, s') /\
    (b = true -> pos (cur_rdb (qs_q s')) <= MAX_DB_FILE_SIZE conf /\
                 pos (cur_wdb (qs_q s')) <= MAX_DB_FILE_SIZE conf).
Proof.
  intros Hc Hnb Hsz. pose proof (MAX_DB_FILE_SIZE_range conf Hc) as Hmax.
  destruct (rtag_read_rounds conf w q o f 1 Hc Hnb) as (n & r & [w' q'] & Hr & Hn & Hs); try lia.
  unfold mq_sm_rtag_read_item.
  erewrite bind_ok by (eapply loop_from_ok; [exact Hr|unfold rtag_fuel; lia]).
  destruct r as [b|].
  - eexists _, _. split; [done|]. intros ->. auto.
  - unfold bind, update_rdb, update_wdb, update, modify, ret. eexists _, _. split; [done|].
    cbn. rewrite u32_small by lia. lia.
Qed.

(** ** Witnesses: a queue with a write lock of -1, on an empty and on a torn tag *)
Definition sample_tag : mq_queue :=
  MqQueue (B "q") 1 (-1) 0 3 10000 0 0 0 (MqDbMap 0 0 0 0 128 2 1) (MqDbMap 0 0 0 0 4000 0 2).
Lemma sample_tag_ok : rtag_ok sample_conf sample_tag.
Proof. unfold rtag_ok. vm_compute. split_and!; discriminate. Qed.
Lemma sample_open size d : open_nb (sample_world size d) 1 (Ofd 2 0 true true) (File size d).
Proof. split; reflexivity. Qed.
Definition torn_tag : gmap Z Z :=
  put_bytes ∅ 0 (rtag_line sample_tag ++ rtag_line sample_tag ++ B "00000").

Lemma rtag_roundtrip_witness : exists w1 w2,
  mq_sm_rtag_write_item (QState (sample_world 0 ∅) sample_tag) = Ok (true, QState w1 sample_tag) /\
  mq_sm_rtag_read_item sample_conf (QState w1 (with_rtag_fd 1 mq_queue_zero))
    = Ok (true, QState w2 (restore sample_tag (with_rtag_fd 1 mq_queue_zero))).
Proof.
  apply (rtag_roundtrip sample_conf (sample_world 0 ∅) sample_tag (with_rtag_fd 1 mq_queue_zero)
           (Ofd 2 0 true true) (File 0 ∅) (Ofd 2 0 true true));
    [exact sample_conf_wf|exact sample_tag_ok|reflexivity|exact (sample_open 0 ∅)
    |exact (sample_open 0 ∅)|reflexivity|left; reflexivity|cbn; lia].
Defined.

Lemma rtag_torn_write_witness : exists w',
  mq_sm_rtag_read_item sample_conf (QState (sample_world 127 torn_tag) (with_rtag_fd 1 mq_queue_zero))
    = Ok (true, QState w' (with_wdb (with_pos 1048576)
                             (restore sample_tag (with_rtag_fd 1 mq_queue_zero)))).
Proof.
  apply (rtag_torn_write sample_conf (sample_world 127 torn_tag) (with_rtag_fd 1 mq_queue_zero)
           (Ofd 2 0 true true) (File 127 torn_tag) sample_tag sample_tag (B "00000"));
    [exact sample_conf_wf|exact (sample_open 127 torn_tag)|reflexivity|reflexivity
    |exact sample_tag_ok|exact sample_tag_ok|decide_it|decide_it|cbn; lia|cbn; lia
    |exact (holds_put ∅ 0 _)].
Defined.

Lemma rtag_read_total_witness : exists b s',
  mq_sm_rtag_read_item sample_conf (QState (sample_world 127 torn_tag) (with_rtag_fd 1 mq_queue_zero))
    = Ok (b, s') /\
  (b = true -> pos (cur_rdb (qs_q s')) <= MAX_DB_FILE_SIZE sample_conf /\
               pos (cur_wdb (qs_q s')) <= MAX_DB_FILE_SIZE sample_conf).
Proof.
  apply (rtag_read_total sample_conf (sample_world 127 torn_tag) (with_rtag_fd 1 mq_queue_zero)
           (Ofd 2 0 true true) (File 127 torn_tag));
    [exact sample_conf_wf|exact (sample_open 127 torn_tag)|cbn; lia].
Defined.
