(* ===== verification/StoreFile.v ===== *)
(** * source/mq_store_file.c

    The files of a queue: opening a data file, moving the reader and the writer
    to the next file, and finding the files of a queue at start. *)
From S2P Require Import Prelude.
From S2P Require Import CLib.
From S2P Require Import World.
From S2P Require Import MqTypes.
From S2P Require Import MqUtil.
From S2P Require Import FileIo.
From S2P Require Import MsgFormat.
From S2P Require Import StorePath.
From S2P Require Import StoreRtag.

Inductive file_open_flag := FOPEN_FLAG_CREATE | FOPEN_FLAG_OPEN.

(** [strcpy] into a name of [queue_file_t], a [char[64 + 1]]. *)
Definition strcpy_fname {S} (s : bytes) : M S bytes :=
  if (length s <=? 64)%nat then ret s else fault.

(** [get_id_by_fname]: the last number between underscores.  A name of 64 bytes
    or more leaves the local buffer [char str[64]] without its NUL. *)
Definition get_id_by_fname {S} (fname : bytes) : M S Z :=
  if (length fname <? 64)%nat
  then ret (foldl (fun _ p => u64 (atoll p)) 0 (strtok 95 fname))
  else fault.

Section StoreFile.
Context (conf : ucmq_conf).

Definition touch_data_path (path : bytes) : M world bool :=
  let! ok := sys_access path in
  let! made := if ok then ret true
               else let! r := sys_mkdir path in
                    ret (match r with MKDIR_OK => true | _ => false end) in
  if negb made then ret false else sys_is_dir path.

(** The new value of [*fd] and the mapping, 0 for NULL. *)
Definition mq_sm_open_db_file (db_fname : bytes) (open_flag : file_open_flag)
    : M world (Z * Z) :=
  let creat := match open_flag with FOPEN_FLAG_CREATE => true | FOPEN_FLAG_OPEN => false end in
  let! fd := sys_open db_fname creat false true in
  if fd <? 0 then ret (fd, 0)
  else
    let! ok :=
      match open_flag with
      | FOPEN_FLAG_CREATE => extend_file_size fd (MAX_DB_FILE_SIZE conf)
      | FOPEN_FLAG_OPEN =>
          let! file_size := get_file_size db_fname in
          ret (file_size =? MAX_DB_FILE_SIZE conf)
      end in
    if negb ok then sys_close fd ;;; ret (fd, 0)
    else
      let! m := sys_mmap (MAX_DB_FILE_SIZE conf) fd in
      match m with
      | None => sys_close fd ;;; ret (fd, 0)
      | Some map_mem => ret (fd, map_mem)
      end.

Definition get_next_read_file : M qstate bool :=
  let! q := queue in
  let cur := cur_index (cur_rdb q) in
  let next_index := u64 (cur + 1) in
  if cur_index (cur_wdb q) <? next_index then
    update_rdb (with_cur_index (cur_index (cur_wdb q))) ;;; ret false
  else
    let old_rtag_fname := GEN_RTAG_FULL_PATH_BY_QNAME_INDEX conf (qname q) cur in
    let old_db_fname := GEN_DATA_FULL_PATH_BY_QNAME_INDEX conf (qname q) cur in
    let new_rtag_fname := GEN_RTAG_FULL_PATH_BY_QNAME_INDEX conf (qname q) next_index in
    let new_db_fname := GEN_DATA_FULL_PATH_BY_QNAME_INDEX conf (qname q) next_index in
    update_rdb (with_flag 0) ;;;
    let old_rtag_file_fd := rtag_fd q in
    let old_db_file_fd := fd (cur_rdb q) in
    let old_db_map_addr := map_mem (cur_rdb q) in
    let! new_rtag_fd := sys (mq_sm_rtag_open_next_file new_rtag_fname) in
    update (with_rtag_fd new_rtag_fd) ;;;
    if new_rtag_fd <? 0 then ret false
    else
      update_rdb (with_cur_index next_index) ;;;
      update_rdb (with_opt_count 0) ;;;
      update_rdb (with_pos DB_FILE_HEAD_LEN) ;;;
      let! _ := mq_sm_rtag_write_item in
      sys (sys_close old_rtag_file_fd) ;;;
      sys (sys_unlink old_rtag_fname) ;;;
      let! _ := sys (sys_msync old_db_map_addr (MAX_DB_FILE_SIZE conf)) in
      sys (sys_munmap old_db_map_addr) ;;;
      sys (sys_close old_db_file_fd) ;;;
      sys (sys_unlink old_db_fname) ;;;
      if next_index =? cur_index (cur_wdb q) then
        update_rdb (with_map_mem (map_mem (cur_wdb q))) ;;;
        update_rdb (with_fd (fd (cur_wdb q))) ;;;
        update_rdb (with_flag 1) ;;; ret true
      else
        let! '(new_fd, mem) := sys (mq_sm_open_db_file new_db_fname FOPEN_FLAG_OPEN) in
        update_rdb (with_fd new_fd) ;;;
        update_rdb (with_map_mem mem) ;;;
        if mem =? 0 then sys (sys_close new_rtag_fd) ;;; ret false
        else update_rdb (with_flag 1) ;;; ret true.

Definition get_next_write_file : M qstate bool :=
  let! q := queue in
  let next_index := u64 (cur_index (cur_wdb q) + 1) in
  let new_db_fname := GEN_DATA_FULL_PATH_BY_QNAME_INDEX conf (qname q) next_index in
  (if cur_index (cur_rdb q) <? cur_index (cur_wdb q) then
     let! _ := sys (sys_msync (map_mem (cur_wdb q)) (MAX_DB_FILE_SIZE conf)) in
     sys (sys_munmap (map_mem (cur_wdb q))) ;;;
     update_wdb (with_flag 0) ;;;
     sys (sys_close (fd (cur_wdb q)))
   else ret tt) ;;;
  let! free := sys get_storage_free in
  if u64 free <? res_store_space conf then ret false
  else
    let! '(new_fd, mem) := sys (mq_sm_open_db_file new_db_fname FOPEN_FLAG_CREATE) in
    update_wdb (with_fd new_fd) ;;;
    update_wdb (with_map_mem mem) ;;;
    if mem =? 0 then ret false
    else
      update_wdb (with_opt_count 0) ;;;
      update_wdb (with_flag 1) ;;;
      update_wdb (with_pos DB_FILE_HEAD_LEN) ;;;
      update_wdb (with_cur_index next_index) ;;;
      let! _ := mq_sm_db_write_file_head in
      let! _ := mq_sm_rtag_write_item in
      ret true.

(** The locals of the loop of [find_handle_file]: the counters [i] and [j]
    and the names found. *)
Definition find_db_entry (name : bytes) (l : Z * Z * queue_file) : M world (Z * Z * queue_file) :=
  let '(i, j, qf) := l in
  if negb (strncmp name (B "db_") (length (B "db_")) =? 0) then ret l
  else
    let! r := strcpy_fname (if i =? 1 then name
                else if strcmp name (read_fname qf) <? 0 then name else read_fname qf) in
    let! wr := strcpy_fname (if i =? 1 then name
                else if 0 <? strcmp name (write_fname qf) then name else write_fname qf) in
    ret (i + 1, j, QueueFile (rtag_fname qf) r wr (rtag_fid qf) (read_fid qf) (write_fid qf)).

(** [None] for [continue]. *)
Definition find_rtag_entry (name : bytes) (l : Z * Z * queue_file) : M world (Z * Z * queue_file) :=
  let '(i, j, qf) := l in
  let with_rtag t := QueueFile t (read_fname qf) (write_fname qf) (rtag_fid qf) (read_fid qf)
                       (write_fid qf) in
  if negb (strncmp name (B "rtag_") (length (B "rtag_")) =? 0) then ret l
  else if j =? 1 then
    let! t := strcpy_fname name in ret (i, j + 1, with_rtag t)
  else
    let! size := get_file_size name in
    if size <? 0 then sys_unlink name ;;; ret l
    else
      (if strcmp name (rtag_fname qf) <? 0 then sys_unlink name else sys_unlink (rtag_fname qf)) ;;;
      let! t := strcpy_fname (if 0 <? strcmp name (rtag_fname qf) then name else rtag_fname qf) in
      ret (i, j + 1, with_rtag t).

Fixpoint find_entries (ents : list dirent) (l : Z * Z * queue_file) : M world (Z * Z * queue_file) :=
  match ents with
  | [] => ret l
  | ent :: ents =>
      if negb (bool_decide (d_ty ent = DT_REG)) then find_entries ents l
      else if strncmp (d_name ent) (B ".") 1 =? 0 then find_entries ents l
      else
        let! l := find_db_entry (d_name ent) l in
        let! l := find_rtag_entry (d_name ent) l in
        find_entries ents l
  end.

Definition find_handle_file (qf : queue_file) (qn : bytes) : M world (bool * queue_file) :=
  let path := GEN_QUEUE_PATH_BY_QNAME conf qn in
  let! ents := sys_opendir path in
  match ents with
  | None => ret (false, qf)
  | Some ents =>
      let! '(i, j, qf) := find_entries ents (1, 1, qf) in
      if (i <=? 1) || (j <=? 1) then ret (false, qf)
      else
        let! rtag := get_id_by_fname (rtag_fname qf) in
        let! rd := get_id_by_fname (read_fname qf) in
        let! wr := get_id_by_fname (write_fname qf) in
        let qf := QueueFile (rtag_fname qf) (read_fname qf) (write_fname qf) rtag rd wr in
        if negb (rtag =? rd) then ret (false, qf) else ret (true, qf)
  end.
End StoreFile.

(** ** Numbers and names *)
Lemma numbered_id {S} (p : string) i (s : S) :
  0 <= i <= LLONG_MAX -> 95 ∉ B p -> B p <> [] -> (length (B p) < 40)%nat ->
  get_id_by_fname (B p ++ 95 :: pad 12 i) s = Ok (i, s).
Proof.
  intros Hi Hp Hne Hl. unfold get_id_by_fname. pose proof (ndigits_le20 i ltac:(lia)).
  rewrite (proj2 (Nat.ltb_lt _ _)) by (rewrite length_app; simpl; rewrite pad_length; lia).
  assert (pad 12 i <> []) as Hpad by (destruct (pad_cons 12 i) as (? & ? & -> & _); done).
  rewrite strtok_cons by done. rewrite strtok_one; [|by apply fixed_no|done]. simpl.
  rewrite atoll_pad by done. by rewrite u64_small by (unfold LLONG_MAX in Hi; lia).
Qed.

Lemma id_of_db {S} i (s : S) : 0 <= i <= LLONG_MAX -> get_id_by_fname (db_name i) s = Ok (i, s).
Proof.
  intros Hi. change (db_name i) with (B "db" ++ 95 :: pad 12 i). apply numbered_id; try done.
  - decide_it.
  - simpl. lia.
Qed.
Lemma id_of_rtag {S} i (s : S) : 0 <= i <= LLONG_MAX -> get_id_by_fname (rtag_name i) s = Ok (i, s).
Proof.
  intros Hi. change (rtag_name i) with (B "rtag" ++ 95 :: pad 12 i). apply numbered_id; try done.
  - decide_it.
  - simpl. lia.
Qed.

(** Twelve digits compare as numbers. *)
Lemma strcmp_db i j : 0 <= i < MAX_INDEX -> 0 <= j < MAX_INDEX ->
  strcmp (db_name i) (db_name j) = sign_of (i ?= j).
Proof.
  intros Hi Hj. unfold db_name, MAX_INDEX in *. rewrite strcmp_prefix, !pad_fixed by lia.
  by apply strcmp_fixed.
Qed.

(** ** A directory of a queue *)
Inductive entry := DbFile (i : Z) | RtagFile (i : Z) | Subdir (name : bytes).
Definition dirent_of (e : entry) : dirent :=
  match e with
  | DbFile i => Dirent (db_name i) DT_REG
  | RtagFile i => Dirent (rtag_name i) DT_REG
  | Subdir name => Dirent name DT_DIR
  end.
Definition entry_ok (e : entry) : Prop :=
  match e with DbFile i | RtagFile i => 0 <= i < MAX_INDEX | Subdir _ => True end.

Fixpoint dbs (es : list entry) : list Z :=
  match es with DbFile i :: es => i :: dbs es | _ :: es => dbs es | [] => [] end.
Fixpoint rtags (es : list entry) : list Z :=
  match es with RtagFile i :: es => i :: rtags es | _ :: es => rtags es | [] => [] end.

(** What the loop has seen: the least and the greatest data file, and the tag
    file listed first. *)
Definition span (l : list Z) : option (Z * Z) :=
  match l with [] => None | x :: l => Some (foldl Z.min x l, foldl Z.max x l) end.

Record seen (es : list entry) (i j : Z) (qf : queue_file) : Prop := {
  seen_i : i = 1 + Z.of_nat (length (dbs es));
  seen_db : match span (dbs es) with
            | Some (lo, hi) => read_fname qf = db_name lo /\ write_fname qf = db_name hi /\
                               0 <= lo < MAX_INDEX /\ 0 <= hi < MAX_INDEX
            | None => True
            end;
  seen_rtag : match rtags es with
              | r :: _ => j = 2 /\ rtag_fname qf = rtag_name r
              | [] => j = 1
              end
}.

Lemma dbs_app es es' : dbs (es ++ es') = dbs es ++ dbs es'.
Proof. induction es as [|[] es IH]; simpl; by rewrite ?IH. Qed.
Lemma rtags_app es es' : rtags (es ++ es') = rtags es ++ rtags es'.
Proof. induction es as [|[] es IH]; simpl; by rewrite ?IH. Qed.
Lemma span_snoc l x : span (l ++ [x]) =
  match span l with Some (lo, hi) => Some (Z.min lo x, Z.max hi x) | None => Some (x, x) end.
Proof. destruct l as [|y l]; simpl; [done|]. by rewrite !foldl_app. Qed.

Lemma foldl_min_spec x l : foldl Z.min x l ∈ x :: l /\ Forall (Z.le (foldl Z.min x l)) (x :: l).
Proof.
  revert x. induction l as [|y l IH]; intros x; simpl; [split; [set_solver|repeat constructor; lia]|].
  destruct (IH (Z.min x y)) as [Hin Hall]. apply Forall_cons in Hall as [Hm Hl].
  split; [|repeat constructor; [lia|lia|done]].
  apply elem_of_cons in Hin as [->|Hin]; [|set_solver]. destruct (Z.min_spec x y) as [[_ ->]|[_ ->]]; set_solver.
Qed.
Lemma foldl_max_spec x l :
  foldl Z.max x l ∈ x :: l /\ Forall (fun y => y <= foldl Z.max x l) (x :: l).
Proof.
  revert x. induction l as [|y l IH]; intros x; simpl; [split; [set_solver|repeat constructor; lia]|].
  destruct (IH (Z.max x y)) as [Hin Hall]. apply Forall_cons in Hall as [Hm Hl].
  split; [|repeat constructor; [lia|lia|done]].
  apply elem_of_cons in Hin as [->|Hin]; [|set_solver]. destruct (Z.max_spec x y) as [[_ ->]|[_ ->]]; set_solver.
Qed.

(** The span is the range of the list, whatever its order. *)
Lemma span_range l lo hi : lo ∈ l -> hi ∈ l -> Forall (fun x => lo <= x <= hi) l -> span l = Some (lo, hi).
Proof.
  intros Hlo Hhi Hall. destruct l as [|x l]; [set_solver|]. unfold span.
  destruct (foldl_min_spec x l) as [Hin1 Hle1], (foldl_max_spec x l) as [Hin2 Hle2].
  rewrite Forall_forall in Hall, Hle1, Hle2.
  pose proof (Hall _ Hin1). pose proof (Hall _ Hin2). pose proof (Hle1 _ Hlo). pose proof (Hle2 _ Hhi).
  simpl in *. do 2 f_equal; lia.
Qed.

Lemma fname_fits (p : bytes) i : (length p <= 5)%nat -> 0 <= i -> (length (p ++ pad 12 i) <=? 64)%nat = true.
Proof.
  intros Hp Hi. pose proof (ndigits_le20 i Hi). apply Nat.leb_le.
  rewrite length_app, pad_length. lia.
Qed.
Lemma copy_db {S} i (s : S) : 0 <= i -> strcpy_fname (db_name i) s = Ok (db_name i, s).
Proof. intros Hi. unfold strcpy_fname, db_name. rewrite fname_fits; [done|simpl; lia|done]. Qed.
Lemma copy_rtag {S} i (s : S) : 0 <= i -> strcpy_fname (rtag_name i) s = Ok (rtag_name i, s).
Proof. intros Hi. unfold strcpy_fname, rtag_name. rewrite fname_fits; [done|simpl; lia|done]. Qed.

(** The working directory of the server holds no file of that name. *)
Definition absent (w : world) (i : Z) : Prop :=
  w_names w !! rtag_name i = None /\ (rtag_name i ∉ w_dirs w).
Lemma absent_size w i : absent w i -> get_file_size (rtag_name i) w = Ok (-1, w).
Proof.
  intros [Hn Hd]. unfold get_file_size. erewrite bind_ok by reflexivity.
  by rewrite Hn, bool_decide_false.
Qed.
Lemma absent_unlink w i : absent w i -> sys_unlink (rtag_name i) w = Ok (tt, w).
Proof. intros [Hn Hd]. unfold sys_unlink, modify. rewrite delete_id by done. by destruct w. Qed.

Section Listing.
Context (w : world).

Lemma db_entry_db es i j qf x : seen es i j qf -> 0 <= x < MAX_INDEX ->
  exists qf', find_db_entry (db_name x) (i, j, qf) w = Ok ((i + 1, j, qf'), w) /\
    seen (es ++ [DbFile x]) (i + 1) j qf'.
Proof.
  intros [Hi Hdb Hr] Hx. unfold find_db_entry.
  change (strncmp (db_name x) (B "db_") (length (B "db_"))) with 0. cbn [negb Z.eqb].
  assert (forall y, 0 <= y < MAX_INDEX -> strcmp (db_name x) (db_name y) = sign_of (x ?= y)) as Hcmp
    by (intros; by apply strcmp_db).
  destruct (span (dbs es)) as [[lo hi]|] eqn:Es.
  - destruct Hdb as (Hrd & Hwr & Hlo & Hhi). destruct (dbs es) as [|d l] eqn:El; [done|].
    rewrite (proj2 (Z.eqb_neq i 1)) by (simpl in Hi; lia). rewrite Hrd, Hwr, !Hcmp by done.
    assert ((if sign_of (x ?= lo) <? 0 then db_name x else db_name lo) = db_name (Z.min lo x)) as ->.
    { destruct (Z.compare_spec x lo); simpl; f_equal; lia. }
    assert ((if 0 <? sign_of (x ?= hi) then db_name x else db_name hi) = db_name (Z.max hi x)) as ->.
    { destruct (Z.compare_spec x hi); simpl; f_equal; lia. }
    repeat (erewrite bind_ok by (apply copy_db; lia); cbv beta).
    eexists. split; [reflexivity|]. split; rewrite ?dbs_app, ?rtags_app, ?app_nil_r; cbn [dbs rtags].
    + rewrite length_app, El. simpl in *. lia.
    + rewrite span_snoc, El, Es. cbn. split_and!; done || lia.
    + exact Hr.
  - destruct (dbs es) as [|d l] eqn:El; [|done]. simpl in Hi. subst i.
    change (1 =? 1) with true. cbv beta iota.
    repeat (erewrite bind_ok by (apply copy_db; lia); cbv beta).
    eexists. split; [reflexivity|]. split; rewrite ?dbs_app, ?rtags_app; cbn [dbs rtags].
    + rewrite length_app, El. simpl. lia.
    + rewrite El. cbn. split_and!; done || lia.
    + rewrite app_nil_r. exact Hr.
Qed.

Lemma rtag_entry_rtag es i j qf x : seen es i j qf -> 0 <= x < MAX_INDEX ->
  (rtags es <> [] -> absent w x) ->
  exists j' qf', find_rtag_entry (rtag_name x) (i, j, qf) w = Ok ((i, j', qf'), w) /\
    seen (es ++ [RtagFile x]) i j' qf'.
Proof.
  intros [Hi Hdb Hr] Hx Habs. unfold find_rtag_entry.
  change (strncmp (rtag_name x) (B "rtag_") (length (B "rtag_"))) with 0. cbn [negb Z.eqb].
  destruct (rtags es) as [|r rs] eqn:Er.
  - subst j. change (1 =? 1) with true. cbv beta iota.
    erewrite bind_ok by (apply copy_rtag; lia). eexists _, _. split; [reflexivity|].
    split; rewrite ?dbs_app, ?rtags_app; cbn [dbs rtags]; rewrite ?app_nil_r; try done.
    by rewrite Er.
  - destruct Hr as [-> Hr]. change (2 =? 1) with false. cbv beta iota.
    specialize (Habs ltac:(done)). erewrite bind_ok by by apply absent_size. cbv beta.
    change (-1 <? 0) with true. cbv iota. erewrite bind_ok by by apply absent_unlink.
    eexists _, _. split; [reflexivity|].
    split; rewrite ?dbs_app, ?rtags_app; cbn [dbs rtags]; rewrite ?app_nil_r; try done.
    by rewrite Er.
Qed.

Lemma find_entries_seen es' : forall es i j qf,
  seen es i j qf -> Forall entry_ok es' ->
  (forall x, x ∈ tail (rtags (es ++ es')) -> absent w x) ->
  exists i' j' qf', find_entries (dirent_of <$> es') (i, j, qf) w = Ok ((i', j', qf'), w) /\
    seen (es ++ es') i' j' qf'.
Proof.
  induction es' as [|e es' IH]; intros es i j qf Hs Hok Habs.
  { exists i, j, qf. by rewrite app_nil_r. }
  apply Forall_cons in Hok as [He Hok]. replace (es ++ e :: es') with ((es ++ [e]) ++ es') in *
    by (by rewrite <- app_assoc).
  destruct e as [x|x|name]; cbn [fmap list_fmap dirent_of find_entries d_ty d_name].
  - rewrite bool_decide_true by done. cbn [negb].
    change (strncmp (db_name x) (B ".") 1 =? 0) with false. cbv iota.
    destruct (db_entry_db es i j qf x Hs He) as (qf1 & E1 & Hs1). erewrite bind_ok by exact E1.
    cbv beta. erewrite bind_ok by reflexivity. cbv beta. by apply IH.
  - rewrite bool_decide_true by done. cbn [negb].
    change (strncmp (rtag_name x) (B ".") 1 =? 0) with false. cbv iota.
    erewrite bind_ok by reflexivity. cbv beta.
    destruct (rtag_entry_rtag es i j qf x Hs He) as (j1 & qf1 & E1 & Hs1).
    { intros Hne. apply Habs. rewrite !rtags_app. simpl. destruct (rtags es); [done|].
      simpl. set_solver. }
    erewrite bind_ok by exact E1. cbv beta. by apply IH.
  - rewrite bool_decide_false by done. cbn [negb]. apply IH; try done.
    destruct Hs as [H1 H2 H3]. split; rewrite ?dbs_app, ?rtags_app; cbn [dbs rtags];
      by rewrite ?app_nil_r.
Qed.
End Listing.

(** C17: what the server opens after a restart does not depend on the order in
    which the directory lists the data files: the reader starts with the least
    number and the writer goes on with the greatest.  Of several tag files the
    one listed first is taken, and the queue is opened when its number is that
    of the reader's file - with two pairs of files too, see [two_pairs_found], where
    the test FindHandleFile of gtest/test_unit.cc expects the contrary. *)
Theorem find_handle_file_spec conf qn w es lo hi r rs qf :
  sys_opendir (GEN_QUEUE_PATH_BY_QNAME conf qn) w = Ok (Some (dirent_of <$> es), w) ->
  Forall entry_ok es -> rtags es = r :: rs -> Forall (absent w) rs ->
  lo ∈ dbs es -> hi ∈ dbs es -> Forall (fun i => lo <= i <= hi) (dbs es) ->
  find_handle_file conf qf qn w
  = Ok ((r =? lo, QueueFile (rtag_name r) (db_name lo) (db_name hi) r lo hi), w).
Proof.
  intros Hdir Hok Hr Habs Hlo Hhi Hall. unfold find_handle_file.
  erewrite bind_ok by exact Hdir. cbv beta iota.
  destruct (find_entries_seen w es [] 1 1 qf) as (i & j & qf' & E & [Hi Hdb Hj]); [done|done| |].
  { simpl. rewrite Hr. by apply Forall_forall. }
  erewrite bind_ok by exact E. cbv beta iota. simpl app in *.
  rewrite (span_range _ lo hi) in Hdb by done. destruct Hdb as (Hrd & Hwr & Hlo' & Hhi').
  rewrite Hr in Hj. destruct Hj as [-> Hrt].
  assert (0 <= r < MAX_INDEX) as Hr'.
  { clear -Hr Hok. induction Hok as [|[] es He Hok IH]; simpl in *; naive_solver. }
  assert (1 < i) by (destruct (dbs es); [set_solver|simpl in Hi; lia]).
  rewrite (proj2 (Z.leb_gt i 1)) by done. change (2 <=? 1) with false. cbn [orb].
  unfold MAX_INDEX in *. rewrite Hrt, Hrd, Hwr.
  erewrite bind_ok by (apply id_of_rtag; unfold LLONG_MAX; lia). cbv beta.
  erewrite bind_ok by (apply id_of_db; unfold LLONG_MAX; lia). cbv beta.
  erewrite bind_ok by (apply id_of_db; unfold LLONG_MAX; lia). cbv beta.
  by destruct (r =? lo).
Qed.

(** The number in the name of a data file or a tag file is read back from
    it, for every number the names are made of. *)
Theorem file_id_roundtrip i (w : world) :
  0 <= i <= LLONG_MAX ->
  get_id_by_fname (db_name i) w = Ok (i, w) /\ get_id_by_fname (rtag_name i) w = Ok (i, w).
Proof. intros Hi. split; [by apply id_of_db|by apply id_of_rtag]. Qed.

(** ** Witnesses: the files 2, 3 and 10 of the queue ["q"] *)
Definition files_world : world :=
  World {[B "data"; B "data/q"]}
    (list_to_map ((fun n => (in_queue sample_conf (B "q") n, 1)) <$>
       [db_name 3; rtag_name 2; db_name 10; db_name 2]))
    ∅ ∅ ∅ 1 0 0 [].

Lemma find_handle_file_spec_witness :
  find_handle_file sample_conf queue_file_zero (B "q") files_world
  = Ok ((true, QueueFile (B "rtag_000000000002") (B "db_000000000002") (B "db_000000000010") 2 2 10),
        files_world).
Proof.
  apply (find_handle_file_spec sample_conf (B "q") files_world
    [Subdir (B "."); Subdir (B ".."); DbFile 3; RtagFile 2; DbFile 2; DbFile 10] 2 10 2 []).
  - vm_compute. reflexivity.
  - repeat constructor; vm_compute; first [discriminate|reflexivity].
  - reflexivity.
  - constructor.
  - decide_it.
  - decide_it.
  - cbn. repeat constructor; lia.
Defined.

Lemma file_id_roundtrip_witness :
  get_id_by_fname (B "db_000000000010") files_world = Ok (10, files_world) /\
  get_id_by_fname (B "rtag_000000000010") files_world = Ok (10, files_world).
Proof. apply (file_id_roundtrip 10 files_world). unfold LLONG_MAX. lia. Defined.

(** Two pairs of a data file and a tag file, which the unit test FindHandleFile
    expects to be refused (its queue5): the order of the directory decides, and
    the queue is opened when the tag of the first data file is listed first. *)
Definition pairs_world (i j : Z) : world :=
  World {[B "data"; B "data/q"]}
    (list_to_map ((fun n => (in_queue sample_conf (B "q") n, 1)) <$>
       [db_name i; rtag_name i; db_name j; rtag_name j]))
    ∅ ∅ ∅ 1 0 0 [].

Example two_pairs_found :
  find_handle_file sample_conf queue_file_zero (B "q") (pairs_world 9 10) =
    Ok ((true, QueueFile (rtag_name 9) (db_name 9) (db_name 10) 9 9 10), pairs_world 9 10) /\
  find_handle_file sample_conf queue_file_zero (B "q") (pairs_world 1 2) =
    Ok ((false, QueueFile (rtag_name 2) (db_name 1) (db_name 2) 2 1 2), pairs_world 1 2).
Proof. split; vm_compute; reflexivity. Qed.
