(* ===== verification/StoreManage.v ===== *)
(** * mq_sm_db_write_msg of source/mq_store_msg.c and source/mq_store_manage.c

    Writing one message at the write position, reading the next one at the read
    position, and opening, closing, creating, removing and counting the database
    of one queue. *)
From S2P Require Import Prelude.
From S2P Require Import CLib.
From S2P Require Import World.
From S2P Require Import Crc16.
From S2P Require Import MqTypes.
From S2P Require Import MqUtil.
From S2P Require Import FileIo.
From S2P Require Import MsgFormat.
From S2P Require Import StorePath.
From S2P Require Import StoreRtag.
From S2P Require Import StoreFile.

Section StoreManage.
Context (conf : ucmq_conf).

(** [memcpy(p, .., n); p += n] into a mapping. *)
Definition copy_to (addr p : Z) (bs : bytes) : M world Z :=
  mem_store addr p bs ;;; ret (p + Z.of_nat (length bs)).

Definition mq_sm_db_write_msg (item : msg_item) : M qstate bool :=
  let! q := queue in
  let! ok :=
    if u32 (MAX_DB_FILE_SIZE conf) <? u32 (u32 (pos (cur_wdb q) + mlen item) + MSG_HEAD_LEN) then
      let! _ := mq_sm_db_write_file_head in
      get_next_write_file conf
    else ret true in
  if negb ok then ret false
  else
    let! q := queue in
    let addr := map_mem (cur_wdb q) in
    let p := pos (cur_wdb q) in
    let! p := sys (copy_to addr p [u8 (magic_num1 item)]) in
    let! p := sys (copy_to addr p [u8 (magic_num2 item)]) in
    let! p := sys (copy_to addr p (le_bytes 4 (mdelay item))) in
    let! p := sys (copy_to addr p (le_bytes 2 (crc16 item))) in
    let! p := sys (copy_to addr p (le_bytes 4 (mlen item))) in
    let! body := sys (load_ptr (msg item) (mlen item)) in
    let! _ := sys (copy_to addr p body) in
    update_wdb (fun d => with_pos (u32 (pos d + u32 (mlen item + MSG_HEAD_LEN))) d) ;;;
    update_wdb (fun d => with_opt_count (u32 (opt_count d + 1)) d) ;;;
    update (fun q => with_put_num (u64 (put_num q + 1)) q) ;;;
    ret true.

Definition mq_sm_put_data (item : msg_item) : M qstate (bool * msg_item) :=
  let! crc := sys (mq_sm_db_build_msg_crc16 (msg item) (i32 (mlen item))) in
  match crc with
  | None => ret (false, item)
  | Some crc =>
      let item := with_crc16 crc item in
      let! ok := mq_sm_db_write_msg item in
      ret (ok : bool, item)
  end.

(** One round of [while (1)] of [mq_sm_get_data]. *)
Definition next_file_or_end (item : msg_item) : M qstate (msg_item + bool * msg_item) :=
  let! ok := get_next_read_file conf in
  if (ok : bool) then ret (inl item) else ret (inr (false, item)).

Definition advance (n : Z) : M qstate unit :=
  update_rdb (fun d => with_pos (u32 (pos d + n)) d).

Definition at_queue_end (q : mq_queue) : bool :=
  (cur_index (cur_rdb q) =? cur_index (cur_wdb q)) &&
  (pos (cur_wdb q) <=? u32 (pos (cur_rdb q) + MSG_HEAD_LEN)).

Definition get_data_round (item : msg_item) : M qstate (msg_item + bool * msg_item) :=
  let! q := queue in
  if at_queue_end q then
    update_rdb (with_pos (pos (cur_wdb q))) ;;;
    update (with_unread 0) ;;;
    ret (inr (false, item))
  else
    let! '(r, item) := sys (mq_sm_db_parse_msg conf (map_mem (cur_rdb q)) (pos (cur_rdb q)) item) in
    match r with
    | MSG_CHECK_RET_OK =>
        let! cur_timestemp := sys get_cur_timestamp in
        if negb (delay q =? 0) && (u32 (cur_timestemp - mdelay item) <? delay q) then
          ret (inr (false, item))
        else
          advance (u32 (mlen item + MSG_HEAD_LEN)) ;;;
          update_rdb (fun d => with_opt_count (u32 (opt_count d + 1)) d) ;;;
          update (fun q => with_get_num (u64 (get_num q + 1)) q) ;;;
          update (fun q => with_unread (u64 (unread_count q - 1)) q) ;;;
          ret (inr (true, item))
    | MSG_CHECK_RET_MAG_NUM_ERR => advance 1 ;;; ret (inl item)
    | MSG_CHECK_RET_PARSE_ERR | MSG_CHECK_RET_CRC_ERR => advance 2 ;;; ret (inl item)
    | MSG_CHECK_RET_MSG_ERR | MSG_CHECK_RET_LEN_BEY => next_file_or_end item
    end.

(** Every round moves the read position or goes to the next of at most 2^64
    files, so that 2^100 rounds are enough. *)
Definition get_data_fuel : positive := 1267650600228229401496703205376.
Definition mq_sm_get_data (item : msg_item) : M qstate (bool * msg_item) :=
  loop_from get_data_fuel get_data_round item.

Definition mq_sm_close_db_file (map_mem fd : Z) : M world unit :=
  (if negb (map_mem =? 0) then
     let! _ := sys_msync map_mem (MAX_DB_FILE_SIZE conf) in
     sys_munmap map_mem
   else ret tt) ;;;
  let! _ := sys_fsync fd in
  sys_close fd.

Definition mq_sm_open_db (qf : queue_file) : M qstate bool :=
  update_rdb (with_cur_index (read_fid qf)) ;;;
  update_wdb (with_cur_index (write_fid qf)) ;;;
  let! q := queue in
  let write_db_fname := GEN_DATA_FULL_PATH_BY_FNAME conf (qname q) (write_fname qf) in
  if negb (flag (cur_wdb q) =? 0) then ret false
  else
    let! '(wfd, wmem) := sys (mq_sm_open_db_file conf write_db_fname FOPEN_FLAG_OPEN) in
    update_wdb (with_fd wfd) ;;;
    update_wdb (with_map_mem wmem) ;;;
    if wmem =? 0 then ret false
    else
      let! ok :=
        if read_fid qf =? write_fid qf then
          update_rdb (with_map_mem wmem) ;;;
          update_rdb (with_fd wfd) ;;;
          ret true
        else
          let read_db_fname := GEN_DATA_FULL_PATH_BY_FNAME conf (qname q) (read_fname qf) in
          if negb (flag (cur_rdb q) =? 0) then
            sys (mq_sm_close_db_file wmem wfd) ;;; ret false
          else
            let! '(rfd, rmem) := sys (mq_sm_open_db_file conf read_db_fname FOPEN_FLAG_OPEN) in
            update_rdb (with_fd rfd) ;;;
            update_rdb (with_map_mem rmem) ;;;
            if rmem =? 0 then sys (mq_sm_close_db_file wmem wfd) ;;; ret false
            else ret true in
      if negb ok then ret false
      else update_wdb (with_flag 1) ;;; update_rdb (with_flag 1) ;;; ret true.

Definition mq_sm_close_db : M qstate bool :=
  update_rdb (with_flag 0) ;;;
  update_wdb (with_flag 0) ;;;
  let! q := queue in
  (if negb (cur_index (cur_rdb q) =? cur_index (cur_wdb q))
   then sys (mq_sm_close_db_file (map_mem (cur_rdb q)) (fd (cur_rdb q)))
   else ret tt) ;;;
  sys (mq_sm_close_db_file (map_mem (cur_wdb q)) (fd (cur_wdb q))) ;;;
  ret true.

Definition mq_sm_creat_db : M qstate bool :=
  let! q := queue in
  let queue_db_path := GEN_QUEUE_PATH_BY_QNAME conf (qname q) in
  let! free := sys get_storage_free in
  if u64 free <? res_store_space conf then ret false
  else
    let! exists_ := sys (sys_access queue_db_path) in
    (if (exists_ : bool) then sys (delete_file queue_db_path) else ret tt) ;;;
    let! made := sys (sys_mkdir queue_db_path) in
    match made with
    | MKDIR_ERR => ret false
    | MKDIR_OK | MKDIR_EEXIST =>
        let rtag_fname := GEN_RTAG_FULL_PATH_BY_QNAME_INDEX conf (qname q) 1 in
        let write_db_fname := GEN_DATA_FULL_PATH_BY_QNAME_INDEX conf (qname q) 1 in
        let! rfd := sys (sys_open rtag_fname true false true) in
        update (with_rtag_fd rfd) ;;;
        if rfd <? 0 then ret false
        else
          let! '(wfd, wmem) := sys (mq_sm_open_db_file conf write_db_fname FOPEN_FLAG_CREATE) in
          update_wdb (with_fd wfd) ;;;
          update_wdb (with_map_mem wmem) ;;;
          if wmem =? 0 then sys (sys_close rfd) ;;; ret false
          else
            update (with_maxque (def_max_queue conf)) ;;;
            update (with_delay (def_delay conf)) ;;;
            let! _ := mq_sm_rtag_write_item in
            update_wdb (with_cur_index 1) ;;;
            update_wdb (with_flag 1) ;;;
            update_rdb (with_cur_index 1) ;;;
            update_rdb (with_flag 1) ;;;
            update_rdb (with_map_mem wmem) ;;;
            update_rdb (with_fd wfd) ;;;
            ret true
    end.

Definition mq_sm_remove_db : M qstate bool :=
  let! q := queue in
  let queue_db_path := GEN_QUEUE_PATH_BY_QNAME conf (qname q) in
  let! exists_ := sys (sys_access queue_db_path) in
  if (exists_ : bool) then sys (delete_file queue_db_path) ;;; ret true else ret false.

(** The messages of one data file: the count in its head, or else a scan. *)
Definition db_file_count (q : mq_queue) (full_file_name : bytes) (all_db_count : Z) : M world Z :=
  let! fd := sys_open full_file_name false false true in
  if fd <? 0 then ret all_db_count
  else
    let! off := sys_lseek fd DB_FILE_HEAD_OF_VERSION_LEN SEEK_SET in
    if off <? 0 then sys_close fd ;;; ret all_db_count
    else
      let! '(read_len, line) := read_n (rw_fuel DB_FILE_HEAD_OF_COUNT_LEN) fd FD_UNKNOWN
                                  DB_FILE_HEAD_OF_COUNT_LEN READ_OPT_TIMEOUT in
      if 0 <=? read_len then
        let tmp_count := atoi (cstr line) in
        if negb (tmp_count =? 0) && (tmp_count <? MAX_DB_FILE_SIZE conf `quot` MSG_HEAD_LEN) then
          sys_close fd ;;; ret (u64 (all_db_count + tmp_count))
        else
          let! c := if cur_index (cur_wdb q) =? cur_index (cur_rdb q)
                    then mq_sm_db_cal_msg_count conf fd (pos (cur_wdb q))
                    else mq_sm_db_cal_msg_count conf fd (u32 (MAX_DB_FILE_SIZE conf)) in
          sys_close fd ;;; ret (u64 (all_db_count + i32 c))
      else sys_close fd ;;; ret all_db_count.

Fixpoint count_entries (q : mq_queue) (ents : list dirent) (all_db_count : Z) : M world Z :=
  match ents with
  | [] => ret all_db_count
  | ent :: ents =>
      if negb (bool_decide (d_ty ent = DT_REG)) then count_entries q ents all_db_count
      else if strncmp (d_name ent) (B ".") 1 =? 0 then count_entries q ents all_db_count
      else if strncmp (d_name ent) (B "db_") (length (B "db_")) =? 0 then
        let! all_db_count :=
          db_file_count q (GEN_DATA_FULL_PATH_BY_FNAME conf (qname q) (d_name ent)) all_db_count in
        count_entries q ents all_db_count
      else count_entries q ents all_db_count
  end.

Definition mq_sm_get_msg_count : M qstate Z :=
  let! q := queue in
  if negb (unread_count q =? 0) then ret (unread_count q)
  else
    let! ents := sys (sys_opendir (GEN_QUEUE_PATH_BY_QNAME conf (qname q))) in
    match ents with
    | None => ret (u64 (-1))
    | Some ents =>
        let! all_db_count := sys (count_entries q ents 0) in
        update (with_get_num (opt_count (cur_rdb q))) ;;;
        update (with_put_num all_db_count) ;;;
        let all_db_count := if opt_count (cur_rdb q) <=? all_db_count
                            then all_db_count - opt_count (cur_rdb q) else 0 in
        update (with_unread all_db_count) ;;;
        ret all_db_count
    end.
End StoreManage.
