(* ===== verification/QueueManage.v ===== *)
(** * source/mq_queue_manage.c

    The table of queues and the operations on a queue.  The hash table is the
    list of its nodes in the order in which they were added, the order of its
    iteration; a [mq_queue_t *] into a node is the key of the node. *)
From S2P Require Import Prelude.
From S2P Require Import CLib.
From S2P Require Import World.
From S2P Require Import MqTypes.
From S2P Require Import MqUtil.
From S2P Require Import MsgFormat.
From S2P Require Import StorePath.
From S2P Require Import StoreRtag.
From S2P Require Import StoreFile.
From S2P Require Import StoreManage.

Definition MAX_QUEUE_NAME_LEN : nat := 32.

Inductive queue_put_ret := QUEUE_PUT_OK | QUEUE_FULL | QUEUE_WLOCK | QUEUE_PUT_ERROR.
Inductive queue_get_ret := QUEUE_GET_OK | QUEUE_GET_END | QUEUE_GET_ERROR.
#[export] Instance queue_put_ret_eq_dec : EqDecision queue_put_ret.
Proof. solve_decision. Defined.
#[export] Instance queue_get_ret_eq_dec : EqDecision queue_get_ret.
Proof. solve_decision. Defined.

(** ** The state of the server: the files, the configuration, the table *)
Definition qlist : Type := list (bytes * mq_queue).
Record store := Store { st_w : world; g_mq_conf : ucmq_conf; g_mq_qlist : qlist }.

Definition os {A} (m : M world A) : M store A := fun s =>
  match m (st_w s) with
  | Ok (a, w) => Ok (a, Store w (g_mq_conf s) (g_mq_qlist s))
  | Fault => Fault
  | OutOfFuel => OutOfFuel
  end.

(** ** The table *)
Fixpoint find_kv (l : qlist) (key : bytes) : option mq_queue :=
  match l with
  | [] => None
  | (k, q) :: l => if bool_decide (k = key) then Some q else find_kv l key
  end.
Fixpoint set_kv (l : qlist) (key : bytes) (q : mq_queue) : qlist :=
  match l with
  | [] => []
  | (k, q0) :: l => if bool_decide (k = key) then (k, q) :: l else (k, q0) :: set_kv l key q
  end.
Fixpoint del_kv (l : qlist) (key : bytes) : qlist :=
  match l with
  | [] => []
  | (k, q0) :: l => if bool_decide (k = key) then l else (k, q0) :: del_kv l key
  end.

Definition set_qlist (l : qlist) (s : store) : store := Store (st_w s) (g_mq_conf s) l.

(** The node is filled and added.  The key is copied into a [char[32 + 1]]: a longer
    one overflows the node. *)
Definition hash_add_node (qname : bytes) (q : mq_queue) : M store bytes :=
  if (length qname <=? MAX_QUEUE_NAME_LEN)%nat then
    modify (fun s => set_qlist (g_mq_qlist s ++ [(qname, q)]) s) ;;; ret qname
  else fault.
(** [None] without memory for the node. *)
Definition hash_add_queue_kv (qname : bytes) (q : mq_queue) : M store (option bytes) :=
  let! node := os sys_malloc in
  if negb node then ret None else let! key := hash_add_node qname q in ret (Some key).
Definition hash_get_queue_num : M store Z := gets (fun s => Z.of_nat (length (g_mq_qlist s))).
Definition hash_find_queue_by_key (qname : bytes) : M store (option bytes) :=
  gets (fun s => match find_kv (g_mq_qlist s) qname with Some _ => Some qname | None => None end).
Definition hash_del_queue (qname : bytes) : M store unit :=
  modify (fun s => set_qlist (del_kv (g_mq_qlist s) qname) s).
Definition hash_clear_queue : M store bool := modify (set_qlist []) ;;; ret true.

(** Runs [m] on the queue behind a pointer; a pointer without its node is
    dangling. *)
Definition on_queue {A} (key : bytes) (m : ucmq_conf -> M qstate A) : M store A := fun s =>
  match find_kv (g_mq_qlist s) key with
  | None => Fault
  | Some q =>
      match m (g_mq_conf s) (QState (st_w s) q) with
      | Ok (a, QState w q') => Ok (a, Store w (g_mq_conf s) (set_kv (g_mq_qlist s) key q'))
      | Fault => Fault
      | OutOfFuel => OutOfFuel
      end
  end.

(** Runs [m] on a queue structure of the stack. *)
Definition on_local {A} (q : mq_queue) (m : ucmq_conf -> M qstate A) : M store (A * mq_queue) :=
  fun s =>
  match m (g_mq_conf s) (QState (st_w s) q) with
  | Ok (a, QState w q') => Ok ((a, q'), Store w (g_mq_conf s) (g_mq_qlist s))
  | Fault => Fault
  | OutOfFuel => OutOfFuel
  end.

Section QueueOps.
Context (conf : ucmq_conf).

Definition init_queue : M qstate bool :=
  update_rdb (with_pos DB_FILE_HEAD_LEN) ;;;
  update_wdb (with_pos DB_FILE_HEAD_LEN) ;;;
  update_rdb (with_opt_count 0) ;;;
  update_wdb (with_opt_count 0) ;;;
  update (with_delay (def_delay conf)) ;;;
  update (with_maxque (def_max_queue conf)) ;;;
  update (with_put_num 0) ;;;
  update (with_get_num 0) ;;;
  update (with_unread 0) ;;;
  update (with_wlock 0) ;;;
  ret true.

Definition mq_qm_db_sync : M qstate bool :=
  let! q := queue in
  let! r := sys (sys_msync (map_mem (cur_wdb q)) (pos (cur_wdb q))) in
  ret (negb (r <? 0)).

Definition set_magic (item : msg_item) : msg_item :=
  MsgItem MSG_HEAD_OF_FIRST_MAGIC_NUM MSG_HEAD_OF_SECOND_MAGIC_NUM
    (mdelay item) (crc16 item) (mlen item) (msg item).

(** The test of the write lock: [wlock] is an [int], the time is unsigned. *)
Definition write_locked (q : mq_queue) (cur_time : Z) : bool :=
  (wlock q =? -1) || (cur_time <? u32 (wlock q)).
Definition queue_full (q : mq_queue) : bool :=
  negb (maxque q =? 0) && (maxque q <? u64 (unread_count q + 1)).

Definition sync_step : M qstate unit :=
  let! q := queue in
  if 0 <? sync_intv q then
    if sync_intv q =? 1 then
      let! _ := mq_qm_db_sync in
      update (with_sync_intv (if sync_interval conf <=? 0 then 10 else sync_interval conf))
    else update (with_sync_intv (sync_intv q - 1))
  else ret tt.

Definition mq_qm_push_item (item : msg_item) : M qstate (queue_put_ret * msg_item) :=
  let item := set_magic item in
  let! q := queue in
  if queue_full q then ret (QUEUE_FULL, item)
  else
    let! now := sys get_cur_timestamp in
    let cur_time := u32 now in
    if write_locked q cur_time then ret (QUEUE_WLOCK, item)
    else
      let item := with_mdelay cur_time item in
      let! '(result, item) := mq_sm_put_data conf item in
      if negb result then ret (QUEUE_PUT_ERROR, item)
      else
        let! _ := mq_sm_rtag_write_item in
        sync_step ;;;
        ret (QUEUE_PUT_OK, item).

Definition mq_qm_pop_item (item : msg_item) : M qstate (queue_get_ret * msg_item) :=
  let item := set_magic item in
  let! q := queue in
  if unread_count q <? 1 then ret (QUEUE_GET_END, item)
  else
    let! '(ok, item) := mq_sm_get_data conf item in
    if negb ok then ret (QUEUE_GET_END, item)
    else
      let! _ := mq_sm_rtag_write_item in
      ret (QUEUE_GET_OK, item).

Definition mq_qm_set_maxqueue (dest_max_queue_size : Z) : M qstate bool :=
  update (with_maxque dest_max_queue_size) ;;;
  let! _ := mq_sm_rtag_write_item in
  ret true.

Definition mq_qm_set_delay (dest_delay : Z) : M qstate bool :=
  update (with_delay dest_delay) ;;;
  let! _ := mq_sm_rtag_write_item in
  ret true.

(** [lock] is an [uint32_t]; the comparison [wlock == -1] is unsigned. *)
Definition mq_qm_set_wlock (lock : Z) : M qstate bool :=
  (if lock =? UINT_MAX then update (with_wlock (-1))
   else if lock =? 0 then update (with_wlock 0)
   else
     let! cur_time := sys get_cur_timestamp in
     update (with_wlock (i32 (cur_time + lock)))) ;;;
  let! _ := mq_sm_rtag_write_item in
  ret true.
End QueueOps.

(** ** Operations on the table *)
Definition mq_qm_find_queue (qname : bytes) : M store (option bytes) :=
  hash_find_queue_by_key qname.

Definition mq_qm_add_queue (qname : bytes) : M store (option bytes) :=
  let! num := hash_get_queue_num in
  let! conf := gets g_mq_conf in
  if max_qlist_itmes conf <=? num then ret None
  else
    let q := with_qname (take MAX_QUEUE_NAME_LEN qname) mq_queue_zero in
    let! '(ok, q) := on_local q mq_sm_creat_db in
    if negb ok then ret None
    else
      let! '(_, q) := on_local q init_queue in
      hash_add_queue_kv qname q.

Definition mq_qm_del_queue (qname : bytes) : M store bool :=
  let! closed := on_queue qname mq_sm_close_db in
  if negb closed then ret false
  else
    let! removed := on_queue qname mq_sm_remove_db in
    if negb removed then ret false
    else hash_del_queue qname ;;; ret true.

Definition mq_qm_set_synctime (sync_interval : Z) : M store bool :=
  if 0 <=? sync_interval then
    modify (fun s =>
      let c := g_mq_conf s in
      Store (st_w s)
        (UcmqConf (http_listen_addr c) (http_listen_port c) (allow_exec_ip c) (output_log_path c)
           (output_log_level c) (binlog_file_path c) (keep_alive c) (conf_file c) (pid_file c)
           (res_store_space c) (max_qlist_itmes c) (MqTypes.sync_interval c) sync_interval
           (def_max_queue c) (def_delay c) (data_file_path c) (db_file_max_size c))
        (g_mq_qlist s)) ;;;
    ret true
  else ret false.

(** ** The whole store *)
Definition open_one (d_name : bytes) : M store unit :=
  let! conf := gets g_mq_conf in
  let qn := take MAX_QUEUE_NAME_LEN d_name in
  let! '(found, qf) := os (find_handle_file conf queue_file_zero qn) in
  if negb found then ret tt
  else
    let! '(opened, q) := on_local (with_qname qn mq_queue_zero) (fun c => mq_sm_rtag_open_file c qf) in
    if negb opened then ret tt
    else
      let! '(ok, q) := on_local q mq_sm_rtag_read_item in
      if negb ok then ret tt
      else
        let! '(ok, q) := on_local q (fun c => mq_sm_open_db c qf) in
        if negb ok then ret tt
        else let! _ := hash_add_queue_kv d_name q in ret tt.

Fixpoint open_entries (ents : list dirent) : M store unit :=
  match ents with
  | [] => ret tt
  | ent :: ents =>
      (if negb (bool_decide (d_ty ent = DT_DIR)) then ret tt
       else if strncmp (d_name ent) (B ".") 1 =? 0 then ret tt
       else open_one (d_name ent)) ;;;
      open_entries ents
  end.

Definition mq_qm_open_store : M store bool :=
  let! conf := gets g_mq_conf in
  let! ok := os (touch_data_path (data_file_path conf)) in
  if negb ok then ret false
  else
    let! ents := os (sys_opendir (data_file_path conf)) in
    match ents with
    | None => ret false
    | Some ents => open_entries ents ;;; ret true
    end.

(** The loops over the table. *)
Fixpoint close_each (keys : list bytes) : M store unit :=
  match keys with
  | [] => ret tt
  | key :: keys =>
      let! _ := on_queue key (fun _ => mq_sm_rtag_close_file) in
      let! _ := on_queue key mq_sm_close_db in
      close_each keys
  end.
Definition mq_qm_close_store : M store bool :=
  let! keys := gets (fun s => fst <$> g_mq_qlist s) in
  close_each keys ;;;
  let! _ := hash_clear_queue in
  ret true.

(** [fsync] and [msync] change nothing that the program can read. *)
Fixpoint sync_each (l : qlist) : M store unit :=
  match l with
  | [] => ret tt
  | (_, q) :: l =>
      let! _ := os (sys_fsync (rtag_fd q)) in
      if map_mem (cur_wdb q) =? 0 then ret tt
      else
        let! _ := os (sys_msync (map_mem (cur_wdb q)) (pos (cur_wdb q))) in
        let! _ := os (sys_fsync (fd (cur_wdb q))) in
        sync_each l
  end.
Definition mq_qm_sync_store : M store unit :=
  let! l := gets g_mq_qlist in sync_each l.

Fixpoint count_each (keys : list bytes) (all_count : Z) : M store Z :=
  match keys with
  | [] => ret all_count
  | key :: keys =>
      let! queue_count := on_queue key mq_sm_get_msg_count in
      count_each keys (u64 (all_count + queue_count))
  end.
Definition mq_qm_get_store_count : M store Z :=
  let! keys := gets (fun s => fst <$> g_mq_qlist s) in
  count_each keys 0.

(** ** Facts about the table *)
Section Table.
Implicit Types (l : qlist) (k : bytes) (q : mq_queue).

Lemma find_set l k q q0 k' :
  find_kv l k = Some q0 -> find_kv (set_kv l k q) k' = if bool_decide (k = k') then Some q else find_kv l k'.
Proof.
  induction l as [|[k1 q1] l IH]; simpl; [done|]. intros E.
  destruct (bool_decide_reflect (k1 = k)) as [->|Hne]; simpl.
  - by destruct (bool_decide (k = k')).
  - rewrite IH by done. destruct (bool_decide_reflect (k1 = k')) as [->|]; [|done].
    by rewrite (bool_decide_false (k = k')) by congruence.
Qed.
Lemma set_set l k q q' : set_kv (set_kv l k q) k q' = set_kv l k q'.
Proof.
  induction l as [|[k1 q1] l IH]; simpl; [done|].
  destruct (bool_decide (k1 = k)) eqn:E; simpl; rewrite E; [done|]. by rewrite IH.
Qed.
Lemma keys_set l k q : (set_kv l k q).*1 = l.*1.
Proof.
  induction l as [|[k1 q1] l IH]; simpl; [done|].
  destruct (bool_decide (k1 = k)). { done. } change (k1 :: (set_kv l k q).*1 = k1 :: l.*1). by rewrite IH.
Qed.
Lemma find_none l k : find_kv l k = None <-> k ∉ l.*1.
Proof.
  induction l as [|[k1 q1] l IH]; simpl; [split; [intros _; apply not_elem_of_nil|done]|].
  rewrite not_elem_of_cons. destruct (bool_decide_reflect (k1 = k)) as [->|].
  - split; [done|]. by intros [].
  - rewrite IH. split; [intros ?|by intros []]. split; [congruence|done].
Qed.
Lemma find_app l k q k' :
  find_kv (l ++ [(k, q)]) k'
  = match find_kv l k' with Some q0 => Some q0 | None => if bool_decide (k = k') then Some q else None end.
Proof.
  induction l as [|[k1 q1] l IH]; simpl; [done|].
  by destruct (bool_decide (k1 = k')).
Qed.
Lemma find_del l k k' : NoDup l.*1 ->
  find_kv (del_kv l k) k' = if bool_decide (k = k') then None else find_kv l k'.
Proof.
  induction l as [|[k1 q1] l IH]; simpl; [by case_bool_decide|].
  rewrite NoDup_cons. intros [Hn Hd]. destruct (bool_decide_reflect (k1 = k)) as [->|Hne]; simpl.
  - destruct (bool_decide_reflect (k = k')) as [E|]; [subst k'|done]. by apply find_none.
  - rewrite IH by done. destruct (bool_decide_reflect (k1 = k')) as [->|]; [|done].
    by rewrite (bool_decide_false (k = k')) by congruence.
Qed.
Lemma find_kv_in l k q : find_kv l k = Some q -> (k, q) ∈ l.
Proof.
  induction l as [|[k1 q1] l IH]; simpl; [done|]. rewrite elem_of_cons. case_bool_decide as E; [|by auto].
  intros [= ->]. left. by rewrite E.
Qed.
Lemma in_find_kv l k q : NoDup l.*1 -> (k, q) ∈ l -> find_kv l k = Some q.
Proof.
  induction l as [|[k1 q1] l IH]; simpl; [by intros _ ?%elem_of_nil|]. rewrite NoDup_cons, elem_of_cons.
  intros [Hn Hd] [[= -> ->]|Hin]; [by rewrite bool_decide_true|].
  rewrite bool_decide_false; [by apply IH|]. intros ->. apply Hn, list_elem_of_fmap. by exists (k, q).
Qed.
Lemma set_kv_in l k q' x : x ∈ set_kv l k q' -> x = (k, q') \/ x ∈ l.
Proof.
  induction l as [|[k1 q1] l IH]; simpl; [by right|]. case_bool_decide as E; rewrite !elem_of_cons; [subst|]; naive_solver.
Qed.
Lemma del_kv_in l k x : x ∈ del_kv l k -> x ∈ l.
Proof.
  induction l as [|[k1 q1] l IH]; simpl; [done|]. case_bool_decide; rewrite !elem_of_cons; naive_solver.
Qed.
Lemma find_set_ne l k q k' : k' <> k -> find_kv (set_kv l k q) k' = find_kv l k'.
Proof.
  intros Hk. induction l as [|[k1 q1] l IH]; simpl; [done|]. case_bool_decide as E; simpl.
  - by rewrite bool_decide_false by congruence.
  - by rewrite IH.
Qed.
Lemma find_del_ne l k k' : k' <> k -> find_kv (del_kv l k) k' = find_kv l k'.
Proof.
  intros Hk. induction l as [|[k1 q1] l IH]; simpl; [done|]. case_bool_decide as E; simpl.
  - by rewrite bool_decide_false by congruence.
  - by rewrite IH.
Qed.
Lemma keys_del_sub l k k' : k' ∈ (del_kv l k).*1 -> k' ∈ l.*1.
Proof.
  induction l as [|[k1 q1] l IH]; simpl; [done|].
  destruct (bool_decide (k1 = k)); simpl; rewrite !elem_of_cons; naive_solver.
Qed.
Lemma keys_snoc l k q : find_kv l k = None -> NoDup l.*1 -> NoDup (l ++ [(k, q)]).*1.
Proof.
  intros Hn%find_none Hd. rewrite fmap_app. apply NoDup_app. split_and!; [done| |apply NoDup_singleton].
  intros k' Hk Hin. apply list_elem_of_singleton in Hin. by subst k'.
Qed.
Lemma keys_del_nodup l k : NoDup l.*1 -> NoDup (del_kv l k).*1.
Proof.
  induction l as [|[k1 q1] l IH]; simpl; [done|]. rewrite NoDup_cons. intros [Hn Hd].
  destruct (bool_decide (k1 = k)); simpl; [done|]. rewrite NoDup_cons.
  split; [|by apply IH]. contradict Hn. by eapply keys_del_sub.
Qed.
End Table.

(** The table holds at most one node for each name: adding a name that is
    not there makes it lead to its queue, deleting it makes it lead nowhere,
    every other name leads where it did, and no name gets a second node. *)
Theorem queue_table_spec s qn q :
  NoDup (g_mq_qlist s).*1 -> (length qn <= MAX_QUEUE_NAME_LEN)%nat ->
  (mq_qm_find_queue qn s = Ok (None, s) -> exists s',
     hash_add_node qn q s = Ok (qn, s') /\ NoDup (g_mq_qlist s').*1 /\
     mq_qm_find_queue qn s' = Ok (Some qn, s') /\
     forall k, find_kv (g_mq_qlist s') k
               = if bool_decide (qn = k) then Some q else find_kv (g_mq_qlist s) k) /\
  (exists s', hash_del_queue qn s = Ok (tt, s') /\ NoDup (g_mq_qlist s').*1 /\
     mq_qm_find_queue qn s' = Ok (None, s') /\
     forall k, find_kv (g_mq_qlist s') k
               = if bool_decide (qn = k) then None else find_kv (g_mq_qlist s) k).
Proof.
  intros Hd Hl. unfold mq_qm_find_queue, hash_find_queue_by_key, gets. split.
  - intros E. assert (find_kv (g_mq_qlist s) qn = None) as Hn by (by destruct (find_kv _ _)).
    assert (forall k, find_kv (g_mq_qlist s ++ [(qn, q)]) k
                      = if bool_decide (qn = k) then Some q else find_kv (g_mq_qlist s) k) as Hf.
    { intros k. rewrite find_app. case_bool_decide; [subst k; by rewrite Hn|]. by destruct (find_kv _ k). }
    eexists. unfold hash_add_node. rewrite (proj2 (Nat.leb_le _ _)) by done.
    split; [reflexivity|]. cbn [g_mq_qlist set_qlist]. split_and!; [|by rewrite Hf, bool_decide_true|done].
    by apply keys_snoc.
  - eexists. split; [reflexivity|]. cbn [g_mq_qlist set_qlist].
    split_and!; [by apply keys_del_nodup|by rewrite find_del, bool_decide_true by done|].
    intros k. by apply find_del.
Qed.

Lemma hash_add_run w conf l qn q : w_faults w = [] -> (length qn <= MAX_QUEUE_NAME_LEN)%nat ->
  hash_add_queue_kv qn q (Store w conf l) = Ok (Some qn, Store w conf (l ++ [(qn, q)])).
Proof.
  intros Hf Hl. unfold hash_add_queue_kv, os, sys_malloc, pick_fault, hash_add_node, bind, ret. cbn [st_w].
  rewrite Hf. cbn. by rewrite (proj2 (Nat.leb_le _ _)) by done.
Qed.

Lemma queue_table_spec_witness :
  let s := Store (sample_world 0 ∅) sample_conf [(B "a", mq_queue_zero)] in
  exists s', hash_del_queue (B "a") s = Ok (tt, s') /\ NoDup (g_mq_qlist s').*1 /\
     mq_qm_find_queue (B "a") s' = Ok (None, s') /\
     forall k, find_kv (g_mq_qlist s') k
               = if bool_decide (B "a" = k) then None else find_kv (g_mq_qlist s) k.
Proof.
  apply (queue_table_spec (Store (sample_world 0 ∅) sample_conf [(B "a", mq_queue_zero)])
    (B "a") mq_queue_zero); [decide_it|vm_compute; lia].
Defined.
