(* ===== verification/StoreInv.v ===== *)
(** * The contents of a queue's files

    The abstract contents of a queue: the messages that wait, oldest first.
    [queue_inv] relates a state of the store to its contents.  This file holds
    the invariant, moving the reader to the next file, taking a message and
    writing the read tag; [StoreWrite] holds the writer. *)
From S2P Require Import Prelude.
From S2P Require Import CLib.
From S2P Require Import World.
From S2P Require Import Crc16.
From S2P Require Import MqTypes.
From S2P Require Import MqUtil.
From S2P Require Import FileIo.
From S2P Require Import MsgFormat.
From S2P Require Import StorePath.
From S2P Require Import StoreRtag.
From S2P Require Import StoreFile.
From S2P Require Import StoreManage.
From S2P Require Import QueueManage.

(** ** Worlds in which new names, descriptors and addresses are new *)
Record world_wf (w : world) : Prop := {
  wf_next : 0 < w_next w;
  wf_fds k o : w_fds w !! k = Some o -> 0 < k < w_next w;
  wf_maps k m : w_maps w !! k = Some m -> 0 < k < w_next w;
  wf_inodes k f : w_inodes w !! k = Some f -> k < w_next w;
  wf_names p i : w_names w !! p = Some i -> is_Some (w_inodes w !! i);
  wf_inj p p' i : w_names w !! p = Some i -> w_names w !! p' = Some i -> p = p'
}.

Lemma wf_set_inodes w i f f' :
  world_wf w -> w_inodes w !! i = Some f -> world_wf (set_inodes (<[i := f']> (w_inodes w)) w).
Proof.
  intros [] Hi. split; cbn; eauto.
  - intros k g. rewrite lookup_insert_Some. intros [[<- _]|[_ H]]; eauto.
  - intros p j Hp. apply lookup_insert_is_Some'. eauto.
Qed.

Lemma wf_set_fd w k o o' :
  world_wf w -> w_fds w !! k = Some o -> world_wf (set_fds (<[k := o']> (w_fds w)) w).
Proof.
  intros [] Hi. split; cbn; eauto.
  intros j g. rewrite lookup_insert_Some. intros [[<- _]|[_ H]]; eauto.
Qed.

Lemma wf_close w fd a w' : world_wf w -> sys_close fd w = Ok (a, w') -> world_wf w'.
Proof.
  intros [] [= <- <-]. split; cbn; eauto. intros k o [_ H]%lookup_delete_Some. eauto.
Qed.
Lemma wf_unlink w p a w' : world_wf w -> sys_unlink p w = Ok (a, w') -> world_wf w'.
Proof.
  intros [] [= <- <-]. split; cbn; eauto.
  - intros q i [_ H]%lookup_delete_Some. eauto.
  - intros q q' i [_ H]%lookup_delete_Some [_ H']%lookup_delete_Some. eauto.
Qed.
Lemma wf_munmap w p a w' : world_wf w -> sys_munmap p w = Ok (a, w') -> world_wf w'.
Proof.
  intros [] [= <- <-]. split; cbn; eauto. intros k o [_ H]%lookup_delete_Some. eauto.
Qed.

(** The world after a new file was created. *)
Definition created (w : world) (path : bytes) (ap nb : bool) : world :=
  let n := w_next w in
  set_next (n + 2) (set_names (<[path := n + 1]> (w_names w))
    (set_inodes (<[n + 1 := File 0 ∅]> (w_inodes w))
    (set_fds (<[n := Ofd (n + 1) 0 ap nb]> (w_fds w)) w))).

Lemma sys_open_new w path ap nb :
  w_faults w = [] -> path ∉ w_dirs w -> w_names w !! path = None ->
  dir_exists w (dirname path) = true ->
  sys_open path true ap nb w = Ok (w_next w, created w path ap nb).
Proof.
  intros Hnf Hd Hn He. unfold sys_open, pick_fault, bind, ret. rewrite Hnf.
  rewrite bool_decide_false by done. by rewrite Hn, He.
Qed.

Lemma wf_created w path ap nb :
  world_wf w -> w_names w !! path = None -> world_wf (created w path ap nb).
Proof.
  intros [] Hn. split; cbn.
  - lia.
  - intros k o. rewrite lookup_insert_Some. intros [[<- _]|[_ H]]; [lia|].
    apply wf_fds0 in H. lia.
  - intros k o H. apply wf_maps0 in H. lia.
  - intros k o. rewrite lookup_insert_Some. intros [[<- _]|[_ H]]; [lia|].
    apply wf_inodes0 in H. lia.
  - intros p i. rewrite lookup_insert_Some. intros [[_ <-]|[_ H]].
    + rewrite lookup_insert_eq. eauto.
    + apply lookup_insert_is_Some'. eauto.
  - assert (forall p, w_names w !! p = Some (w_next w + 1) -> False) as Hnew.
    { intros p H. destruct (wf_names0 _ _ H) as [f Hf]. apply wf_inodes0 in Hf. lia. }
    intros p p' i. rewrite !lookup_insert_Some.
    intros [[<- <-]|[Hp H]] [[<- Hi]|[Hp' H']]; eauto; exfalso; subst; eauto.
Qed.

Lemma wf_mmap w addr ino len :
  world_wf w -> addr = w_next w ->
  world_wf (set_next (addr + 1) (set_maps (<[addr := Mapping ino len]> (w_maps w)) w)).
Proof.
  intros [] ->. split; cbn; eauto; try lia.
  - intros k o H. apply wf_fds0 in H. lia.
  - intros k o. rewrite lookup_insert_Some. intros [[<- _]|[_ H]]; [lia|].
    apply wf_maps0 in H. lia.
  - intros k o H. apply wf_inodes0 in H. lia.
Qed.

(** ** The contents of a queue *)

(** From [p] to [e] there are the messages [ms], behind bytes at which no
    message starts. *)
Definition pending (d : gmap Z Z) (p : Z) (ms : list smsg) (e : Z) : Prop :=
  exists s, p <= s /\ clean d p s /\ layout d s ms e.

Section Contents.
Context (conf : ucmq_conf).
#[local] Abbreviation MAX := (MAX_DB_FILE_SIZE conf).

Definition db_path (q : mq_queue) (i : Z) : bytes := in_queue conf (qname q) (db_name i).
Definition rtag_path (q : mq_queue) (i : Z) : bytes := in_queue conf (qname q) (rtag_name i).

(** A file that is no longer written: messages from [p], then nothing. *)
Definition sealed (d : gmap Z Z) (p : Z) (ms : list smsg) : Prop :=
  exists e, pending d p ms e /\ e <= MAX /\ clean d e MAX.

(** Inode [ino] is the data file [i] with contents [d]. *)
Definition db_file (w : world) (q : mq_queue) (i ino : Z) (d : gmap Z Z) : Prop :=
  w_names w !! db_path q i = Some ino /\
  w_inodes w !! ino = Some (File MAX d) /\ data_bytes d.

(** The handle [h] of a queue is open on that file. *)
Definition db_handle (w : world) (q : mq_queue) (h : mq_db_map) (ino : Z) (d : gmap Z Z) : Prop :=
  db_file w q (cur_index h) ino d /\
  w_maps w !! map_mem h = Some (Mapping ino MAX) /\
  fd h < w_next w /\ fd h <> rtag_fd q.

Definition rtag_handle (w : world) (q : mq_queue) : Prop :=
  exists o f, open_nb w (rtag_fd q) o f /\
              w_names w !! rtag_path q (cur_index (cur_rdb q)) = Some (o_ino o).

(** The files between the reader's and the writer's, by their messages. *)
Definition chain (w : world) (q : mq_queue) (i : Z) (mids : list (list smsg)) : Prop :=
  forall k ms, mids !! k = Some ms ->
    exists ino d, db_file w q (i + Z.of_nat k) ino d /\ sealed d DB_FILE_HEAD_LEN ms.

(** The messages that wait when the reader is in the writer's file. *)
Definition contents_same (q : mq_queue) (dw : gmap Z Z) (ms : list smsg) : Prop :=
  cur_index (cur_rdb q) = cur_index (cur_wdb q) /\
  map_mem (cur_rdb q) = map_mem (cur_wdb q) /\ fd (cur_rdb q) = fd (cur_wdb q) /\
  pending dw (pos (cur_rdb q)) ms (pos (cur_wdb q)).

(** The messages that wait when it is in an older file. *)
Definition contents_behind (w : world) (q : mq_queue) (dw : gmap Z Z) (ms : list smsg) : Prop :=
  cur_index (cur_rdb q) < cur_index (cur_wdb q) /\
  map_mem (cur_rdb q) <> map_mem (cur_wdb q) /\
  exists rino dr msr mids msw,
    db_handle w q (cur_rdb q) rino dr /\ sealed dr (pos (cur_rdb q)) msr /\
    chain w q (cur_index (cur_rdb q) + 1) mids /\
    Z.of_nat (length mids) = cur_index (cur_wdb q) - cur_index (cur_rdb q) - 1 /\
    pending dw DB_FILE_HEAD_LEN msw (pos (cur_wdb q)) /\
    ms = msr ++ concat mids ++ msw.

(** The names the store will use next are free. *)
Definition names_free (w : world) (q : mq_queue) : Prop :=
  queue_dir conf (qname q) ∈ w_dirs w /\
  (forall i, 0 <= i -> (db_path q i ∉ w_dirs w) /\ (rtag_path q i ∉ w_dirs w)) /\
  (forall i, cur_index (cur_wdb q) < i < LLONG_MAX -> w_names w !! db_path q i = None) /\
  (forall i, cur_index (cur_rdb q) < i < LLONG_MAX -> w_names w !! rtag_path q i = None).

(** The queue's directory holds its tag and its data files and nothing else. *)
Definition only_files (w : world) (q : mq_queue) : Prop :=
  forall name ino, slash ∉ name -> w_names w !! in_queue conf (qname q) name = Some ino ->
    name = rtag_name (cur_index (cur_rdb q)) \/
    exists i, cur_index (cur_rdb q) <= i <= cur_index (cur_wdb q) /\ name = db_name i.

(** What is written to the tag goes to its end. *)
Definition tag_appends (w : world) (q : mq_queue) : Prop :=
  forall o f, fd_file w (rtag_fd q) = Some (o, f) ->
    0 <= f_size f /\ (o_append o = true \/ o_pos o = f_size f).

Definition disk_ok (w : world) (q : mq_queue) : Prop := only_files w q /\ tag_appends w q.

(** The state [w], [q] of the store holds the messages [ms]. *)
Record queue_inv (w : world) (q : mq_queue) (ms : list smsg) : Prop := {
  inv_wf : world_wf w;
  inv_faults : w_faults w = [];
  inv_fits : path_fits conf (qname q) /\ slash ∉ qname q;
  inv_free : names_free w q;
  inv_rtag : rtag_handle w q;
  inv_index : 0 < cur_index (cur_rdb q) /\ cur_index (cur_wdb q) < LLONG_MAX;
  inv_pos : DB_FILE_HEAD_LEN <= pos (cur_rdb q) <= MAX /\
            DB_FILE_HEAD_LEN <= pos (cur_wdb q) <= MAX;
  inv_contents : exists wino dw,
    db_handle w q (cur_wdb q) wino dw /\ clean dw (pos (cur_wdb q)) MAX /\
    (contents_same q dw ms \/ contents_behind w q dw ms);
  inv_disk : disk_ok w q
}.

(** ** What a restart finds *)

(** The tag file, its size, and the line at its end. *)
Definition tag_file (w : world) (q : mq_queue) : option file :=
  match w_names w !! rtag_path q (cur_index (cur_rdb q)) with
  | Some ino => w_inodes w !! ino
  | None => None
  end.
Definition tag_size (w : world) (q : mq_queue) : Z :=
  match tag_file w q with Some f => f_size f | None => 0 end.
Definition tagged (w : world) (q t : mq_queue) : Prop :=
  exists f, tag_file w q = Some f /\ 61 <= f_size f /\
            holds (f_data f) (f_size f - 61) (rtag_line t).

(** With the positions of the line at the end of the tag, the files hold [ms];
    the line has the settings of the queue. *)
Definition saved (w : world) (q : mq_queue) (ms : list smsg) : Prop :=
  exists t, rtag_ok conf t /\ tagged w q t /\ queue_inv w (restore t q) ms /\
            maxque t = maxque q /\ delay t = delay q /\ wlock t = wlock q.

(** Each message that was read from the reader's file lies behind it. *)
Definition count_ok (q : mq_queue) : Prop :=
  0 <= opt_count (cur_rdb q) /\ opt_count (cur_rdb q) * MSG_HEAD_LEN <= pos (cur_rdb q).

(** The settings have values of their C types. *)
Definition settings_ok (q : mq_queue) : Prop :=
  0 <= maxque q <= UINT_MAX /\ 0 <= delay q <= UINT_MAX /\ -2147483648 <= wlock q <= INT_MAX.

(** What reading does to the tag. *)
Definition tag_kept (w : world) (q : mq_queue) (w' : world) (q' : mq_queue) : Prop :=
  (settings_ok q -> settings_ok q') /\ (count_ok q -> count_ok q') /\
  (settings_ok q -> tag_size w' q' <= Z.max (tag_size w q) 61).

(** The names and the tag can take [n] more operations: at most one new file
    each, with a number of twelve digits, and two lines each in a tag that stays
    below 2 GB. *)
Definition ready (w : world) (q : mq_queue) (n : Z) : Prop :=
  settings_ok q /\ count_ok q /\ tag_size w q + 122 * n < 2147483587 /\
  cur_index (cur_wdb q) + n < MAX_INDEX /\ (length (qname q) <= MAX_QUEUE_NAME_LEN)%nat.

(** A restart finds [ms], now and during [n] more operations. *)
Definition durable (w : world) (q : mq_queue) (ms : list smsg) (n : Z) : Prop :=
  ready w q n /\ saved w q ms.
End Contents.

Lemma tag_kept_trans conf w q w1 q1 w' q' :
  tag_kept conf w q w1 q1 -> tag_kept conf w1 q1 w' q' -> tag_kept conf w q w' q'.
Proof.
  intros (S1 & C1 & T1) (S2 & C2 & T2). split_and!; [auto..|]. intros H.
  specialize (T1 H). specialize (T2 (S1 H)). lia.
Qed.
Lemma tag_kept_same conf w q q' : (count_ok q -> count_ok q') ->
  (settings_ok q -> settings_ok q') ->
  qname q' = qname q -> cur_index (cur_rdb q') = cur_index (cur_rdb q) -> tag_kept conf w q w q'.
Proof.
  intros Hc Hs En Ei. split_and!; [done..|]. intros _. unfold tag_size, tag_file, rtag_path.
  rewrite En, Ei. lia.
Qed.

Lemma saved_settings conf w q ms : saved conf w q ms -> settings_ok q.
Proof. unfold settings_ok. intros (t & (_ & _ & _ & ?) & _ & _ & <- & <- & <-). done. Qed.

(** What can be printed into the tag. *)
Lemma rtag_ok_inv conf w q ms : conf_wf conf ->
  queue_inv conf w q ms -> count_ok q -> settings_ok q -> rtag_ok conf q.
Proof.
  intros Hc Hinv [H0 H1] Hs. pose proof (inv_pos _ _ _ _ Hinv).
  pose proof (MAX_DB_FILE_SIZE_range conf Hc). unfold DB_FILE_HEAD_LEN, MSG_HEAD_LEN in *.
  split_and!; try apply Hs; try lia. apply Z.quot_le_lower_bound; unfold MSG_HEAD_LEN; lia.
Qed.

(** Restoring what the queue has changes nothing. *)
Lemma restore_self t q :
  opt_count (cur_rdb q) = opt_count (cur_rdb t) -> pos (cur_rdb q) = pos (cur_rdb t) ->
  pos (cur_wdb q) = pos (cur_wdb t) -> maxque q = maxque t -> delay q = delay t ->
  wlock q = wlock t -> restore t q = q.
Proof. destruct q as [? ? ? ? ? ? ? ? ? [] []]. cbn. by intros -> -> -> -> -> ->. Qed.

(** ** Facts about contents *)
Lemma pending_skip d p ms e : pending d p ms e ->
  (exists m ms', ms = m :: ms' /\ wf_msg m /\ holds d p (encode m) /\
     pending d (p + MSG_HEAD_LEN + blen m) ms' e) \/
  (ms = [] /\ p = e) \/
  (byte_at d p <> MSG_HEAD_OF_FIRST_MAGIC_NUM /\ pending d (p + 1) ms e /\
   p < e /\ (ms <> [] -> p + MSG_HEAD_LEN + 1 < e)).
Proof.
  intros (s & Hs & Hc & Hl). destruct (decide (p = s)) as [<-|Hne].
  - destruct ms as [|m ms']; [by right; left|]. left. destruct Hl as (Hm & Hh & Hl).
    exists m, ms'. split_and!; try done. exists (p + MSG_HEAD_LEN + blen m).
    split_and!; [lia| |done]. intros i. lia.
  - right; right. pose proof (layout_range _ _ _ _ Hl). split_and!.
    + apply Hc. lia.
    + exists s. split_and!; [lia| |done]. intros i Hi. apply Hc. lia.
    + lia.
    + intros Hm. destruct ms as [|m ms']; [done|]. destruct Hl as ((_ & _ & Hb) & _ & Hl).
      apply layout_range in Hl. unfold MSG_HEAD_LEN in *. lia.
Qed.

Lemma pending_frame d d' p ms e :
  (forall i, p <= i < e -> byte_at d' i = byte_at d i) -> pending d p ms e -> pending d' p ms e.
Proof.
  intros Hd (s & Hs & Hc & Hl). pose proof (layout_range _ _ _ _ Hl).
  exists s. split_and!; [done| |].
  - intros i Hi. rewrite Hd by lia. by apply Hc.
  - eapply layout_frame; [|done]. intros i Hi. apply Hd. lia.
Qed.

Lemma pending_range d p ms e : pending d p ms e -> p <= e.
Proof. intros (s & Hs & _ & Hl). apply layout_range in Hl. lia. Qed.

Lemma pending_app d p ms m e :
  pending d p ms e -> wf_msg m -> holds d e (encode m) ->
  pending d p (ms ++ [m]) (e + MSG_HEAD_LEN + blen m).
Proof. intros (s & Hs & Hc & Hl) Hm Hh. exists s. split_and!; try done. by apply layout_app. Qed.

Lemma pending_nil d p : pending d p [] p.
Proof. exists p. split_and!; [lia| |done]. intros i. lia. Qed.

Lemma clean_frame d d' a b :
  (forall i, a <= i < b -> byte_at d' i = byte_at d i) -> clean d a b -> clean d' a b.
Proof. intros Hd Hc i Hi. rewrite Hd by done. by apply Hc. Qed.

Lemma sealed_skip conf d p ms : sealed conf d p ms -> 0 <= p ->
  (exists m ms', ms = m :: ms' /\ wf_msg m /\ holds d p (encode m) /\
     p + MSG_HEAD_LEN + blen m <= MAX_DB_FILE_SIZE conf /\
     sealed conf d (p + MSG_HEAD_LEN + blen m) ms') \/
  (ms = [] /\ MAX_DB_FILE_SIZE conf <= p) \/
  (byte_at d p <> MSG_HEAD_OF_FIRST_MAGIC_NUM /\ sealed conf d (p + 1) ms /\
   p < MAX_DB_FILE_SIZE conf /\ (ms <> [] -> p + MSG_HEAD_LEN + 1 < MAX_DB_FILE_SIZE conf)).
Proof.
  intros (e & Hp & He & Hc) Hp0. destruct (pending_skip _ _ _ _ Hp) as
    [(m & ms' & -> & Hm & Hh & Hp')|[[-> ->]|(Hb & Hp' & Hlt & Hne)]].
  - left. exists m, ms'. pose proof (pending_range _ _ _ _ Hp').
    split_and!; [done..|lia|]. by exists e.
  - destruct (decide (e < MAX_DB_FILE_SIZE conf)) as [Hlt|]; [|right; left; split; [done|lia]].
    right; right. split_and!; [by apply Hc; lia| |done|done].
    exists (e + 1). split_and!; [apply pending_nil|lia|]. intros i Hi. apply Hc. lia.
  - right; right. split_and!; [done|by exists e|lia|]. intros Hm. specialize (Hne Hm). lia.
Qed.

(** ** The reader moves to the next file *)
Lemma run_sys {A B} (m : M world A) (k : A -> M qstate B) w q a w' :
  m w = Ok (a, w') -> (let! x := sys m in k x) (QState w q) = k a (QState w' q).
Proof. intros H. by erewrite bind_ok by (by apply sys_ok). Qed.
Lemma run_update {B} f (k : unit -> M qstate B) w q :
  (let! x := update f in k x) (QState w q) = k tt (QState w (f q)).
Proof. done. Qed.
Lemma run_update_rdb {B} f (k : unit -> M qstate B) w q :
  (let! x := update_rdb f in k x) (QState w q) = k tt (QState w (with_rdb f q)).
Proof. done. Qed.
Lemma run_update_wdb {B} f (k : unit -> M qstate B) w q :
  (let! x := update_wdb f in k x) (QState w q) = k tt (QState w (with_wdb f q)).
Proof. done. Qed.
Lemma run_queue {B} (k : mq_queue -> M qstate B) w q :
  (let! x := queue in k x) (QState w q) = k q (QState w q).
Proof. done. Qed.

(** The worlds after the calls that cannot fail. *)
Definition closed (fd : Z) (w : world) : world := set_fds (delete fd (w_fds w)) w.
Definition unlinked (p : bytes) (w : world) : world := set_names (delete p (w_names w)) w.
Definition unmapped (a : Z) (w : world) : world := set_maps (delete a (w_maps w)) w.
Lemma run_close {B} fd (k : unit -> M qstate B) w q :
  (let! x := sys (sys_close fd) in k x) (QState w q) = k tt (QState (closed fd w) q).
Proof. done. Qed.
Lemma run_unlink {B} p (k : unit -> M qstate B) w q :
  (let! x := sys (sys_unlink p) in k x) (QState w q) = k tt (QState (unlinked p w) q).
Proof. done. Qed.
Lemma run_munmap {B} a (k : unit -> M qstate B) w q :
  (let! x := sys (sys_munmap a) in k x) (QState w q) = k tt (QState (unmapped a w) q).
Proof. done. Qed.
Lemma run_msync {B} a n (k : Z -> M qstate B) w q :
  (let! x := sys (sys_msync a n) in k x) (QState w q)
  = k (match w_maps w !! a with Some _ => 0 | None => -1 end) (QState w q).
Proof. done. Qed.

(** Runs the updates and reads of the queue at the head of the goal. *)
Ltac run_q := rewrite ?run_queue; repeat
  first [rewrite run_update | rewrite run_update_rdb | rewrite run_update_wdb
        | rewrite run_close | rewrite run_unlink | rewrite run_munmap | rewrite run_msync]; cbv beta iota zeta.

(** Writing a tag through any valid handle succeeds. *)
Lemma rtag_line_cons q : rtag_line q <> [].
Proof. rewrite rtag_line_text. by destruct (rtag_text q). Qed.

Lemma rtag_write_any w q o f :
  open_nb w (rtag_fd q) o f -> w_faults w = [] ->
  mq_sm_rtag_write_item (QState w q) = Ok (true, QState (wrote w (rtag_fd q) o f (rtag_line q)) q).
Proof.
  intros Hnb Hnf. unfold mq_sm_rtag_write_item. rewrite run_queue. cbv zeta.
  erewrite run_sys by (by apply write_n_file, rtag_line_cons).
  pose proof (rtag_line_cons q). destruct (rtag_line q); [done|].
  rewrite (proj2 (Z.ltb_ge _ 0)) by lia. by rewrite (proj2 (Z.eqb_neq _ 0)) by (simpl; lia).
Qed.

Section Switch.
Context (conf : ucmq_conf).
#[local] Abbreviation MAX := (MAX_DB_FILE_SIZE conf).
#[local] Abbreviation rtag_path := (rtag_path conf).
#[local] Abbreviation db_path := (db_path conf).

(** The queue behind the switch, before its new file is open. *)
Definition switched_queue (n : Z) (q : mq_queue) : mq_queue :=
  with_rdb (with_pos DB_FILE_HEAD_LEN) (with_rdb (with_opt_count 0)
    (with_rdb (with_cur_index (cur_index (cur_rdb q) + 1))
      (with_rtag_fd n (with_rdb (with_flag 0) q)))).

Definition switched (w : world) (q : mq_queue) : world :=
  let n := w_next w in
  let r := cur_index (cur_rdb q) in
  let w1 := created w (rtag_path q (r + 1)) false true in
  let w2 := wrote w1 n (Ofd (n + 1) 0 false true) (File 0 ∅)
              (rtag_line (switched_queue n q)) in
  unlinked (db_path q r) (closed (fd (cur_rdb q)) (unmapped (map_mem (cur_rdb q))
    (unlinked (rtag_path q r) (closed (rtag_fd q) w2)))).

(** The end of [get_next_read_file]. *)
Definition open_next (n next_index : Z) (q : mq_queue) : M qstate bool :=
  if next_index =? cur_index (cur_wdb q) then
    update_rdb (with_map_mem (map_mem (cur_wdb q))) ;;;
    update_rdb (with_fd (fd (cur_wdb q))) ;;;
    update_rdb (with_flag 1) ;;; ret true
  else
    let! '(new_fd, mem) := sys (mq_sm_open_db_file conf
        (db_path q next_index) FOPEN_FLAG_OPEN) in
    update_rdb (with_fd new_fd) ;;;
    update_rdb (with_map_mem mem) ;;;
    if mem =? 0 then sys (sys_close n) ;;; ret false
    else update_rdb (with_flag 1) ;;; ret true.

Lemma dirname_in_queue q name : slash ∉ name ->
  dirname (in_queue conf (qname q) name) = queue_dir conf (qname q).
Proof. intros H. by apply dirname_child. Qed.

Lemma created_open w path :
  open_nb (created w path false true) (w_next w) (Ofd (w_next w + 1) 0 false true) (File 0 ∅).
Proof.
  split; [|done]. unfold fd_file, created. cbn. rewrite lookup_insert_eq. cbn.
  by rewrite lookup_insert_eq.
Qed.

Lemma next_read_switch w q ms :
  queue_inv conf w q ms -> cur_index (cur_rdb q) < cur_index (cur_wdb q) ->
  get_next_read_file conf (QState w q) =
  open_next (w_next w) (cur_index (cur_rdb q) + 1) q
    (QState (switched w q) (switched_queue (w_next w) q)).
Proof.
  intros [Hwf Hnf [Hfit Hsl] Hfree Hrtag Hidx Hpos _] Hlt.
  destruct Hfree as (Hdir & Hnd & _ & Hnr). unfold LLONG_MAX in *.
  unfold get_next_read_file. rewrite run_queue. cbv beta zeta.
  rewrite u64_small by lia. rewrite (proj2 (Z.ltb_ge _ _)) by lia.
  rewrite !rtag_path_eq, !db_path_eq by (done || lia). run_q.
  unfold mq_sm_rtag_open_next_file.
  erewrite run_sys; cycle 1.
  { erewrite bind_ok by (apply sys_open_new; [done|apply Hnd; lia|apply Hnr; lia|];
      rewrite dirname_in_queue by apply slash_not_rtag; by apply bool_decide_true; right).
    cbv beta. rewrite (proj2 (Z.ltb_ge _ 0)) by (destruct Hwf; lia). reflexivity. }
  run_q. rewrite (proj2 (Z.ltb_ge _ 0)) by (destruct Hwf; lia). run_q.
  erewrite bind_ok by (apply rtag_write_any; [apply created_open|done]).
  cbv beta. run_q. reflexivity.
Qed.
End Switch.

(** ** What the steps keep *)
Create HintDb paths.
Create HintDb worlds.
Definition index_ok (i : Z) : Prop := 0 <= i < LLONG_MAX.

Lemma db_path_ne conf q i j : index_ok i -> index_ok j -> i <> j -> db_path conf q i <> db_path conf q j.
Proof. intros Hi Hj Hne E%in_queue_inj%db_name_inj; done. Qed.
Lemma rtag_path_ne conf q i j :
  index_ok i -> index_ok j -> i <> j -> rtag_path conf q i <> rtag_path conf q j.
Proof. intros Hi Hj Hne E%in_queue_inj. by apply app_inv_head, pad_inj in E. Qed.
Lemma rtag_db_path_ne conf q i j : rtag_path conf q i <> db_path conf q j.
Proof. intros E%in_queue_inj. by apply rtag_db_names in E. Qed.
#[export] Hint Resolve db_path_ne rtag_path_ne rtag_db_path_ne not_eq_sym : paths.

Lemma wf_wrote w fd o f bs :
  world_wf w -> fd_file w fd = Some (o, f) -> world_wf (wrote w fd o f bs).
Proof.
  intros Hwf [Hfd Hi]%fd_file_fds. unfold wrote.
  eapply (wf_set_inodes (set_fds _ w)); [by eapply wf_set_fd|exact Hi].
Qed.
Lemma wf_closed fd w : world_wf w -> world_wf (closed fd w).
Proof. intros H. by eapply wf_close. Qed.
Lemma wf_unlinked p w : world_wf w -> world_wf (unlinked p w).
Proof. intros H. by eapply wf_unlink. Qed.
Lemma wf_unmapped p w : world_wf w -> world_wf (unmapped p w).
Proof. intros H. by eapply wf_munmap. Qed.
#[export] Hint Resolve wf_closed wf_unlinked wf_unmapped wf_wrote wf_created : worlds.

Section Kept.
Context (conf : ucmq_conf).
#[local] Abbreviation MAX := (MAX_DB_FILE_SIZE conf).

(** [w'] has every file of [w] whose inode satisfies [P] and index [I]. *)
Definition keeps (I : Z -> Prop) (w w' : world) (q : mq_queue) : Prop :=
  forall i ino d, I i -> db_file conf w q i ino d -> db_file conf w' q i ino d.

Lemma db_file_inode w q i ino d : world_wf w -> db_file conf w q i ino d -> ino < w_next w.
Proof. intros Hwf (_ & Hi & _). by eapply wf_inodes. Qed.

Lemma keeps_switched w q :
  world_wf w -> index_ok (cur_index (cur_rdb q)) ->
  keeps (fun i => index_ok i /\ i <> cur_index (cur_rdb q)) w (switched conf w q) q.
Proof.
  intros Hwf Hr i ino d [Hi Hne] H. pose proof (db_file_inode _ _ _ _ _ Hwf H).
  destruct H as (Hn & Hino & Hd). split_and!; [|cbn|done].
  - unfold switched, unlinked, closed, unmapped, wrote, created. cbn.
    rewrite !lookup_delete_ne by (eauto with paths). by rewrite lookup_insert_ne by (eauto with paths).
  - rewrite !lookup_insert_ne by lia. done.
Qed.

Lemma chain_keeps w w' q i mids :
  keeps (fun j => i <= j < i + Z.of_nat (length mids)) w w' q ->
  chain conf w q i mids -> chain conf w' q i mids.
Proof.
  intros Hk Hc k ms E. destruct (Hc k ms E) as (ino & d & Hf & Hs).
  exists ino, d. split; [|done]. apply Hk; [|done]. apply lookup_lt_Some in E. lia.
Qed.

Lemma chain_tail w q i ms mids : chain conf w q i (ms :: mids) -> chain conf w q (i + 1) mids.
Proof.
  intros Hc k x E. specialize (Hc (S k) x E).
  by replace (i + 1 + Z.of_nat k) with (i + Z.of_nat (S k)) by lia.
Qed.

Lemma switched_rtag w q q' :
  world_wf w -> fd (cur_rdb q) < w_next w -> is_Some (w_fds w !! rtag_fd q) ->
  index_ok (cur_index (cur_rdb q) + 1) -> index_ok (cur_index (cur_rdb q)) ->
  rtag_fd q' = w_next w -> cur_index (cur_rdb q') = cur_index (cur_rdb q) + 1 ->
  qname q' = qname q ->
  rtag_handle conf (switched conf w q) q'.
Proof.
  intros Hwf Hfd [o Ho] Hi Hi' Efd Ei Eq. pose proof (wf_fds _ Hwf _ _ Ho).
  unfold rtag_handle, open_nb, fd_file. rewrite Efd, Ei.
  assert (rtag_path conf q' = rtag_path conf q) as -> by (unfold rtag_path; by rewrite Eq).
  unfold switched, unlinked, closed, unmapped, wrote, created. cbn.
  rewrite !lookup_delete_ne by lia. rewrite insert_insert_eq, lookup_insert_eq. cbn.
  rewrite lookup_insert_eq. eexists _, _. split; [done|]. cbn.
  rewrite lookup_delete_ne by apply not_eq_sym, rtag_db_path_ne.
  rewrite lookup_delete_ne by (apply rtag_path_ne; done || lia).
  by rewrite lookup_insert_eq.
Qed.
End Kept.

(** ** Opening a data file that exists *)
Section OpenNext.
Context (conf : ucmq_conf) (Hconf : conf_wf conf).
#[local] Abbreviation MAX := (MAX_DB_FILE_SIZE conf).

Definition mapped_world (w : world) (ino : Z) : world :=
  let n := w_next w in
  set_next (n + 2) (set_maps (<[n + 1 := Mapping ino MAX]> (w_maps w))
    (set_fds (<[n := Ofd ino 0 false true]> (w_fds w)) w)).

Lemma wf_mapped_world w ino : world_wf w -> world_wf (mapped_world w ino).
Proof.
  intros []. split; cbn; eauto; try lia.
  - intros k o. rewrite lookup_insert_Some. intros [[<- _]|[_ H]]; [lia|].
    apply wf_fds0 in H. lia.
  - intros k o. rewrite lookup_insert_Some. intros [[<- _]|[_ H]]; [lia|].
    apply wf_maps0 in H. lia.
  - intros k o H. apply wf_inodes0 in H. lia.
Qed.

Lemma open_db_existing w q i ino d :
  world_wf w -> w_faults w = [] -> db_file conf w q i ino d -> db_path conf q i ∉ w_dirs w ->
  mq_sm_open_db_file conf (db_path conf q i) FOPEN_FLAG_OPEN w =
    Ok ((w_next w, w_next w + 1), mapped_world w ino).
Proof using Hconf.
  intros Hwf Hnf (Hn & Hi & Hd) Hdir. pose proof (MAX_DB_FILE_SIZE_range conf Hconf).
  pose proof (wf_next _ Hwf). unfold mq_sm_open_db_file.
  erewrite bind_ok; cycle 1.
  { unfold sys_open, pick_fault, bind, ret. rewrite Hnf, bool_decide_false, Hn by done. done. }
  cbv beta. rewrite (proj2 (Z.ltb_ge _ 0)) by lia. 
  erewrite bind_ok; cycle 1.
  { unfold get_file_size, sys_stat_size, gets, bind, ret. cbn. rewrite Hn. cbn. rewrite Hi. cbn.
    rewrite i32_small by lia. by rewrite Z.eqb_refl. }
  cbn [negb].
  erewrite bind_ok; cycle 1.
  { unfold sys_mmap, pick_fault, bind, ret. cbn. rewrite Hnf. cbn. by rewrite lookup_insert_eq. }
  cbv beta iota. unfold ret, mapped_world, set_next, set_maps, set_fds. cbn. do 3 f_equal. lia.
Qed.

Lemma sealed_end d p ms : sealed conf d p ms -> 0 <= p -> MAX <= p + MSG_HEAD_LEN -> ms = [].
Proof.
  intros Hs Hp Hend. destruct (sealed_skip conf d p ms Hs Hp) as
    [(m & ms' & -> & (_ & _ & Hb) & _ & Hle & _)|[[-> _]|(_ & _ & _ & Hne)]];
    [lia|done|].
  destruct ms; [done|]. specialize (Hne ltac:(done)). lia.
Qed.

(** The fields of a queue that moving the reader leaves alone. *)
Definition same_settings (q q' : mq_queue) : Prop :=
  qname q' = qname q /\ wlock q' = wlock q /\ sync_intv q' = sync_intv q /\
  delay q' = delay q /\ maxque q' = maxque q /\ put_num q' = put_num q /\
  get_num q' = get_num q /\ unread_count q' = unread_count q /\ cur_wdb q' = cur_wdb q.

Lemma names_free_switched w q q' :
  names_free conf w q -> index_ok (cur_index (cur_rdb q)) -> cur_index (cur_wdb q) < LLONG_MAX ->
  cur_index (cur_rdb q) < cur_index (cur_wdb q) ->
  qname q' = qname q -> cur_wdb q' = cur_wdb q ->
  cur_index (cur_rdb q') = cur_index (cur_rdb q) + 1 ->
  forall w', w_names w' = w_names (switched conf w q) -> w_dirs w' = w_dirs w ->
  names_free conf w' q'.
Proof using.
  intros (Hdir & Hnd & Hw & Hr) Hi Hi' Hlt En Ew Ei w' Enames Edirs.
  unfold names_free. rewrite Enames, Edirs, Ew, Ei, En.
  assert (rtag_path conf q' = rtag_path conf q) as -> by (unfold rtag_path; by rewrite En).
  assert (db_path conf q' = db_path conf q) as -> by (unfold db_path; by rewrite En).
  split_and!; [done..| |].
  - intros i Hlt'. unfold switched, unlinked, closed, unmapped, wrote, created. cbn.
    apply lookup_delete_None. right. apply lookup_delete_None. right.
    rewrite lookup_insert_ne by apply rtag_db_path_ne. by apply Hw.
  - intros i Hlt'. unfold switched, unlinked, closed, unmapped, wrote, created. cbn.
    apply lookup_delete_None. right. apply lookup_delete_None. right.
    rewrite lookup_insert_ne; [apply Hr; lia|]. unfold index_ok in *.
    apply rtag_path_ne; unfold index_ok; lia.
Qed.

Lemma only_files_switched w q q' w' :
  only_files conf w q -> cur_index (cur_rdb q) < cur_index (cur_wdb q) ->
  qname q' = qname q -> cur_wdb q' = cur_wdb q ->
  cur_index (cur_rdb q') = cur_index (cur_rdb q) + 1 ->
  w_names w' = w_names (switched conf w q) -> only_files conf w' q'.
Proof using.
  intros Ho Hlt Eq Ew Ei En name ino Hs. rewrite En, Eq, Ew, Ei.
  unfold switched, unlinked, closed, unmapped, wrote, created. cbn.
  intros [Hd [Hr H]%lookup_delete_Some]%lookup_delete_Some.
  apply lookup_insert_Some in H as [[E%in_queue_inj _]|[_ H]]; [by left|].
  destruct (Ho name ino Hs H) as [->|(i & Hi & ->)]; [by destruct Hr|]. right. exists i.
  split; [|done]. enough (i <> cur_index (cur_rdb q)) by lia. intros ->. by destruct Hd.
Qed.

Lemma tag_appends_wrote w q fd o f bs :
  fd_file w fd = Some (o, f) -> 0 <= f_size f /\ (o_append o = true \/ o_pos o = f_size f) ->
  rtag_fd q = fd ->
  tag_appends (wrote w fd o f bs) q.
Proof using.
  intros [Hfd Hi]%fd_file_fds [H0 Ho] <- o' f' [Hfd' Hi']%fd_file_fds. cbn in Hfd', Hi'.
  rewrite lookup_insert_eq in Hfd'. injection Hfd' as <-. cbn in *.
  rewrite lookup_insert_eq in Hi'. injection Hi' as <-. cbn.
  split; [lia|]. destruct (o_append o); [by left|]. destruct Ho as [?| ->]; [done|]. right. lia.
Qed.

(** Names and mappings do not matter to the tag. *)
Lemma tag_appends_same w w' q q' :
  (forall o, w_fds w' !! rtag_fd q' = Some o -> w_fds w !! rtag_fd q = Some o) ->
  (forall i f o, w_fds w !! rtag_fd q = Some o -> o_ino o = i ->
     w_inodes w' !! i = Some f -> w_inodes w !! i = Some f) ->
  tag_appends w q -> tag_appends w' q'.
Proof using.
  intros Hf Hi H o f [Ho Hino]%fd_file_fds. apply (H o f). unfold fd_file.
  rewrite (Hf o Ho). by rewrite (Hi _ f o (Hf o Ho) eq_refl Hino).
Qed.

Lemma disk_ok_switched w q q' w' :
  only_files conf w q -> cur_index (cur_rdb q) < cur_index (cur_wdb q) ->
  qname q' = qname q -> cur_wdb q' = cur_wdb q -> rtag_fd q' = w_next w ->
  cur_index (cur_rdb q') = cur_index (cur_rdb q) + 1 ->
  w_names w' = w_names (switched conf w q) ->
  w_inodes w' = w_inodes (switched conf w q) ->
  w_fds w' !! w_next w = w_fds (switched conf w q) !! w_next w -> disk_ok conf w' q'.
Proof using.
  intros Ho Hlt Eq Ew Ef Ei En Eino Efd. split; [by apply (only_files_switched w q)|].
  eapply (tag_appends_same (wrote (created w (rtag_path conf q (cur_index (cur_rdb q) + 1)) false true)
    (w_next w) (Ofd (w_next w + 1) 0 false true) (File 0 ∅) (rtag_line (switched_queue (w_next w) q)))
    w' q' q').
  - rewrite Ef, Efd. intros o. unfold switched, unlinked, closed, unmapped. cbn.
    by intros [_ [_ H]%lookup_delete_Some]%lookup_delete_Some.
  - intros i f o _ _. by rewrite Eino.
  - apply tag_appends_wrote; [apply created_open|split; [done|by right]|done].
Qed.

Lemma keeps_mapped w q ino : keeps conf (fun _ => True) w (mapped_world w ino) q.
Proof using. intros i j d _ H. exact H. Qed.

(** A handle of another file survives the switch. *)
Lemma db_handle_switched w q q' h ino d :
  world_wf w -> index_ok (cur_index (cur_rdb q)) -> index_ok (cur_index h) ->
  cur_index h <> cur_index (cur_rdb q) -> map_mem h <> map_mem (cur_rdb q) ->
  qname q' = qname q -> rtag_fd q' = w_next w ->
  db_handle conf w q h ino d -> db_handle conf (switched conf w q) q' h ino d.
Proof using.
  intros Hwf Hr Hh Hne Hm Eq Efd (Hf & Hmap & Hfd & _). split_and!.
  - unfold db_file. replace (db_path conf q') with (db_path conf q)
      by (unfold db_path; by rewrite Eq). by apply keeps_switched.
  - cbn. by rewrite lookup_delete_ne by done.
  - cbn. lia.
  - lia.
Qed.

Lemma switched_wf w q :
  world_wf w -> w_names w !! rtag_path conf q (cur_index (cur_rdb q) + 1) = None ->
  world_wf (switched conf w q).
Proof using.
  intros Hwf Hn. unfold switched. apply wf_unlinked, wf_closed, wf_unmapped, wf_unlinked, wf_closed.
  apply wf_wrote; [by apply wf_created|]. apply created_open.
Qed.

(** The parts of the invariant that do not speak of messages. *)
Lemma queue_inv_index w q ms : queue_inv conf w q ms ->
  index_ok (cur_index (cur_rdb q)) /\ index_ok (cur_index (cur_wdb q)).
Proof using.
  intros [_ _ _ _ _ [? ?] _ (wino & dw & _ & _ & [(? & _)|(? & _)])];
    unfold index_ok, LLONG_MAX in *; lia.
Qed.

Lemma rtag_handle_fd w q : rtag_handle conf w q -> is_Some (w_fds w !! rtag_fd q).
Proof using. intros (o & f & [[H _]%fd_file_fds _] & _). eauto. Qed.

Lemma rtag_handle_mapped w q ino :
  world_wf w -> rtag_handle conf w q -> rtag_handle conf (mapped_world w ino) q.
Proof using.
  intros Hwf (o & f & [Hfd Hnb] & Hname). exists o, f. split; [|done]. split; [|done].
  apply fd_file_fds in Hfd as [Hfd Hino]. pose proof (wf_fds _ Hwf _ _ Hfd).
  unfold fd_file. cbn. rewrite lookup_insert_ne by lia. by rewrite Hfd, Hino.
Qed.

Lemma db_handle_mapped w q h ino d j :
  world_wf w -> db_handle conf w q h ino d -> db_handle conf (mapped_world w j) q h ino d.
Proof using.
  intros Hwf (Hf & Hm & Hfd & Hne). pose proof (wf_maps _ Hwf _ _ Hm). split_and!; try done.
  - cbn. by rewrite lookup_insert_ne by lia.
  - cbn. lia.
Qed.

(** The reader is at the start of the next file, as the new tag says. *)
Definition at_next (w : world) (q : mq_queue) (w' : world) (q' : mq_queue) : Prop :=
  w_names w' = w_names (switched conf w q) /\ w_inodes w' = w_inodes (switched conf w q) /\
  pos (cur_rdb q') = DB_FILE_HEAD_LEN /\ opt_count (cur_rdb q') = 0.

(** Nothing is lost when the reader has come to the end of an older file. *)
Lemma get_next_ok w q ms :
  queue_inv conf w q ms -> cur_index (cur_rdb q) < cur_index (cur_wdb q) ->
  MAX <= pos (cur_rdb q) + MSG_HEAD_LEN ->
  exists w' q', get_next_read_file conf (QState w q) = Ok (true, QState w' q') /\
    queue_inv conf w' q' ms /\ same_settings q q' /\ w_clock w' = w_clock w /\
    w_free w' = w_free w /\ cur_index (cur_rdb q') = cur_index (cur_rdb q) + 1 /\
    at_next w q w' q'.
Proof using Hconf.
  intros Hinv Hlt Hend. pose proof (queue_inv_index _ _ _ Hinv) as [Hri Hwi].
  erewrite next_read_switch by done.
  destruct Hinv as [Hwf Hnf Hfit Hfree Hrtag Hidx Hpos (wino & dw & Hw & Hcl & Hc) [Honly _]].
  pose proof (MAX_DB_FILE_SIZE_range conf Hconf) as HM.
  destruct Hc as [(? & _)|(_ & Hmne & rino & dr & msr & mids & msw & Hr & Hs & Hch & Hlen & Hp & ->)];
    [lia|].
  apply sealed_end in Hs as ->; [|unfold DB_FILE_HEAD_LEN in *; lia|done]. cbn [app].
  set (q1 := switched_queue (w_next w) q). set (w1 := switched conf w q).
  assert (world_wf w1) as Hwf1 by (apply switched_wf; [done|apply Hfree; unfold index_ok in *; lia]).
  assert (db_handle conf w1 q1 (cur_wdb q1) wino dw) as Hw1
    by (apply (db_handle_switched w q); try done; cbn; lia).
  assert (forall q2, rtag_fd q2 = w_next w -> qname q2 = qname q -> 
    cur_index (cur_rdb q2) = cur_index (cur_rdb q) + 1 -> rtag_handle conf w1 q2) as Hrtag1.
  { intros q2 E1 E2 E3. apply switched_rtag; try done; [apply Hr|by apply rtag_handle_fd|].
    unfold index_ok in *. lia. }
  unfold open_next. destruct (Z.eqb_spec (cur_index (cur_rdb q) + 1) (cur_index (cur_wdb q))) as [E|E].
  - run_q. eexists _, _. split; [done|]. split_and!; try done. split; try done.
    + by apply (names_free_switched w q _ Hfree Hri (proj2 Hwi) Hlt).
    + by apply Hrtag1.
    + cbn. unfold index_ok in *. lia.
    + cbn. unfold DB_FILE_HEAD_LEN in *. lia.
    + exists wino, dw. split_and!; [exact Hw1|done|]. left. split_and!; [done..|].
      destruct mids; [exact Hp|simpl in Hlen; lia].
    + by apply (disk_ok_switched w q).
  - destruct mids as [|ms1 mids]; [simpl in Hlen; lia|].
    destruct (Hch 0%nat ms1 eq_refl) as (ino & d1 & Hf1 & Hs1). rewrite Z.add_0_r in Hf1.
    assert (db_file conf w1 q (cur_index (cur_rdb q) + 1) ino d1) as Hf1'.
    { apply keeps_switched; try done. unfold index_ok in *. lia. }
    erewrite run_sys by (apply (open_db_existing w1 q _ ino d1); try done;
      apply Hfree; unfold index_ok in *; lia).
    cbv beta iota. run_q. rewrite (proj2 (Z.eqb_neq _ 0)) by (destruct Hwf1; lia). run_q.
    eexists _, _. split; [done|]. split_and!; try done. split; try done.
    + by apply wf_mapped_world.
    + by apply (names_free_switched w q _ Hfree Hri (proj2 Hwi) Hlt).
    + by apply rtag_handle_mapped, Hrtag1.
    + cbn. unfold index_ok in *. lia.
    + cbn. unfold DB_FILE_HEAD_LEN in *. lia.
    + assert (map_mem (cur_wdb q) < w_next w + 2) as Hlt2
        by (destruct Hw1 as (_ & Hm1 & _); by apply (wf_maps _ Hwf1 _ _ Hm1)).
      exists wino, dw. split_and!; [by apply db_handle_mapped|done|].
      right. split_and!; [cbn; lia|cbn; lia|].
      exists ino, d1, ms1, mids, msw. split_and!; try done.
      * split_and!; [exact Hf1'|cbn; by rewrite lookup_insert_eq|cbn; lia|cbn; lia].
      * apply chain_tail in Hch. cbn in *. eapply chain_keeps; [|exact Hch].
        intros j jno jd Hj Hjf. apply (keeps_switched conf w q); try done.
        unfold index_ok in *. lia.
      * cbn in *. lia.
      * cbn. by rewrite <- app_assoc.
    + apply (disk_ok_switched w q); try done. pose proof (wf_next _ Hwf).
      cbn. by rewrite lookup_insert_ne by lia.
Qed.

Lemma next_tag_file w q w' q' :
  world_wf w -> index_ok (cur_index (cur_rdb q)) -> index_ok (cur_index (cur_rdb q) + 1) ->
  at_next w q w' q' -> qname q' = qname q -> cur_index (cur_rdb q') = cur_index (cur_rdb q) + 1 ->
  let bs := rtag_line (switched_queue (w_next w) q) in
  tag_file conf w' q' = Some (File (Z.max 0 (0 + Z.of_nat (length bs))) (put_bytes ∅ 0 bs)).
Proof using.
  intros Hwf Hi Hi' (En & Eino & _) Eq Ei bs. unfold tag_file. rewrite En, Eino, Ei.
  replace (rtag_path conf q') with (rtag_path conf q) by (unfold rtag_path; by rewrite Eq).
  unfold switched, unlinked, closed, unmapped, wrote, created. cbn.
  rewrite lookup_delete_ne by apply not_eq_sym, rtag_db_path_ne.
  rewrite lookup_delete_ne by (apply rtag_path_ne; done || lia).
  rewrite lookup_insert_eq. cbn. by rewrite lookup_insert_eq.
Qed.

Lemma next_saved w q ms w' q' :
  queue_inv conf w q ms -> cur_index (cur_rdb q) < cur_index (cur_wdb q) ->
  queue_inv conf w' q' ms -> at_next w q w' q' -> same_settings q q' ->
  cur_index (cur_rdb q') = cur_index (cur_rdb q) + 1 ->
  tag_kept conf w q w' q' /\ (saved conf w q ms -> saved conf w' q' ms).
Proof using Hconf.
  intros Hinv Hlt Hinv' Hat (En & El & _ & Ed & Em & _ & _ & _ & Ew) Ei.
  pose proof (queue_inv_index _ _ _ Hinv) as [Hri Hwi]. pose proof Hat as (_ & _ & Ep & Eo).
  pose proof (MAX_DB_FILE_SIZE_range conf Hconf).
  pose proof (next_tag_file w q w' q' (inv_wf _ _ _ _ Hinv) Hri ltac:(unfold index_ok in *; lia)
    Hat En Ei) as Etag. cbv zeta in Etag.
  assert (settings_ok q -> rtag_ok conf (switched_queue (w_next w) q)) as Hok.
  { intros Hs. pose proof (inv_pos _ _ _ _ Hinv) as [_ Hp]. unfold DB_FILE_HEAD_LEN in *.
    split_and!; try apply Hs; cbn; unfold DB_FILE_HEAD_LEN; try lia.
    apply Z.quot_pos; [lia|done]. }
  assert (settings_ok q -> length (rtag_line (switched_queue (w_next w) q)) = 61%nat) as Hlen.
  { intros Hs. by apply (length_rtag_line conf), Hok. }
  split.
  - split_and!.
    + unfold settings_ok. by rewrite El, Ed, Em.
    + intros _. unfold count_ok. rewrite Ep, Eo. done.
    + intros Hs. unfold tag_size. rewrite Etag, Hlen by done. cbn. lia.
  - intros Hs%saved_settings. exists (switched_queue (w_next w) q). split_and!; try done; try by apply Hok.
    + eexists. split; [exact Etag|]. rewrite Hlen by done. split; [done|]. apply holds_put.
    + rewrite restore_self; try done; [by rewrite Ew|..]; cbn; congruence.
Qed.
End OpenNext.

(** ** What the reader sees *)
Section Reader.
Context (conf : ucmq_conf) (Hconf : conf_wf conf).
#[local] Abbreviation MAX := (MAX_DB_FILE_SIZE conf).

Definition set_rpos (v : Z) (q : mq_queue) : mq_queue := with_rdb (with_pos v) q.

Lemma inv_set_rpos w q ms v wino dw ms' :
  queue_inv conf w q ms -> DB_FILE_HEAD_LEN <= v <= MAX ->
  db_handle conf w q (cur_wdb q) wino dw -> clean dw (pos (cur_wdb q)) MAX ->
  contents_same (set_rpos v q) dw ms' \/ contents_behind conf w (set_rpos v q) dw ms' ->
  queue_inv conf w (set_rpos v q) ms'.
Proof using.
  intros [Hwf Hnf Hfit Hfree Hrtag Hidx Hpos _] Hv Hw Hcl Hc.
  split; try done; [cbn; lia|]. by exists wino, dw.
Qed.

Lemma db_handle_mem w q h ino d :
  world_wf w -> db_handle conf w q h ino d ->
  mapped w (map_mem h) MAX d /\ map_mem h <> 0 /\ data_bytes d.
Proof using.
  intros Hwf ((_ & Hi & Hd) & Hm & _). pose proof (wf_maps _ Hwf _ _ Hm). split_and!; [|lia|done].
  exists (Mapping ino MAX), (File MAX d). unfold map_file. rewrite Hm. cbn. rewrite Hi. done.
Qed.

(** Where the reader stands: at a message, at the end of the queue, at a byte
    to skip, or at the end of a file that is not the last. *)
Inductive reader_sees (w : world) (q : mq_queue) (d : gmap Z Z) (ms : list smsg) : Prop :=
| sees_msg m ms' : ms = m :: ms' -> at_queue_end q = false -> wf_msg m ->
    holds d (pos (cur_rdb q)) (encode m) -> pos (cur_rdb q) + MSG_HEAD_LEN + blen m <= MAX ->
    queue_inv conf w (set_rpos (pos (cur_rdb q) + MSG_HEAD_LEN + blen m) q) ms' ->
    reader_sees w q d ms
| sees_end : ms = [] -> at_queue_end q = true -> pos (cur_rdb q) <= pos (cur_wdb q) ->
    queue_inv conf w (set_rpos (pos (cur_wdb q)) q) [] -> reader_sees w q d ms
| sees_gap : at_queue_end q = false ->
    byte_at d (pos (cur_rdb q)) <> MSG_HEAD_OF_FIRST_MAGIC_NUM ->
    pos (cur_rdb q) + MSG_HEAD_LEN < MAX ->
    queue_inv conf w (set_rpos (pos (cur_rdb q) + 1) q) ms -> reader_sees w q d ms
| sees_file_end : at_queue_end q = false -> MAX <= pos (cur_rdb q) + MSG_HEAD_LEN ->
    cur_index (cur_rdb q) < cur_index (cur_wdb q) -> reader_sees w q d ms.

Lemma at_end_same q : 0 <= pos (cur_rdb q) <= MAX ->
  cur_index (cur_rdb q) = cur_index (cur_wdb q) ->
  at_queue_end q = (pos (cur_wdb q) <=? pos (cur_rdb q) + MSG_HEAD_LEN).
Proof using Hconf.
  intros Hp E. pose proof (MAX_DB_FILE_SIZE_range conf Hconf).
  unfold at_queue_end. rewrite E, Z.eqb_refl. unfold MSG_HEAD_LEN. by rewrite u32_small by lia.
Qed.
Lemma at_end_behind q :
  cur_index (cur_rdb q) < cur_index (cur_wdb q) -> at_queue_end q = false.
Proof using. intros E. unfold at_queue_end. by rewrite (proj2 (Z.eqb_neq _ _)) by lia. Qed.

Lemma reader_view_same w q ms wino dw :
  queue_inv conf w q ms -> db_handle conf w q (cur_wdb q) wino dw ->
  clean dw (pos (cur_wdb q)) MAX -> contents_same q dw ms -> reader_sees w q dw ms.
Proof using Hconf.
  intros Hinv Hw Hcl (Hi & Hm & Hfd & Hp). pose proof (inv_pos _ _ _ _ Hinv) as Hpos.
  pose proof (pending_range _ _ _ _ Hp). unfold DB_FILE_HEAD_LEN in Hpos.
  assert (forall v ms', 128 <= v <= MAX -> pending dw v ms' (pos (cur_wdb q)) ->
    queue_inv conf w (set_rpos v q) ms') as Hset.
  { intros v ms' Hv Hp'. eapply inv_set_rpos; try done. by left. }
  pose proof (at_end_same q ltac:(lia) Hi) as Hend.
  destruct (pending_skip _ _ _ _ Hp) as
    [(m & ms' & -> & Hwf & Hh & Hp')|[[-> E]|(Hb & Hp' & Hlt & Hne)]].
  - pose proof (pending_range _ _ _ _ Hp'). pose proof Hwf as (_ & _ & ?).
    unfold MSG_HEAD_LEN in *. apply (sees_msg _ _ _ _ m ms'); try done; [|unfold MSG_HEAD_LEN; lia|].
    + rewrite Hend. apply Z.leb_gt. unfold MSG_HEAD_LEN. lia.
    + apply Hset; [unfold MSG_HEAD_LEN; lia|done].
  - apply sees_end; [done| |lia|].
    + rewrite Hend. apply Z.leb_le. unfold MSG_HEAD_LEN. lia.
    + apply Hset; [lia|apply pending_nil].
  - destruct (decide (pos (cur_wdb q) <= pos (cur_rdb q) + MSG_HEAD_LEN)).
    + destruct ms as [|m ms]; [|specialize (Hne ltac:(done)); lia].
      apply sees_end; [done|rewrite Hend; by apply Z.leb_le|lia|].
      apply Hset; [lia|apply pending_nil].
    + apply sees_gap; [rewrite Hend; apply Z.leb_gt; lia|done|lia|].
      apply Hset; [unfold MSG_HEAD_LEN in *; lia|done].
Qed.

Lemma reader_view_behind w q ms wino dw rino dr msr mids msw :
  queue_inv conf w q ms -> db_handle conf w q (cur_wdb q) wino dw ->
  clean dw (pos (cur_wdb q)) MAX ->
  cur_index (cur_rdb q) < cur_index (cur_wdb q) -> map_mem (cur_rdb q) <> map_mem (cur_wdb q) ->
  db_handle conf w q (cur_rdb q) rino dr -> sealed conf dr (pos (cur_rdb q)) msr ->
  chain conf w q (cur_index (cur_rdb q) + 1) mids ->
  Z.of_nat (length mids) = cur_index (cur_wdb q) - cur_index (cur_rdb q) - 1 ->
  pending dw DB_FILE_HEAD_LEN msw (pos (cur_wdb q)) -> ms = msr ++ concat mids ++ msw ->
  reader_sees w q dr ms.
Proof using Hconf.
  intros Hinv Hw Hcl Hlt Hm Hr Hs Hch Hl Hp ->. pose proof (inv_pos _ _ _ _ Hinv) as Hpos.
  unfold DB_FILE_HEAD_LEN in *. pose proof (at_end_behind q Hlt) as Hend.
  assert (forall v msr', 128 <= v <= MAX -> sealed conf dr v msr' ->
    queue_inv conf w (set_rpos v q) (msr' ++ concat mids ++ msw)) as Hset.
  { intros v msr' Hv Hs'. eapply inv_set_rpos; try done. right. split_and!; try done.
    exists rino, dr, msr', mids, msw. by split_and!. }
  destruct (sealed_skip _ _ _ _ Hs ltac:(lia)) as
    [(m & ms' & -> & Hwf & Hh & Hle & Hs')|[[-> E]|(Hb & Hs' & Hlt' & Hne)]].
  - apply (sees_msg _ _ _ _ m (ms' ++ concat mids ++ msw)); try done.
    pose proof Hwf as (_ & _ & ?). apply Hset; [unfold MSG_HEAD_LEN in *; lia|done].
  - apply sees_file_end; [done|unfold MSG_HEAD_LEN; lia|done].
  - destruct (decide (MAX <= pos (cur_rdb q) + MSG_HEAD_LEN)); [by apply sees_file_end|].
    apply sees_gap; [done|done|lia|]. apply Hset; [unfold MSG_HEAD_LEN in *; lia|done].
Qed.

Lemma reader_view w q ms : queue_inv conf w q ms ->
  exists d, mapped w (map_mem (cur_rdb q)) MAX d /\ map_mem (cur_rdb q) <> 0 /\ data_bytes d /\
            reader_sees w q d ms.
Proof using Hconf.
  intros Hinv. pose proof (inv_wf _ _ _ _ Hinv) as Hwf.
  destruct (inv_contents _ _ _ _ Hinv) as (wino & dw & Hw & Hcl &
    [Hc|(? & ? & rino & dr & msr & mids & msw & Hr & ?)]).
  - exists dw. pose proof Hc as (_ & Hm & _). rewrite Hm.
    destruct (db_handle_mem _ _ _ _ _ Hwf Hw) as (? & ? & ?). split_and!; try done.
    by eapply reader_view_same.
  - exists dr. destruct (db_handle_mem _ _ _ _ _ Hwf Hr) as (? & ? & ?). split_and!; try done.
    eapply reader_view_behind; naive_solver.
Qed.
End Reader.

(** ** Taking a message *)

(** The settings and counters do not matter to the contents. *)
Create HintDb inv.
Lemma inv_unread conf w q ms v : queue_inv conf w q ms -> queue_inv conf w (with_unread v q) ms.
Proof. by intros []; split. Qed.
Lemma inv_get_num conf w q ms v : queue_inv conf w q ms -> queue_inv conf w (with_get_num v q) ms.
Proof. by intros []; split. Qed.
Lemma inv_put_num conf w q ms v : queue_inv conf w q ms -> queue_inv conf w (with_put_num v q) ms.
Proof. by intros []; split. Qed.
Lemma inv_delay conf w q ms v : queue_inv conf w q ms -> queue_inv conf w (with_delay v q) ms.
Proof. by intros []; split. Qed.
Lemma inv_maxque conf w q ms v : queue_inv conf w q ms -> queue_inv conf w (with_maxque v q) ms.
Proof. by intros []; split. Qed.
Lemma inv_wlock conf w q ms v : queue_inv conf w q ms -> queue_inv conf w (with_wlock v q) ms.
Proof. by intros []; split. Qed.
Lemma inv_sync_intv conf w q ms v : queue_inv conf w q ms -> queue_inv conf w (with_sync_intv v q) ms.
Proof. by intros []; split. Qed.
Lemma inv_rcount conf w q ms f :
  queue_inv conf w q ms -> queue_inv conf w (with_rdb (fun d => with_opt_count (f d) d) q) ms.
Proof. by intros []; split. Qed.
Lemma inv_wcount conf w q ms f :
  queue_inv conf w q ms -> queue_inv conf w (with_wdb (fun d => with_opt_count (f d) d) q) ms.
Proof. by intros []; split. Qed.
Lemma inv_clock conf w q ms t : queue_inv conf w q ms -> queue_inv conf (set_clock t w) q ms.
Proof. intros [[] ? ? ? ? ? ? ?]; by split. Qed.
Lemma saved_unread conf w q ms v : saved conf w q ms -> saved conf w (with_unread v q) ms.
Proof.
  intros (t & ? & ? & ? & ?). exists t. split_and!; try done; try naive_solver.
  by apply (inv_unread _ _ (restore t q)).
Qed.
Lemma saved_sync_intv conf w q ms v : saved conf w q ms -> saved conf w (with_sync_intv v q) ms.
Proof.
  intros (t & ? & ? & ? & ?). exists t. split_and!; try done; try naive_solver.
  by apply (inv_sync_intv _ _ (restore t q)).
Qed.
Lemma saved_clock conf w q ms c : saved conf w q ms -> saved conf (set_clock c w) q ms.
Proof.
  intros (t & ? & ? & ? & ?). exists t. split_and!; try done; try naive_solver. by apply inv_clock.
Qed.
#[export] Hint Resolve inv_unread inv_get_num inv_put_num inv_delay inv_maxque inv_wlock
  inv_sync_intv inv_rcount inv_wcount inv_clock : inv.

(** The message [t] may not be read yet: its time stamp is too recent. *)
Definition delayed (w : world) (q : mq_queue) (t : Z) : bool :=
  negb (delay q =? 0) && (u32 (i32 (w_clock w) - t) <? delay q).

(** What reading leaves alone. *)
Definition kept (w : world) (q : mq_queue) (w' : world) (q' : mq_queue) : Prop :=
  qname q' = qname q /\ wlock q' = wlock q /\ sync_intv q' = sync_intv q /\
  delay q' = delay q /\ maxque q' = maxque q /\ put_num q' = put_num q /\
  cur_wdb q' = cur_wdb q /\ w_clock w' = w_clock w /\ w_free w' = w_free w.

Section Take.
Context (conf : ucmq_conf) (Hconf : conf_wf conf).
#[local] Abbreviation MAX := (MAX_DB_FILE_SIZE conf).

(** The possible results of reading from a queue that holds [ms]. *)
Inductive get_outcome (w : world) (q : mq_queue) :
    list smsg -> bool * msg_item -> qstate -> Prop :=
| got_end it w' q' : queue_inv conf w' q' [] -> kept w q w' q' -> unread_count q' = 0 ->
    tag_kept conf w q w' q' -> (saved conf w q [] -> saved conf w' q' []) ->
    get_outcome w q [] (false, it) (QState w' q')
| got_delayed m ms it w' q' : delayed w q m.1 = true ->
    queue_inv conf w' q' (m :: ms) -> kept w q w' q' -> unread_count q' = unread_count q ->
    tag_kept conf w q w' q' -> (saved conf w q (m :: ms) -> saved conf w' q' (m :: ms)) ->
    get_outcome w q (m :: ms) (false, it) (QState w' q')
| got_msg m ms it w' q' off : delayed w q m.1 = false ->
    mdelay it = m.1 -> mlen it = blen m -> msg it = PMap (map_mem (cur_rdb q')) off ->
    load_ptr (msg it) (mlen it) w' = Ok (m.2, w') ->
    queue_inv conf w' q' ms -> kept w q w' q' -> unread_count q' = u64 (unread_count q - 1) ->
    tag_kept conf w q w' q' ->
    get_outcome w q (m :: ms) (true, it) (QState w' q').

Lemma kept_trans w q w1 q1 w' q' : kept w q w1 q1 -> kept w1 q1 w' q' -> kept w q w' q'.
Proof. unfold kept. intuition congruence. Qed.

Lemma get_outcome_trans w q w1 q1 ms r s :
  kept w q w1 q1 -> unread_count q1 = unread_count q ->
  tag_kept conf w q w1 q1 -> (saved conf w q ms -> saved conf w1 q1 ms) ->
  get_outcome w1 q1 ms r s -> get_outcome w q ms r s.
Proof.
  intros Hk Hu Ht Hs H.
  assert (forall t, delayed w1 q1 t = delayed w q t) as Hd.
  { intros t. unfold delayed. by destruct Hk as (_ & _ & _ & -> & _ & _ & _ & -> & _). }
  destruct H; [apply got_end|apply got_delayed|eapply got_msg]; rewrite <- ?Hd, <- ?Hu;
    eauto using kept_trans, tag_kept_trans.
Qed.

Lemma get_data_gap w q item d :
  mapped w (map_mem (cur_rdb q)) MAX d -> map_mem (cur_rdb q) <> 0 ->
  DB_FILE_HEAD_LEN <= pos (cur_rdb q) -> at_queue_end q = false ->
  byte_at d (pos (cur_rdb q)) <> MSG_HEAD_OF_FIRST_MAGIC_NUM ->
  pos (cur_rdb q) + MSG_HEAD_LEN < MAX ->
  get_data_round conf item (QState w q) =
    Ok (inl item, QState w (set_rpos (pos (cur_rdb q) + 1) q)).
Proof using Hconf.
  intros Hm Ha Hp He Hb Hlt. pose proof (MAX_DB_FILE_SIZE_range conf Hconf).
  unfold DB_FILE_HEAD_LEN in *. unfold get_data_round. rewrite run_queue, He.
  erewrite run_sys by (apply (parse_msg_skip conf Hconf w _ d Hm Ha); [lia|done|done]).
  cbv beta iota. unfold advance, bind, update_rdb, update, modify, ret. cbn.
  unfold MSG_HEAD_LEN in *. unfold set_rpos. do 3 f_equal.
  unfold with_rdb, with_pos. by rewrite u32_small by lia.
Qed.

Lemma get_data_file_end w q item d ms :
  queue_inv conf w q ms -> mapped w (map_mem (cur_rdb q)) MAX d -> map_mem (cur_rdb q) <> 0 ->
  at_queue_end q = false -> MAX <= pos (cur_rdb q) + MSG_HEAD_LEN ->
  cur_index (cur_rdb q) < cur_index (cur_wdb q) ->
  exists w' q', get_data_round conf item (QState w q) = Ok (inl item, QState w' q') /\
    queue_inv conf w' q' ms /\ kept w q w' q' /\ unread_count q' = unread_count q /\
    cur_index (cur_rdb q') = cur_index (cur_rdb q) + 1 /\
    tag_kept conf w q w' q' /\ (saved conf w q ms -> saved conf w' q' ms).
Proof using Hconf.
  intros Hinv Hm Ha He Hend Hlt. pose proof (inv_pos _ _ _ _ Hinv).
  pose proof (MAX_DB_FILE_SIZE_range conf Hconf). unfold DB_FILE_HEAD_LEN in *.
  destruct (get_next_ok conf Hconf w q ms Hinv Hlt Hend)
    as (w' & q' & E & Hinv' & Hs & Hc & Hf & Hi & Hn).
  destruct (next_saved conf Hconf w q ms w' q' Hinv Hlt Hinv' Hn Hs Hi) as [Ht Hsv].
  exists w', q'. split.
  - unfold get_data_round. rewrite run_queue, He.
    erewrite run_sys by (apply (parse_msg_end conf Hconf w _ d Hm Ha); lia).
    cbv beta iota. unfold next_file_or_end. by erewrite bind_ok by exact E.
  - unfold same_settings in Hs. split_and!; try done; try naive_solver. unfold kept. naive_solver.
Qed.

(** The message that [mq_sm_db_parse_msg] found is taken or put off. *)
Lemma get_data_msg w q item d m ms :
  queue_inv conf w q (m :: ms) ->
  mapped w (map_mem (cur_rdb q)) MAX d -> map_mem (cur_rdb q) <> 0 ->
  at_queue_end q = false -> wf_msg m -> holds d (pos (cur_rdb q)) (encode m) ->
  pos (cur_rdb q) + MSG_HEAD_LEN + blen m <= MAX ->
  queue_inv conf w (set_rpos (pos (cur_rdb q) + MSG_HEAD_LEN + blen m) q) ms ->
  exists r s', get_data_round conf item (QState w q) = Ok (inr r, s') /\
               get_outcome w q (m :: ms) r s'.
Proof using Hconf.
  intros Hinv Hm Ha He Hwf Hh Hle Hinv'. pose proof (MAX_DB_FILE_SIZE_range conf Hconf).
  pose proof (inv_pos _ _ _ _ Hinv). unfold DB_FILE_HEAD_LEN in *.
  unfold get_data_round. rewrite run_queue, He.
  erewrite run_sys by (apply (parse_msg_encode conf Hconf w _ d Hm Ha _ m); try done; lia).
  cbv beta iota. unfold get_cur_timestamp. erewrite run_sys by reflexivity. cbn [mdelay mlen].
  fold (delayed w q m.1). destruct (delayed w q m.1) eqn:Ed.
  - eexists _, _. split; [done|]. apply got_delayed; [done|exact Hinv|by split_and!|done|by apply tag_kept_same|done].
  - unfold advance. run_q. eexists _, _. split; [done|].
    pose proof Hwf as (_ & _ & Hb). unfold MSG_HEAD_LEN in *.
    rewrite (u32_small (blen m + 12)) by lia. eapply got_msg; try done.
    + cbn [msg mlen load_ptr]. erewrite mem_load_mapped by (try exact Hm; lia).
      unfold encode in Hh. apply holds_app in Hh as [_ Hbody]. rewrite length_header in Hbody.
      unfold blen. rewrite Nat2Z.id. by rewrite Hbody.
    + apply inv_unread, inv_get_num, inv_rcount.
      replace (with_rdb _ q) with (set_rpos (pos (cur_rdb q) + 12 + blen m) q); [done|].
      unfold set_rpos, with_rdb, with_pos. rewrite u32_small by lia. do 2 f_equal. lia.
    + apply tag_kept_same; try done. unfold count_ok, MSG_HEAD_LEN. cbn. intros [? ?].
      rewrite !u32_small by lia. lia.
Qed.

(** A bound on the rounds that are left. *)
Definition reads_left (q : mq_queue) : Z :=
  (cur_index (cur_wdb q) - cur_index (cur_rdb q)) * 2 ^ 27 + (2 ^ 27 - pos (cur_rdb q)).

Lemma get_data_rounds w q ms item : queue_inv conf w q ms ->
  exists n r s', rounds (get_data_round conf) n item (QState w q) r s' /\
    Z.of_nat n <= reads_left q /\ get_outcome w q ms r s'.
Proof using Hconf.
  pose proof (MAX_DB_FILE_SIZE_range conf Hconf) as HM.
  remember (Z.to_nat (reads_left q)) as g eqn:Hg. revert w q Hg.
  induction g as [g IH] using lt_wf_ind. intros w q Hg Hinv.
  assert (forall q0 ms0 w0, queue_inv conf w0 q0 ms0 -> 0 < reads_left q0) as Hpos.
  { intros q0 ms0 w0 H. pose proof (inv_pos _ _ _ _ H).
    assert (cur_index (cur_rdb q0) <= cur_index (cur_wdb q0)).
    { destruct (inv_contents _ _ _ _ H) as (? & ? & _ & _ & [(-> & _)|(? & _)]); lia. }
    unfold reads_left. lia. }
  pose proof (Hpos _ _ _ Hinv) as Hleft.
  destruct (reader_view conf Hconf w q ms Hinv) as (d & Hm & Ha & Hd & Hsees).
  pose proof (inv_pos _ _ _ _ Hinv) as Hp. unfold DB_FILE_HEAD_LEN in Hp.
  destruct Hsees as [m ms' E0 He Hwf Hh Hle Hinv'|E0 He Hle Hinv'|He Hb Hlt Hinv'|He Hend Hlt].
  - subst ms. destruct (get_data_msg w q item d m ms') as (r & s' & E & Ho); try done.
    exists 0%nat, r, s'. split_and!; [by apply rounds_done|lia|done].
  - subst ms. exists 0%nat, (false, item), (QState w (with_unread 0 (set_rpos (pos (cur_wdb q)) q))).
    split_and!; [|lia|].
    + apply rounds_done. unfold get_data_round. rewrite run_queue, He. by run_q.
    + apply got_end; [by apply inv_unread|by split_and!|done|..].
      * apply tag_kept_same; try done. unfold count_ok, MSG_HEAD_LEN. cbn. lia.
      * intros Hs. by apply saved_unread.
  - assert (reads_left (set_rpos (pos (cur_rdb q) + 1) q) = reads_left q - 1) as Hr
      by (unfold reads_left; cbn; lia).
    destruct (IH (Z.to_nat (reads_left (set_rpos (pos (cur_rdb q) + 1) q))) ltac:(lia) w
      (set_rpos (pos (cur_rdb q) + 1) q) eq_refl Hinv') as (n & r & s' & Hn & Hnb & Ho).
    exists (S n), r, s'. split_and!; [|lia|].
    + eapply rounds_more; [|exact Hn]. apply (get_data_gap w q item d); try done.
      unfold DB_FILE_HEAD_LEN. lia.
    + eapply get_outcome_trans; [..|exact Ho]; [by split_and!|done| |done].
      apply tag_kept_same; try done. unfold count_ok, MSG_HEAD_LEN. cbn. lia.
  - destruct (get_data_file_end w q item d ms) as (w' & q' & E & Hinv' & Hk & Hu & Hi & Ht & Hs); try done.
    pose proof (inv_pos _ _ _ _ Hinv') as Hp'. unfold DB_FILE_HEAD_LEN in Hp'.
    assert (cur_wdb q' = cur_wdb q) as Ew by (by destruct Hk as (_&_&_&_&_&_&?&_)).
    assert (reads_left q' < reads_left q) as Hr by (unfold reads_left; rewrite Ew, Hi; lia).
    destruct (IH (Z.to_nat (reads_left q')) ltac:(specialize (Hpos _ _ _ Hinv'); lia) w' q'
      eq_refl Hinv') as (n & r & s' & Hn & Hnb & Ho).
    exists (S n), r, s'. split_and!; [by eapply rounds_more|lia|].
    by eapply get_outcome_trans.
Qed.

Lemma get_data_outcome w q ms item : queue_inv conf w q ms ->
  exists r s', mq_sm_get_data conf item (QState w q) = Ok (r, s') /\ get_outcome w q ms r s'.
Proof using Hconf.
  intros Hinv. destruct (get_data_rounds w q ms item Hinv) as (n & r & s' & Hn & Hb & Ho).
  exists r, s'. split; [|done]. eapply loop_from_ok; [exact Hn|].
  pose proof (inv_pos _ _ _ _ Hinv). pose proof (inv_index _ _ _ _ Hinv).
  unfold reads_left, LLONG_MAX, DB_FILE_HEAD_LEN, get_data_fuel in *. lia.
Qed.
End Take.

(** ** Writing the tag *)
Section TagWrite.
Context (conf : ucmq_conf).

(** The inode of a data file is not the inode of the tag. *)
Lemma db_file_not_tag w q i ino d o :
  world_wf w -> db_file conf w q i ino d ->
  w_names w !! rtag_path conf q (cur_index (cur_rdb q)) = Some (o_ino o) -> ino <> o_ino o.
Proof.
  intros Hwf (Hn & _) Ht ->. eapply rtag_db_path_ne. by eapply (wf_inj _ Hwf).
Qed.

(** [w'] has the files, mappings, names and clock of [w], and at least its
    descriptors and addresses: only the tag may differ. *)
Definition tag_written (w w' : world) (q : mq_queue) : Prop :=
  exists o f bs, open_nb w (rtag_fd q) o f /\
    w_names w !! rtag_path conf q (cur_index (cur_rdb q)) = Some (o_ino o) /\
    w' = wrote w (rtag_fd q) o f bs.

Lemma tag_written_inv w w' q ms :
  tag_written w w' q -> queue_inv conf w q ms -> queue_inv conf w' q ms.
Proof.
  intros (o & f & bs & [Hfd Hnb] & Hname & ->)
    [Hwf Hnf Hfit Hfree Hrtag Hidx Hpos (wino & dw & Hw & Hcl & Hc) Hdisk].
  assert (forall i ino d, db_file conf w q i ino d ->
            db_file conf (wrote w (rtag_fd q) o f bs) q i ino d) as Hdb.
  { intros i ino d Hf. pose proof (db_file_not_tag _ _ _ _ _ _ Hwf Hf Hname).
    destruct Hf as (? & ? & ?). split_and!; try done. cbn. by rewrite lookup_insert_ne by done. }
  assert (forall h ino d, db_handle conf w q h ino d ->
            db_handle conf (wrote w (rtag_fd q) o f bs) q h ino d) as Hh.
  { intros h ino d (? & ? & ?). split_and!; try by apply Hdb. all: naive_solver. }
  split; try done.
  - by apply wf_wrote.
  - eexists (Ofd _ _ _ _), _. split; [|exact Hname]. split; [|exact Hnb].
    unfold fd_file. cbn. rewrite lookup_insert_eq. cbn. by rewrite lookup_insert_eq.
  - exists wino, dw. split_and!; [by apply Hh|done|].
    destruct Hc as [?|(? & ? & rino & dr & msr & mids & msw & Hr & Hs & Hch & ?)]; [by left|].
    right. split_and!; try done. exists rino, dr, msr, mids, msw. split_and!; try naive_solver.
    intros k x E. destruct (Hch k x E) as (ino & d & ? & ?). exists ino, d. auto.
  - destruct Hdisk as [Honly Happ]. split; [exact Honly|].
    apply tag_appends_wrote; [done|by apply Happ|done].
Qed.

(** What the reader has in memory stays there. *)
Lemma tag_written_load w w' q ms off n bs :
  tag_written w w' q -> queue_inv conf w q ms ->
  load_ptr (PMap (map_mem (cur_rdb q)) off) n w = Ok (bs, w) ->
  load_ptr (PMap (map_mem (cur_rdb q)) off) n w' = Ok (bs, w').
Proof.
  intros (o & f & bs' & [Hfd Hnb] & Hname & ->) Hinv Hload.
  pose proof (inv_wf _ _ _ _ Hinv) as Hwf.
  assert (exists i ino d, db_file conf w q i ino d /\
    w_maps w !! map_mem (cur_rdb q) = Some (Mapping ino (MAX_DB_FILE_SIZE conf)))
    as (i & ino & d & Hf & Hm).
  { destruct (inv_contents _ _ _ _ Hinv) as (wino & dw & (Hw & Hm & _) & _ &
      [(_ & -> & _)|(_ & _ & rino & dr & msr & mids & msw & (Hr & Hrm & _) & _)]); eauto. }
  pose proof (db_file_not_tag _ _ _ _ _ _ Hwf Hf Hname) as Hne.
  cbn [load_ptr] in *. unfold mem_load, map_file in *. cbn. rewrite Hm in *. cbn in *.
  rewrite lookup_insert_ne by done. destruct (w_inodes w !! ino) as [g|]; [|done].
  destruct (in_map _ _ _ _); [|done]. by injection Hload as ->.
Qed.

(** The line at the end of the tag is that of the queue. *)
Lemma rtag_write_saved w q ms w' : conf_wf conf ->
  queue_inv conf w q ms -> rtag_ok conf q ->
  mq_sm_rtag_write_item (QState w q) = Ok (true, QState w' q) ->
  saved conf w' q ms /\ tag_size conf w' q = tag_size conf w q + 61.
Proof.
  intros Hc Hinv Hok E. destruct (inv_rtag _ _ _ _ Hinv) as (o & f & Hnb & Hname).
  erewrite rtag_write_any in E by (done || by eapply inv_faults). injection E as <-.
  pose proof (length_rtag_line conf Hc q Hok) as Hl.
  pose proof Hnb as [Hfd _]. destruct (inv_disk _ _ _ _ Hinv) as [_ Happ].
  destruct (Happ o f Hfd) as [H0 Hat]. apply fd_file_fds in Hfd as [_ Hi].
  assert (tag_file conf (wrote w (rtag_fd q) o f (rtag_line q)) q
    = Some (File (f_size f + 61) (put_bytes (f_data f) (f_size f) (rtag_line q)))) as Et.
  { unfold tag_file. cbn. rewrite Hname, lookup_insert_eq, Hl.
    replace (if o_append o then f_size f else o_pos o) with (f_size f)
      by (destruct Hat as [-> | ->]; [done|by destruct (o_append o)]).
    do 2 f_equal. lia. }
  split.
  - exists q. split_and!; try done.
    + eexists. split; [exact Et|]. cbn. split; [lia|].
      replace (f_size f + 61 - 61) with (f_size f) by lia. apply holds_put.
    + rewrite restore_self by done. eapply tag_written_inv; [|exact Hinv].
      by exists o, f, (rtag_line q).
  - unfold tag_size at 1. rewrite Et. unfold tag_size, tag_file. by rewrite Hname, Hi.
Qed.

Lemma tag_size_nonneg w q ms : queue_inv conf w q ms -> 0 <= tag_size conf w q.
Proof.
  intros Hinv. destruct (inv_rtag _ _ _ _ Hinv) as (o & f & [Hfd _] & Hname).
  destruct (inv_disk _ _ _ _ Hinv) as [_ Happ]. destruct (Happ o f Hfd) as [H0 _].
  apply fd_file_fds in Hfd as [_ Hi]. unfold tag_size, tag_file. by rewrite Hname, Hi.
Qed.

Lemma rtag_write_inv w q ms :
  queue_inv conf w q ms ->
  exists w', mq_sm_rtag_write_item (QState w q) = Ok (true, QState w' q) /\
    tag_written w w' q /\ w_clock w' = w_clock w.
Proof.
  intros Hinv. destruct (inv_rtag _ _ _ _ Hinv) as (o & f & Hnb & Hname).
  eexists. split; [by apply rtag_write_any; [|by eapply inv_faults]|].
  split; [by exists o, f, (rtag_line q)|done].
Qed.
End TagWrite.
