(* ===== verification/StoreWrite.v ===== *)
(** * The writer of a queue's files

    Storing a message behind the last one, and moving the writer to a new data
    file when the current one is full, keep the invariant of [StoreInv]. *)
From S2P Require Import Prelude.
From S2P Require Import CLib.
From S2P Require Import World.
From S2P Require Import Crc16.
From S2P Require Import MqTypes.
From S2P Require Import MqUtil.
From S2P Require Import FileIo.
From S2P Require Import MsgFormat.
From S2P Require Import StorePath.
From S2P Require Import StoreRtag.
From S2P Require Import StoreFile.
From S2P Require Import StoreManage.
From S2P Require Import QueueManage.
From S2P Require Import StoreInv.

(** ** Stores into a data file *)
Section Stored.
Context (conf : ucmq_conf) (Hconf : conf_wf conf).
#[local] Abbreviation MAX := (MAX_DB_FILE_SIZE conf).

Definition stored (w : world) (ino : Z) (d : gmap Z Z) : world :=
  set_inodes (<[ino := File MAX d]> (w_inodes w)) w.

Lemma stored_stored w ino d d' : stored (stored w ino d) ino d' = stored w ino d'.
Proof. unfold stored, set_inodes. cbn. by rewrite insert_insert_eq. Qed.

Lemma mem_store_handle w addr ino d off bs :
  w_maps w !! addr = Some (Mapping ino MAX) -> w_inodes w !! ino = Some (File MAX d) ->
  0 <= off -> off + Z.of_nat (length bs) <= MAX ->
  mem_store addr off bs w = Ok (tt, stored w ino (put_bytes d off bs)).
Proof.
  intros Hm Hi Ho Hl. unfold mem_store, map_file. rewrite Hm. cbn. rewrite Hi.
  unfold in_map. cbn. rewrite !(proj2 (Z.leb_le _ _)) by lia. done.
Qed.

(** A copy behind the bytes [pre] that were copied to [off]. *)
Lemma copy_to_handle w addr ino d off pre bs :
  w_maps w !! addr = Some (Mapping ino MAX) ->
  0 <= off -> off + Z.of_nat (length pre) + Z.of_nat (length bs) <= MAX ->
  copy_to addr (off + Z.of_nat (length pre)) bs (stored w ino (put_bytes d off pre)) =
    Ok (off + Z.of_nat (length (pre ++ bs)), stored w ino (put_bytes d off (pre ++ bs))).
Proof.
  intros Hm Ho Hl. unfold copy_to.
  erewrite bind_ok by (apply (mem_store_handle _ _ ino (put_bytes d off pre));
    [exact Hm|cbn; by rewrite lookup_insert_eq|lia|lia]).
  rewrite stored_stored, <- put_bytes_app. unfold ret. do 2 f_equal.
  rewrite length_app. lia.
Qed.

(** ** The invariant behind a store into the writer's file *)
Lemma tag_file_stored w q i ino d d' :
  world_wf w -> db_file conf w q i ino d -> tag_file conf (stored w ino d') q = tag_file conf w q.
Proof using.
  intros Hwf (Hn & _). unfold tag_file. cbn. destruct (w_names w !! rtag_path conf q _) as [j|] eqn:E; [|done].
  rewrite lookup_insert_ne; [done|]. intros ->. eapply rtag_db_path_ne. by eapply (wf_inj _ Hwf).
Qed.

Lemma inv_store w q ms wino dw d' v new :
  queue_inv conf w q ms -> db_handle conf w q (cur_wdb q) wino dw ->
  clean dw (pos (cur_wdb q)) MAX -> 
  data_bytes d' -> pos (cur_wdb q) <= v <= MAX -> clean d' v MAX ->
  (forall p ms0, DB_FILE_HEAD_LEN <= p -> pending dw p ms0 (pos (cur_wdb q)) ->
                 pending d' p (ms0 ++ new) v) ->
  queue_inv conf (stored w wino d') (with_wdb (with_pos v) q) (ms ++ new).
Proof.
  intros [Hwf Hnf Hfit Hfree Hrtag Hidx Hpos (wino' & dw' & Hw' & Hcl' & Hc) Hdisk] Hw Hcl Hd Hv Hclv Hp.
  assert (wino' = wino /\ dw' = dw) as [-> ->].
  { destruct Hw as ((E1 & E2 & _) & _), Hw' as ((E1' & E2' & _) & _). split; congruence. }
  clear Hw' Hcl'.
  pose proof Hw as ((Hn & Hi & _) & Hm & Hfd & Hne).
  assert (forall i ino d, i <> cur_index (cur_wdb q) -> index_ok i -> index_ok (cur_index (cur_wdb q)) ->
    db_file conf w q i ino d -> db_file conf (stored w wino d') q i ino d) as Hkeep.
  { intros i ino d Hine Hi1 Hi2 (Hn1 & Hi3 & Hd1). split_and!; try done. cbn.
    rewrite lookup_insert_ne; [done|]. intros <-.
    eapply (db_path_ne conf q (cur_index (cur_wdb q)) i); [done..|].
    by eapply (wf_inj _ Hwf). }
  split; try done.
  - by eapply wf_set_inodes.
  - destruct Hrtag as (o & f & [Hof Hnb] & Hname). exists o, f. split; [|done].
    split; [|done]. apply fd_file_fds in Hof as [Ho Hf]. unfold fd_file. cbn. rewrite Ho.
    rewrite lookup_insert_ne; [by rewrite Hf|]. eapply db_file_not_tag; [done|exact (proj1 Hw)|done].
  - cbn. unfold DB_FILE_HEAD_LEN in *. lia.
  - exists wino, d'. split_and!.
    + split_and!; [split_and!; [exact Hn|cbn; by rewrite lookup_insert_eq|done]|done..].
    + exact Hclv.
    + unfold LLONG_MAX in *.
      destruct Hc as [(? & ? & ? & Hpe)|(Hlt & ? & rino & dr & msr & mids & msw & (Hrf & Hr) & Hs & Hch & Hl & Hpe & ->)].
      * left. split_and!; try done. apply Hp; [cbn; lia|done].
      * right. split_and!; try done. exists rino, dr, msr, mids, (msw ++ new). split_and!; try done.
        -- split; [|exact Hr]. apply Hkeep; try done; unfold index_ok, LLONG_MAX; cbn in *; lia.
        -- intros k x E. destruct (Hch k x E) as (ino & d & Hf & ?). exists ino, d. split; [|done].
           apply lookup_lt_Some in E. apply Hkeep; try done; unfold index_ok, LLONG_MAX; cbn in *; lia.
        -- apply Hp; [lia|done].
        -- by rewrite <- !app_assoc.
  - destruct Hdisk as [Honly Happ]. split; [exact Honly|].
    destruct Hrtag as (o & f & [[Ho _]%fd_file_fds _] & Hname).
    eapply (tag_appends_same w); [done| |exact Happ]. intros i g o' Ho' <- Hi'. cbn in Ho', Hi'.
    rewrite lookup_insert_ne in Hi'; [done|]. rewrite Ho in Ho'. injection Ho' as <-.
    eapply db_file_not_tag; [done|exact (proj1 Hw)|done].
Qed.
End Stored.

(** ** A new data file *)
Section NewFile.
Context (conf : ucmq_conf) (Hconf : conf_wf conf).
#[local] Abbreviation MAX := (MAX_DB_FILE_SIZE conf).

(** The bytes of a fresh data file: [extend_file_size] wrote a digit zero at
    its end. *)
Definition fresh_data : gmap Z Z := put_bytes ∅ (MAX - 1) [48].

Lemma fresh_data_bytes : data_bytes fresh_data.
Proof using. apply put_bytes_byte; [apply empty_bytes|decide_it]. Qed.
Lemma fresh_data_clean a b : clean fresh_data a b.
Proof using.
  intros i Hi. unfold fresh_data. simpl. rewrite byte_at_insert. case_decide; [done|].
  unfold byte_at. by rewrite lookup_empty.
Qed.

Definition fresh_db (w : world) (path : bytes) : world :=
  let n := w_next w in
  World (w_dirs w) (<[path := n + 1]> (w_names w)) (<[n + 1 := File MAX fresh_data]> (w_inodes w))
    (<[n := Ofd (n + 1) MAX false true]> (w_fds w)) (<[n + 2 := Mapping (n + 1) MAX]> (w_maps w))
    (n + 3) (w_free w) (w_clock w) (w_faults w).

Lemma open_db_create w path :
  world_wf w -> w_faults w = [] -> path ∉ w_dirs w -> w_names w !! path = None ->
  dir_exists w (dirname path) = true ->
  mq_sm_open_db_file conf path FOPEN_FLAG_CREATE w =
    Ok ((w_next w, w_next w + 2), fresh_db w path).
Proof using Hconf.
  intros Hwf Hnf Hd Hn He. pose proof (MAX_DB_FILE_SIZE_range conf Hconf).
  pose proof (wf_next _ Hwf). unfold mq_sm_open_db_file.
  erewrite bind_ok by (by apply sys_open_new). cbv beta zeta.
  rewrite (proj2 (Z.ltb_ge _ 0)) by lia.
  set (n := w_next w) in *. set (w1 := created w path false true).
  assert (extend_file_size n MAX w1 = Ok (true, set_fds
    (<[n := Ofd (n + 1) MAX false true]> (w_fds w1))
    (set_inodes (<[n + 1 := File MAX fresh_data]> (w_inodes w1)) w1))) as E.
  { unfold extend_file_size. rewrite i32_small by lia. rewrite (proj2 (Z.ltb_ge _ 0)) by lia.
    erewrite bind_ok; cycle 1.
    { unfold sys_ftruncate, pick_fault, bind, ret. cbn. rewrite Hnf.
      unfold fd_file. cbn. fold n. rewrite lookup_insert_eq. cbn. rewrite lookup_insert_eq.
      cbn. reflexivity. }
    cbv beta. erewrite bind_ok; cycle 1.
    { unfold sys_lseek, fd_file. cbn. fold n. rewrite lookup_insert_eq. cbn.
      rewrite lookup_insert_eq. cbn. rewrite (proj2 (Z.ltb_ge _ 0)) by lia. reflexivity. }
    cbv beta. rewrite i32_small by lia. rewrite (proj2 (Z.ltb_ge _ 0)) by lia.
    erewrite bind_ok; cycle 1.
    { unfold sys_write, pick_fault, bind, ret. cbn. rewrite Hnf. unfold fd_file. cbn. fold n.
      rewrite lookup_insert_eq. cbn. rewrite lookup_insert_eq. cbn. reflexivity. }
    unfold ret, w1, created, set_inodes, set_fds. cbn. fold n.
    rewrite !insert_insert_eq. rewrite map_filter_empty. unfold fresh_data.
    do 4 f_equal. all: f_equal; f_equal; try lia. }
  cbv beta zeta. erewrite bind_ok by exact E. cbn [negb].
  erewrite bind_ok; cycle 1.
  { unfold sys_mmap, pick_fault, bind, ret. cbn. rewrite Hnf. fold n.
    unfold set_fds at 1. cbn [w_fds]. rewrite lookup_insert_eq. reflexivity. }
  cbv beta iota. unfold ret, fresh_db, set_next, set_maps. cbn. fold n.
  rewrite !insert_insert_eq. do 3 f_equal. lia.
Qed.

(** What closing the writer's old file may have changed. *)
Definition old_closed (w w0 : world) (q : mq_queue) : Prop :=
  world_wf w0 /\ w_dirs w0 = w_dirs w /\ w_names w0 = w_names w /\ w_inodes w0 = w_inodes w /\
  w_next w0 = w_next w /\ w_free w0 = w_free w /\ w_clock w0 = w_clock w /\
  w_faults w0 = w_faults w /\ w_fds w0 !! rtag_fd q = w_fds w !! rtag_fd q /\
  w_maps w0 !! map_mem (cur_rdb q) = w_maps w !! map_mem (cur_rdb q).

Lemma wf_fresh_db w path :
  world_wf w -> w_names w !! path = None -> world_wf (fresh_db w path).
Proof using.
  intros Hwf Hn. pose proof (wf_created w path false true Hwf Hn) as Hc.
  pose proof (wf_fds _ Hwf) as Hf. pose proof (wf_maps _ Hwf) as Hm. pose proof (wf_next _ Hwf).
  destruct Hc as [H1 H2 H3 H4 H5 H6]. split; cbn in *.
  - lia.
  - intros k o. rewrite lookup_insert_Some. intros [[<- _]|[_ H']]; [lia|].
    apply Hf in H'. lia.
  - intros k o. rewrite lookup_insert_Some. intros [[<- _]|[_ H']]; [lia|].
    apply Hm in H'. lia.
  - intros k o. rewrite lookup_insert_Some. intros [[<- _]|[Hk H']]; [lia|].
    assert (k < w_next w + 2); [|lia]. eapply (H4 k). by rewrite lookup_insert_ne.
  - intros p i Hp. apply lookup_insert_is_Some'. specialize (H5 p i Hp).
    apply lookup_insert_is_Some' in H5. naive_solver.
  - exact H6.
Qed.

Definition new_wdb (n : Z) (q : mq_queue) : mq_db_map :=
  MqDbMap n (stat (cur_wdb q)) 1 (n + 2) DB_FILE_HEAD_LEN 0 (cur_index (cur_wdb q) + 1).

Section Rotate.
Context (w w0 : world) (q : mq_queue) (ms : list smsg) (d' : gmap Z Z).
Context (Hinv : queue_inv conf w q ms) (Hold : old_closed w w0 q).
Context (Hd' : data_bytes d') (Hcl' : clean d' DB_FILE_HEAD_LEN MAX).
Context (Hnext : cur_index (cur_wdb q) + 1 < LLONG_MAX).
#[local] Abbreviation path' := (db_path conf q (cur_index (cur_wdb q) + 1)).
#[local] Abbreviation w2 := (stored conf (fresh_db w0 path') (w_next w0 + 1) d').
#[local] Abbreviation q2 := (with_wdb (fun _ => new_wdb (w_next w0) q) q).

Lemma rotate_name_free : w_names w0 !! path' = None.
Proof using Hinv Hold Hnext.
  destruct Hold as (_ & _ & -> & _). destruct (inv_free _ _ _ _ Hinv) as (_ & _ & H & _).
  apply H. lia.
Qed.

Lemma rotate_file i ino d :
  index_ok i -> i <= cur_index (cur_wdb q) -> db_file conf w q i ino d ->
  db_file conf w2 q2 i ino d.
Proof using Hinv Hold Hnext.
  intros Hi Hle Hf. pose proof (queue_inv_index _ _ _ _ Hinv) as [_ Hwi].
  pose proof (db_file_inode _ _ _ _ _ _ (inv_wf _ _ _ _ Hinv) Hf).
  destruct Hold as (_ & _ & En & Ei & Ex & _). destruct Hf as (? & ? & ?).
  split_and!; [|cbn|done].
  - change (db_path conf q2) with (db_path conf q). cbn. rewrite En, lookup_insert_ne; [done|].
    apply db_path_ne; unfold index_ok in *; lia.
  - rewrite Ei, Ex, !lookup_insert_ne by lia. done.
Qed.

Lemma rotate_handle h ino d :
  index_ok (cur_index h) -> cur_index h <= cur_index (cur_wdb q) ->
  w_maps w0 !! map_mem h = w_maps w !! map_mem h ->
  db_handle conf w q h ino d -> db_handle conf w2 q2 h ino d.
Proof using Hinv Hold Hnext.
  intros Hi Hle Em (Hf & Hm & Hfd & Hne). pose proof Hold as (_ & _ & _ & _ & Ex & _).
  pose proof (wf_maps _ (inv_wf _ _ _ _ Hinv) _ _ Hm).
  split_and!; [by apply rotate_file| |cbn; lia|done].
  cbn. rewrite lookup_insert_ne by lia. by rewrite Em.
Qed.

Lemma rotate_contents :
  cur_index (cur_rdb q) <= cur_index (cur_wdb q) ->
  contents_behind conf w2 q2 d' ms.
Proof using Hinv Hold Hnext Hcl' Hconf.
  intros Hle. pose proof (queue_inv_index _ _ _ _ Hinv) as [Hri Hwi].
  pose proof Hold as (_ & _ & _ & _ & Ex & _ & _ & _ & _ & Em).
  pose proof (inv_wf _ _ _ _ Hinv) as Hwf. pose proof (inv_pos _ _ _ _ Hinv) as Hp.
  destruct (inv_contents _ _ _ _ Hinv) as (wino & dw & Hw & Hcl & Hc).
  assert (map_mem (cur_rdb q) < w_next w) as Hml.
  { destruct Hc as [(_ & -> & _)|(_ & _ & ? & ? & ? & ? & ? & (_ & Hm & _) & _)];
      [destruct Hw as (_ & Hm & _)|]; apply (wf_maps _ Hwf) in Hm; lia. }
  split_and!; [cbn; lia|cbn; lia|].
  destruct Hc as [(Hi & Hm & Hfd & Hpe)|
    (Hlt & Hm & rino & dr & msr & mids & msw & Hr & Hs & Hch & Hl & Hpe & Ems)].
  - exists wino, dw, ms, [], []. split_and!.
    + cbn. destruct Hw as (Hwf1 & Hwm & Hwfd & Hwne).
      apply (rotate_handle (cur_rdb q)); [done|lia|done|].
      split_and!; [by rewrite Hi|by rewrite Hm|by rewrite Hfd|by rewrite Hfd].
    + exists (pos (cur_wdb q)). split_and!; [done|lia|done].
    + intros k x E. by rewrite lookup_nil in E.
    + cbn. lia.
    + apply pending_nil.
    + cbn. by rewrite app_nil_r.
  - exists rino, dr, msr, (mids ++ [msw]), []. split_and!.
    + apply rotate_handle; done || lia.
    + done.
    + intros k x [E|[Hk E]]%lookup_app_Some.
      * destruct (Hch k x E) as (ino & d & Hf & ?). exists ino, d. split; [|done].
        apply lookup_lt_Some in E. apply rotate_file; cbn; unfold index_ok in *; try lia. done.
      * apply list_lookup_singleton_Some in E as [Hk0 <-]. exists wino, dw. split.
        -- apply rotate_file; cbn; unfold index_ok in *; try lia. destruct Hw as (Hf & _).
           by replace (cur_index (cur_rdb q) + 1 + Z.of_nat k) with (cur_index (cur_wdb q)) by lia.
        -- exists (pos (cur_wdb q)). split_and!; [done|lia|done].
    + cbn. rewrite length_app. simpl. lia.
    + apply pending_nil.
    + rewrite concat_app. cbn. by rewrite !app_nil_r, Ems.
Qed.

Lemma rotate_tag : tag_file conf w2 q2 = tag_file conf w q.
Proof using Hinv Hold.
  pose proof Hold as (_ & _ & En & Ei & Ex & _). pose proof (inv_wf _ _ _ _ Hinv) as Hwf.
  unfold tag_file. change (rtag_path conf q2) with (rtag_path conf q). cbn.
  rewrite lookup_insert_ne by apply not_eq_sym, rtag_db_path_ne. rewrite En.
  destruct (w_names w !! rtag_path conf q _) as [i|] eqn:E; [|done].
  destruct (wf_names _ Hwf _ _ E) as [f Hf]. pose proof (wf_inodes _ Hwf _ _ Hf).
  by rewrite Ei, Ex, !lookup_insert_ne by lia.
Qed.

Lemma rotate_inv : queue_inv conf w2 q2 ms.
Proof using Hinv Hold Hnext Hcl' Hd' Hconf.
  pose proof (queue_inv_index _ _ _ _ Hinv) as [Hri Hwi].
  assert (cur_index (cur_rdb q) <= cur_index (cur_wdb q)) as Hle.
  { destruct (inv_contents _ _ _ _ Hinv) as (? & ? & _ & _ & [(E & _)|(? & _)]); lia. }
  pose proof (rotate_contents Hle) as Hcont. pose proof rotate_name_free as Hnone.
  pose proof (MAX_DB_FILE_SIZE_range conf Hconf).
  pose proof Hinv as [Hwf Hnf Hfit (Hdir & Hnd & Hnw & Hnr) (o & f & [Hof Hnb] & Hname) Hidx Hpos _ [Honly Happ]].
  pose proof Hold as (Hwf0 & Ed & En & Ei & Ex & Efr & Eck & Efl & Efd & Em).
  split; try done.
  - eapply wf_set_inodes; [by apply wf_fresh_db|]. cbn. by rewrite lookup_insert_eq.
  - cbn. by rewrite Efl.
  - split_and!; cbn; rewrite ?Ed, ?En; [done|done| |].
    + intros i Hi. change (db_path conf q2) with (db_path conf q).
      rewrite lookup_insert_ne; [apply Hnw; lia|]. apply db_path_ne; unfold index_ok in *; lia.
    + intros i Hi. change (rtag_path conf q2) with (rtag_path conf q).
      rewrite lookup_insert_ne; [by apply Hnr|]. apply not_eq_sym, rtag_db_path_ne.
  - exists o, f. apply fd_file_fds in Hof as [Ho Hf]. pose proof (wf_fds _ Hwf _ _ Ho).
    pose proof (wf_inodes _ Hwf _ _ Hf). split; [split; [|done]|].
    + unfold fd_file. cbn. rewrite Ex, lookup_insert_ne by lia. rewrite Efd, Ho.
      rewrite Ei, !lookup_insert_ne by lia. by rewrite Hf.
    + cbn. rewrite En. rewrite lookup_insert_ne; [exact Hname|]. apply not_eq_sym.
      exact (rtag_db_path_ne conf q _ _).
  - cbn. unfold LLONG_MAX in *. lia.
  - cbn. unfold DB_FILE_HEAD_LEN in *. lia.
  - exists (w_next w0 + 1), d'. split_and!; [|done|by right].
    split_and!; [split_and!|..]; cbn; rewrite ?lookup_insert_eq; try done; try lia.
    apply fd_file_fds in Hof as [Ho _]. pose proof (wf_fds _ Hwf _ _ Ho). lia.
  - apply fd_file_fds in Hof as [Ho Hf]. pose proof (wf_fds _ Hwf _ _ Ho).
    pose proof (wf_inodes _ Hwf _ _ Hf). split.
    + intros name ino Hs. cbn. rewrite En, lookup_insert_Some.
      intros [[E%in_queue_inj _]|[_ Hi]].
      * right. exists (cur_index (cur_wdb q) + 1). split; [lia|done].
      * destruct (Honly name ino Hs Hi) as [->|(i & ? & ->)]; [by left|].
        right. exists i. split; [lia|done].
    + eapply (tag_appends_same w); [| |exact Happ]; cbn.
      * intros o'. by rewrite Ex, lookup_insert_ne, Efd by lia.
      * intros i g o' Ho' <-. rewrite Ho in Ho'. injection Ho' as <-.
        by rewrite Ei, Ex, !lookup_insert_ne by lia.
Qed.
End Rotate.
End NewFile.

(** ** The head of a data file *)
Lemma length_file_head c : length (db_file_head c) = 128%nat.
Proof.
  unfold db_file_head. rewrite length_app, length_replicate.
  unfold snprintf. rewrite length_take. change (Z.to_nat DB_FILE_HEAD_LEN) with 128%nat. lia.
Qed.

Lemma file_head_bytes c : Forall is_byte (db_file_head c).
Proof.
  unfold db_file_head. apply Forall_app_2.
  - unfold snprintf. apply Forall_take, Forall_app_2; apply fixed_bytes.
  - apply Forall_replicate. unfold is_byte. lia.
Qed.

Section WriteMsg.
Context (conf : ucmq_conf) (Hconf : conf_wf conf).
#[local] Abbreviation MAX := (MAX_DB_FILE_SIZE conf).

(** Writing the head keeps the messages behind it. *)
Lemma write_head_ok w q ms :
  queue_inv conf w q ms ->
  exists w', mq_sm_db_write_file_head (QState w q) = Ok (true, QState w' q) /\
    queue_inv conf w' q ms /\ w_clock w' = w_clock w /\ w_free w' = w_free w /\
    tag_file conf w' q = tag_file conf w q.
Proof using Hconf.
  intros Hinv. pose proof (MAX_DB_FILE_SIZE_range conf Hconf). pose proof (inv_pos _ _ _ _ Hinv).
  destruct (inv_contents _ _ _ _ Hinv) as (wino & dw & Hw & Hcl & _).
  pose proof Hw as ((Hn & Hi & Hd) & Hm & _).
  exists (stored conf w wino (put_bytes dw 0 (db_file_head (opt_count (cur_wdb q))))).
  split_and!; [|..|done|done|].
  - unfold mq_sm_db_write_file_head. rewrite run_queue. cbv beta.
    erewrite run_sys by (apply mem_store_handle; [exact Hm|exact Hi|lia|rewrite length_file_head; lia]).
    cbv beta. unfold sys_msync. by erewrite run_sys by reflexivity.
  - replace q with (with_wdb (with_pos (pos (cur_wdb q))) q) by (by destruct q as [? ? ? ? ? ? ? ? ? ? []]).
    rewrite <- (app_nil_r ms). eapply inv_store; try done.
    + apply put_bytes_byte; [done|apply file_head_bytes].
    + lia.
    + eapply clean_frame; [|exact Hcl]. intros i Hi'. unfold DB_FILE_HEAD_LEN in *.
      apply byte_at_put_out. rewrite length_file_head. lia.
    + intros p ms0 Hp Hpe. rewrite app_nil_r. eapply pending_frame; [|exact Hpe].
      intros i Hi'. unfold DB_FILE_HEAD_LEN in *. apply byte_at_put_out. rewrite length_file_head. lia.
  - eapply tag_file_stored; [by eapply inv_wf|exact (proj1 Hw)].
Qed.

Definition storage_ok (w : world) : Prop :=
  res_store_space conf <= u64 (i32 (u64 (w_free w) / (1024 * 1024 * 1024))).

(** What writing leaves alone. *)
Definition write_kept (w : world) (q : mq_queue) (w' : world) (q' : mq_queue) : Prop :=
  qname q' = qname q /\ wlock q' = wlock q /\ sync_intv q' = sync_intv q /\
  delay q' = delay q /\ maxque q' = maxque q /\ get_num q' = get_num q /\
  unread_count q' = unread_count q /\ cur_rdb q' = cur_rdb q /\ rtag_fd q' = rtag_fd q /\
  w_clock w' = w_clock w /\ w_free w' = w_free w.

(** The tag grows by the line that is written when a file is full. *)
Definition tag_grows (w : world) (q : mq_queue) (w' : world) (q' : mq_queue) : Prop :=
  settings_ok q -> count_ok q -> tag_size conf w' q' <= tag_size conf w q + 61.

Definition fresh_head : gmap Z Z := put_bytes (fresh_data conf) 0 (db_file_head 0).

Lemma fresh_head_bytes : data_bytes fresh_head.
Proof using.
  apply put_bytes_byte; [apply fresh_data_bytes|apply file_head_bytes].
Qed.
Lemma fresh_head_clean : clean fresh_head DB_FILE_HEAD_LEN MAX.
Proof using.
  intros i Hi. unfold fresh_head. unfold DB_FILE_HEAD_LEN in Hi.
  rewrite byte_at_put_out by (rewrite length_file_head; lia).
  apply (fresh_data_clean conf i (i + 1)). lia.
Qed.

(** The rest of [get_next_write_file] once the old file is closed. *)
Lemma rotate_run w w0 q q0 ms (Hinv : queue_inv conf w q ms) (Hold : old_closed w w0 q) :
  storage_ok w -> cur_index (cur_wdb q) + 1 < LLONG_MAX ->
  q0 = q \/ q0 = with_wdb (with_flag 0) q ->
  exists w' q',
    (let! free := sys get_storage_free in
     if u64 free <? res_store_space conf then ret false
     else
       let! '(new_fd, mem) := sys (mq_sm_open_db_file conf
          (db_path conf q (cur_index (cur_wdb q) + 1)) FOPEN_FLAG_CREATE) in
       update_wdb (with_fd new_fd) ;;;
       update_wdb (with_map_mem mem) ;;;
       if mem =? 0 then ret false
       else
         update_wdb (with_opt_count 0) ;;;
         update_wdb (with_flag 1) ;;;
         update_wdb (with_pos DB_FILE_HEAD_LEN) ;;;
         update_wdb (with_cur_index (cur_index (cur_wdb q) + 1)) ;;;
         let! _ := mq_sm_db_write_file_head in
         let! _ := mq_sm_rtag_write_item in
         ret true) (QState w0 q0) = Ok (true, QState w' q') /\
    queue_inv conf w' q' ms /\ write_kept w q w' q' /\ put_num q' = put_num q /\
    cur_wdb q' = new_wdb (w_next w0) q /\ tag_grows w q w' q'.
Proof using Hconf.
  intros Hst Hnext Hq0. pose proof Hold as (Hwf0 & Ed & En & _ & Ex & Efr & Eck & Efl & _).
  pose proof (queue_inv_index _ _ _ _ Hinv) as [_ Hwi]. pose proof (wf_next _ Hwf0).
  pose proof (MAX_DB_FILE_SIZE_range conf Hconf).
  pose proof (inv_free _ _ _ _ Hinv) as (Hdir & Hnd & _). pose proof (inv_faults _ _ _ _ Hinv) as Hnf.
  unfold get_storage_free, sys_statfs_free.
  erewrite run_sys by reflexivity. rewrite Efr.
  rewrite (proj2 (Z.ltb_ge _ _)) by exact Hst.
  erewrite run_sys; cycle 1.
  { apply open_db_create; [done|done|by rewrite Efl| |by eapply rotate_name_free|].
    - rewrite Ed. apply Hnd. unfold index_ok in *; lia.
    - unfold db_path. rewrite dirname_in_queue by apply slash_not_db.
      unfold dir_exists. rewrite Ed. by apply bool_decide_true; right. }
  cbv beta iota. run_q. rewrite (proj2 (Z.eqb_neq _ 0)) by lia. run_q.
  set (q2 := with_wdb (fun _ => new_wdb (w_next w0) q) q).
  match goal with |- context [QState _ ?q1] => replace q1 with q2 by (by destruct Hq0 as [-> | ->]) end.
  pose proof (rotate_inv conf Hconf w w0 q ms fresh_head Hinv Hold fresh_head_bytes
                fresh_head_clean Hnext) as Hinv2.
  destruct (rtag_write_inv _ _ _ _ Hinv2) as (w' & E & Htag & Ec).
  exists w', q2. split_and!.
  - unfold mq_sm_db_write_file_head. rewrite bind_assoc, run_queue. cbv beta. rewrite bind_assoc.
    erewrite run_sys by (apply (mem_store_handle conf _ _ (w_next w0 + 1) (fresh_data conf));
      [cbn; by rewrite lookup_insert_eq|cbn; by rewrite lookup_insert_eq|lia
      |rewrite length_file_head; lia]).
    cbv beta. rewrite bind_assoc. unfold sys_msync. erewrite run_sys by reflexivity. cbv beta.
    unfold ret at 1, bind at 1. by erewrite bind_ok by exact E.
  - by eapply tag_written_inv.
  - unfold write_kept. split_and!; try done; [by rewrite Ec|].
    destruct Htag as (? & ? & ? & _ & _ & ->). done.
  - done.
  - done.
  - intros Hs Hco. destruct (rtag_write_saved conf _ q2 _ w' Hconf Hinv2) as [_ ->]; [|exact E|].
    + by apply (rtag_ok_inv conf _ _ _ Hconf Hinv2).
    + pose proof (rotate_tag conf w w0 q ms fresh_head Hinv Hold) as Et. unfold tag_size, q2. by rewrite Et.
Qed.

Lemma old_closed_refl w q : world_wf w -> old_closed w w q.
Proof using. intros Hwf. by split_and!. Qed.

Lemma old_closed_unmap w q ms :
  queue_inv conf w q ms -> cur_index (cur_rdb q) < cur_index (cur_wdb q) ->
  old_closed w (closed (fd (cur_wdb q)) (unmapped (map_mem (cur_wdb q)) w)) q.
Proof using.
  intros Hinv Hlt. pose proof (inv_wf _ _ _ _ Hinv) as Hwf.
  destruct (inv_contents _ _ _ _ Hinv) as (wino & dw & (_ & _ & _ & Hne) & _ &
    [(? & _)|(_ & Hm & _)]); [lia|].
  split_and!; try done; [by apply wf_closed, wf_unmapped|..]; cbn;
    by rewrite lookup_delete_ne by done.
Qed.

Lemma next_write_ok w q ms :
  queue_inv conf w q ms -> storage_ok w -> cur_index (cur_wdb q) + 1 < LLONG_MAX ->
  exists w' q', get_next_write_file conf (QState w q) = Ok (true, QState w' q') /\
    queue_inv conf w' q' ms /\ write_kept w q w' q' /\ put_num q' = put_num q /\
    pos (cur_wdb q') = DB_FILE_HEAD_LEN /\ opt_count (cur_wdb q') = 0 /\
    cur_index (cur_wdb q') = cur_index (cur_wdb q) + 1 /\ tag_grows w q w' q'.
Proof using Hconf.
  intros Hinv Hst Hnext. pose proof (queue_inv_index _ _ _ _ Hinv) as [Hri Hwi].
  unfold get_next_write_file. rewrite run_queue. cbv beta zeta.
  rewrite u64_small by (unfold index_ok, LLONG_MAX in *; lia).
  rewrite db_path_eq by (apply (inv_fits _ _ _ _ Hinv) || (unfold index_ok in *; lia)).
  fold (db_path conf q (cur_index (cur_wdb q) + 1)).
  destruct (Z.ltb_spec (cur_index (cur_rdb q)) (cur_index (cur_wdb q))) as [Hlt|Hge].
  - destruct (rotate_run w _ q (with_wdb (with_flag 0) q) ms Hinv (old_closed_unmap w q ms Hinv Hlt)
      Hst Hnext (or_intror eq_refl)) as (w' & q' & E & Hinv' & Hk & Hpn & Hwdb & Htg).
    exists w', q'. rewrite Hwdb. by split_and!.
  - destruct (rotate_run w w q q ms Hinv (old_closed_refl w q (inv_wf _ _ _ _ Hinv))
      Hst Hnext (or_introl eq_refl)) as (w' & q' & E & Hinv' & Hk & Hpn & Hwdb & Htg).
    exists w', q'. rewrite Hwdb. by split_and!.
Qed.

(** Room is made for a message: the current file, or a new one. *)
Definition fits (q : mq_queue) (len : Z) : Prop := pos (cur_wdb q) + len + MSG_HEAD_LEN <= MAX.

Lemma make_room w q ms len :
  queue_inv conf w q ms -> storage_ok w -> cur_index (cur_wdb q) + 1 < LLONG_MAX ->
  0 <= len -> DB_FILE_HEAD_LEN + MSG_HEAD_LEN + len <= MAX ->
  exists w' q',
    (if u32 MAX <? u32 (u32 (pos (cur_wdb q) + len) + MSG_HEAD_LEN) then
       let! _ := mq_sm_db_write_file_head in get_next_write_file conf
     else ret true) (QState w q) = Ok (true, QState w' q') /\
    queue_inv conf w' q' ms /\ write_kept w q w' q' /\ put_num q' = put_num q /\ fits q' len /\
    cur_index (cur_wdb q') <= cur_index (cur_wdb q) + 1 /\ tag_grows w q w' q'.
Proof using Hconf.
  intros Hinv Hst Hnext Hl Hlen. pose proof (MAX_DB_FILE_SIZE_range conf Hconf).
  pose proof (inv_pos _ _ _ _ Hinv). unfold DB_FILE_HEAD_LEN, MSG_HEAD_LEN in *.
  rewrite (u32_small (pos (cur_wdb q) + len)), !u32_small by lia.
  destruct (Z.ltb_spec MAX (pos (cur_wdb q) + len + 12)) as [Hfull|Hroom].
  - destruct (write_head_ok w q ms Hinv) as (w1 & E1 & Hinv1 & Hc1 & Hf1 & Ht1).
    destruct (next_write_ok w1 q ms Hinv1) as (w' & q' & E & Hinv' & Hk & Hpn & Hp & _ & Hci & Htg);
      [unfold storage_ok; by rewrite Hf1|done|].
    exists w', q'. split_and!; try done.
    + by erewrite bind_ok by exact E1.
    + unfold write_kept in *. rewrite Hc1, Hf1 in Hk. done.
    + unfold fits, DB_FILE_HEAD_LEN, MSG_HEAD_LEN in *. lia.
    + lia.
    + unfold tag_grows, tag_size in *. by rewrite Ht1 in Htg.
  - exists w, q. split_and!; try done; [lia|]. unfold tag_grows. lia.
Qed.

(** The six copies of [mq_sm_db_write_msg]. *)
Lemma write_copies w addr ino d off item body :
  w_maps w !! addr = Some (Mapping ino MAX) -> w_inodes w !! ino = Some (File MAX d) ->
  magic_num1 item = MSG_HEAD_OF_FIRST_MAGIC_NUM -> magic_num2 item = MSG_HEAD_OF_SECOND_MAGIC_NUM ->
  msg item = PBuf body -> mlen item = Z.of_nat (length body) -> crc16 item = crc16_append body ->
  0 <= off -> off + MSG_HEAD_LEN + mlen item <= MAX ->
  forall (k : M qstate bool) q,
  (let! p := sys (copy_to addr off [u8 (magic_num1 item)]) in
   let! p := sys (copy_to addr p [u8 (magic_num2 item)]) in
   let! p := sys (copy_to addr p (le_bytes 4 (mdelay item))) in
   let! p := sys (copy_to addr p (le_bytes 2 (crc16 item))) in
   let! p := sys (copy_to addr p (le_bytes 4 (mlen item))) in
   let! body := sys (load_ptr (msg item) (mlen item)) in
   let! _ := sys (copy_to addr p body) in k) (QState w q) =
  k (QState (stored conf w ino (put_bytes d off (encode (mdelay item, body)))) q).
Proof using.
  intros Hm Hi H1 H2 Hb Hl Hcrc Ho Hle k q. rewrite H1, H2, Hb, Hl, Hcrc.
  unfold MSG_HEAD_LEN in *. rewrite Hl in Hle.
  assert (stored conf w ino (put_bytes d off []) = w) as Hz.
  { unfold stored, set_inodes. cbn. rewrite insert_id by done. by destruct w. }
  assert (forall pre bs (kk : Z -> M qstate bool), off + Z.of_nat (length pre) + Z.of_nat (length bs) <= MAX ->
    (let! x := sys (copy_to addr (off + Z.of_nat (length pre)) bs) in kk x)
      (QState (stored conf w ino (put_bytes d off pre)) q) =
    kk (off + Z.of_nat (length (pre ++ bs)))
      (QState (stored conf w ino (put_bytes d off (pre ++ bs))) q)) as Hstep.
  { intros pre bs kk Hlen. by erewrite run_sys by (by apply copy_to_handle). }
  rewrite <- Hz at 1. replace off with (off + Z.of_nat (length ([] : bytes))) at 1 by (simpl; lia).
  rewrite Hstep by (simpl; lia). cbv beta. rewrite Hstep by (simpl; lia). cbv beta.
  rewrite Hstep by (rewrite length_le_bytes; simpl; lia). cbv beta.
  rewrite Hstep by (rewrite !length_app, !length_le_bytes; simpl; lia). cbv beta.
  rewrite Hstep by (rewrite !length_app, !length_le_bytes; simpl; lia). cbv beta.
  erewrite run_sys; cycle 1.
  { cbn [load_ptr]. rewrite !(proj2 (Z.leb_le _ _)) by lia. cbn [andb].
    rewrite Nat2Z.id, take_ge by lia. reflexivity. }
  cbv beta. rewrite Hstep by (rewrite !length_app, !length_le_bytes; simpl; lia). done.
Qed.

(** ** Storing a message *)
Lemma write_msg_ok w q ms item body :
  queue_inv conf w q ms -> storage_ok w -> cur_index (cur_wdb q) + 1 < LLONG_MAX ->
  magic_num1 item = MSG_HEAD_OF_FIRST_MAGIC_NUM -> magic_num2 item = MSG_HEAD_OF_SECOND_MAGIC_NUM ->
  msg item = PBuf body -> mlen item = Z.of_nat (length body) -> crc16 item = crc16_append body ->
  wf_msg (mdelay item, body) -> DB_FILE_HEAD_LEN + MSG_HEAD_LEN + mlen item <= MAX ->
  exists w' q', mq_sm_db_write_msg conf item (QState w q) = Ok (true, QState w' q') /\
    queue_inv conf w' q' (ms ++ [(mdelay item, body)]) /\ write_kept w q w' q' /\
    put_num q' = u64 (put_num q + 1) /\ cur_index (cur_wdb q') <= cur_index (cur_wdb q) + 1 /\
    tag_grows w q w' q'.
Proof using Hconf.
  intros Hinv Hst Hnext H1 H2 Hb Hl Hcrc Hwf Hlen. pose proof (MAX_DB_FILE_SIZE_range conf Hconf).
  unfold mq_sm_db_write_msg. rewrite run_queue. cbv beta.
  destruct (make_room w q ms (mlen item)) as (w1 & q1 & E & Hinv1 & Hk & Hpn & Hfit & Hci & Htg);
    [done..|lia|done|]. erewrite bind_ok by exact E. cbn [negb].
  rewrite run_queue. cbv beta zeta. unfold fits in Hfit. pose proof (inv_pos _ _ _ _ Hinv1).
  destruct (inv_contents _ _ _ _ Hinv1) as (wino & dw & Hw & Hcl & _).
  pose proof Hw as ((Hn & Hi & Hd) & Hm & _). unfold DB_FILE_HEAD_LEN, MSG_HEAD_LEN in *.
  erewrite write_copies; [|exact Hm|exact Hi|done..|lia|unfold MSG_HEAD_LEN; lia].
  run_q. set (m := (mdelay item, body)). set (d' := put_bytes dw _ (encode m)).
  assert (blen m = mlen item) as Hbl by (unfold blen; by rewrite Hl).
  pose proof (length_encode m) as Hle. rewrite Hbl in Hle. unfold MSG_HEAD_LEN in Hle.
  eexists _, _. split; [done|]. split_and!.
  - apply inv_put_num, inv_wcount. rewrite (u32_small (mlen item + 12)) by lia.
    replace (with_wdb _ q1) with (with_wdb (with_pos (pos (cur_wdb q1) + 12 + mlen item)) q1)
      by (unfold with_wdb, with_pos; rewrite u32_small by lia; do 2 f_equal; lia).
    eapply inv_store; try done.
    + apply put_bytes_byte; [done|]. apply encode_bytes. apply Hwf.
    + lia.
    + eapply clean_frame; [|intros i Hi'; apply Hcl]; [|lia]. intros i Hi'.
      apply byte_at_put_out. lia.
    + intros p ms0 Hp Hpe. rewrite <- Hbl. apply pending_app; [|done|apply holds_put].
      eapply pending_frame; [|exact Hpe]. intros i Hi'. apply byte_at_put_out. lia.
  - unfold write_kept in *. cbn. naive_solver.
  - cbn. by rewrite Hpn.
  - done.
  - intros Hs Hco. specialize (Htg Hs Hco). unfold tag_size in *.
    erewrite <- (tag_file_stored conf w1) in Htg; [exact Htg|by eapply inv_wf|exact (proj1 Hw)].
Qed.

Lemma put_data_ok w q ms item body :
  queue_inv conf w q ms -> storage_ok w -> cur_index (cur_wdb q) + 1 < LLONG_MAX ->
  magic_num1 item = MSG_HEAD_OF_FIRST_MAGIC_NUM -> magic_num2 item = MSG_HEAD_OF_SECOND_MAGIC_NUM ->
  msg item = PBuf body -> mlen item = Z.of_nat (length body) ->
  wf_msg (mdelay item, body) -> DB_FILE_HEAD_LEN + MSG_HEAD_LEN + mlen item <= MAX ->
  exists item' w' q', mq_sm_put_data conf item (QState w q) = Ok ((true, item'), QState w' q') /\
    queue_inv conf w' q' (ms ++ [(mdelay item, body)]) /\ write_kept w q w' q' /\
    put_num q' = u64 (put_num q + 1) /\ cur_index (cur_wdb q') <= cur_index (cur_wdb q) + 1 /\
    tag_grows w q w' q'.
Proof using Hconf.
  intros Hinv Hst Hnext H1 H2 Hb Hl Hwf Hlen. pose proof (MAX_DB_FILE_SIZE_range conf Hconf).
  unfold DB_FILE_HEAD_LEN, MSG_HEAD_LEN in Hlen.
  destruct (write_msg_ok w q ms (with_crc16 (crc16_append body) item) body)
    as (w' & q' & E & Hinv' & Hk & Hpn & Hci & Htg); try done.
  exists (with_crc16 (crc16_append body) item), w', q'. split_and!; try done.
  unfold mq_sm_put_data. erewrite run_sys; cycle 1.
  { unfold mq_sm_db_build_msg_crc16. rewrite Hb, i32_small by lia.
    rewrite (proj2 (Z.ltb_ge _ 0)) by lia. cbn [orb load_ptr].
    rewrite !(proj2 (Z.leb_le _ _)) by lia. cbn [andb]. rewrite Hl, Nat2Z.id, take_ge by lia.
    reflexivity. }
  cbv beta iota zeta. by erewrite bind_ok by exact E.
Qed.
End WriteMsg.
