(* ===== verification/Fifo.v ===== *)
(** * A queue is a queue

    The abstract queue: the waiting messages with their time stamps, a limit, a
    delay and a write lock.  The main theorems: creating a queue gives the empty
    one, [mq_qm_push_item] appends, [mq_qm_pop_item] takes the first, and every
    sequence of operations answers as the abstract queue does. *)
From S2P Require Import Prelude.
From S2P Require Import CLib.
From S2P Require Import World.
From S2P Require Import Crc16.
From S2P Require Import MqTypes.
From S2P Require Import MqUtil.
From S2P Require Import FileIo.
From S2P Require Import MsgFormat.
From S2P Require Import StorePath.
From S2P Require Import StoreRtag.
From S2P Require Import StoreFile.
From S2P Require Import StoreManage.
From S2P Require Import QueueManage.
From S2P Require Import StoreInv.
From S2P Require Import StoreWrite.

(** ** The abstract queue *)
Record aqueue := AQueue {
  a_msgs : list smsg;      (* oldest first *)
  a_max : Z;               (* 0: no limit *)
  a_delay : Z;             (* seconds before a message can be read *)
  a_lock : Z               (* -1: locked; otherwise the time at which the lock ends *)
}.

(** What [now] is to the server: the clock as an [int] and as an [uint32_t]. *)
Definition now_of (w : world) : Z := u32 (i32 (w_clock w)).

Definition a_locked (now : Z) (a : aqueue) : bool := (a_lock a =? -1) || (now <? u32 (a_lock a)).
Definition a_full (a : aqueue) : bool :=
  negb (a_max a =? 0) && (a_max a <? Z.of_nat (length (a_msgs a)) + 1).

Definition a_push (now : Z) (body : bytes) (a : aqueue) : queue_put_ret * aqueue :=
  if a_full a then (QUEUE_FULL, a)
  else if a_locked now a then (QUEUE_WLOCK, a)
  else (QUEUE_PUT_OK, AQueue (a_msgs a ++ [(now, body)]) (a_max a) (a_delay a) (a_lock a)).

(** The body that is read; [None] when no message can be read now. *)
Definition a_pop (now : Z) (a : aqueue) : option bytes * aqueue :=
  match a_msgs a with
  | [] => (None, a)
  | m :: ms =>
      if negb (a_delay a =? 0) && (u32 (now - m.1) <? a_delay a) then (None, a)
      else (Some m.2, AQueue ms (a_max a) (a_delay a) (a_lock a))
  end.

(** ** The operations as the HTTP handlers use them *)
Inductive op := OpPut (body : bytes) | OpGet | OpTick (seconds : Z)
  | OpMaxqueue (n : Z) | OpDelay (n : Z) | OpWlock (n : Z).
Inductive answer := AnsPut (r : queue_put_ret) | AnsGet (body : option bytes) | AnsDone.

Section Ops.
Context (conf : ucmq_conf).

(** A put: [unread_count] is incremented by [http_opt_put]. *)
Definition run_put (body : bytes) : M qstate answer :=
  let! '(r, _) := mq_qm_push_item conf
                   (MsgItem 0 0 0 0 (Z.of_nat (length body)) (PBuf body)) in
  match r with
  | QUEUE_PUT_OK => update (fun q => with_unread (u64 (unread_count q + 1)) q) ;;; ret (AnsPut r)
  | _ => ret (AnsPut r)
  end.

(** A get: the body is sent before anything else happens. *)
Definition run_get : M qstate answer :=
  let! '(r, item) := mq_qm_pop_item conf msg_item_uninit in
  match r with
  | QUEUE_GET_OK => let! body := sys (load_ptr (msg item) (mlen item)) in ret (AnsGet (Some body))
  | _ => ret (AnsGet None)
  end.

Definition run_op (o : op) : M qstate answer :=
  match o with
  | OpPut body => run_put body
  | OpGet => run_get
  | OpTick n => sys (modify (fun w => set_clock (w_clock w + n) w)) ;;; ret AnsDone
  | OpMaxqueue n => let! _ := mq_qm_set_maxqueue n in ret AnsDone
  | OpDelay n => let! _ := mq_qm_set_delay n in ret AnsDone
  | OpWlock n => let! _ := mq_qm_set_wlock n in ret AnsDone
  end.

Fixpoint run_ops (os : list op) : M qstate (list answer) :=
  match os with
  | [] => ret []
  | o :: os => let! a := run_op o in let! l := run_ops os in ret (a :: l)
  end.
End Ops.

(** The same on the abstract queue, with its clock. *)
Definition a_op (o : op) (s : Z * aqueue) : answer * (Z * aqueue) :=
  let '(t, a) := s in
  let now := u32 (i32 t) in
  match o with
  | OpPut body => let '(r, a') := a_push now body a in (AnsPut r, (t, a'))
  | OpGet => let '(r, a') := a_pop now a in (AnsGet r, (t, a'))
  | OpTick n => (AnsDone, (t + n, a))
  | OpMaxqueue n => (AnsDone, (t, AQueue (a_msgs a) n (a_delay a) (a_lock a)))
  | OpDelay n => (AnsDone, (t, AQueue (a_msgs a) (a_max a) n (a_lock a)))
  | OpWlock n => (AnsDone, (t, AQueue (a_msgs a) (a_max a) (a_delay a)
      (if n =? UINT_MAX then -1 else if n =? 0 then 0 else i32 (i32 t + n))))
  end.
Fixpoint a_ops (os : list op) (s : Z * aqueue) : list answer * (Z * aqueue) :=
  match os with
  | [] => ([], s)
  | o :: os => let '(r, s) := a_op o s in let '(l, s) := a_ops os s in (r :: l, s)
  end.

Section Refine.
Context (conf : ucmq_conf) (Hconf : conf_wf conf).
#[local] Abbreviation MAX := (MAX_DB_FILE_SIZE conf).

(** The sizes [http_opt_put] accepts. *)
Definition body_ok (body : bytes) : Prop :=
  Forall is_byte body /\ 0 < Z.of_nat (length body) <= MAX - DB_FILE_HEAD_LEN - MSG_HEAD_LEN.

(** The state of the store stands for the abstract queue. *)
Record refines (w : world) (q : mq_queue) (a : aqueue) : Prop := {
  ref_inv : queue_inv conf w q (a_msgs a);
  ref_unread : unread_count q = Z.of_nat (length (a_msgs a));
  ref_max : maxque q = a_max a;
  ref_delay : delay q = a_delay a;
  ref_lock : wlock q = a_lock a
}.

(** Synchronising changes nothing but the interval counter. *)
Lemma sync_step_ok w q ms :
  queue_inv conf w q ms ->
  exists v, sync_step conf (QState w q) = Ok (tt, QState w (with_sync_intv v q)).
Proof.
  intros Hinv. unfold sync_step. rewrite run_queue. cbv beta.
  assert (q = with_sync_intv (sync_intv q) q) as Eq by (by destruct q).
  destruct (0 <? sync_intv q); [|exists (sync_intv q); by rewrite <- Eq].
  destruct (sync_intv q =? 1); [|by eexists].
  eexists. unfold mq_qm_db_sync. rewrite bind_assoc, run_queue. cbv beta.
  rewrite bind_assoc. unfold sys_msync. by erewrite run_sys by reflexivity.
Qed.

Lemma push_ok w q ms item body :
  queue_inv conf w q ms -> storage_ok conf w -> cur_index (cur_wdb q) + 1 < LLONG_MAX ->
  queue_full q = false -> write_locked q (now_of w) = false ->
  msg item = PBuf body -> mlen item = Z.of_nat (length body) -> body_ok body ->
  exists item' w' q', mq_qm_push_item conf item (QState w q) =
      Ok ((QUEUE_PUT_OK, item'), QState w' q') /\
    queue_inv conf w' q' (ms ++ [(now_of w, body)]) /\
    unread_count q' = unread_count q /\ put_num q' = u64 (put_num q + 1) /\
    maxque q' = maxque q /\ delay q' = delay q /\ wlock q' = wlock q /\
    w_clock w' = w_clock w /\ w_free w' = w_free w /\
    cur_index (cur_wdb q') <= cur_index (cur_wdb q) + 1 /\
    (forall n, ready conf w q (n + 1) ->
       ready conf w' q' n /\ saved conf w' q' (ms ++ [(now_of w, body)])) /\ qname q' = qname q.
Proof using Hconf.
  intros Hinv Hst Hnext Hfull Hlock Hb Hl [Hbytes Hlen].
  pose proof (MAX_DB_FILE_SIZE_range conf Hconf). unfold DB_FILE_HEAD_LEN, MSG_HEAD_LEN in Hlen.
  unfold mq_qm_push_item. cbv zeta. rewrite run_queue, Hfull. unfold get_cur_timestamp.
  erewrite run_sys by reflexivity. fold (now_of w). rewrite Hlock.
  destruct (put_data_ok conf Hconf w q ms (with_mdelay (now_of w) (set_magic item)) body)
    as (item' & w1 & q1 & E & Hinv1 & Hk & Hpn & Hci & Htg); try done.
  { split; [apply u32_range|]. split; [done|]. unfold blen. cbn [snd]. lia. }
  { unfold DB_FILE_HEAD_LEN, MSG_HEAD_LEN. cbn [mlen with_mdelay set_magic]. lia. }
  erewrite bind_ok by exact E. cbn [negb].
  destruct (rtag_write_inv _ _ _ _ Hinv1) as (w2 & E2 & Htag & Hc2).
  erewrite bind_ok by exact E2. cbv beta.
  pose proof (tag_written_inv _ _ _ _ _ Htag Hinv1) as Hinv2.
  destruct (sync_step_ok w2 q1 _ Hinv2) as (v & E3). erewrite bind_ok by exact E3. cbv beta.
  exists item', w2, (with_sync_intv v q1). unfold write_kept in Hk.
  destruct Hk as (En&El&?&Ed&Em&?&?&Er&?&?&?). split_and!; try done.
  - by apply inv_sync_intv.
  - congruence.
  - destruct Htag as (? & ? & ? & _ & _ & ->). done.
  - intros n (Hs & Hco & Ht & Hix & Hqn). specialize (Htg Hs Hco).
    assert (settings_ok q1) as Hs1 by (unfold settings_ok; by rewrite El, Ed, Em).
    assert (count_ok q1) as Hco1 by (unfold count_ok; by rewrite Er).
    destruct (rtag_write_saved conf w1 q1 _ w2 Hconf Hinv1) as [Hsv Ets];
      [by apply (rtag_ok_inv conf w1 _ _ Hconf Hinv1)|exact E2|].
    split; [|by apply saved_sync_intv]. split_and!; [exact Hs1|exact Hco1|..].
    + change (tag_size conf w2 (with_sync_intv v q1)) with (tag_size conf w2 q1). lia.
    + cbn. lia.
    + cbn. by rewrite En.
Qed.

(** The two refusals leave everything as it was. *)
Lemma push_full w q item : queue_full q = true ->
  mq_qm_push_item conf item (QState w q) = Ok ((QUEUE_FULL, set_magic item), QState w q).
Proof. intros H. unfold mq_qm_push_item. cbv zeta. by rewrite run_queue, H. Qed.
Lemma push_locked w q item : queue_full q = false -> write_locked q (now_of w) = true ->
  mq_qm_push_item conf item (QState w q) = Ok ((QUEUE_WLOCK, set_magic item), QState w q).
Proof.
  intros H1 H2. unfold mq_qm_push_item. cbv zeta. rewrite run_queue, H1. unfold get_cur_timestamp.
  erewrite run_sys by reflexivity. fold (now_of w). by rewrite H2.
Qed.

Lemma pop_ok w q m ms item :
  queue_inv conf w q (m :: ms) -> 1 <= unread_count q -> delayed w q m.1 = false ->
  exists item' w' q', mq_qm_pop_item conf item (QState w q) =
      Ok ((QUEUE_GET_OK, item'), QState w' q') /\
    load_ptr (msg item') (mlen item') w' = Ok (m.2, w') /\ mlen item' = blen m /\
    queue_inv conf w' q' ms /\ kept w q w' q' /\ unread_count q' = u64 (unread_count q - 1) /\
    (forall n, ready conf w q (n + 1) -> ready conf w' q' n /\ saved conf w' q' ms).
Proof using Hconf.
  intros Hinv Hu Hd. unfold mq_qm_pop_item. cbv zeta. rewrite run_queue.
  rewrite (proj2 (Z.ltb_ge _ _)) by lia.
  destruct (get_data_outcome conf Hconf w q (m :: ms) (set_magic item) Hinv) as (r & s' & E & Ho).
  erewrite bind_ok by exact E. inversion Ho as [| |? ? it w1 q1 off _ Hdl Hml Hmsg Hload Hinv1 Hk Hun Htk];
    subst; [congruence|]. cbn [negb].
  destruct (rtag_write_inv _ _ _ _ Hinv1) as (w2 & E2 & Htag & Hc2).
  erewrite bind_ok by exact E2. exists it, w2, q1. split_and!; try done.
  - rewrite Hmsg in *. by eapply tag_written_load.
  - by eapply tag_written_inv.
  - destruct Htag as (? & ? & ? & _ & _ & ->). exact Hk.
  - intros n (Hs & Hco & Ht & Hix & Hqn). destruct Htk as (Hs1 & Hco1 & Hts).
    destruct Hk as (En & _ & _ & _ & _ & _ & Ew & _).
    pose proof (tag_size_nonneg conf w q _ Hinv).
    destruct (rtag_write_saved conf w1 q1 _ w2 Hconf Hinv1) as [Hsv Ets];
      [apply (rtag_ok_inv conf w1 _ _ Hconf Hinv1); auto|exact E2|].
    specialize (Hts Hs). split; [|done]. unfold ready. rewrite En, Ew. split_and!; auto; lia.
Qed.

Lemma pop_none w q ms item :
  queue_inv conf w q ms -> unread_count q = Z.of_nat (length ms) ->
  match ms with [] => True | m :: _ => delayed w q m.1 = true end ->
  exists item' w' q', mq_qm_pop_item conf item (QState w q) =
      Ok ((QUEUE_GET_END, item'), QState w' q') /\
    queue_inv conf w' q' ms /\ kept w q w' q' /\ unread_count q' = unread_count q /\
    (forall n, ready conf w q (n + 1) -> ready conf w' q' n) /\
    (saved conf w q ms -> saved conf w' q' ms).
Proof using Hconf.
  intros Hinv Hu Hd. unfold mq_qm_pop_item. cbv zeta. rewrite run_queue.
  destruct (Z.ltb_spec (unread_count q) 1) as [Hlt|Hge].
  { exists (set_magic item), w, q. split_and!; try done. intros n (? & ? & ? & ? & ?). unfold ready. split_and!; done || lia. }
  destruct ms as [|m ms]; [simpl in Hu; lia|].
  destruct (get_data_outcome conf Hconf w q (m :: ms) (set_magic item) Hinv) as (r & s' & E & Ho).
  erewrite bind_ok by exact E. inversion Ho as [|? ? ? ? ? ? ? Hk ? (Hs1 & Hco1 & Hts)|]; subst; [|congruence].
  cbn [negb]. pose proof (tag_size_nonneg conf w q _ Hinv). eexists _, _, _. split_and!; try done.
  intros n (Hs & Hco & Ht & Hix & Hqn). specialize (Hts Hs).
  destruct Hk as (En & _ & _ & _ & _ & _ & Ew & _). unfold ready. rewrite En, Ew. split_and!; auto; lia.
Qed.

(** ** Each operation answers as the abstract queue *)
Definition in_bounds (q : mq_queue) (a : aqueue) (n : Z) : Prop :=
  cur_index (cur_wdb q) + n < LLONG_MAX /\ Z.of_nat (length (a_msgs a)) + n < LLONG_MAX.

Definition op_ok (o : op) : Prop :=
  match o with OpPut body => body_ok body | _ => True end.

(** The settings the HTTP handlers pass are [uint32_t]. *)
Definition op_range (o : op) : Prop :=
  match o with OpMaxqueue v | OpDelay v => 0 <= v <= UINT_MAX | _ => True end.

(** A restart finds the messages if the tag has been written since the queue was
    made; [b] says that it has, [n] is the number of operations to come. *)
Definition lasting (w : world) (q : mq_queue) (a : aqueue) (b : bool) (n : Z) : Prop :=
  ready conf w q n /\ (b = true -> saved conf w q (a_msgs a)).

(** The operations that write the tag. *)
Definition settles (o : op) (r : answer) : bool :=
  match o, r with
  | OpPut _, AnsPut r => bool_decide (r = QUEUE_PUT_OK)
  | OpGet, AnsGet r => bool_decide (is_Some r)
  | (OpMaxqueue _ | OpDelay _ | OpWlock _), _ => true
  | _, _ => false
  end.

(** The result of an operation that refines the abstract one. *)
Definition simulates (w : world) (q : mq_queue) (o : op) (a : aqueue) (n : Z) : Prop :=
  exists w' q' r a', run_op conf o (QState w q) = Ok (r, QState w' q') /\
    a_op o (w_clock w, a) = (r, (w_clock w', a')) /\ refines w' q' a' /\
    w_free w' = w_free w /\ in_bounds q' a' n /\ qname q' = qname q /\
    (forall b, op_range o -> lasting w q a b (n + 1) -> lasting w' q' a' (b || settles o r) n).

Lemma ready_weaken w q n : ready conf w q (n + 1) -> ready conf w q n.
Proof using. intros (? & ? & ? & ? & ?). unfold ready. split_and!; done || lia. Qed.

Lemma lasting_weaken w q a b b' n : (b' = true -> b = true) -> lasting w q a b (n + 1) -> lasting w q a b' n.
Proof using. intros Hb [Hr Hs]. split; [by apply ready_weaken|auto]. Qed.

Lemma lasting_saved w q a b n : durable conf w q (a_msgs a) n -> lasting w q a b n.
Proof using. intros [? ?]. by split. Qed.

Lemma full_agrees w q a n : refines w q a -> in_bounds q a n -> 0 < n -> queue_full q = a_full a.
Proof using.
  intros [_ Hu Hm _ _] [_ Hb] Hn. unfold queue_full, a_full. unfold LLONG_MAX in Hb.
  by rewrite Hm, Hu, u64_small by lia.
Qed.

Lemma put_simulates w q body a n :
  refines w q a -> storage_ok conf w -> in_bounds q a (n + 1) -> 0 <= n -> body_ok body ->
  simulates w q (OpPut body) a n.
Proof using Hconf.
  intros Href Hst Hb Hn Hbody. pose proof (full_agrees w q a (n + 1) Href Hb ltac:(lia)) as Hfull.
  pose proof Href as [Hinv Hu Hm Hd Hl]. unfold simulates, in_bounds, LLONG_MAX in *. cbn [run_op a_op]. unfold run_put, a_push. fold (now_of w).
  assert (write_locked q (now_of w) = a_locked (now_of w) a) as Hlock
    by (unfold write_locked, a_locked; by rewrite Hl).
  destruct (a_full a) eqn:Ef.
  { exists w, q, (AnsPut QUEUE_FULL), a. erewrite bind_ok by (by apply push_full).
    split_and!; try done; [lia..|]. intros b _. apply lasting_weaken. by rewrite orb_false_r. }
  destruct (a_locked (now_of w) a) eqn:El.
  { exists w, q, (AnsPut QUEUE_WLOCK), a. erewrite bind_ok by (by apply push_locked).
    split_and!; try done; [lia..|]. intros b _. apply lasting_weaken. by rewrite orb_false_r. }
  destruct (push_ok w q (a_msgs a) (MsgItem 0 0 0 0 (Z.of_nat (length body)) (PBuf body)) body)
    as (it & w' & q' & E & Hinv' & Hu' & Hp' & Hm' & Hd' & Hl' & Hc' & Hf' & Hci & Hdur & Hq'); try done.
  { unfold LLONG_MAX. lia. }
  eexists w', (with_unread (u64 (unread_count q' + 1)) q'), _, _.
  erewrite bind_ok by exact E. split_and!; [done|by rewrite Hc'| |done|cbn; lia| |exact Hq'|].
  - split; cbn; [by apply inv_unread| |congruence..].
    rewrite Hu', Hu, length_app. simpl. rewrite u64_small by lia. lia.
  - cbn. rewrite length_app. simpl. lia.
  - intros b _ [Hr _]. destruct (Hdur n Hr) as [Hr' Hs']. split; [exact Hr'|intros _; by apply saved_unread].
Qed.

Lemma delayed_agrees w q a t : refines w q a ->
  delayed w q t = negb (a_delay a =? 0) && (u32 (now_of w - t) <? a_delay a).
Proof using.
  intros [_ _ _ Hd _]. unfold delayed, now_of. rewrite Hd. unfold u32.
  by rewrite Zminus_mod_idemp_l.
Qed.

Lemma get_simulates w q a n :
  refines w q a -> in_bounds q a n -> 0 <= n -> simulates w q OpGet a n.
Proof using Hconf.
  intros Href Hb Hn. pose proof Href as [Hinv Hu Hm Hd Hl]. unfold simulates, in_bounds, LLONG_MAX in *. cbn [run_op a_op]. unfold run_get, a_pop. fold (now_of w).
  assert (match a_msgs a with [] => True | m :: _ => delayed w q m.1 = true end ->
    exists w' q' a', (let! '(r, item) := mq_qm_pop_item conf msg_item_uninit in
      match r with
      | QUEUE_GET_OK => let! body := sys (load_ptr (msg item) (mlen item)) in ret (AnsGet (Some body))
      | _ => ret (AnsGet None)
      end) (QState w q) = Ok (AnsGet None, QState w' q') /\ a' = a /\ w_clock w' = w_clock w /\
      refines w' q' a' /\ w_free w' = w_free w /\ cur_index (cur_wdb q') + n < 9223372036854775807 /\
      Z.of_nat (length (a_msgs a')) + n < 9223372036854775807 /\ qname q' = qname q /\
      (forall b, True -> lasting w q a b (n + 1) -> lasting w' q' a' (b || false) n)) as Hnone.
  { intros H. destruct (pop_none w q (a_msgs a) msg_item_uninit Hinv Hu H)
      as (it & w' & q' & E & Hinv' & (Eq&?&?&?&?&?&Ew&?&?) & Hu' & Hr' & Hs').
    exists w', q', a. erewrite bind_ok by exact E. rewrite Ew.
    split_and!; try done; [|lia..|]; [split; congruence || done|].
    intros b _ [Hr Hs]. rewrite orb_false_r. split; auto. }
  destruct (a_msgs a) as [|m ms] eqn:Ems.
  { destruct (Hnone I) as (w' & q' & ? & E & -> & Ec & ? & ? & ? & ? & ? & ?).
    exists w', q', (AnsGet None), a. by rewrite Ec. }
  rewrite <- (delayed_agrees w q a) by done. destruct (delayed w q m.1) eqn:Edl.
  { destruct (Hnone eq_refl) as (w' & q' & ? & E & -> & Ec & ? & ? & ? & ? & ? & ?).
    exists w', q', (AnsGet None), a. by rewrite Ec. }
  destruct (pop_ok w q m ms msg_item_uninit Hinv) as
    (it & w' & q' & E & Hload & Hml & Hinv' & (?&?&?&?&?&?&Ew&Ec&?) & Hu' & Hdur); [simpl in Hu; lia|done|].
  eexists w', q', _, _. erewrite bind_ok by exact E.
  cbv beta iota. erewrite run_sys by exact Hload. rewrite Ew, Ec. simpl in Hu, Hb.
  split_and!; try done; cbn [a_msgs]; [|lia..|intros b _ [Hr _]; apply lasting_saved; by apply Hdur].
  split; cbn; try congruence. rewrite Hu', Hu, u64_small by lia. lia.
Qed.

(** A setting is stored and the tag is written. *)
Lemma setting_simulates w q q' a' n :
  queue_inv conf w q' (a_msgs a') -> unread_count q' = Z.of_nat (length (a_msgs a')) ->
  maxque q' = a_max a' -> delay q' = a_delay a' -> wlock q' = a_lock a' ->
  in_bounds q' a' n -> qname q' = qname q -> cur_rdb q' = cur_rdb q -> cur_wdb q' = cur_wdb q ->
  exists w' q2, (let! _ := mq_sm_rtag_write_item in ret true) (QState w q') =
    Ok (true, QState w' q2) /\ w_clock w' = w_clock w /\ refines w' q2 a' /\
    w_free w' = w_free w /\ in_bounds q2 a' n /\ qname q2 = qname q /\
    (settings_ok q' -> ready conf w q (n + 1) -> lasting w' q2 a' true n).
Proof using Hconf.
  intros Hinv Hu Hm Hd Hl Hb Eq Er Ew. destruct (rtag_write_inv _ _ _ _ Hinv) as (w' & E & Htag & Hc).
  exists w', q'. erewrite bind_ok by exact E. split_and!; try done.
  - split; try done. by eapply tag_written_inv.
  - destruct Htag as (? & ? & ? & _ & _ & ->). done.
  - intros Hs (_ & Hco & Ht & Hix & Hqn). assert (count_ok q') as Hco' by (unfold count_ok; by rewrite Er).
    destruct (rtag_write_saved conf w q' _ w' Hconf Hinv) as [Hsv Ets];
      [by apply (rtag_ok_inv conf w _ _ Hconf Hinv)|exact E|].
    split; [|by intros _]. unfold ready. rewrite Ets, Ew, Eq. split_and!; try done; [|lia].
    unfold tag_size, tag_file, rtag_path in *. rewrite Eq, Er. lia.
Qed.

Lemma op_simulates w q o a n :
  refines w q a -> storage_ok conf w -> in_bounds q a (n + 1) -> 0 <= n -> op_ok o ->
  simulates w q o a n.
Proof using Hconf.
  intros Href Hst Hb Hn Ho. assert (in_bounds q a n) as Hb' by (unfold in_bounds in *; lia).
  pose proof Href as [Hinv Hu Hm Hd Hl]. destruct o as [body| |t|v|v|v].
  - by apply put_simulates.
  - by apply get_simulates.
  - exists (set_clock (w_clock w + t) w), q, AnsDone, a.
    split_and!; try done; [|apply Hb'..|]; [split; try done; by apply inv_clock|].
    intros b _ [Hr Hs]. rewrite orb_false_r. split; [by apply ready_weaken|]. intros Hb2. by apply saved_clock, Hs.
  - destruct (setting_simulates w q (with_maxque v q)
      (AQueue (a_msgs a) v (a_delay a) (a_lock a)) n) as (w' & q' & E & Ec & Hr & Hf & Hi & Hq & Hdur);
      try done; [by apply inv_maxque|].
    eexists w', q', _, _. cbn [run_op a_op]. unfold mq_qm_set_maxqueue. rewrite bind_assoc.
    rewrite run_update. erewrite bind_ok by exact E. rewrite Ec. split_and!; try done.
    intros b Hv [Hrd _]. rewrite orb_true_r. apply Hdur; [|exact Hrd]. by destruct Hrd as ((? & ? & ?) & _).
  - destruct (setting_simulates w q (with_delay v q)
      (AQueue (a_msgs a) (a_max a) v (a_lock a)) n) as (w' & q' & E & Ec & Hr & Hf & Hi & Hq & Hdur);
      try done; [by apply inv_delay|].
    eexists w', q', _, _. cbn [run_op a_op]. unfold mq_qm_set_delay. rewrite bind_assoc.
    rewrite run_update. erewrite bind_ok by exact E. rewrite Ec. split_and!; try done.
    intros b Hv [Hrd _]. rewrite orb_true_r. apply Hdur; [|exact Hrd]. by destruct Hrd as ((? & ? & ?) & _).
  - set (v' := if v =? UINT_MAX then -1 else if v =? 0 then 0 else i32 (i32 (w_clock w) + v)).
    destruct (setting_simulates w q (with_wlock v' q)
      (AQueue (a_msgs a) (a_max a) (a_delay a) v') n) as (w' & q' & E & Ec & Hr & Hf & Hi & Hq & Hdur);
      try done; [by apply inv_wlock|].
    eexists w', q', _, _. cbn [run_op a_op]. unfold mq_qm_set_wlock. rewrite bind_assoc.
    erewrite bind_ok; cycle 1.
    { instantiate (1 := QState w (with_wlock v' q)). instantiate (1 := tt).
      unfold v'. destruct (v =? UINT_MAX); [done|]. destruct (v =? 0); [done|].
      unfold get_cur_timestamp. by erewrite run_sys by reflexivity. }
    erewrite bind_ok by exact E. rewrite Ec. split_and!; try done.
    intros b _ [Hrd _]. rewrite orb_true_r. apply Hdur; [|exact Hrd].
    destruct Hrd as ((? & ? & ?) & _). split; [done|]. split; [done|]. cbn.
    unfold v', INT_MAX. destruct (v =? UINT_MAX); [lia|]. destruct (v =? 0); [lia|].
    pose proof (i32_range (i32 (w_clock w) + v)). lia.
Qed.
End Refine.

(** ** A new queue is empty *)
Section Create.
Context (conf : ucmq_conf) (Hconf : conf_wf conf).
#[local] Abbreviation MAX := (MAX_DB_FILE_SIZE conf).

(** Nothing of the queue [qn] exists yet, and its directory can be made. *)
Record fresh_queue (w : world) (qn : bytes) : Prop := {
  fr_wf : world_wf w;
  fr_faults : w_faults w = [];
  fr_name : path_fits conf qn /\ (slash ∉ qn) /\ (length qn <= MAX_QUEUE_NAME_LEN)%nat;
  fr_dir : (queue_dir conf qn ∉ w_dirs w) /\ w_names w !! queue_dir conf qn = None;
  fr_parent : dir_exists w (data_file_path conf) = true;
  fr_files name : slash ∉ name ->
    (in_queue conf qn name ∉ w_dirs w) /\ w_names w !! in_queue conf qn name = None
}.

Definition with_dir (w : world) (dir : bytes) : world := set_dirs ({[dir]} ∪ w_dirs w) w.

Lemma in_queue_not_dir qn name : in_queue conf qn name <> queue_dir conf qn.
Proof using.
  unfold in_queue. intros E. apply (f_equal length) in E. rewrite length_app in E. simpl in E. lia.
Qed.

Lemma mkdir_fresh w qn : fresh_queue w qn ->
  sys_mkdir (queue_dir conf qn) w = Ok (MKDIR_OK, with_dir w (queue_dir conf qn)).
Proof using.
  intros [Hwf Hnf (Hfit & Hsl & Hlen) [Hd Hn] Hp Hf].
  unfold sys_mkdir, pick_fault, bind, ret. rewrite Hnf.
  rewrite bool_decide_false by (rewrite Hn; intros [?|[? ?]]; done).
  replace (dirname (queue_dir conf qn)) with (data_file_path conf)
    by (symmetry; by apply dirname_child). by rewrite Hp.
Qed.

Lemma wf_with_dir w dir : world_wf w -> world_wf (with_dir w dir).
Proof using. by intros []; split. Qed.

(** The world after the two files were opened. *)
Lemma creat_files w qn :
  fresh_queue w qn ->
  let n := w_next w in
  let w1 := with_dir w (queue_dir conf qn) in
  let w2 := created w1 (in_queue conf qn (rtag_name 1)) false true in
  let w3 := fresh_db conf w2 (in_queue conf qn (db_name 1)) in
  sys_open (in_queue conf qn (rtag_name 1)) true false true w1 = Ok (n, w2) /\
  mq_sm_open_db_file conf (in_queue conf qn (db_name 1)) FOPEN_FLAG_CREATE w2
    = Ok ((n + 2, n + 4), w3) /\
  world_wf w2 /\ world_wf w3.
Proof using Hconf.
  intros Hfr n w1 w2 w3. pose proof Hfr as [Hwf Hnf (Hfit & Hsl & Hlen) [Hd Hn] Hp Hf].
  destruct (Hf _ (slash_not_rtag 1)) as [Hrd Hrn]. destruct (Hf _ (slash_not_db 1)) as [Hdd Hdn].
  assert (forall name, slash ∉ name -> dirname (in_queue conf qn name) = queue_dir conf qn) as Hdn'
    by (intros name H; by apply dirname_child).
  assert (forall name, slash ∉ name -> in_queue conf qn name ∉ w_dirs w1) as Hnd.
  { intros name H. unfold w1, with_dir. cbn. rewrite not_elem_of_union, not_elem_of_singleton.
    split; [apply in_queue_not_dir|by apply Hf]. }
  assert (world_wf w2) as Hwf2 by (apply wf_created; [by apply wf_with_dir|exact Hrn]).
  assert (w_names w2 !! in_queue conf qn (db_name 1) = None) as Hn2.
  { cbn. rewrite lookup_insert_ne; [exact Hdn|]. intros E%in_queue_inj. by apply rtag_db_names in E. }
  split_and!.
  - apply sys_open_new; [done|by apply Hnd, slash_not_rtag|exact Hrn|].
    rewrite Hdn' by apply slash_not_rtag. unfold dir_exists. apply bool_decide_true. right.
    unfold w1, with_dir. cbn. set_solver.
  - change (n + 4) with (n + (2 + 2)). rewrite Z.add_assoc.
    apply (open_db_create conf Hconf w2); try done; [by apply Hnd, slash_not_db|].
    rewrite Hdn' by apply slash_not_db. unfold dir_exists. apply bool_decide_true. right.
    unfold w2, w1, with_dir. cbn. set_solver.
  - done.
  - by apply wf_fresh_db.
Qed.

(** The queue structure after [mq_sm_creat_db] and [init_queue]. *)
Definition new_queue (qn : bytes) (n : Z) : mq_queue :=
  MqQueue qn n 0 0 (def_delay conf) (def_max_queue conf) 0 0 0
    (MqDbMap (n + 2) 0 1 (n + 4) DB_FILE_HEAD_LEN 0 1)
    (MqDbMap (n + 2) 0 1 (n + 4) DB_FILE_HEAD_LEN 0 1).

Lemma new_queue_inv w qn :
  fresh_queue w qn ->
  let n := w_next w in
  queue_inv conf (fresh_db conf (created (with_dir w (queue_dir conf qn))
    (in_queue conf qn (rtag_name 1)) false true) (in_queue conf qn (db_name 1)))
    (new_queue qn n) [].
Proof using Hconf.
  intros Hfr n. destruct (creat_files w qn Hfr) as (_ & _ & Hwf2 & Hwf3).
  pose proof Hfr as [Hwf Hnf (Hfit & Hsl & Hlen) [Hd Hn] Hp Hf].
  pose proof (MAX_DB_FILE_SIZE_range conf Hconf). pose proof (wf_next _ Hwf).
  split; try done.
  - split_and!; cbn.
    + set_solver.
    + intros i Hi. rewrite !not_elem_of_union, !not_elem_of_singleton.
      split; (split; [apply in_queue_not_dir|]); apply Hf;
        [apply slash_not_db|apply slash_not_rtag].
    + intros i Hi. rewrite lookup_insert_ne, lookup_insert_ne; [by apply Hf, slash_not_db|..].
      * intros E%in_queue_inj. by apply rtag_db_names in E.
      * intros E%in_queue_inj%db_name_inj; lia.
    + intros i Hi. rewrite lookup_insert_ne, lookup_insert_ne; [by apply Hf, slash_not_rtag|..].
      * intros E%in_queue_inj. apply app_inv_head, pad_inj in E; lia.
      * intros E%in_queue_inj. by eapply rtag_db_names.
  - exists (Ofd (n + 1) 0 false true), (File 0 ∅). split; [split; [|done]|].
    + unfold fd_file. cbn. fold n. rewrite lookup_insert_ne, lookup_insert_eq by lia. cbn.
      by rewrite lookup_insert_ne, lookup_insert_eq by lia.
    + cbn. rewrite lookup_insert_ne, lookup_insert_eq; [done|].
      intros E%in_queue_inj. by eapply rtag_db_names.
  - cbn. unfold DB_FILE_HEAD_LEN. lia.
  - exists (n + 3), (fresh_data conf). split_and!; [split_and!; [split_and!|..]|..]; cbn; fold n.
    + rewrite lookup_insert_eq. f_equal. lia.
    + replace (n + 3) with (n + 2 + 1) by lia. by rewrite lookup_insert_eq.
    + apply fresh_data_bytes.
    + replace (n + 4) with (n + 2 + 2) by lia. rewrite lookup_insert_eq. do 2 f_equal. lia.
    + lia.
    + lia.
    + apply fresh_data_clean.
    + left. split_and!; try done. apply pending_nil.
  - split.
    + intros name ino Hs. cbn. rewrite lookup_insert_Some.
      intros [[E%in_queue_inj _]|[_ [[E%in_queue_inj _]|[_ H']]%lookup_insert_Some]].
      * right. exists 1. split; [lia|done].
      * by left.
      * destruct (Hf name Hs) as [_ H'']. congruence.
    + intros o f [Ho Hi]%fd_file_fds. cbn in Ho, Hi. fold n in Ho, Hi.
      rewrite lookup_insert_ne, lookup_insert_eq in Ho by lia. injection Ho as <-. cbn in Hi.
      rewrite lookup_insert_ne, lookup_insert_eq in Hi by lia. injection Hi as <-.
      split; [done|by right].
Qed.

Lemma creat_db_run w qn :
  fresh_queue w qn -> storage_ok conf w ->
  exists w' q', mq_sm_creat_db conf (QState w (with_qname qn mq_queue_zero)) = Ok (true, QState w' q') /\
    init_queue conf (QState w' q') = Ok (true, QState w' (new_queue qn (w_next w))) /\
    queue_inv conf w' (new_queue qn (w_next w)) [] /\ w_clock w' = w_clock w /\ w_free w' = w_free w /\
    (settings_ok (new_queue qn (w_next w)) -> tag_size conf w' (new_queue qn (w_next w)) = 61).
Proof using Hconf.
  intros Hfr Hst. destruct (creat_files w qn Hfr) as (Eo & Ed & Hwf2 & Hwf3).
  pose proof Hfr as [Hwf Hnf (Hfit & Hsl & Hlen) [Hd Hn] _ _]. pose proof (wf_next _ Hwf).
  pose proof (new_queue_inv w qn Hfr) as Hinv. cbv zeta in Hinv.
  set (n := w_next w) in *. set (w3 := fresh_db conf _ _) in *.
  destruct (inv_rtag _ _ _ _ Hinv) as (o & f & Hnb & Hname).
  (* the tag is written while the positions are still zero *)
  set (q1 := with_delay (def_delay conf) (with_maxque (def_max_queue conf)
    (with_wdb (with_map_mem (n + 4)) (with_wdb (with_fd (n + 2))
      (with_rtag_fd n (with_qname qn mq_queue_zero)))))).
  exists (wrote w3 n o f (rtag_line q1)). eexists. split_and!.
  - unfold mq_sm_creat_db. rewrite run_queue. cbv beta zeta. cbn [qname with_qname].
    rewrite queue_path_eq, rtag_path_eq, db_path_eq by (done || lia).
    unfold get_storage_free, sys_statfs_free. erewrite run_sys by reflexivity.
    rewrite (proj2 (Z.ltb_ge _ _)) by exact Hst.
    erewrite run_sys by (unfold sys_access, gets; rewrite bool_decide_false
      by (rewrite Hn; intros [?|[? ?]]; done); reflexivity).
    cbv beta iota. erewrite bind_ok by reflexivity. erewrite run_sys by (by apply mkdir_fresh).
    cbv beta iota zeta. erewrite run_sys by exact Eo. run_q.
    rewrite (proj2 (Z.ltb_ge _ 0)) by lia. erewrite run_sys by exact Ed. cbv beta iota.
    run_q. rewrite (proj2 (Z.eqb_neq _ 0)) by lia. run_q.
    erewrite bind_ok by (apply (rtag_write_any w3 _ o f); [exact Hnb|exact Hnf]).
    cbv beta. run_q. reflexivity.
  - unfold init_queue. run_q. reflexivity.
  - eapply tag_written_inv; [|exact Hinv]. by exists o, f, (rtag_line q1).
  - done.
  - done.
  - intros (Hm & Hd' & Hl). assert (length (rtag_line q1) = 61%nat) as Hlen1.
    { apply (length_rtag_line conf Hconf). pose proof (MAX_DB_FILE_SIZE_range conf Hconf).
      split_and!; first [apply Hm|apply Hd'|by apply Z.quot_pos; [lia|unfold MSG_HEAD_LEN; lia]|cbn; unfold INT_MAX; lia]. }
    set (line := rtag_line q1) in *. clearbody line.
    pose proof Hnb as [Hfd _]. apply fd_file_fds in Hfd as [Ho Hi].
    cbn in Ho. rewrite lookup_insert_ne, lookup_insert_eq in Ho by (cbn; lia). injection Ho as <-.
    unfold tag_size, tag_file. change (rtag_path conf (new_queue qn n) (cur_index (cur_rdb (new_queue qn n))))
      with (in_queue conf qn (rtag_name 1)). cbn. rewrite lookup_insert_ne, lookup_insert_eq.
    + rewrite lookup_insert_eq. cbn in Hi. rewrite lookup_insert_ne, lookup_insert_eq in Hi by lia.
      injection Hi as <-. cbn. rewrite Hlen1. reflexivity.
    + intros E%in_queue_inj. by eapply rtag_db_names.
Qed.

(** Nothing but its creation is in the files of a new queue. *)
Lemma new_queue_ready w q a n : settings_ok q -> count_ok q -> tag_size conf w q = 61 ->
  cur_index (cur_wdb q) = 1 -> (length (qname q) <= MAX_QUEUE_NAME_LEN)%nat ->
  61 + 122 * n < 2147483587 -> 1 + n < MAX_INDEX -> lasting conf w q a false n.
Proof using.
  intros Hs Hc Ht Hi Hq Hn Hx. split; [|done]. unfold ready. rewrite Ht, Hi. by split_and!.
Qed.
End Create.

(** The settings that a new queue gets have values of their C type. *)
Definition defaults_ok (conf : ucmq_conf) : Prop :=
  0 <= def_max_queue conf <= UINT_MAX /\ 0 <= def_delay conf <= UINT_MAX.

(** The names and the tag of a new queue can take [n] operations. *)
Definition room_ok (n : Z) : Prop := 61 + 122 * n < 2147483587 /\ 1 + n < MAX_INDEX.

Lemma add_queue_run s qn :
  conf_wf (g_mq_conf s) -> fresh_queue (g_mq_conf s) (st_w s) qn ->
  storage_ok (g_mq_conf s) (st_w s) ->
  Z.of_nat (length (g_mq_qlist s)) < max_qlist_itmes (g_mq_conf s) ->
  exists w q,
    mq_qm_add_queue qn s =
      Ok (Some qn, Store w (g_mq_conf s) (g_mq_qlist s ++ [(qn, q)])) /\
    refines (g_mq_conf s) w q
      (AQueue [] (def_max_queue (g_mq_conf s)) (def_delay (g_mq_conf s)) 0) /\
    w_clock w = w_clock (st_w s) /\ w_free w = w_free (st_w s) /\ cur_index (cur_wdb q) = 1 /\
    qname q = qn /\
    (forall a n, defaults_ok (g_mq_conf s) -> room_ok n -> lasting (g_mq_conf s) w q a false n).
Proof.
  intros Hc Hfr Hst Hmax. destruct s as [w conf l]. cbn [st_w g_mq_conf g_mq_qlist] in *.
  destruct (creat_db_run conf Hc w qn Hfr Hst) as (w' & q' & E1 & E2 & Hinv & Hck & Hf & Ht).
  pose proof (fr_name _ _ _ Hfr) as (_ & _ & Hlen).
  exists w', (new_queue conf qn (w_next w)). split.
  - unfold mq_qm_add_queue, hash_get_queue_num, gets, bind at 1 2. cbn [g_mq_qlist g_mq_conf].
    rewrite (proj2 (Z.leb_gt _ _)) by done. rewrite take_ge by done.
    erewrite bind_ok; cycle 1.
    { unfold on_local. cbn [g_mq_conf st_w]. rewrite E1. reflexivity. }
    cbv beta iota. cbn [negb]. erewrite bind_ok; cycle 1.
    { unfold on_local. cbn [g_mq_conf st_w]. rewrite E2. reflexivity. }
    cbv beta iota. apply hash_add_run; [apply (inv_faults _ _ _ _ Hinv)|done].
  - split_and!; try done. intros a n (Hm & Hd) [Hn Hx].
    assert (settings_ok (new_queue conf qn (w_next w))) as Hs by (split_and!; cbn; unfold INT_MAX; lia).
    apply new_queue_ready; auto. split; cbn; unfold DB_FILE_HEAD_LEN; lia.
Qed.

(** ** Sequences of operations *)
Lemma ops_run conf os w q a :
  conf_wf conf -> storage_ok conf w -> refines conf w q a ->
  in_bounds q a (Z.of_nat (length os)) -> Forall (op_ok conf) os ->
  exists w' q' l a',
    run_ops conf os (QState w q) = Ok (l, QState w' q') /\
    a_ops os (w_clock w, a) = (l, (w_clock w', a')) /\ refines conf w' q' a' /\ qname q' = qname q /\
    (Forall op_range os -> durable conf w q (a_msgs a) (Z.of_nat (length os)) ->
     durable conf w' q' (a_msgs a') 0).
Proof.
  intros Hc. revert w q a. induction os as [|o os IH]; intros w q a Hst Href Hb Hok.
  - exists w, q, [], a. done.
  - apply Forall_cons in Hok as [Ho Hok].
    destruct (op_simulates conf Hc w q o a (Z.of_nat (length os)) Href Hst)
      as (w1 & q1 & r & a1 & E & Ea & Href1 & Hf & Hb1 & Hq1 & Hd1); [|lia|done|].
    { unfold in_bounds in *. simpl length in Hb. lia. }
    destruct (IH w1 q1 a1) as (w2 & q2 & l & a2 & E2 & Ea2 & Href2 & Hq2 & Hd2); try done.
    { unfold storage_ok. by rewrite Hf. }
    exists w2, q2, (r :: l), a2. split_and!; [|cbn [a_ops]; by rewrite Ea, Ea2|done|congruence|].
    + cbn [run_ops]. erewrite bind_ok by exact E. by erewrite bind_ok by exact E2.
    + intros [Hr Hrs]%Forall_cons [Hd Hsv]. apply Hd2; [done|].
      replace (Z.of_nat (length (o :: os))) with (Z.of_nat (length os) + 1) in Hd by (simpl length; lia).
      destruct (Hd1 true Hr) as [? Hs1]; [by split|]. split; auto.
Qed.

(** ** The properties *)

(** C2: the store is a FIFO queue: from a state that stands for the abstract
    queue [a], every sequence of puts, gets, settings and passing time runs
    without a fault, over as many data files as it fills, and gives the answers
    of the abstract queue, which gives the bodies in the order of the puts. *)
Theorem fifo_refinement conf os w q a :
  conf_wf conf -> storage_ok conf w -> refines conf w q a ->
  in_bounds q a (Z.of_nat (length os)) -> Forall (op_ok conf) os ->
  exists w' q' l a',
    run_ops conf os (QState w q) = Ok (l, QState w' q') /\
    a_ops os (w_clock w, a) = (l, (w_clock w', a')) /\ refines conf w' q' a'.
Proof.
  intros Hc Hst Href Hb Hok.
  destruct (ops_run conf os w q a Hc Hst Href Hb Hok) as (w' & q' & l & a' & E & Ea & Hr & _).
  by exists w', q', l, a'.
Qed.

(** [mq_qm_add_queue] makes an empty queue: when nothing of that name
    exists, the table is not full and the disk has room, it adds one node for
    the name, whose files stand for the empty queue with the default limit and
    delay and no write lock. *)
Theorem add_queue_refines s qn :
  conf_wf (g_mq_conf s) -> fresh_queue (g_mq_conf s) (st_w s) qn ->
  storage_ok (g_mq_conf s) (st_w s) ->
  Z.of_nat (length (g_mq_qlist s)) < max_qlist_itmes (g_mq_conf s) ->
  exists w q,
    mq_qm_add_queue qn s =
      Ok (Some qn, Store w (g_mq_conf s) (g_mq_qlist s ++ [(qn, q)])) /\
    refines (g_mq_conf s) w q
      (AQueue [] (def_max_queue (g_mq_conf s)) (def_delay (g_mq_conf s)) 0).
Proof.
  intros Hc Hfr Hst Hmax. destruct (add_queue_run s qn Hc Hfr Hst Hmax) as (w & q & E & Hr & _).
  by exists w, q.
Qed.

(** [mq_qm_push_item], branch by branch: a full queue and a write locked
    queue refuse with nothing changed; otherwise the message is appended with
    the time as its stamp, and [put_num] grows. *)
Theorem push_item_spec conf w q ms item body :
  conf_wf conf -> queue_inv conf w q ms -> storage_ok conf w ->
  cur_index (cur_wdb q) + 1 < LLONG_MAX ->
  msg item = PBuf body -> mlen item = Z.of_nat (length body) -> body_ok conf body ->
  exists r item' w' q', mq_qm_push_item conf item (QState w q) = Ok ((r, item'), QState w' q') /\
    (queue_full q = true -> r = QUEUE_FULL /\ w' = w /\ q' = q) /\
    (queue_full q = false -> write_locked q (now_of w) = true ->
       r = QUEUE_WLOCK /\ w' = w /\ q' = q) /\
    (queue_full q = false -> write_locked q (now_of w) = false ->
       r = QUEUE_PUT_OK /\ queue_inv conf w' q' (ms ++ [(now_of w, body)]) /\
       put_num q' = u64 (put_num q + 1) /\ unread_count q' = unread_count q).
Proof.
  intros Hc Hinv Hst Hnext Hb Hl Hok. destruct (queue_full q) eqn:Ef.
  { eexists _, _, w, q. split; [by apply push_full|]. done. }
  destruct (write_locked q (now_of w)) eqn:El.
  { eexists _, _, w, q. split; [by apply push_locked|]. done. }
  destruct (push_ok conf Hc w q ms item body) as (it & w' & q' & E & Hinv' & Hu & Hp & _); try done.
  by exists QUEUE_PUT_OK, it, w', q'.
Qed.

(** [mq_qm_pop_item] on a queue whose counter agrees with its files: an
    empty queue, and a first message younger than the delay, answer
    [QUEUE_GET_END] and keep the contents; otherwise the pointer returned leads
    to the body of the first message, which leaves the queue. *)
Theorem pop_item_spec conf w q ms item :
  conf_wf conf -> queue_inv conf w q ms -> unread_count q = Z.of_nat (length ms) ->
  Z.of_nat (length ms) < LLONG_MAX ->
  exists r item' w' q', mq_qm_pop_item conf item (QState w q) = Ok ((r, item'), QState w' q') /\
    match ms with
    | [] => r = QUEUE_GET_END /\ queue_inv conf w' q' []
    | m :: ms' =>
        if delayed w q m.1
        then r = QUEUE_GET_END /\ queue_inv conf w' q' ms /\ unread_count q' = unread_count q
        else r = QUEUE_GET_OK /\ mlen item' = blen m /\
             load_ptr (msg item') (mlen item') w' = Ok (m.2, w') /\
             queue_inv conf w' q' ms' /\ unread_count q' = Z.of_nat (length ms')
    end.
Proof.
  intros Hc Hinv Hu Hb. unfold LLONG_MAX in Hb. destruct ms as [|m ms].
  { destruct (pop_none conf Hc w q [] item Hinv Hu I) as (it & w' & q' & E & Hinv' & _).
    by exists QUEUE_GET_END, it, w', q'. }
  destruct (delayed w q m.1) eqn:Ed.
  - destruct (pop_none conf Hc w q (m :: ms) item Hinv Hu Ed) as (it & w' & q' & E & Hinv' & _ & Hu' & _).
    by exists QUEUE_GET_END, it, w', q'.
  - simpl in Hu, Hb. destruct (pop_ok conf Hc w q m ms item Hinv) as
      (it & w' & q' & E & Hload & Hml & Hinv' & _ & Hu' & _); [lia|done|].
    exists QUEUE_GET_OK, it, w', q'. split_and!; try done.
    rewrite Hu', Hu, u64_small by lia. lia.
Qed.

(** ** Witnesses: an empty data directory *)
Definition empty_world : world := World {[B "data"]} ∅ ∅ ∅ ∅ 1 (2 ^ 40) 1000 [].
Definition sample_store : store := Store empty_world sample_conf [].

Lemma empty_world_wf : world_wf empty_world.
Proof.
  split; cbn; [lia|intros * H; by rewrite lookup_empty in H..].
Qed.

Lemma sample_fresh : fresh_queue sample_conf empty_world (B "q").
Proof.
  split.
  - exact empty_world_wf.
  - reflexivity.
  - split_and!; decide_it.
  - split; decide_it.
  - decide_it.
  - intros name _. split; [|done]. cbn. rewrite not_elem_of_singleton.
    intros E%(f_equal length). unfold in_queue, queue_dir in E.
    rewrite !length_app in E. simpl in E. lia.
Qed.
Lemma sample_storage : storage_ok sample_conf empty_world.
Proof. unfold storage_ok. vm_compute. discriminate. Qed.

(** The store of the witnesses: the queue ["q"], just created. *)
Definition sample_queue : mq_queue := new_queue sample_conf (B "q") 1.
Definition sample_qworld : world :=
  fresh_db sample_conf (created (with_dir empty_world (queue_dir sample_conf (B "q")))
    (in_queue sample_conf (B "q") (rtag_name 1)) false true)
    (in_queue sample_conf (B "q") (db_name 1)).
Lemma sample_inv : queue_inv sample_conf sample_qworld sample_queue [].
Proof. exact (new_queue_inv sample_conf sample_conf_wf empty_world (B "q") sample_fresh). Qed.
Lemma sample_refines : refines sample_conf sample_qworld sample_queue (AQueue [] 10000 0 0).
Proof. by split; [apply sample_inv|..]. Qed.

Abbreviation sample_body := (B "a").
Lemma sample_body_ok : body_ok sample_conf sample_body.
Proof. split; [decide_it|]. vm_compute. split; [reflexivity|discriminate]. Qed.

Lemma sample_ready : ready sample_conf sample_qworld sample_queue 11.
Proof. unfold ready, settings_ok, count_ok. split_and!; first [by vm_compute|decide_it]. Qed.

(** The same queue with one message, as a restart would find it. *)
Definition sample_aqueue : aqueue := AQueue [(1000, sample_body)] 10000 0 0.
Lemma sample_one : exists w q,
  refines sample_conf w q sample_aqueue /\ storage_ok sample_conf w /\
  in_bounds q sample_aqueue 10 /\ w_clock w = 1000 /\ qname q = B "q" /\
  w_dirs w = w_dirs sample_qworld /\ durable sample_conf w q (a_msgs sample_aqueue) 10.
Proof.
  destruct (push_ok sample_conf sample_conf_wf sample_qworld sample_queue []
    (MsgItem 0 0 0 0 1 (PBuf sample_body)) sample_body sample_inv sample_storage)
    as (it & w & q & E & Hinv & Hu & _ & Hm & Hd & Hl & Hc & Hf & Hi & Hdur & Hq);
    [reflexivity..|exact sample_body_ok|].
  assert (match mq_qm_push_item sample_conf (MsgItem 0 0 0 0 1 (PBuf sample_body))
            (QState sample_qworld sample_queue) with
          | Ok (_, s) => bool_decide (w_dirs (qs_w s) = w_dirs sample_qworld)
          | _ => false
          end = true) as Ed by by vm_compute.
  rewrite E in Ed. clear E. apply bool_decide_eq_true in Ed.
  destruct (Hdur 10 sample_ready) as [Hr Hs].
  exists w, (with_unread 1 q). split_and!; [| | |exact Hc|exact Hq|exact Ed|].
  - split; try done. by apply inv_unread.
  - unfold storage_ok. rewrite Hf. exact sample_storage.
  - unfold in_bounds, LLONG_MAX. change (cur_index (cur_wdb sample_queue)) with 1 in Hi. simpl. lia.
  - split; [exact Hr|]. by apply saved_unread.
Qed.

Lemma fifo_refinement_witness : exists w' q' l a',
  run_ops sample_conf [OpPut (B "a"); OpPut (B "b"); OpGet; OpGet; OpGet]
    (QState sample_qworld sample_queue) = Ok (l, QState w' q') /\
  a_ops [OpPut (B "a"); OpPut (B "b"); OpGet; OpGet; OpGet] (1000, AQueue [] 10000 0 0)
    = (l, (w_clock w', a')) /\ refines sample_conf w' q' a'.
Proof.
  apply (fifo_refinement sample_conf [OpPut (B "a"); OpPut (B "b"); OpGet; OpGet; OpGet]
           sample_qworld sample_queue (AQueue [] 10000 0 0));
    [exact sample_conf_wf|exact sample_storage|exact sample_refines|split; reflexivity|].
  repeat constructor; try (vm_compute; discriminate); lia.
Defined.

Lemma add_queue_refines_witness : exists w q,
  mq_qm_add_queue (B "q") sample_store = Ok (Some (B "q"), Store w sample_conf [(B "q", q)]) /\
  refines sample_conf w q (AQueue [] 10000 0 0).
Proof.
  apply (add_queue_refines sample_store (B "q"));
    [exact sample_conf_wf|exact sample_fresh|exact sample_storage|reflexivity].
Defined.

Lemma push_item_spec_witness : exists r item' w' q',
  mq_qm_push_item sample_conf (MsgItem 0 0 0 0 1 (PBuf (B "a"))) (QState sample_qworld sample_queue)
    = Ok ((r, item'), QState w' q') /\
  (queue_full sample_queue = true -> r = QUEUE_FULL /\ w' = sample_qworld /\ q' = sample_queue) /\
  (queue_full sample_queue = false -> write_locked sample_queue 1000 = true ->
     r = QUEUE_WLOCK /\ w' = sample_qworld /\ q' = sample_queue) /\
  (queue_full sample_queue = false -> write_locked sample_queue 1000 = false ->
     r = QUEUE_PUT_OK /\ queue_inv sample_conf w' q' [(1000, B "a")] /\
     put_num q' = 1 /\ unread_count q' = 0).
Proof.
  apply (push_item_spec sample_conf sample_qworld sample_queue [] (MsgItem 0 0 0 0 1 (PBuf (B "a")))
           (B "a"));
    [exact sample_conf_wf|exact sample_inv|exact sample_storage|reflexivity|reflexivity|reflexivity|].
  split; [decide_it|]. vm_compute. split; [reflexivity|discriminate].
Defined.

Lemma pop_item_spec_witness : exists w q r item' w' q',
  mq_qm_pop_item sample_conf msg_item_uninit (QState w q) = Ok ((r, item'), QState w' q') /\
  r = QUEUE_GET_OK /\ mlen item' = 1 /\
  load_ptr (msg item') (mlen item') w' = Ok (sample_body, w') /\
  queue_inv sample_conf w' q' [] /\ unread_count q' = 0.
Proof.
  destruct sample_one as (w & q & [Hinv Hu _ Hd _] & _). exists w, q.
  pose proof (pop_item_spec sample_conf w q [(1000, sample_body)] msg_item_uninit
    sample_conf_wf Hinv Hu eq_refl) as H.
  unfold delayed in H. rewrite Hd in H. exact H.
Defined.
