(* ===== verification/StoreRemove.v ===== *)
(** * Removing a queue

    [delete_file] removes a directory of files; a queue that is removed leaves
    nothing behind, so that one of the same name can be made again. *)
From S2P Require Import Prelude.
From S2P Require Import CLib.
From S2P Require Import World.
From S2P Require Import MqTypes.
From S2P Require Import MqUtil.
From S2P Require Import StorePath.
From S2P Require Import StoreManage.
From S2P Require Import QueueManage.
From S2P Require Import StoreInv.
From S2P Require Import StoreWrite.
From S2P Require Import Fifo.

(** ** Paths below a directory *)
Lemma drop_name_split r : drop_name r <> [] ->
  exists name, (slash ∉ name) /\ r = name ++ slash :: drop_name r.
Proof.
  induction r as [|c r IH]; simpl; [done|]. destruct (Z.eqb_spec c slash) as [->|Hc].
  - intros _. exists []. split; [apply not_elem_of_nil|done].
  - intros Hne. destruct (IH Hne) as (name & Hs & E). exists (c :: name).
    split; [by apply not_elem_of_cons|]. simpl. by rewrite <- E.
Qed.

Lemma path_split p dir : dirname p = dir -> dir <> [] ->
  (slash ∉ basename p) /\ p = dir ++ slash :: basename p.
Proof.
  intros E Hne. unfold dirname in E.
  destruct (drop_name_split (rev p)) as (name & Hs & Er).
  { intros H. rewrite H in E. by simpl in E. }
  apply (f_equal (@rev Z)) in Er. rewrite rev_involutive, rev_app_distr in Er. simpl in Er.
  rewrite <- app_assoc in Er. simpl in Er. rewrite E in Er.
  assert (slash ∉ rev name) as Hr.
  { intros Hin. apply Hs. rewrite list_elem_of_In in *. by apply in_rev. }
  rewrite Er, basename_child by done. by split.
Qed.

(** A path that names a directory and does not end in a slash. *)
Definition dir_path (dir : bytes) : Prop := dir <> [] /\ last dir <> Some slash.

Lemma file_path_child dir name : dir_path dir -> get_file_path dir name = dir ++ slash :: name.
Proof.
  intros [_ Hl]. unfold get_file_path. rewrite bool_decide_false by done. by rewrite <- app_assoc.
Qed.
Lemma file_path_base p dir : dir_path dir -> dirname p = dir -> get_file_path dir (basename p) = p.
Proof.
  intros Hd E. destruct (path_split p dir E (proj1 Hd)) as [_ Ep].
  rewrite file_path_child by done. by rewrite <- Ep.
Qed.

(** ** Unlinking the files of a directory *)
Definition unlink (p : bytes) (w : world) : world := set_names (delete p (w_names w)) w.
Definition unlink_all (ps : list bytes) (w : world) : world := foldl (fun w p => unlink p w) w ps.

Lemma unlink_all_names ps w p :
  w_names (unlink_all ps w) !! p = if bool_decide (p ∈ ps) then None else w_names w !! p.
Proof.
  revert w. induction ps as [|q ps IH]; intros w; simpl; [done|].
  rewrite IH. cbn. destruct (bool_decide_reflect (p ∈ ps)) as [Hin|Hin].
  - rewrite bool_decide_true; [done|set_solver].
  - destruct (decide (q = p)) as [->|Hne].
    + rewrite lookup_delete_eq, bool_decide_true; [done|set_solver].
    + rewrite lookup_delete_ne, bool_decide_false; [done|set_solver|done].
Qed.
Lemma unlink_all_rest ps w :
  let w' := unlink_all ps w in
  w_dirs w' = w_dirs w /\ w_inodes w' = w_inodes w /\ w_fds w' = w_fds w /\ w_maps w' = w_maps w /\
  w_next w' = w_next w /\ w_free w' = w_free w /\ w_clock w' = w_clock w /\ w_faults w' = w_faults w.
Proof. revert w. induction ps as [|p ps IH]; intros w; simpl; [done|]. apply (IH (unlink p w)). Qed.
Lemma unlink_all_wf ps w : world_wf w -> world_wf (unlink_all ps w).
Proof.
  revert w. induction ps as [|p ps IH]; intros w Hw; simpl; [done|]. apply IH.
  by apply (wf_unlink w p tt).
Qed.

Lemma rmdir_absent p w : p ∉ w_dirs w -> sys_rmdir p w = Ok (tt, w).
Proof.
  intros Hp. unfold sys_rmdir, modify. destruct (dir_empty w p); [|done].
  replace (w_dirs w ∖ {[p]}) with (w_dirs w) by set_solver. by destruct w.
Qed.

Lemma delete_plain fuel p w : p ∉ w_dirs w ->
  (delete_file_rec (S fuel) p ;;; sys_rmdir p) w = Ok (tt, unlink p w).
Proof.
  intros Hp. cbn [delete_file_rec]. rewrite bind_assoc. unfold sys_is_file.
  erewrite bind_ok by reflexivity. destruct (bool_decide_reflect (is_Some (w_names w !! p))) as [Hs|Hn].
  - erewrite bind_ok by reflexivity. by apply rmdir_absent.
  - rewrite bind_assoc. unfold sys_is_dir. erewrite bind_ok by reflexivity.
    rewrite bool_decide_false by done. erewrite bind_ok by by apply rmdir_absent.
    rewrite rmdir_absent by done. unfold unlink. rewrite delete_id; [by destruct w|].
    by apply eq_None_not_Some.
Qed.

(** The paths the loop visits. *)
Fixpoint visited (dir : bytes) (l : list dirent) : list bytes :=
  match l with
  | [] => []
  | e :: l => if is_special_dir (d_name e) then visited dir l
              else get_file_path dir (d_name e) :: visited dir l
  end.

Lemma elem_of_visited dir l p :
  p ∈ visited dir l <-> exists e, e ∈ l /\ is_special_dir (d_name e) = false /\ p = get_file_path dir (d_name e).
Proof.
  induction l as [|e l IH]; simpl.
  - split; [by intros ?%elem_of_nil|by intros (? & ?%elem_of_nil & _)].
  - destruct (is_special_dir (d_name e)) eqn:Es; [|rewrite elem_of_cons]; rewrite IH.
    + split; [intros (e' & ? & ? & ?); exists e'; by rewrite elem_of_cons; eauto|].
      intros (e' & [->|?]%elem_of_cons & ? & ?); [congruence|eauto].
    + split.
      * intros [->|(e' & ? & ? & ?)]; [exists e|exists e']; rewrite elem_of_cons; eauto.
      * intros (e' & [->|?]%elem_of_cons & ? & ?); eauto.
Qed.

Lemma delete_each_files fuel dir l : forall w,
  Forall (fun p => p ∉ w_dirs w) (visited dir l) ->
  delete_each (delete_file_rec (S fuel)) dir l w = Ok (tt, unlink_all (visited dir l) w).
Proof.
  induction l as [|e l IH]; intros w Hp; [done|]. cbn [delete_each visited] in *.
  destruct (is_special_dir (d_name e)).
  - erewrite bind_ok by reflexivity. by apply IH.
  - apply Forall_cons in Hp as [Hp Hl]. cbv zeta. erewrite bind_ok by by apply delete_plain.
    by apply IH.
Qed.

(** A directory that holds files only, none of them named "." or "..". *)
Record files_only (w : world) (dir : bytes) : Prop := {
  fo_path : dir_path dir;
  fo_dir : (dir ∈ w_dirs w) /\ w_names w !! dir = None;
  fo_subdirs : Forall (fun d => dirname d <> dir) (elements (w_dirs w));
  fo_names : Forall (fun kv : bytes * Z => dirname kv.1 = dir -> is_special_dir (basename kv.1) = false)
               (map_to_list (w_names w))
}.

Definition dir_removed (w : world) (dir : bytes) : world :=
  let w1 := unlink_all (visited dir (dir_entries w dir)) w in
  set_dirs (w_dirs w ∖ {[dir]}) w1.

Lemma removed_free w dir : w_free (dir_removed w dir) = w_free w.
Proof.
  destruct (unlink_all_rest (visited dir (dir_entries w dir)) w) as (_ & _ & _ & _ & _ & E & _). exact E.
Qed.

Section FilesOnly.
Context (w : world) (dir : bytes) (Hfo : files_only w dir).

Lemma visited_below p : p ∈ visited dir (dir_entries w dir) -> dirname p = dir.
Proof using Hfo.
  destruct Hfo as [Hp _ Hs _]. rewrite elem_of_visited. intros (e & He & Hsp & ->).
  unfold dir_entries in He. rewrite !elem_of_cons, elem_of_app in He.
  destruct He as [->|[->|[He|He]]]; [done|done|..];
    apply list_elem_of_fmap in He as (x & -> & Hx); apply list_elem_of_filter in Hx as [Hd Hx]; cbn in *.
  - by rewrite file_path_base.
  - rewrite Forall_forall in Hs. by apply Hs in Hx.
Qed.

Lemma visited_names p i : w_names w !! p = Some i -> dirname p = dir ->
  p ∈ visited dir (dir_entries w dir).
Proof using Hfo.
  destruct Hfo as [Hp _ _ Hn]. intros E Hd. rewrite elem_of_visited.
  exists (Dirent (basename p) DT_REG). cbn. split_and!.
  - unfold dir_entries. rewrite !elem_of_cons, elem_of_app. right; right; left.
    apply list_elem_of_fmap. exists (p, i). split; [done|].
    apply list_elem_of_filter. split; [done|]. by apply elem_of_map_to_list.
  - rewrite Forall_forall in Hn. apply (Hn (p, i)); [by apply elem_of_map_to_list|done].
  - by rewrite file_path_base.
Qed.

(** Nothing is left below the directory, and all else is as it was. *)
Lemma removed_names p :
  w_names (dir_removed w dir) !! p = if bool_decide (dirname p = dir) then None else w_names w !! p.
Proof using Hfo.
  change (w_names (dir_removed w dir)) with (w_names (unlink_all (visited dir (dir_entries w dir)) w)).
  rewrite unlink_all_names.
  destruct (bool_decide_reflect (p ∈ visited dir (dir_entries w dir))) as [Hin|Hin].
  - by rewrite bool_decide_true by by apply visited_below.
  - case_bool_decide as Hd; [|done]. destruct (w_names w !! p) as [i|] eqn:E; [|done].
    exfalso. eauto using visited_names.
Qed.

Lemma delete_dir_run : delete_file dir w = Ok (tt, dir_removed w dir).
Proof using Hfo.
  pose proof Hfo as [Hp [Hd Hn] Hs Hsp]. unfold delete_file. cbn [delete_file_rec].
  unfold sys_is_file. erewrite bind_ok by reflexivity. rewrite Hn, bool_decide_false by by intros [].
  unfold sys_is_dir. erewrite bind_ok by reflexivity. rewrite bool_decide_true by done.
  unfold sys_opendir. erewrite bind_ok by reflexivity. rewrite bool_decide_true by done.
  erewrite bind_ok; cycle 1.
  { apply delete_each_files. apply Forall_forall. intros p Hin%visited_below Hpd.
    rewrite Forall_forall in Hs. eapply Hs; [by apply elem_of_elements|done]. }
  cbv beta. destruct (unlink_all_rest (visited dir (dir_entries w dir)) w) as (Ed & _).
  unfold sys_rmdir, modify. unfold dir_removed. rewrite Ed.
  replace (dir_empty _ dir) with true; [done|]. symmetry. unfold dir_empty.
  apply andb_true_iff. rewrite Ed. split; apply forallb_forall; intros x Hx; apply list_elem_of_In in Hx;
    apply negb_true_iff, bool_decide_false.
  - destruct x as [p i]. apply elem_of_map_to_list in Hx. cbn. intros Hpd.
    pose proof (removed_names p) as E.
    change (w_names (dir_removed w dir)) with (w_names (unlink_all (visited dir (dir_entries w dir)) w)) in E.
    rewrite bool_decide_true in E by done. congruence.
  - rewrite Forall_forall in Hs. by apply Hs.
Qed.
End FilesOnly.

(** ** Closing and removing a queue *)
Record same_files (w w' : world) : Prop := {
  sf_dirs : w_dirs w' = w_dirs w;
  sf_names : w_names w' = w_names w;
  sf_inodes : w_inodes w' = w_inodes w;
  sf_faults : w_faults w' = w_faults w;
  sf_free : w_free w' = w_free w;
  sf_clock : w_clock w' = w_clock w;
  sf_wf : world_wf w -> world_wf w'
}.
Lemma same_files_refl w : same_files w w.
Proof. by split. Qed.
Lemma same_files_trans w1 w2 w3 : same_files w1 w2 -> same_files w2 w3 -> same_files w1 w3.
Proof. intros [] []. split; try congruence. auto. Qed.

Lemma close_db_file_run conf m fd w :
  exists w', mq_sm_close_db_file conf m fd w = Ok (tt, w') /\ same_files w w'.
Proof.
  unfold mq_sm_close_db_file.
  assert (exists w1, (if negb (m =? 0) then let! _ := sys_msync m (MAX_DB_FILE_SIZE conf) in sys_munmap m
                      else ret tt) w = Ok (tt, w1) /\ same_files w w1) as (w1 & E1 & H1).
  { destruct (negb (m =? 0)); [|eexists; split; [done|apply same_files_refl]].
    eexists. split; [reflexivity|]. split; try done. intros Hw. by eapply wf_munmap. }
  erewrite bind_ok by exact E1. eexists. split; [reflexivity|].
  eapply same_files_trans; [exact H1|]. split; try done. intros Hw. by eapply wf_close.
Qed.

Lemma close_db_run conf w q : exists w' q',
  mq_sm_close_db conf (QState w q) = Ok (true, QState w' q') /\ same_files w w' /\ qname q' = qname q.
Proof.
  unfold mq_sm_close_db, update_rdb, update_wdb. rewrite !run_update, run_queue. cbv beta.
  set (q' := with_wdb _ _).
  assert (exists w1, (if negb (cur_index (cur_rdb q') =? cur_index (cur_wdb q'))
      then sys (mq_sm_close_db_file conf (map_mem (cur_rdb q')) (fd (cur_rdb q'))) else ret tt)
      (QState w q') = Ok (tt, QState w1 q') /\ same_files w w1) as (w1 & E1 & H1).
  { destruct (negb _); [|eexists; split; [done|apply same_files_refl]].
    destruct (close_db_file_run conf (map_mem (cur_rdb q')) (fd (cur_rdb q')) w) as (w1 & E & H1).
    exists w1. split; [|done]. by apply sys_ok. }
  erewrite bind_ok by exact E1. cbv beta.
  destruct (close_db_file_run conf (map_mem (cur_wdb q')) (fd (cur_wdb q')) w1) as (w2 & E2 & H2).
  erewrite bind_ok by by apply sys_ok. exists w2, q'.
  split; [done|]. split; [by eapply same_files_trans|done].
Qed.

Lemma files_only_same w w' dir : same_files w w' -> files_only w dir -> files_only w' dir.
Proof. intros [Ed En _ _ _ _ _] []. split; rewrite ?Ed, ?En; done. Qed.

Lemma del_set l k q : del_kv (set_kv l k q) k = del_kv l k.
Proof.
  induction l as [|[k1 q1] l IH]; simpl; [done|].
  destruct (bool_decide (k1 = k)) eqn:E; simpl; rewrite E; [done|]. by rewrite IH.
Qed.

Section Del.
Context (conf : ucmq_conf).
#[local] Abbreviation dir := (queue_dir conf).

Lemma remove_db_run w q : path_fits conf (qname q) -> files_only w (dir (qname q)) ->
  mq_sm_remove_db conf (QState w q) = Ok (true, QState (dir_removed w (dir (qname q))) q).
Proof.
  intros Hfit Hfo. unfold mq_sm_remove_db. rewrite run_queue. cbv beta zeta.
  rewrite queue_path_eq by done. erewrite run_sys by reflexivity.
  rewrite bool_decide_true by (left; by apply fo_dir). cbv iota.
  erewrite run_sys by by apply delete_dir_run. done.
Qed.

Lemma del_queue_run w l qn q :
  find_kv l qn = Some q -> qname q = qn -> path_fits conf qn -> files_only w (dir qn) ->
  exists w1, same_files w w1 /\
    mq_qm_del_queue qn (Store w conf l)
    = Ok (true, Store (dir_removed w1 (dir qn)) conf (del_kv l qn)).
Proof.
  intros Hq Hn Hfit Hfo. destruct (close_db_run conf w q) as (w1 & q1 & E1 & Hs & Hn1).
  exists w1. split; [done|]. unfold mq_qm_del_queue.
  erewrite bind_ok; [|unfold on_queue; cbn [g_mq_qlist g_mq_conf st_w]; rewrite Hq, E1; reflexivity].
  cbn [negb]. cbv iota.
  pose proof (remove_db_run w1 q1) as E2. rewrite Hn1, Hn in E2.
  specialize (E2 Hfit (files_only_same _ _ _ Hs Hfo)).
  erewrite bind_ok; cycle 1.
  { unfold on_queue. cbn [g_mq_qlist g_mq_conf st_w].
    erewrite find_set, bool_decide_true by done. rewrite E2. reflexivity. }
  cbn [negb]. cbv iota. erewrite bind_ok by reflexivity.
  unfold set_qlist, ret. cbn. by rewrite set_set, del_set.
Qed.

(** What is left is the start of a new queue. *)
Lemma removed_fresh w qn :
  world_wf w -> w_faults w = [] -> path_fits conf qn -> (slash ∉ qn) ->
  (length qn <= MAX_QUEUE_NAME_LEN)%nat -> qn <> [] -> dir_exists w (data_file_path conf) = true ->
  files_only w (dir qn) -> fresh_queue conf (dir_removed w (dir qn)) qn.
Proof.
  intros Hwf Hnf Hfit Hsl Hlen Hne Hp Hfo. pose proof Hfo as [Hpath [Hd Hn] Hs _].
  destruct (unlink_all_rest (visited (dir qn) (dir_entries w (dir qn))) w)
    as (Ed & Ei & Ef & Em & Ex & _ & _ & Eft).
  assert (dirname (dir qn) = data_file_path conf) as Hdn by by apply dirname_child.
  assert (data_file_path conf <> dir qn) as Hdp.
  { intros E%(f_equal length). unfold queue_dir in E. rewrite !length_app in E. simpl in E. lia. }
  split.
  - pose proof (unlink_all_wf (visited (dir qn) (dir_entries w (dir qn))) w Hwf) as [].
    by split.
  - change (w_faults (unlink_all (visited (dir qn) (dir_entries w (dir qn))) w) = []). by rewrite Eft.
  - done.
  - split; [unfold dir_removed; cbn; set_solver|].
    rewrite removed_names, Hdn by done. by rewrite bool_decide_false by done.
  - unfold dir_exists in *. unfold dir_removed. cbn [w_dirs set_dirs].
    apply bool_decide_eq_true in Hp. apply bool_decide_true. set_solver.
  - intros name Hname. assert (dirname (in_queue conf qn name) = dir qn) as Hdq by by apply dirname_child.
    split.
    + unfold dir_removed. cbn [w_dirs set_dirs]. rewrite elem_of_difference. intros [Hin _].
      rewrite Forall_forall in Hs. eapply Hs; [by apply elem_of_elements|done].
    + rewrite removed_names by done. by rewrite bool_decide_true.
Qed.
End Del.
