(* ===== verification/Restart.v ===== *)
(** * Restarting the server

    What a restart finds of a queue: whatever order the directory is listed in,
    the tag and the data files are found and opened again, and the queue holds
    the messages that waited, with its settings.  [durable] of [StoreInv] says
    that this is so after every operation. *)
From S2P Require Import Prelude.
From S2P Require Import CLib.
From S2P Require Import World.
From S2P Require Import MqTypes.
From S2P Require Import MqUtil.
From S2P Require Import MsgFormat.
From S2P Require Import StorePath.
From S2P Require Import StoreRtag.
From S2P Require Import StoreFile.
From S2P Require Import StoreManage.
From S2P Require Import QueueManage.
From S2P Require Import StoreInv.
From S2P Require Import StoreWrite.
From S2P Require Import Fifo.
From S2P Require Import StoreRemove.

(** ** Listing the directory of a queue *)
Lemma elem_of_rtags es i : i ∈ rtags es <-> RtagFile i ∈ es.
Proof.
  induction es as [|e es IH]; [by rewrite !elem_of_nil|].
  rewrite elem_of_cons. destruct e; cbn [rtags]; rewrite ?elem_of_cons, IH; naive_solver.
Qed.
Lemma elem_of_dbs es i : i ∈ dbs es <-> DbFile i ∈ es.
Proof.
  induction es as [|e es IH]; [by rewrite !elem_of_nil|].
  rewrite elem_of_cons. destruct e; cbn [dbs]; rewrite ?elem_of_cons, IH; naive_solver.
Qed.
Lemma nodup_rtags es : NoDup es -> NoDup (rtags es).
Proof.
  induction 1 as [|e es Hn Hd IH]; [constructor|]. destruct e; cbn [rtags]; try done.
  constructor; [|done]. by rewrite elem_of_rtags.
Qed.
Lemma nodup_dbs es : NoDup es -> NoDup (dbs es).
Proof.
  induction 1 as [|e es Hn Hd IH]; [constructor|]. destruct e; cbn [dbs]; try done.
  constructor; [|done]. by rewrite elem_of_dbs.
Qed.
Lemma nodup_only {A} (l : list A) x : NoDup l -> x ∈ l -> (forall y, y ∈ l -> y = x) -> l = [x].
Proof.
  intros Hd Hx Hall. destruct l as [|y [|z l]]; [by apply elem_of_nil in Hx|..].
  - f_equal. apply Hall. by left.
  - apply NoDup_cons in Hd as [Hn _]. destruct Hn. rewrite (Hall y), (Hall z); set_solver.
Qed.
Lemma forall_choice {A B} (R : A -> B -> Prop) l :
  (forall x, x ∈ l -> exists y, R x y) -> exists l', Forall2 R l l'.
Proof.
  induction l as [|x l IH]; intros H; [by exists []|].
  destruct (H x) as [y Hy]; [by left|]. destruct IH as [l' Hl']; [intros; apply H; by right|].
  exists (y :: l'). by constructor.
Qed.

Lemma subdirs_rtags {A} (f : A -> bytes) l : rtags ((fun d => Subdir (f d)) <$> l) = [].
Proof. by induction l. Qed.
Lemma subdirs_dbs {A} (f : A -> bytes) l : dbs ((fun d => Subdir (f d)) <$> l) = [].
Proof. by induction l. Qed.

Lemma filter_none_fmap {A B} (P : B -> Prop) `{!forall x, Decision (P x)} (f : A -> B) l :
  (forall x, ~ P (f x)) -> filter P (f <$> l) = [].
Proof. intros Hn. induction l as [|x l IH]; [done|]. cbn [fmap list_fmap]. by rewrite filter_cons_False. Qed.
Lemma nodup_filter_fmap {A B} (P : A -> Prop) `{!forall x, Decision (P x)} (f : A -> B) l :
  NoDup (f <$> l) -> NoDup (f <$> filter P l).
Proof.
  induction l as [|x l IH]; [done|]. rewrite filter_cons. intros [Hn Hd]%NoDup_cons.
  destruct (decide (P x)); [|by apply IH]. constructor; [|by apply IH].
  contradict Hn. apply list_elem_of_fmap in Hn as (y & -> & [_ Hy]%list_elem_of_filter).
  apply list_elem_of_fmap. eauto.
Qed.

Section Listing.
Context (conf : ucmq_conf) (w : world) (q : mq_queue).
#[local] Abbreviation dir := (queue_dir conf (qname q)).
#[local] Abbreviation r := (cur_index (cur_rdb q)).
#[local] Abbreviation wr := (cur_index (cur_wdb q)).
Context (Honly : only_files conf w q).

(** A file of the directory and what it is. *)
Definition names_entry (kv : bytes * Z) (e : entry) : Prop :=
  match e with
  | DbFile i => r <= i <= wr /\ kv.1 = db_path conf q i
  | RtagFile i => i = r /\ kv.1 = rtag_path conf q i
  | Subdir _ => False
  end.

Lemma file_entry kv : kv ∈ filter (fun kv => dirname kv.1 = dir) (map_to_list (w_names w)) ->
  exists e, names_entry kv e.
Proof using Honly.
  intros [Hd Hin]%list_elem_of_filter. destruct kv as [p ino].
  apply elem_of_map_to_list in Hin. cbn [fst] in Hd.
  destruct (path_split p dir Hd) as [Hs Ep].
  { unfold queue_dir. by destruct (data_file_path conf). }
  rewrite Ep in Hin. destruct (Honly (basename p) ino Hs Hin) as [E|(i & Hi & E)].
  - exists (RtagFile r). split; [done|]. cbn. rewrite Ep, E. done.
  - exists (DbFile i). split; [done|]. cbn. rewrite Ep, E. done.
Qed.

Lemma entry_dirent kv e : names_entry kv e -> Dirent (basename kv.1) DT_REG = dirent_of e.
Proof using.
  destruct e as [i|i|?]; cbn; [intros [_ ->]|intros [_ ->]|done]; unfold db_path, rtag_path, in_queue;
    by rewrite basename_child by (apply slash_not_db || apply slash_not_rtag).
Qed.

Lemma names_entry_inj kv kv' e : names_entry kv e -> names_entry kv' e -> kv.1 = kv'.1.
Proof using. destruct e; [intros [_ ->] [_ ->]|intros [_ ->] [_ ->]|]; done. Qed.

Lemma forall2_nodup l es : Forall2 names_entry l es -> NoDup l.*1 -> NoDup es.
Proof using.
  induction 1 as [|kv e l es He Hl IH]; intros Hd; [constructor|].
  apply NoDup_cons in Hd as [Hn Hd]. constructor; [|by apply IH].
  intros Hin. apply Hn. apply list_elem_of_lookup in Hin as [k Hk].
  destruct (Forall2_lookup_r _ _ _ _ _ Hl Hk) as (kv' & Hk' & He').
  rewrite (names_entry_inj _ _ _ He He'). apply list_elem_of_fmap.
  exists kv'. split; [done|]. by eapply list_elem_of_lookup_2.
Qed.

Lemma forall2_dirents l es :
  Forall2 names_entry l es -> (fun kv : bytes * Z => Dirent (basename kv.1) DT_REG) <$> l = dirent_of <$> es.
Proof using.
  induction 1 as [|kv e l es He Hl IH]; [done|]. cbn. by rewrite IH, (entry_dirent kv e).
Qed.

Context (Hidx : 0 <= r <= wr /\ wr < MAX_INDEX).
Context (Hrtag : is_Some (w_names w !! rtag_path conf q r)).

(** The files of the directory, in the order of the listing. *)
Lemma dir_files : exists es, NoDup es /\
  (fun kv : bytes * Z => Dirent (basename kv.1) DT_REG) <$>
    filter (fun kv => dirname kv.1 = dir) (map_to_list (w_names w)) = dirent_of <$> es /\
  RtagFile r ∈ es /\
  (forall i, r <= i <= wr -> is_Some (w_names w !! db_path conf q i) -> DbFile i ∈ es) /\
  forall e, e ∈ es -> match e with DbFile i => r <= i <= wr | RtagFile i => i = r | Subdir _ => False end.
Proof using Honly Hidx Hrtag.
  set (l := filter (fun kv => dirname kv.1 = dir) (map_to_list (w_names w))).
  destruct (forall_choice names_entry l file_entry) as [es Hes]. exists es.
  assert (forall p ino e, w_names w !! p = Some ino -> dirname p = dir ->
    (forall e', names_entry (p, ino) e' -> e' = e) -> e ∈ es) as Hin.
  { intros p ino e Hp Hd He. assert ((p, ino) ∈ l) as [k Hk]%list_elem_of_lookup.
    { apply list_elem_of_filter. split; [done|]. by apply elem_of_map_to_list. }
    destruct (Forall2_lookup_l _ _ _ _ _ Hes Hk) as (e' & Hk' & He').
    apply He in He' as ->. by eapply list_elem_of_lookup_2. }
  assert (forall i, is_Some (w_names w !! db_path conf q i) -> r <= i <= wr -> DbFile i ∈ es) as Hdbin.
  { intros i [ino Hi] Hr. eapply Hin; [exact Hi|by apply dirname_in_queue, slash_not_db|].
    intros [j|j|?]; [intros [Hj E%in_queue_inj%db_name_inj]|intros [_ E]|done]; cbn in *.
    - by subst.
    - unfold MAX_INDEX, LLONG_MAX in *. lia.
    - unfold MAX_INDEX, LLONG_MAX in *. lia.
    - symmetry in E. by apply rtag_db_path_ne in E. }
  split_and!.
  - eapply forall2_nodup; [exact Hes|]. unfold l. eapply (NoDup_fmap_fst); [|].
    + intros x y1 y2 [_ H1]%list_elem_of_filter [_ H2]%list_elem_of_filter.
      apply elem_of_map_to_list in H1, H2. congruence.
    + apply NoDup_filter, NoDup_map_to_list.
  - by apply forall2_dirents.
  - destruct Hrtag as [ino Hi]. eapply Hin; [exact Hi|by apply dirname_in_queue, slash_not_rtag|].
    intros [j|j|?]; [intros [_ E]|by intros [-> _]|done]. by apply rtag_db_path_ne in E.
  - intros i Hi Hname. by apply Hdbin.
  - intros e [k Hk]%list_elem_of_lookup.
    destruct (Forall2_lookup_r _ _ _ _ _ Hes Hk) as (kv & _ & He). destruct e; [apply He..|done].
Qed.

(** The listing in any order: one tag, and data files up to the writer's. *)
Lemma dir_listing : exists es, dir_entries w dir = dirent_of <$> es /\ Forall entry_ok es /\
  rtags es = [r] /\ NoDup (dbs es) /\ Forall (fun i => r <= i <= wr) (dbs es) /\
  (forall i, r <= i <= wr -> is_Some (w_names w !! db_path conf q i) -> i ∈ dbs es).
Proof using Honly Hidx Hrtag.
  destruct dir_files as (es & Hd & E & Hr & Hin & Hall).
  set (dirs := filter (fun d => dirname d = dir) (elements (w_dirs w))).
  exists (Subdir (B ".") :: Subdir (B "..") :: es ++ ((fun d => Subdir (basename d)) <$> dirs)).
  cbn [rtags dbs]. rewrite rtags_app, dbs_app, subdirs_rtags, subdirs_dbs, !app_nil_r. split_and!.
  - unfold dir_entries. rewrite E, fmap_cons, fmap_cons, fmap_app, <- list_fmap_compose. done.
  - do 2 (constructor; [done|]). apply Forall_app. split; [|by apply Forall_fmap, Forall_true].
    apply Forall_forall. intros e He. apply Hall in He. destruct e; cbn; try done; lia.
  - apply nodup_only.
    + by apply nodup_rtags.
    + by apply elem_of_rtags.
    + intros y Hy%elem_of_rtags. by apply Hall in Hy.
  - by apply nodup_dbs.
  - apply Forall_forall. intros i Hi%elem_of_dbs. by apply Hall in Hi.
  - intros i Hi Hn. apply elem_of_dbs. by apply Hin.
Qed.
End Listing.

(** ** The same files, opened again *)
Section Reopen.
Context (conf : ucmq_conf) (Hconf : conf_wf conf).
#[local] Abbreviation MAX := (MAX_DB_FILE_SIZE conf).

(** What is left of a world when its processes have ended: the names and the
    bytes of the files, not the descriptors and mappings. *)
Record restarted (w w' : world) : Prop := {
  rs_wf : world_wf w';
  rs_faults : w_faults w' = [];
  rs_dirs : w_dirs w' = w_dirs w;
  rs_names : w_names w' = w_names w;
  rs_inodes : w_inodes w' = w_inodes w
}.

(** More descriptors and mappings, and nothing else. *)
Record extends (w w' : world) : Prop := {
  ex_disk : restarted w w';
  ex_fds k o : w_fds w !! k = Some o -> w_fds w' !! k = Some o;
  ex_maps k m : w_maps w !! k = Some m -> w_maps w' !! k = Some m;
  ex_next : w_next w <= w_next w';
  ex_clock : w_clock w' = w_clock w;
  ex_free : w_free w' = w_free w
}.

Lemma extends_trans w1 w2 w3 : extends w1 w2 -> extends w2 w3 -> extends w1 w3.
Proof using. intros [[] ? ? ? ? ?] [[] ? ? ? ? ?]. split; [split; congruence|by eauto|by eauto|lia|congruence|congruence]. Qed.
Lemma restarted_extends w w1 w2 : restarted w w1 -> extends w1 w2 -> restarted w w2.
Proof using. intros [] [[] _ _ _ _ _]. split; congruence. Qed.
Lemma extends_refl w : world_wf w -> w_faults w = [] -> extends w w.
Proof using. intros. by split; [split|..]. Qed.
Lemma extends_mapped w ino : world_wf w -> w_faults w = [] -> extends w (mapped_world conf w ino).
Proof using.
  intros Hwf Hnf. split; try done; [split; try done; by apply wf_mapped_world|..]; cbn; [| |lia].
  - intros k o Hk. pose proof (wf_fds _ Hwf _ _ Hk). by rewrite lookup_insert_ne by lia.
  - intros k m Hk. pose proof (wf_maps _ Hwf _ _ Hk). by rewrite lookup_insert_ne by lia.
Qed.

(** [q'] has the files and the positions of [q], on handles of its own. *)
Record reopened (w : world) (q : mq_queue) (w' : world) (q' : mq_queue) : Prop := {
  ro_world : restarted w w';
  ro_name : qname q' = qname q;
  ro_index : cur_index (cur_rdb q') = cur_index (cur_rdb q) /\
             cur_index (cur_wdb q') = cur_index (cur_wdb q);
  ro_pos : pos (cur_rdb q') = pos (cur_rdb q) /\ pos (cur_wdb q') = pos (cur_wdb q);
  ro_tag : rtag_handle conf w' q' /\ tag_appends w' q';
  ro_write ino d : db_file conf w q (cur_index (cur_wdb q)) ino d ->
    db_handle conf w' q' (cur_wdb q') ino d;
  ro_same : cur_index (cur_rdb q) = cur_index (cur_wdb q) ->
    map_mem (cur_rdb q') = map_mem (cur_wdb q') /\ fd (cur_rdb q') = fd (cur_wdb q');
  ro_read : cur_index (cur_rdb q) < cur_index (cur_wdb q) ->
    map_mem (cur_rdb q') <> map_mem (cur_wdb q') /\
    forall ino d, db_file conf w q (cur_index (cur_rdb q)) ino d ->
      db_handle conf w' q' (cur_rdb q') ino d
}.

Lemma inv_reopened w q w' q' ms :
  queue_inv conf w q ms -> reopened w q w' q' -> queue_inv conf w' q' ms.
Proof using.
  intros [Hwf Hnf Hfit Hfree Hrtag Hidx Hpos (wino & dw & Hw & Hcl & Hc) [Honly _]]
    [[Hwf' Hnf' Ed En Ei] Eq [Eri Ewi] [Erp Ewp] [Htag Happ] Hwr Hsame Hrd].
  assert (db_path conf q' = db_path conf q) as Edp by (unfold db_path; by rewrite Eq).
  assert (rtag_path conf q' = rtag_path conf q) as Erpath by (unfold rtag_path; by rewrite Eq).
  assert (forall i ino d, db_file conf w q i ino d -> db_file conf w' q' i ino d) as Hdb.
  { intros i ino d Hf. unfold db_file. by rewrite En, Ei, Edp. }
  split; try done.
  - by rewrite Eq.
  - unfold names_free. by rewrite En, Ed, Edp, Erpath, Eri, Ewi, Eq.
  - by rewrite Eri, Ewi.
  - by rewrite Erp, Ewp.
  - exists wino, dw. split; [apply Hwr, Hw|]. rewrite Ewp. split; [done|].
    destruct Hc as [(E & _ & _ & Hp)|(Hlt & _ & rino & dr & msr & mids & msw & Hr & Hs & Hch & Hl & Hp & ->)].
    + left. destruct (Hsame E) as [Em Ef]. split_and!; try done; [congruence|]. by rewrite Erp, Ewp.
    + right. destruct (Hrd Hlt) as [Hne Hrd']. split_and!; [congruence|done|].
      exists rino, dr, msr, mids, msw. rewrite Erp, Eri, Ewi, Ewp. split_and!; try done.
      * apply Hrd', Hr.
      * intros k x Hk. destruct (Hch k x Hk) as (ino & d & Hf & ?). exists ino, d. auto.
  - split; [|done]. intros name ino Hs. rewrite En, Eq, Eri, Ewi. by apply Honly.
Qed.

Lemma db_file_fun w q i ino d ino' d' :
  db_file conf w q i ino d -> db_file conf w q i ino' d' -> ino' = ino /\ d' = d.
Proof using. intros (H1 & H2 & _) (H3 & H4 & _). split; congruence. Qed.

(** The files the handles are open on. *)
Lemma inv_files w q ms : queue_inv conf w q ms ->
  exists wino dw rino dr, db_file conf w q (cur_index (cur_wdb q)) wino dw /\
    db_file conf w q (cur_index (cur_rdb q)) rino dr /\
    cur_index (cur_rdb q) <= cur_index (cur_wdb q).
Proof using.
  intros Hinv. destruct (inv_contents _ _ _ _ Hinv) as (wino & dw & [Hw _] & _ &
    [(E & _)|(Hlt & _ & rino & dr & _ & _ & _ & [Hr _] & _)]).
  - exists wino, dw, wino, dw. split_and!; try done; [by rewrite E|lia].
  - exists wino, dw, rino, dr. split_and!; try done. lia.
Qed.

(** [find_handle_file] finds the reader's and the writer's files. *)
Lemma found_files w q ms w' qf :
  queue_inv conf w q ms -> restarted w w' -> cur_index (cur_wdb q) < MAX_INDEX ->
  find_handle_file conf qf (qname q) w' =
    Ok ((true, QueueFile (rtag_name (cur_index (cur_rdb q))) (db_name (cur_index (cur_rdb q)))
          (db_name (cur_index (cur_wdb q))) (cur_index (cur_rdb q)) (cur_index (cur_rdb q))
          (cur_index (cur_wdb q))), w').
Proof using.
  intros Hinv [Hwf' Hnf' Ed En Ei] Hmax.
  destruct (inv_files w q ms Hinv) as (wino & dw & rino & dr & [Hw _] & [Hr _] & Hle).
  pose proof (inv_index _ _ _ _ Hinv) as [H0 _].
  pose proof (inv_fits _ _ _ _ Hinv) as [Hfit _].
  destruct (inv_rtag _ _ _ _ Hinv) as (o & f & _ & Htag).
  destruct (dir_listing conf w' q) as (es & E & Hok & Hrt & _ & Hall & Hin).
  - intros name ino. rewrite En. apply (inv_disk _ _ _ _ Hinv).
  - lia.
  - rewrite En. eauto.
  - rewrite (find_handle_file_spec conf (qname q) w' es (cur_index (cur_rdb q))
      (cur_index (cur_wdb q)) (cur_index (cur_rdb q)) [] qf); try done.
    + by rewrite Z.eqb_refl.
    + rewrite queue_path_eq by done. unfold sys_opendir, gets.
      rewrite bool_decide_true by (rewrite Ed; apply (inv_free _ _ _ _ Hinv)). by rewrite E.
    + apply Hin; [lia|]. rewrite En. eauto.
    + apply Hin; [lia|]. rewrite En. eauto.
Qed.

(** The tag is opened for appending and its last line is read. *)
Definition tag_open (w : world) (n ino : Z) (f : file) : Prop :=
  exists o, open_nb w n o f /\ o_ino o = ino /\ o_append o = true.

Lemma fname_path qn name : path_fits conf qn -> (length name <= 25)%nat ->
  GEN_DATA_FULL_PATH_BY_FNAME conf qn name = in_queue conf qn name.
Proof using. intros Hfit Hl. by apply full_fits. Qed.
Lemma length_db_name i : 0 <= i -> (length (db_name i) <= 25)%nat.
Proof using.
  intros Hi. pose proof (ndigits_le20 i Hi). unfold db_name. rewrite length_app, pad_length. simpl. lia.
Qed.
Lemma length_rtag_name i : 0 <= i -> (length (rtag_name i) <= 25)%nat.
Proof using.
  intros Hi. pose proof (ndigits_le20 i Hi). unfold rtag_name. rewrite length_app, pad_length. simpl. lia.
Qed.

Lemma open_tag w q t ms w' qf q0 :
  queue_inv conf w q ms -> restarted w w' -> rtag_ok conf t -> tagged conf w q t ->
  tag_size conf w q < 2147483648 ->
  rtag_fname qf = rtag_name (cur_index (cur_rdb q)) -> qname q0 = qname q ->
  exists n ino f w2 w3,
    mq_sm_rtag_open_file conf qf (QState w' q0) = Ok (true, QState w2 (with_rtag_fd n q0)) /\
    mq_sm_rtag_read_item conf (QState w2 (with_rtag_fd n q0))
      = Ok (true, QState w3 (restore t (with_rtag_fd n q0))) /\
    extends w' w3 /\ n < w_next w3 /\ tag_open w3 n ino f /\ 0 <= f_size f /\
    w_names w3 !! rtag_path conf q (cur_index (cur_rdb q)) = Some ino.
Proof using Hconf.
  intros Hinv Hrs Ht (f & Hf & Hsz & Hh) Hts Eqf Eq. unfold tag_size in Hts. rewrite Hf in Hts.
  unfold tag_file in Hf. destruct (w_names w !! rtag_path conf q _) as [ino|] eqn:Hn; [|done].
  pose proof Hrs as [Hwf' Hnf' Ed En Ei]. pose proof (wf_next _ Hwf').
  pose proof (inv_index _ _ _ _ Hinv) as [H0 _]. pose proof (inv_fits _ _ _ _ Hinv) as [Hfit _].
  set (n := w_next w'). set (w2 := set_next (n + 1) (set_fds (<[n := Ofd ino 0 true true]> (w_fds w')) w')).
  assert (fd_file w2 n = Some (Ofd ino 0 true true, f)) as Hfd.
  { unfold fd_file. cbn. rewrite lookup_insert_eq. cbn. by rewrite Ei, Hf. }
  destruct (rtag_read_last conf Hconf w2 (with_rtag_fd n q0) (Ofd ino 0 true true) f t)
    as [k Er]; [by split|done|lia|done|done|].
  exists n, ino, f, w2, (moved w2 n (Ofd ino 0 true true) k). split_and!; [|exact Er|..].
  - unfold mq_sm_rtag_open_file. rewrite run_queue. cbv beta zeta.
    rewrite Eqf, Eq, fname_path by (done || by apply length_rtag_name; lia).
    fold (rtag_path conf q (cur_index (cur_rdb q))).
    erewrite run_sys; cycle 1.
    { unfold get_file_size, sys_stat_size, gets, bind, ret. cbn. rewrite En, Hn. cbn. by rewrite Ei, Hf. }
    cbn. rewrite i32_small by lia. rewrite (proj2 (Z.leb_gt _ 0)) by lia.
    erewrite run_sys; cycle 1.
    { unfold sys_open, pick_fault, bind, ret. rewrite Hnf', bool_decide_false, En, Hn; [done|].
      rewrite Ed. apply (inv_free _ _ _ _ Hinv). lia. }
    rewrite (proj2 (Z.ltb_ge _ 0)) by lia. by run_q.
  - assert (forall j, j < n -> w_fds (moved w2 n (Ofd ino 0 true true) k) !! j = w_fds w' !! j) as Hlow.
    { intros j Hj. cbn. by rewrite !lookup_insert_ne by lia. }
    destruct Hwf'. split; try done; [split; try done|..|cbn; lia].
    2:{ intros j o Ho. rewrite Hlow; [done|]. apply wf_fds in Ho. fold n in Ho. lia. }
    split; cbn; eauto; try lia.
    + intros j o. rewrite !lookup_insert_Some. intros [[<- _]|[_ [[<- _]|[_ Ho]]]]; [lia..|].
      apply wf_fds in Ho. lia.
    + intros j m Hm. apply wf_maps in Hm. lia.
    + intros j g Hg. apply wf_inodes in Hg. lia.
  - cbn. lia.
  - exists (Ofd ino k true true). split; [split; [by apply fd_file_moved|done]|done].
  - lia.
  - cbn. by rewrite En.
Qed.

Lemma tag_open_mapped w n ino f j : world_wf w ->
  tag_open w n ino f -> tag_open (mapped_world conf w j) n ino f.
Proof using.
  intros Hwf (o & [Hfd Hnb] & ? & ?). exists o. split_and!; try done. split; [|done].
  apply fd_file_fds in Hfd as [Hfd Hino]. pose proof (wf_fds _ Hwf _ _ Hfd).
  unfold fd_file. cbn. rewrite lookup_insert_ne by lia. by rewrite Hfd, Hino.
Qed.
Lemma restarted_mapped w w' ino : restarted w w' -> restarted w (mapped_world conf w' ino).
Proof using. intros []. split; try done. by apply wf_mapped_world. Qed.

Lemma tag_open_handle w q q' n ino f w' :
  tag_open w' n ino f -> 0 <= f_size f -> rtag_fd q' = n -> qname q' = qname q ->
  cur_index (cur_rdb q') = cur_index (cur_rdb q) -> w_names w' = w_names w ->
  w_names w !! rtag_path conf q (cur_index (cur_rdb q)) = Some ino ->
  rtag_handle conf w' q' /\ tag_appends w' q'.
Proof using.
  intros (o & Hnb & Eo & Ha) Hs Ef Eq Ei En Hn. split.
  - exists o, f. rewrite Ef. split; [done|]. unfold rtag_path in *. by rewrite Eq, Ei, En, Eo.
  - intros o' f' Ho. rewrite Ef in Ho. destruct Hnb as [Hfd _]. rewrite Hfd in Ho.
    injection Ho as <- <-. auto.
Qed.

(** A handle as [mq_sm_open_db_file] leaves it. *)
Lemma handle_mapped w q w' q' h ino d :
  restarted w w' -> db_file conf w q (cur_index h) ino d -> qname q' = qname q ->
  fd h = w_next w' -> map_mem h = w_next w' + 1 -> rtag_fd q' < w_next w' ->
  db_handle conf (mapped_world conf w' ino) q' h ino d.
Proof using.
  intros [_ _ _ En Ei] (Hn & Hi & Hd) Eq Ef Em Hr.
  split_and!; [split_and!|..]; cbn; rewrite ?Ef, ?Em; try lia; try done.
  - unfold db_path in *. by rewrite Eq, En.
  - by rewrite Ei.
  - by rewrite lookup_insert_eq.
Qed.

Section OpenDb.
Context (w : world) (q : mq_queue) (ms : list smsg) (Hinv : queue_inv conf w q ms).
Context (w' : world) (q' : mq_queue) (qf : queue_file) (n ino : Z) (f : file).
Context (Hrs : restarted w w') (Hn : n < w_next w') (Htag : tag_open w' n ino f).
Context (Hsz : 0 <= f_size f).
Context (Hname : w_names w' !! rtag_path conf q (cur_index (cur_rdb q)) = Some ino).
Context (Eq : qname q' = qname q) (Efd : rtag_fd q' = n).
Context (Epos : pos (cur_rdb q') = pos (cur_rdb q) /\ pos (cur_wdb q') = pos (cur_wdb q)).
Context (Eflag : flag (cur_rdb q') = 0 /\ flag (cur_wdb q') = 0).
Context (Erd : read_fid qf = cur_index (cur_rdb q) /\ read_fname qf = db_name (cur_index (cur_rdb q))).
Context (Ewr : write_fid qf = cur_index (cur_wdb q) /\ write_fname qf = db_name (cur_index (cur_wdb q))).

(** The queue with both files open. *)
Definition handles (rfd rmem wfd wmem : Z) : mq_queue :=
  with_rdb (with_flag 1) (with_wdb (with_flag 1)
    (with_rdb (with_map_mem rmem) (with_rdb (with_fd rfd)
      (with_wdb (with_map_mem wmem) (with_wdb (with_fd wfd)
        (with_wdb (with_cur_index (write_fid qf)) (with_rdb (with_cur_index (read_fid qf)) q'))))))).

Lemma path_not_dir i : 0 <= i -> db_path conf q i ∉ w_dirs w'.
Proof using Hinv Hrs. rewrite (rs_dirs _ _ Hrs). intros Hi. by apply (inv_free _ _ _ _ Hinv). Qed.

Lemma open_file i wino dw (w1 : world) : restarted w w1 -> 0 <= i -> db_file conf w q i wino dw ->
  mq_sm_open_db_file conf (GEN_DATA_FULL_PATH_BY_FNAME conf (qname q') (db_name i)) FOPEN_FLAG_OPEN w1
  = Ok ((w_next w1, w_next w1 + 1), mapped_world conf w1 wino).
Proof using Hinv Hconf Eq.
  intros Hrs1 Hi Hf. pose proof (inv_fits _ _ _ _ Hinv) as [Hfit _].
  pose proof Hrs1 as [Hwf1 Hnf1 Ed En Ei].
  rewrite Eq, fname_path by (done || by apply length_db_name).
  apply (open_db_existing conf Hconf w1 q i wino dw); try done.
  - unfold db_file in *. by rewrite En, Ei.
  - rewrite Ed. by apply (inv_free _ _ _ _ Hinv).
Qed.

Lemma open_db_run : exists w2 q2,
  mq_sm_open_db conf qf (QState w' q') = Ok (true, QState w2 q2) /\ reopened w q w2 q2 /\
  extends w' w2 /\ (exists a b c d, q2 = handles a b c d).
Proof using Hinv Hconf Hrs Hn Htag Hsz Hname Eq Efd Epos Eflag Erd Ewr.
  destruct (inv_files w q ms Hinv) as (wino & dw & rino & dr & Hw & Hr & Hle).
  pose proof (inv_index _ _ _ _ Hinv) as [H0 _]. pose proof (wf_next _ (rs_wf _ _ Hrs)).
  destruct Erd as [Er1 Er2], Ewr as [Ew1 Ew2], Eflag as [Ef1 Ef2]. pose proof Hrs as [_ _ _ En _].
  set (w1 := mapped_world conf w' wino).
  pose proof (restarted_mapped w w' wino Hrs) as Hrs1. fold w1 in Hrs1.
  pose proof (tag_open_mapped w' n ino f wino (rs_wf _ _ Hrs) Htag) as Htag1. fold w1 in Htag1.
  assert (w_next w1 = w_next w' + 2) as Ex1 by done. set (m := w_next w') in *.
  unfold mq_sm_open_db. run_q. rewrite run_queue. cbv beta.
  cbn [qname with_rdb with_wdb cur_wdb cur_rdb flag with_cur_index]. rewrite Ef1, Ef2, Ew2, Er2.
  change (negb (0 =? 0)) with false. cbv iota.
  erewrite run_sys by (eapply open_file; [done|lia|exact Hw]). cbv beta iota. run_q. fold w1 m.
  rewrite (proj2 (Z.eqb_neq (m + 1) 0)) by lia. rewrite Er1, Ew1.
  destruct (Z.eqb_spec (cur_index (cur_rdb q)) (cur_index (cur_wdb q))) as [E|Hne].
  - erewrite bind_ok by (run_q; reflexivity). cbn [negb]. cbv iota. run_q.
    exists w1, (handles m (m + 1) m (m + 1)). split_and!; [|split| |by eauto 10]; try done.
    + unfold handles. by rewrite Er1, Ew1.
    + by eapply (tag_open_handle w' q); [exact Htag1|..]; cbn.
    + intros i d Hf. destruct (db_file_fun _ _ _ _ _ _ _ Hw Hf) as [-> ->].
      eapply handle_mapped; cbn; try done; cbn; [by rewrite Ew1|lia].
    + lia.
    + by apply extends_mapped; apply Hrs.
  - change (negb (0 =? 0)) with false. cbv iota. set (w2 := mapped_world conf w1 rino).
    assert (tag_open w2 n ino f) as Htag2 by (by apply tag_open_mapped; [apply Hrs1|]).
    pose proof (restarted_mapped w w1 rino Hrs1) as Hrs2. fold w2 in Hrs2.
    erewrite bind_ok; cycle 1.
    { erewrite run_sys by (eapply open_file; [done|lia|exact Hr]). cbv beta iota. run_q. rewrite Ex1.
      rewrite (proj2 (Z.eqb_neq (m + 2 + 1) 0)) by lia. reflexivity. }
    cbn [negb]. cbv iota. run_q. fold w2. set (q2 := handles (m + 2) (m + 2 + 1) m (m + 1)).
    exists w2, q2. split_and!; [|split| |by eexists _, _, _, _]; try done.
    + unfold q2, handles. by rewrite Er1, Ew1.
    + by eapply (tag_open_handle w' q); [exact Htag2|..].
    + intros i d Hf. destruct (db_file_fun _ _ _ _ _ _ _ Hw Hf) as [-> ->].
      apply db_handle_mapped; [apply Hrs1|].
      eapply handle_mapped; cbn; try done; cbn; [by rewrite Ew1|lia].
    + intros _. split; [cbn; lia|]. intros i d Hf.
      destruct (db_file_fun _ _ _ _ _ _ _ Hr Hf) as [-> ->].
      eapply handle_mapped; cbn; try done; cbn; [by rewrite Er1|lia].
    + eapply extends_trans; apply extends_mapped; try apply Hrs; apply Hrs1.
Qed.
End OpenDb.
End Reopen.

(** ** Opening a queue and the whole store *)

(** What is known of a queue that was open when the server stopped. *)
Record stopped (conf : ucmq_conf) (w : world) (q : mq_queue) (ms : list smsg) : Prop := {
  st_saved : saved conf w q ms;
  st_name : (length (qname q) <= MAX_QUEUE_NAME_LEN)%nat;
  st_index : cur_index (cur_wdb q) < MAX_INDEX;
  st_size : tag_size conf w q < 2147483648
}.

(** The queue [q2] is [q] with its messages and settings; the number of messages
    is not known yet. *)
Record recovered (conf : ucmq_conf) (q : mq_queue) (ms : list smsg) (w2 : world) (q2 : mq_queue)
    : Prop := {
  rc_inv : queue_inv conf w2 q2 ms;
  rc_name : qname q2 = qname q;
  rc_settings : maxque q2 = maxque q /\ delay q2 = delay q /\ wlock q2 = wlock q;
  rc_unread : unread_count q2 = 0
}.

Lemma on_local_ok {A} w conf l q (m : ucmq_conf -> M qstate A) a w' q' :
  m conf (QState w q) = Ok (a, QState w' q') ->
  on_local q m (Store w conf l) = Ok ((a, q'), Store w' conf l).
Proof. intros E. unfold on_local. cbn. by rewrite E. Qed.
Lemma os_ok {A} w conf l (m : M world A) a w' :
  m w = Ok (a, w') -> os m (Store w conf l) = Ok (a, Store w' conf l).
Proof. intros E. unfold os. cbn. by rewrite E. Qed.

Lemma open_one_run conf w q ms w' l :
  conf_wf conf -> stopped conf w q ms -> restarted w w' ->
  exists w2 q2, open_one (qname q) (Store w' conf l) = Ok (tt, Store w2 conf (l ++ [(qname q, q2)])) /\
    extends w' w2 /\ recovered conf q ms w2 q2.
Proof.
  intros Hc [(t & Ht & Htag & Hinv & Em & Ed & Ew) Hlen Hmax Hsz] Hrs.
  set (qf := QueueFile (rtag_name (cur_index (cur_rdb q))) (db_name (cur_index (cur_rdb q)))
    (db_name (cur_index (cur_wdb q))) (cur_index (cur_rdb q)) (cur_index (cur_rdb q)) (cur_index (cur_wdb q))).
  set (q0 := with_qname (qname q) mq_queue_zero).
  destruct (open_tag conf Hc w (restore t q) t ms w' qf q0)
    as (n & ino & f & w2 & w3 & E1 & E2 & Hx & Hn & Hto & H0 & Hname); try done.
  destruct (open_db_run conf Hc w (restore t q) ms Hinv w3 (restore t (with_rtag_fd n q0)) qf n ino f)
    as (w4 & q4 & E3 & Hro & Hx' & (a & b & c & d & ->)); try done.
  { by eapply restarted_extends. }
  pose proof (found_files conf w (restore t q) ms w' queue_file_zero Hinv Hrs Hmax) as E0.
  eexists w4, _. split_and!; [|by eapply extends_trans|].
  - unfold open_one. erewrite bind_ok by reflexivity. cbn [g_mq_conf].
    rewrite take_ge by done. erewrite bind_ok by (apply os_ok; exact E0). cbv beta iota. cbn [negb].
    erewrite bind_ok by (apply on_local_ok; exact E1). cbv beta iota. cbn [negb].
    erewrite bind_ok by (apply on_local_ok; exact E2). cbv beta iota. cbn [negb].
    erewrite bind_ok by (apply on_local_ok; exact E3).
    cbv beta iota. cbn [negb]. by erewrite bind_ok by (by apply hash_add_run; [apply (rs_faults _ _ (ex_disk _ _ Hx'))|]).
  - split; [|done|by rewrite <- Em, <- Ed, <- Ew|done]. by eapply inv_reopened.
Qed.

Lemma inv_extends conf w w' q ms :
  queue_inv conf w q ms -> extends w w' -> queue_inv conf w' q ms.
Proof.
  intros [Hwf Hnf Hfit Hfree Hrtag Hidx Hpos (wino & dw & Hw & Hcl & Hc) [Honly Happ]]
    [[Hwf' Hnf' Ed En Ei] Hfds Hmaps Hnx _ _].
  assert (forall i ino d, db_file conf w q i ino d -> db_file conf w' q i ino d) as Hdb.
  { intros i ino d Hf. unfold db_file. by rewrite En, Ei. }
  assert (forall h ino d, db_handle conf w q h ino d -> db_handle conf w' q h ino d) as Hh.
  { intros h ino d (? & ? & ? & ?). split_and!; auto. lia. }
  assert (forall o f, fd_file w (rtag_fd q) = Some (o, f) -> fd_file w' (rtag_fd q) = Some (o, f)) as Hfd.
  { intros o f [Ho Hf]%fd_file_fds. unfold fd_file. by rewrite (Hfds _ _ Ho), Ei, Hf. }
  split; try done.
  - unfold names_free. by rewrite En, Ed.
  - destruct Hrtag as (o & f & [Ho ?] & ?). exists o, f. rewrite En. split; [|done]. split; auto.
  - exists wino, dw. split_and!; [by apply Hh|done|]. 
    destruct Hc as [?|(? & ? & rino & dr & msr & mids & msw & Hr & Hs & Hch & ?)]; [by left|].
    right. split_and!; try done. exists rino, dr, msr, mids, msw.
    split; [by apply Hh|]. split; [done|]. split; [|done].
    intros k x Hk. destruct (Hch k x Hk) as (ino & d & ? & ?). eauto.
  - split; [intros name ino; rewrite En; apply Honly|]. destruct Hrtag as (o0 & f0 & [Ho0 _] & _).
    intros o f Ho. rewrite (Hfd _ _ Ho0) in Ho. injection Ho as <- <-. by apply Happ.
Qed.

Lemma recovered_extends conf q ms w w' q2 :
  recovered conf q ms w q2 -> extends w w' -> recovered conf q ms w' q2.
Proof. intros [] Hx. split; try done. by eapply inv_extends. Qed.

(** ** Stopping *)

(** The processes are gone, however they ended. *)
Definition killed (w : world) : world := set_fds ∅ (set_maps ∅ w).
Lemma killed_restarted w : world_wf w -> w_faults w = [] -> restarted w (killed w).
Proof.
  intros [] Hnf. by split.
Qed.

Lemma same_files_restarted w w' : world_wf w -> w_faults w = [] -> same_files w w' -> restarted w w'.
Proof. intros Hwf Hnf []. split; auto. congruence. Qed.

Lemma rtag_close_run w q : exists w',
  mq_sm_rtag_close_file (QState w q) = Ok (true, QState w' q) /\ same_files w w'.
Proof.
  unfold mq_sm_rtag_close_file. rewrite run_queue. cbv beta.
  destruct (rtag_fd q <? 0); [exists w; split; [done|apply same_files_refl]|].
  unfold sys_fsync. erewrite run_sys by reflexivity. run_q. eexists. split; [reflexivity|].
  split; try done. intros Hw. by eapply wf_close.
Qed.

Lemma on_queue_ok {A} key w conf l q (m : ucmq_conf -> M qstate A) a w' q' :
  find_kv l key = Some q -> m conf (QState w q) = Ok (a, QState w' q') ->
  on_queue key m (Store w conf l) = Ok (a, Store w' conf (set_kv l key q')).
Proof. intros Hf E. unfold on_queue. cbn. by rewrite Hf, E. Qed.

Lemma find_some l k : k ∈ l.*1 -> exists q, find_kv l k = Some q.
Proof. intros Hk. destruct (find_kv l k) eqn:E; [eauto|]. by apply find_none in E. Qed.

Lemma close_each_run conf keys : forall w l, Forall (fun k => k ∈ l.*1) keys ->
  exists w' l', close_each keys (Store w conf l) = Ok (tt, Store w' conf l') /\ same_files w w'.
Proof.
  induction keys as [|k keys IH]; intros w l Hall; [exists w, l; split; [done|apply same_files_refl]|].
  apply Forall_cons in Hall as [Hk Hall]. cbn [close_each].
  destruct (find_some l k Hk) as [q Hq]. destruct (rtag_close_run w q) as (w1 & E1 & Hs1).
  erewrite bind_ok by (by eapply on_queue_ok). cbv beta.
  destruct (close_db_run conf w1 q) as (w2 & q2 & E2 & Hs2 & _).
  erewrite bind_ok; cycle 1.
  { eapply on_queue_ok; [|exact E2]. erewrite find_set by done. by rewrite bool_decide_true. }
  rewrite set_set. destruct (IH w2 (set_kv l k q2)) as (w3 & l3 & E3 & Hs3).
  { by rewrite keys_set. }
  exists w3, l3. split; [exact E3|]. eauto using same_files_trans.
Qed.

Lemma close_store_run w conf l : exists w',
  mq_qm_close_store (Store w conf l) = Ok (true, Store w' conf []) /\ same_files w w'.
Proof.
  destruct (close_each_run conf l.*1 w l) as (w' & l' & E & Hs); [by apply Forall_forall|].
  exists w'. split; [|done]. unfold mq_qm_close_store. erewrite bind_ok by reflexivity.
  cbn [g_mq_qlist]. by erewrite bind_ok by exact E.
Qed.

Section OpenStore.
Context (conf : ucmq_conf) (Hconf : conf_wf conf).

(** The directory entries that [mq_qm_open_store] takes for queues. *)
Definition opens (e : dirent) : Prop :=
  d_ty e = DT_DIR /\ strncmp (d_name e) (B ".") 1 <> 0.
#[local] Instance opens_dec e : Decision (opens e).
Proof. unfold opens. apply _. Defined.

(** The table [l0] of a server that stopped in the world [w], with the contents
    [c] of its queues: the directories of the data path are those of its queues. *)
Record server_stopped (w : world) (l0 : qlist) (c : bytes -> list smsg) : Prop := {
  ss_keys : NoDup l0.*1;
  ss_queue k q : (k, q) ∈ l0 -> qname q = k /\ stopped conf w q (c k);
  ss_visible k q : (k, q) ∈ l0 -> strncmp k (B ".") 1 <> 0;
  ss_path : data_file_path conf <> [] /\ data_file_path conf ∈ w_dirs w;
  ss_dirs d : d ∈ w_dirs w -> dirname d = data_file_path conf ->
    strncmp (basename d) (B ".") 1 <> 0 -> basename d ∈ l0.*1
}.

Section Entries.
Context (w : world) (l0 : qlist) (c : bytes -> list smsg) (Hs : server_stopped w l0 c).

(** A queue of the new table is one of the old. *)
Definition back (w2 : world) (kq : bytes * mq_queue) : Prop :=
  exists q, (kq.1, q) ∈ l0 /\ recovered conf q (c kq.1) w2 kq.2.

Lemma open_entries_run ents : forall w1 l,
  restarted w w1 -> Forall (fun e => opens e -> d_name e ∈ l0.*1) ents -> Forall (back w1) l ->
  exists w2 l', open_entries ents (Store w1 conf l) = Ok (tt, Store w2 conf (l ++ l')) /\
    extends w1 w2 /\ l'.*1 = d_name <$> filter opens ents /\ Forall (back w2) (l ++ l').
Proof using Hconf Hs.
  induction ents as [|e ents IH]; intros w1 l Hrs Hall Hl.
  { exists w1, []. rewrite app_nil_r. split_and!; try done. by apply extends_refl; apply Hrs. }
  apply Forall_cons in Hall as [He Hall]. cbn [open_entries]. rewrite filter_cons.
  destruct (decide (opens e)) as [Ho|Hn].
  - pose proof Ho as [Hty Hdot]. rewrite bool_decide_true by done. cbn [negb].
    rewrite (proj2 (Z.eqb_neq _ 0)) by done.
    apply He in Ho. apply list_elem_of_fmap in Ho as ([k q] & Ek & Hin). cbn in Ek. subst k.
    destruct (ss_queue _ _ _ Hs _ _ Hin) as [Eq Hst].
    destruct (open_one_run conf w q (c (d_name e)) w1 l) as (w2 & q2 & E & Hx & Hrec); try done.
    rewrite Eq in E. erewrite bind_ok by exact E.
    destruct (IH w2 (l ++ [(d_name e, q2)])) as (w3 & l' & E3 & Hx3 & Hk & Hb); try done.
    { by eapply restarted_extends. }
    { apply Forall_app. split; [|constructor; [|constructor]; by exists q].
      eapply Forall_impl; [exact Hl|]. intros kq (q' & ? & ?). exists q'. split; [done|].
      by eapply recovered_extends. }
    exists w3, ((d_name e, q2) :: l'). rewrite <- app_assoc in *. split_and!; try done.
    + by eapply extends_trans.
    + cbn. by rewrite Hk.
  - erewrite bind_ok; [by apply IH|]. unfold opens in Hn.
    destruct (bool_decide_reflect (d_ty e = DT_DIR)); cbn [negb]; [|done].
    destruct (Z.eqb_spec (strncmp (d_name e) (B ".") 1) 0); [done|naive_solver].
Qed.

Lemma stopped_dir k q : (k, q) ∈ l0 -> (queue_dir conf k ∈ w_dirs w) /\ (slash ∉ k).
Proof using Hs.
  intros Hin. destruct (ss_queue _ _ _ Hs _ _ Hin) as [<- [(t & _ & _ & Hinv & _) _ _ _]].
  split; [apply (inv_free _ _ _ _ Hinv)|apply (inv_fits _ _ _ _ Hinv)].
Qed.

Lemma opened_names w1 : restarted w w1 ->
  d_name <$> filter opens (dir_entries w1 (data_file_path conf)) ≡ₚ l0.*1.
Proof using Hs.
  intros [_ _ Ed _ _]. destruct (ss_path _ _ _ Hs) as [Hne _].
  unfold dir_entries. rewrite Ed. rewrite filter_cons_False, filter_cons_False by (by intros [_ H]).
  set (subs := filter (fun d => dirname d = data_file_path conf) (elements (w_dirs w))).
  rewrite filter_app, filter_none_fmap, app_nil_l by (by intros ? [? _]).
  assert (forall d, d ∈ subs -> d = data_file_path conf ++ slash :: basename d) as Hsplit.
  { intros d [Hd _]%list_elem_of_filter. by destruct (path_split d _ Hd Hne) as [_ ?]. }
  apply NoDup_Permutation; [|apply (ss_keys _ _ _ Hs)|].
  - apply nodup_filter_fmap. rewrite <- list_fmap_compose. apply NoDup_fmap_2_strong.
    + intros d d' Hd Hd' E. cbn in E. rewrite (Hsplit d Hd), (Hsplit d' Hd'). by rewrite E.
    + apply NoDup_filter, NoDup_elements.
  - intros k. rewrite list_elem_of_fmap. split.
    + intros (e & -> & [[_ Hdot] (d & -> & [Hd Hin]%list_elem_of_filter)%list_elem_of_fmap]%list_elem_of_filter).
      apply (ss_dirs _ _ _ Hs); [by apply elem_of_elements|done|done].
    + intros ([k' q] & -> & Hin)%list_elem_of_fmap. destruct (stopped_dir k' q Hin) as [Hd Hsl].
      exists (Dirent k' DT_DIR). split; [done|]. apply list_elem_of_filter. split.
      { split; [done|]. by eapply (ss_visible _ _ _ Hs). }
      apply list_elem_of_fmap. exists (queue_dir conf k'). split.
      { change (queue_dir conf k') with (data_file_path conf ++ slash :: k'). by rewrite basename_child. }
      apply list_elem_of_filter. split; [by apply dirname_child|by apply elem_of_elements].
Qed.

Lemma open_store_run w1 : restarted w w1 ->
  exists w2 l2, mq_qm_open_store (Store w1 conf []) = Ok (true, Store w2 conf l2) /\
    extends w1 w2 /\ l2.*1 ≡ₚ l0.*1 /\ Forall (back w2) l2.
Proof using Hconf Hs.
  intros Hrs. pose proof (opened_names w1 Hrs) as Hperm. pose proof Hrs as [_ _ Ed _ _].
  destruct (ss_path _ _ _ Hs) as [_ Hpath].
  destruct (open_entries_run (dir_entries w1 (data_file_path conf)) w1 [])
    as (w2 & l2 & E & Hx & Hk & Hb); [done| |done|].
  { apply Forall_forall. intros e He Ho. rewrite <- Hperm. apply list_elem_of_fmap.
    exists e. split; [done|]. by apply list_elem_of_filter. }
  exists w2, l2. split_and!; try done; [|by rewrite Hk].
  unfold mq_qm_open_store. erewrite bind_ok by reflexivity. cbn [g_mq_conf].
  erewrite bind_ok; cycle 1.
  { apply os_ok. unfold touch_data_path, sys_access, sys_is_dir, gets, bind, ret.
    rewrite bool_decide_true by (left; by rewrite Ed). cbn. by rewrite bool_decide_true by by rewrite Ed. }
  cbn [negb]. cbv iota. erewrite bind_ok; cycle 1.
  { apply os_ok. unfold sys_opendir, gets. by rewrite bool_decide_true by by rewrite Ed. }
  cbv beta iota. by erewrite bind_ok by exact E.
Qed.
End Entries.
End OpenStore.

(** ** The properties *)

(** C3: nothing that was acknowledged is lost by a restart: from a state that
    stands for [a] and that a restart would find, every sequence of operations
    ends in a state [a'] of the abstract queue such that, however the processes
    end, opening the queue again gives its messages and its settings. *)
Theorem restart_refinement conf os w q a :
  conf_wf conf -> storage_ok conf w -> refines conf w q a ->
  in_bounds q a (Z.of_nat (length os)) -> Forall (op_ok conf) os -> Forall op_range os ->
  durable conf w q (a_msgs a) (Z.of_nat (length os)) ->
  exists w' q' l a',
    run_ops conf os (QState w q) = Ok (l, QState w' q') /\
    a_ops os (w_clock w, a) = (l, (w_clock w', a')) /\
    forall w1 tbl, restarted w' w1 -> exists w2 q2,
      open_one (qname q) (Store w1 conf tbl) = Ok (tt, Store w2 conf (tbl ++ [(qname q, q2)])) /\
      queue_inv conf w2 q2 (a_msgs a') /\
      maxque q2 = a_max a' /\ delay q2 = a_delay a' /\ wlock q2 = a_lock a'.
Proof.
  intros Hc Hst Href Hb Hok Hr Hd.
  destruct (ops_run conf os w q a Hc Hst Href Hb Hok) as (w' & q' & l & a' & E & Ea & Href' & Eq & Hd').
  exists w', q', l, a'. split_and!; [done..|]. intros w1 tbl Hrs.
  destruct (Hd' Hr Hd) as [(_ & _ & Hts & Hix & Hqn) Hs].
  destruct (open_one_run conf w' q' (a_msgs a') w1 tbl Hc) as (w2 & q2 & E2 & _ & Hrec); [|done|].
  { split; [done|done|lia|lia]. }
  rewrite Eq in E2. exists w2, q2. destruct Hrec as [Hinv _ (-> & -> & ->) _], Href'. by split_and!.
Qed.

(** Stopping and starting the server gives every queue back: when the tags
    are up to date, [mq_qm_close_store] closes the table and [mq_qm_open_store]
    makes one node for each of its queues, in the order of the directory, with
    the messages and the settings the queue had. *)
Theorem stop_start conf w l0 c :
  conf_wf conf -> world_wf w -> w_faults w = [] -> server_stopped conf w l0 c ->
  exists w1 w2 l2,
    mq_qm_close_store (Store w conf l0) = Ok (true, Store w1 conf []) /\
    mq_qm_open_store (Store w1 conf []) = Ok (true, Store w2 conf l2) /\
    l2.*1 ≡ₚ l0.*1 /\
    forall k q2, (k, q2) ∈ l2 -> exists q, (k, q) ∈ l0 /\ recovered conf q (c k) w2 q2.
Proof.
  intros Hc Hwf Hnf Hs. destruct (close_store_run w conf l0) as (w1 & E1 & Hf).
  destruct (open_store_run conf Hc w l0 c Hs w1) as (w2 & l2 & E2 & _ & Hp & Hb);
    [by apply same_files_restarted|].
  exists w1, w2, l2. split_and!; try done. intros k q2 Hin. rewrite Forall_forall in Hb.
  by destruct (Hb _ Hin) as (q & ? & ?); exists q.
Qed.

(** ** Witnesses: the queue with one message *)
Lemma restart_refinement_witness : exists w q w' q' l a',
  run_ops sample_conf [OpPut (B "b"); OpGet] (QState w q) = Ok (l, QState w' q') /\
  a_ops [OpPut (B "b"); OpGet] (1000, sample_aqueue) = (l, (w_clock w', a')) /\
  forall w1 tbl, restarted w' w1 -> exists w2 q2,
    open_one (qname q) (Store w1 sample_conf tbl) = Ok (tt, Store w2 sample_conf (tbl ++ [(qname q, q2)])) /\
    queue_inv sample_conf w2 q2 (a_msgs a') /\
    maxque q2 = a_max a' /\ delay q2 = a_delay a' /\ wlock q2 = a_lock a'.
Proof.
  destruct sample_one as (w & q & Href & Hst & [Hb1 Hb2] & Hck & _ & _ & [(Hs & Hco & Ht & Hi & Hn) Hsv]).
  exists w, q. rewrite <- Hck. apply restart_refinement; try done.
  - split; [simpl; lia|done].
  - repeat constructor; try (vm_compute; discriminate); lia.
  - repeat constructor.
  - split; [|done]. unfold ready. split_and!; try done; simpl; lia.
Defined.

Lemma stop_start_witness : exists w q w1 w2 l2,
  mq_qm_close_store (Store w sample_conf [(B "q", q)]) = Ok (true, Store w1 sample_conf []) /\
  mq_qm_open_store (Store w1 sample_conf []) = Ok (true, Store w2 sample_conf l2) /\
  l2.*1 ≡ₚ [B "q"] /\
  forall k q2, (k, q2) ∈ l2 -> exists q', (k, q') ∈ [(B "q", q)] /\
    recovered sample_conf q' [(1000, sample_body)] w2 q2.
Proof.
  destruct sample_one as (w & q & Href & Hst & _ & _ & Hq & Hdirs & [(Hs & Hco & Ht & Hi & Hn) Hsv]).
  destruct Href as [Hinv _ _ _ _]. exists w, q.
  apply (stop_start sample_conf w [(B "q", q)] (fun _ => [(1000, sample_body)])).
  - exact sample_conf_wf.
  - exact (inv_wf _ _ _ _ Hinv).
  - exact (inv_faults _ _ _ _ Hinv).
  - split.
    + apply NoDup_singleton.
    + intros k q' [= -> ->]%list_elem_of_singleton. split; [done|]. split; [exact Hsv|done|lia|lia].
    + intros k q' [= -> ->]%list_elem_of_singleton. vm_compute. discriminate.
    + rewrite Hdirs. split; decide_it.
    + intros d. rewrite Hdirs. change (w_dirs sample_qworld) with ({[B "data/q"]} ∪ {[B "data"]} : gset bytes).
      intros [->%elem_of_singleton| ->%elem_of_singleton]%elem_of_union; [|done].
      intros _ _. apply list_elem_of_singleton. by vm_compute.
Defined.
