(* ===== verification/StoreCount.v ===== *)
(** * Counting the waiting messages after a restart

    [mq_sm_get_msg_count] adds up the counts of a queue's data files, each taken
    from the head of the file or else by scanning it, and takes away the messages
    that were read from the reader's file. *)
From S2P Require Import Prelude.
From S2P Require Import CLib.
From S2P Require Import World.
From S2P Require Import MqTypes.
From S2P Require Import MqUtil.
From S2P Require Import FileIo.
From S2P Require Import MsgFormat.
From S2P Require Import StorePath.
From S2P Require Import StoreRtag.
From S2P Require Import StoreFile.
From S2P Require Import StoreManage.
From S2P Require Import QueueManage.
From S2P Require Import StoreInv.
From S2P Require Import StoreWrite.
From S2P Require Import Fifo.
From S2P Require Import StoreRemove.
From S2P Require Import Restart.

(** ** Sums *)
Definition zsum (l : list Z) : Z := foldr Z.add 0 l.
#[export] Instance zsum_perm : Proper ((≡ₚ) ==> (=)) zsum.
Proof. intros l l' H. unfold zsum. induction H; simpl; lia. Qed.

(** ** One data file *)
Section Count.
Context (conf : ucmq_conf) (Hconf : conf_wf conf).
#[local] Abbreviation MAX := (MAX_DB_FILE_SIZE conf).

(** The count that the head of a file with the bytes [d] states. *)
Definition head_count (d : gmap Z Z) : Z := atoi (cstr (get_bytes d 1 12)).
Definition head_valid (d : gmap Z Z) : Prop :=
  head_count d <> 0 /\ head_count d < MAX `quot` MSG_HEAD_LEN.

(** The bytes [d] have [n] messages before [end_pos]: their head says so, or it
    says nothing and they are there. *)
Definition has_messages (d : gmap Z Z) (end_pos n : Z) : Prop :=
  (head_valid d /\ n = head_count d /\ 0 <= n) \/
  (~ head_valid d /\ exists p ms e, layout d p ms e /\ 0 <= p <= MAX - 13 /\ clean d 0 p /\
     e <= end_pos <= MAX /\ clean d e end_pos /\ n = Z.of_nat (length ms)).

Definition scan_end (q : mq_queue) : Z :=
  if cur_index (cur_wdb q) =? cur_index (cur_rdb q) then pos (cur_wdb q) else MAX.

Lemma extends_next w m : world_wf w -> w_faults w = [] -> w_next w <= m -> extends w (set_next m w).
Proof using.
  intros Hwf Hnf Hm. destruct Hwf. split; try done. split; try done. split; cbn; eauto; try lia.
  - intros k o H. apply wf_fds in H. lia.
  - intros k o H. apply wf_maps in H. lia.
  - intros k o H. apply wf_inodes in H. lia.
Qed.

(** A descriptor that was opened and closed leaves nothing behind. *)
Lemma closed_fresh w n o m : w_fds w !! n = None ->
  closed n (set_next m (set_fds (<[n := o]> (w_fds w)) w)) = set_next m w.
Proof using. intros Hn. unfold closed, set_next, set_fds. cbn. by rewrite delete_insert_id by done. Qed.

Lemma has_messages_range d e n : has_messages d e n -> 0 <= n /\ n * MSG_HEAD_LEN <= MAX.
Proof using Hconf.
  pose proof (MAX_DB_FILE_SIZE_range conf Hconf). unfold MSG_HEAD_LEN, head_valid.
  intros [([_ Hlt] & -> & Hn)|(_ & p & ms & e' & Hl & Hp & _ & He & _ & ->)].
  - split; [done|]. unfold MSG_HEAD_LEN in Hlt. pose proof (Z.mul_quot_le MAX 12). lia.
  - split; [lia|]. apply layout_count in Hl. unfold MSG_HEAD_LEN in Hl. lia.
Qed.

Section File.
Context (w : world) (q : mq_queue) (i ino : Z) (d : gmap Z Z) (n : Z).
Context (Hwf : world_wf w) (Hnf : w_faults w = []).
Context (Hfile : db_file conf w q i ino d) (Hdir : db_path conf q i ∉ w_dirs w).
Context (Hpos : 0 <= pos (cur_wdb q) <= MAX).
Context (Hn : has_messages d (scan_end q) n).

Lemma file_count_run tot : 0 <= tot ->
  exists m, db_file_count conf q (db_path conf q i) tot w = Ok (u64 (tot + n), set_next m w) /\
            w_next w <= m.
Proof using All.
  intros Htot. pose proof (MAX_DB_FILE_SIZE_range conf Hconf). pose proof (wf_next _ Hwf).
  destruct (has_messages_range _ _ _ Hn) as [Hn0 Hn1]. unfold MSG_HEAD_LEN in Hn1.
  destruct Hfile as (Hname & Hino & Hd). set (k := w_next w) in *.
  assert (w_fds w !! k = None) as Hk.
  { destruct (w_fds w !! k) as [o|] eqn:E; [|done]. apply (wf_fds _ Hwf) in E. lia. }
  set (o := Ofd ino 13 false true).
  set (w2 := set_next (k + 1) (set_fds (<[k := o]> (w_fds w)) w)).
  assert (fd_file w2 k = Some (o, File MAX d)) as Hfd
    by (unfold fd_file; cbn; by rewrite lookup_insert_eq; cbn; rewrite Hino).
  unfold db_file_count. erewrite bind_ok; cycle 1.
  { unfold sys_open, pick_fault, bind, ret. rewrite Hnf, bool_decide_false, Hname by done. done. }
  fold k. rewrite (proj2 (Z.ltb_ge k 0)) by lia. cbv iota.
  set (w1 := set_next (k + 1) (set_fds (<[k := Ofd ino 0 false true]> (w_fds w)) w)).
  erewrite bind_ok; cycle 1.
  { unfold sys_lseek, fd_file. cbn. rewrite lookup_insert_eq. cbn. rewrite Hino. reflexivity. }
  cbv beta. change DB_FILE_HEAD_OF_VERSION_LEN with 1. change (1 <? 0) with false. cbv iota.
  erewrite bind_ok; cycle 1.
  { apply (read_n_file _ k (Ofd ino 1 false true) (File MAX d) 12 12); try lia; [|done|].
    - split; [|done]. unfold fd_file. cbn. rewrite lookup_insert_eq. cbn. by rewrite Hino.
    - cbn [f_size o_pos]. lia. }
  cbv beta iota. change (0 <=? Z.of_nat 12) with true. cbn [f_data o_pos Z.of_nat Pos.of_succ_nat].
  change (1 + 12) with 13.
  set (w2' := moved _ _ _ _).
  assert (w2' = w2) as ->.
  { unfold w2', w2, moved, set_next, set_fds. cbn. by rewrite !insert_insert_eq. }
  fold (head_count d). cbv iota zeta.
  destruct Hn as [([Hne Hlt] & -> & _)|(Hnv & p & ms & e & Hl & Hp & Hcl & He & Hcl' & ->)].
  - rewrite (proj2 (Z.eqb_neq (head_count d) 0)), (proj2 (Z.ltb_lt (head_count d) _)) by done.
    cbn [negb andb]. exists (k + 1). split; [|lia].
    erewrite bind_ok by done. unfold ret. do 2 f_equal. by apply closed_fresh.
  - assert (negb (head_count d =? 0) && (head_count d <? MAX `quot` MSG_HEAD_LEN) = false) as ->.
    { unfold head_valid in Hnv. destruct (Z.eqb_spec (head_count d) 0); [done|].
      cbn. apply Z.ltb_ge. lia. }
    exists (k + 2). split; [|lia].
    erewrite bind_ok; cycle 1.
    { transitivity (mq_sm_db_cal_msg_count conf k (scan_end q) w2).
      - unfold scan_end. case_match; [done|]. by rewrite u32_small by lia.
      - apply (cal_msg_count_layout conf w2 k d p ms e (scan_end q)); try done.
        + exists o, (File MAX d). done.
        + cbn. lia.
        + cbn. destruct (w_maps w !! (k + 1)) as [m|] eqn:E; [|done].
          apply (wf_maps _ Hwf) in E. fold k in E. lia. }
    erewrite bind_ok by done. rewrite i32_small by lia. unfold ret. do 2 f_equal.
    unfold after_map. cbn. rewrite <- (closed_fresh w k o (k + 2)) by done.
    unfold closed, set_next, set_fds. cbn. by replace (k + 1 + 1) with (k + 2) by lia.
Qed.
End File.

(** ** The directory *)

(** The data file [i] of the queue holds [n] messages. *)
Definition counts (w : world) (q : mq_queue) (i n : Z) : Prop :=
  exists ino d, db_file conf w q i ino d /\ has_messages d (scan_end q) n.

Lemma zsum_nonneg w q (ns : Z -> Z) l : Forall (fun i => counts w q i (ns i)) l -> 0 <= zsum (ns <$> l).
Proof using Hconf.
  induction 1 as [|i l (ino & d & _ & Hn) _ IH]; cbn; [lia|].
  apply has_messages_range in Hn. unfold zsum in IH. lia.
Qed.

Lemma count_entries_run q (ns : Z -> Z) es : forall w tot,
  world_wf w -> w_faults w = [] -> path_fits conf (qname q) -> Forall entry_ok es ->
  0 <= pos (cur_wdb q) <= MAX ->
  Forall (fun i => (db_path conf q i ∉ w_dirs w) /\ counts w q i (ns i)) (dbs es) ->
  0 <= tot -> tot + zsum (ns <$> dbs es) < 18446744073709551616 ->
  exists m, count_entries conf q (dirent_of <$> es) tot w
            = Ok (tot + zsum (ns <$> dbs es), set_next m w) /\ w_next w <= m.
Proof using Hconf.
  induction es as [|e es IH]; intros w tot Hwf Hnf Hfit Hok Hpos Hall Ht Hmax.
  { exists (w_next w). cbn. rewrite Z.add_0_r. destruct w. split; [done|lia]. }
  apply Forall_cons in Hok as [He Hok]. destruct e as [x|x|name];
    cbn [fmap list_fmap dirent_of count_entries d_ty d_name dbs] in *; [|by apply IH..].
  apply Forall_cons in Hall as [[Hdir Hx] Hall]. pose proof Hx as (ino & d & Hf & Hn).
  assert (0 <= zsum (ns <$> dbs es)) as Hz.
  { apply (zsum_nonneg w q). eapply Forall_impl; [exact Hall|]. by intros i [_ ?]. }
  pose proof (has_messages_range _ _ _ Hn) as [Hn0 _].
  change (zsum (ns x :: (ns <$> dbs es))) with (ns x + zsum (ns <$> dbs es)) in *.
  rewrite bool_decide_true by done. cbn [negb].
  change (strncmp (db_name x) (B ".") 1 =? 0) with false.
  change (strncmp (db_name x) (B "db_") (length (B "db_")) =? 0) with true. cbv iota.
  rewrite fname_path by (done || apply length_db_name; cbn in He; lia).
  destruct (file_count_run w q x ino d (ns x) Hwf Hnf Hf Hdir Hpos Hn tot Ht) as (m & E & Hm).
  unfold db_path in E. erewrite bind_ok by exact E. rewrite u64_small by lia. cbv beta.
  pose proof (extends_next w m Hwf Hnf Hm) as [[Hwf' Hnf' _ _ _] _ _ _ _ _].
  destruct (IH (set_next m w) (tot + ns x)) as (m' & E' & Hm'); try done; try lia.
  exists m'. rewrite E'. cbn in Hm'. split; [|lia]. do 2 f_equal. by rewrite Z.add_assoc.
Qed.

(** The numbers of the files of the queue. *)
Definition file_indices (q : mq_queue) : list Z :=
  seqZ (cur_index (cur_rdb q)) (cur_index (cur_wdb q) - cur_index (cur_rdb q) + 1).

Lemma listed_indices w q ms es :
  queue_inv conf w q ms -> NoDup (dbs es) ->
  Forall (fun i => cur_index (cur_rdb q) <= i <= cur_index (cur_wdb q)) (dbs es) ->
  (forall i, cur_index (cur_rdb q) <= i <= cur_index (cur_wdb q) ->
     is_Some (w_names w !! db_path conf q i) -> i ∈ dbs es) ->
  Forall (fun i => is_Some (w_names w !! db_path conf q i)) (file_indices q) ->
  dbs es ≡ₚ file_indices q.
Proof using.
  intros Hinv Hnd Hr Hin Hall. unfold file_indices. apply NoDup_Permutation; [done|apply NoDup_seqZ|].
  intros i. rewrite elem_of_seqZ. rewrite Forall_forall in Hr. split.
  - intros Hi%Hr. lia.
  - intros Hi. apply Hin; [lia|]. rewrite Forall_forall in Hall. apply Hall.
    apply elem_of_seqZ. lia.
Qed.
End Count.

(** ** The queue of the witness *)
Definition sample_pushed_check : bool :=
  match mq_qm_push_item sample_conf (MsgItem 0 0 0 0 1 (PBuf sample_body))
          (QState sample_qworld sample_queue) with
  | Ok (_, QState w q) =>
      (opt_count (cur_rdb q) =? 0) && (cur_index (cur_rdb q) =? 1) && (cur_index (cur_wdb q) =? 1) &&
      (pos (cur_rdb q) =? 128) &&
      match w_names w !! db_path sample_conf q 1 ≫= (w_inodes w !!.) with
      | Some (File _ d) => (head_count d =? 0) &&
          forallb (fun i => negb (byte_at d i =? MSG_HEAD_OF_FIRST_MAGIC_NUM)) (seqZ 0 128)
      | None => false
      end
  | _ => false
  end.

Lemma sample_pushed : exists w q,
  queue_inv sample_conf w q [(1000, sample_body)] /\
  opt_count (cur_rdb q) = 0 /\ cur_index (cur_rdb q) = 1 /\ cur_index (cur_wdb q) = 1 /\
  counts sample_conf w q 1 1.
Proof.
  assert (sample_pushed_check = true) as Hck by by vm_compute. unfold sample_pushed_check in Hck.
  destruct (push_ok sample_conf sample_conf_wf sample_qworld sample_queue []
    (MsgItem 0 0 0 0 1 (PBuf sample_body)) sample_body sample_inv sample_storage)
    as (it & w & q & E & Hinv & _); [reflexivity..|exact sample_body_ok|].
  rewrite E in Hck. clear E. change (w_clock sample_qworld) with 1000 in Hinv.
  rewrite !andb_true_iff, !Z.eqb_eq in Hck. destruct Hck as [[[[Hc Hr] Hw] Hp] Hd].
  exists w, q. split_and!; try done.
  pose proof (inv_pos _ _ _ _ Hinv) as [_ Hpos].
  destruct (inv_contents _ _ _ _ Hinv) as (ino & d & [Hf _] & Hcl & [(_ & _ & _ & s & Hs & Hcs & Hl)|(Hlt & _)]);
    [|lia].
  rewrite Hw in Hf. pose proof Hf as (Hn & Hi & _). rewrite Hn in Hd. cbn in Hd. rewrite Hi in Hd.
  rewrite andb_true_iff, Z.eqb_eq, forallb_forall in Hd. destruct Hd as [Hh Hz].
  exists ino, d. split; [done|]. right. split; [by intros [? _]|].
  assert (s + 12 + 1 = pos (cur_wdb q)) as Hlen by apply Hl. unfold scan_end. rewrite Hr, Hw. change (1 =? 1) with true.
  exists s, [(1000, sample_body)], (pos (cur_wdb q)). rewrite Hp in Hs, Hcs.
  split; [done|]. split; [lia|]. split; [|split; [lia|split; [intros i; lia|done]]].
  intros i Hi'. destruct (decide (i < 128)) as [Hlt|]; [|apply Hcs; lia].
  specialize (Hz i). rewrite negb_true_iff, Z.eqb_neq in Hz. apply Hz.
  apply list_elem_of_In, elem_of_seqZ. lia.
Qed.

(** ** The property *)

(** What is counted: the messages of the files, less those that were read. *)
Definition rebuilt_count (q : mq_queue) (ns : Z -> Z) : Z :=
  Z.max 0 (zsum (ns <$> file_indices q) - opt_count (cur_rdb q)).

(** C16: the count of waiting messages is rebuilt from the files: when each data
    file of the queue states a number of messages at its head, or states none that
    is possible and a scan finds that many, [mq_sm_get_msg_count] returns the sum
    of these numbers less the messages that were read from the reader's file, and
    0 when more were read than the files state; this becomes the unread count, the
    sum becomes the number of puts and the messages read the number of gets,
    in whatever order the directory is listed, and the store, its files and its
    descriptors are left as they were. *)
Theorem msg_count_spec conf w q ms (ns : Z -> Z) :
  conf_wf conf -> queue_inv conf w q ms -> unread_count q = 0 -> cur_index (cur_wdb q) < MAX_INDEX ->
  Forall (fun i => counts conf w q i (ns i)) (file_indices q) ->
  0 <= opt_count (cur_rdb q) -> zsum (ns <$> file_indices q) < 18446744073709551616 ->
  exists m q', mq_sm_get_msg_count conf (QState w q) = Ok (rebuilt_count q ns, QState (set_next m w) q') /\
    w_next w <= m /\ unread_count q' = rebuilt_count q ns /\ get_num q' = opt_count (cur_rdb q) /\
    put_num q' = zsum (ns <$> file_indices q) /\ queue_inv conf (set_next m w) q' ms.
Proof.
  intros Hc Hinv Hu Hmax Hall Hopt Hbig.
  pose proof (inv_index _ _ _ _ Hinv) as [H0 _]. pose proof (inv_pos _ _ _ _ Hinv) as [_ Hpos].
  pose proof (inv_fits _ _ _ _ Hinv) as [Hfit _].
  destruct (inv_files conf w q ms Hinv) as (wino & dw & rino & dr & _ & _ & Hle).
  destruct (inv_rtag _ _ _ _ Hinv) as (o & f & _ & Htag).
  destruct (dir_listing conf w q) as (es & E & Hok & _ & Hnd & Hr & Hin);
    [apply (inv_disk _ _ _ _ Hinv)|lia|eauto|].
  assert (dbs es ≡ₚ file_indices q) as Hp.
  { eapply listed_indices; try done. eapply Forall_impl; [exact Hall|].
    intros i (ino & d & (Hi & _) & _). eauto. }
  assert (zsum (ns <$> dbs es) = zsum (ns <$> file_indices q)) as Hs by by rewrite Hp.
  destruct (count_entries_run conf Hc q ns es w 0) as (m & Em & Hm); try done.
  - apply (inv_wf _ _ _ _ Hinv).
  - apply (inv_faults _ _ _ _ Hinv).
  - unfold DB_FILE_HEAD_LEN in Hpos. lia.
  - apply Forall_forall. intros i Hi. rewrite Forall_forall in Hr, Hall. split.
    + destruct (inv_free _ _ _ _ Hinv) as (_ & Hfree & _). apply Hr in Hi. apply Hfree. lia.
    + rewrite Hp in Hi. by apply Hall.
  - rewrite Hs. lia.
  - rewrite Hs, Z.add_0_l in Em.
    exists m. eexists. split; [|split; [done|]].
    + unfold mq_sm_get_msg_count. rewrite run_queue. cbv beta. rewrite Hu. cbn [Z.eqb negb]. cbv iota.
      erewrite bind_ok; cycle 1.
      { apply sys_ok. rewrite queue_path_eq by done. unfold sys_opendir, gets.
        rewrite bool_decide_true by (apply (inv_free _ _ _ _ Hinv)). by rewrite E. }
      cbv beta iota. erewrite bind_ok by (apply sys_ok; exact Em). rewrite !run_update.
      replace (if _ <=? _ then _ else 0) with (rebuilt_count q ns).
      { unfold ret. reflexivity. }
      unfold rebuilt_count. destruct (Z.leb_spec (opt_count (cur_rdb q)) (zsum (ns <$> file_indices q))); lia.
    + split_and!; [done|done|done|].
      apply inv_unread, inv_put_num, inv_get_num. eapply inv_extends; [done|].
      apply extends_next; [apply (inv_wf _ _ _ _ Hinv)|apply (inv_faults _ _ _ _ Hinv)|done].
Qed.

(** ** Witness: the queue with one message, its count unknown *)
Lemma msg_count_spec_witness : exists w q m q',
  mq_sm_get_msg_count sample_conf (QState w q) = Ok (1, QState (set_next m w) q') /\
  w_next w <= m /\ unread_count q' = 1 /\ queue_inv sample_conf (set_next m w) q' [(1000, sample_body)].
Proof.
  destruct sample_pushed as (w & q & Hinv & Hc & Hr & Hw & Hd).
  assert (rebuilt_count (with_unread 0 q) (fun _ => 1) = 1) as H1.
  { unfold rebuilt_count, file_indices. cbn. by rewrite Hr, Hw, Hc. }
  destruct (msg_count_spec sample_conf w (with_unread 0 q) [(1000, sample_body)] (fun _ => 1))
    as (m & q' & E & Hm & Hun & _ & _ & Hinv').
  - exact sample_conf_wf.
  - by apply inv_unread.
  - reflexivity.
  - cbn. rewrite Hw. reflexivity.
  - unfold file_indices. cbn. rewrite Hr, Hw. constructor; [|constructor]. exact Hd.
  - cbn. rewrite Hc. lia.
  - unfold file_indices. cbn. rewrite Hr, Hw. reflexivity.
  - rewrite H1 in E, Hun. exists w, (with_unread 0 q), m, q'. by split_and!.
Defined.
