(* ===== verification/Ini.v ===== *)
(** * source/ini.c

    The parser of the configuration file: lines, sections, keys with one or
    several values, and the variables [$(key)] in values.

    A string is its characters before the NUL.  The table [hash_table] is the
    list of its nodes in the order of [HASH_ITER]; a node keeps the union of
    [value] and [values] as the inductive [kv_vals].  [malloc] and [fopen] fail
    when the list of failures of [World] says so. *)
From S2P Require Import Prelude.
From S2P Require Import CLib.
From S2P Require Import World.

Definition TOKEN_SIZE : nat := 1024.
Definition MAX_TOKENS : Z := 1024.
Definition LINE_SIZE : nat := 4 * TOKEN_SIZE + 1.

Definition MQ_ENOMEM : Z := -12.
Definition MQ_ENOKEY : Z := -126.

(** ** The table *)

(** A string, or memory that the union lets the code read as one although it is
    an array of pointers. *)
Inductive slot := Str (s : bytes) | Junk.

(** The unions of [ini_kv_t]: one value, an array of [cap] pointers of which the
    first ones are set, or the null pointer a failed [malloc] left. *)
Inductive kv_vals := One (s : slot) | Arr (cap : Z) (l : list slot) | NoVals.
Inductive kv_lines := LineOne (n : Z) | LineArr (cap : Z) (l : list Z) | NoLines.

Record ini_kv := IniKv {
  value_count : Z;        (* uint16_t *)
  values_size : Z;        (* uint16_t *)
  vals : kv_vals;
  lines : kv_lines
}.
Definition ini_t : Type := list (bytes * ini_kv).

Fixpoint HASH_FIND_STR (t : ini_t) (key : bytes) : option ini_kv :=
  match t with
  | [] => None
  | (k, kv) :: t => if bool_decide (k = key) then Some kv else HASH_FIND_STR t key
  end.
(** Writing through the pointer that [HASH_FIND_STR] returned. *)
Fixpoint kv_store (t : ini_t) (key : bytes) (kv : ini_kv) : ini_t :=
  match t with
  | [] => []
  | (k, kv0) :: t => if bool_decide (k = key) then (k, kv) :: t else (k, kv0) :: kv_store t key kv
  end.

(** [malloc]: whether there was memory. *)
Definition malloc : M world bool := let! bad := pick_fault in ret (negb bad).

(** ** Adding a value *)

(** The array for a second value: [values], then [lines]. *)
Definition kv_first_array (kv : ini_kv) : M world (Z * ini_kv) :=
  if negb (values_size kv =? 0) then ret (0, kv)
  else
    let p := match vals kv with One s => s | _ => Junk end in
    let! ok := malloc in
    if negb ok then ret (MQ_ENOMEM, IniKv (value_count kv) 0 NoVals (lines kv))
    else
      let l := match lines kv with LineOne n => n | _ => 0 end in
      let! ok := malloc in
      if negb ok then ret (MQ_ENOMEM, IniKv (value_count kv) 8 (Arr 8 [p]) NoLines)
      else ret (0, IniKv (value_count kv) 8 (Arr 8 [p]) (LineArr 8 [l])).

(** Twice the array when it is full; the count is doubled in 16 bits. *)
Definition kv_grow (kv : ini_kv) : M world (Z * ini_kv) :=
  if negb (values_size kv <=? value_count kv) then ret (0, kv)
  else
    let! ok := malloc in
    if negb ok then ret (MQ_ENOMEM, IniKv (value_count kv) (values_size kv) NoVals (lines kv))
    else
      let values := match vals kv with Arr _ pp => Arr (values_size kv * 2) pp | v => v end in
      let! ok := malloc in
      if negb ok then ret (MQ_ENOMEM, IniKv (value_count kv) (values_size kv) values NoLines)
      else
        let ll := match lines kv with LineArr _ ll => LineArr (values_size kv * 2) ll | l => l end in
        ret (0, IniKv (value_count kv) (u16 (Z.shiftl (values_size kv) 1)) values ll).

(** The value behind the last one; a write outside the array is a fault. *)
Definition kv_append (kv : ini_kv) (value : bytes) (line : Z) : M world (Z * ini_kv) :=
  match vals kv with
  | Arr cap l =>
      if (value_count kv <? cap) && (value_count kv =? Z.of_nat (length l)) then
        let! ok := malloc in
        if negb ok then ret (MQ_ENOMEM, kv)
        else
          match lines kv with
          | LineArr lcap ll =>
              if value_count kv <? lcap then
                ret (0, IniKv (u16 (value_count kv + 1)) (values_size kv)
                          (Arr cap (l ++ [Str value])) (LineArr lcap (ll ++ [line])))
              else fault
          | _ => fault
          end
      else fault
  | _ => fault
  end.

Definition add_key_value (t : ini_t) (key value : bytes) (line : Z) : M world (Z * ini_t) :=
  match HASH_FIND_STR t key with
  | None =>
      let! ok := malloc in
      if negb ok then ret (MQ_ENOMEM, t)
      else ret (0, t ++ [(key, IniKv 1 0 (One (Str value)) (LineOne line))])
  | Some kv =>
      let! '(rc, kv) := kv_first_array kv in
      if negb (rc =? 0) then ret (rc, kv_store t key kv)
      else
        let! '(rc, kv) := kv_grow kv in
        if negb (rc =? 0) then ret (rc, kv_store t key kv)
        else
          let! '(rc, kv) := kv_append kv value line in
          ret (rc, kv_store t key kv)
  end.

(** ** Looking a key up *)

(** The value, and the number of values. *)
Definition find_key (t : ini_t) (key : bytes) (idx : Z) : option slot * Z :=
  match HASH_FIND_STR t key with
  | None => (None, 0)
  | Some kv =>
      if value_count kv <=? idx then (None, value_count kv)
      else
        ((if values_size kv <=? 1
          then match vals kv with One s => Some s | Arr _ _ => Some Junk | NoVals => None end
          else match vals kv with
               | Arr _ l => Some (default Junk (l !! Z.to_nat idx))
               | _ => Some Junk
               end), value_count kv)
  end.

Definition full_key (section key : bytes) : bytes :=
  if bool_decide (section = []) then key
  else snprintf (2 * TOKEN_SIZE + 1) (section ++ B ":" ++ key).
Definition ini_find (t : ini_t) (section key : bytes) (idx : Z) : option slot :=
  (find_key t (full_key section key) idx).1.
Definition ini_count (t : ini_t) (section key : bytes) : Z :=
  (find_key t (full_key section key) 0).2.

(** Freeing a node reads its array. *)
Definition kv_free (kv : ini_kv) : M world unit :=
  if (values_size kv =? 0) || (values_size kv =? 1) then ret tt
  else
    let first := if Z.land (values_size kv) 1 =? 0 then 1 else 0 in
    match vals kv with
    | Arr _ _ => ret tt
    | _ => if value_count kv <=? first then ret tt else fault
    end.
Fixpoint ini_clear (t : ini_t) : M world Z :=
  match t with
  | [] => ret 0
  | (_, kv) :: t => kv_free kv ;;; ini_clear t
  end.

(** ** Lines *)

(** [trim_str]: from the first character that is not a blank; with [trim_end],
    up to the last one.  The loop for the end has no bound: on a string of
    blanks it runs below the start of the buffer. *)
Definition trim_str (s : bytes) (trim_end : bool) : M world bytes :=
  match s with
  | [] => ret []
  | _ =>
      let start := skip_space s in
      if trim_end then
        match start with
        | [] => fault
        | _ => ret (rev (skip_space (rev start)))
        end
      else ret start
  end.

(** [%<n>[..]]: the characters that satisfy [p], at most [n]. *)
Fixpoint scan_set (p : Z -> bool) (n : nat) (s : bytes) : bytes * bytes :=
  match n, s with
  | S n, c :: rest =>
      if p c then let '(a, r) := scan_set p n rest in (c :: a, r) else ([], s)
  | _, _ => ([], s)
  end.

(** [sscanf(where, "[%1024[^]]", sec) == 1] *)
Definition scan_section (s : bytes) : option bytes :=
  match s with
  | 91 :: rest =>
      match (scan_set (fun c => negb (c =? 93)) TOKEN_SIZE rest).1 with
      | [] => None
      | sec => Some sec
      end
  | _ => None
  end.

(** [sscanf(where, "%1024[^=] = %1024[^\r\n]", key, val) > 0], [val] being the
    empty string before. *)
Definition scan_key_val (s : bytes) : option (bytes * bytes) :=
  match scan_set (fun c => negb (c =? 61)) TOKEN_SIZE s with
  | ([], _) => None
  | (key, rest) =>
      match skip_space rest with
      | 61 :: rest =>
          Some (key, (scan_set (fun c => negb ((c =? 13) || (c =? 10))) TOKEN_SIZE (skip_space rest)).1)
      | _ => Some (key, [])
      end
  end.

(** The successive results of [fgets(line, LINE_SIZE, fp)]; [room] is what is
    left for the line that is being read. *)
Fixpoint file_lines (room : nat) (cur s : bytes) : list bytes :=
  match s with
  | [] => match cur with [] => [] | _ => [rev cur] end
  | c :: s =>
      match (c =? 10), room with
      | false, S (S room) => file_lines (S room) (c :: cur) s
      | _, _ => rev (c :: cur) :: file_lines (LINE_SIZE - 1) [] s
      end
  end.

(** A line with a key: [prefix] is the section with its colon, in front of the
    place where the key is read.  The key begins with a character that is no
    blank, so that trimming never reaches into the section. *)
Definition ini_key_line (t : ini_t) (prefix whr : bytes) (line_num : Z) : M world (Z * ini_t) :=
  match scan_key_val whr with
  | None => ret (0, t)
  | Some (key, val) =>
      let! cur_key := trim_str (prefix ++ key) true in
      let! cur_val := trim_str val true in
      add_key_value t cur_key cur_val line_num
  end.

(** One round of the loop: the table, the section, or an error. *)
Definition ini_line (t : ini_t) (prefix line : bytes) (line_num : Z) : M world (Z * ini_t * bytes) :=
  let! whr := trim_str (cstr line) false in
  let key_line := (let! '(rc, t) := ini_key_line t prefix whr line_num in ret (rc, t, prefix)) in
  match whr with
  | [] => ret (0, t, prefix)
  | c :: _ =>
      if (c =? 59) || (c =? 35) then ret (0, t, prefix)
      else if c =? 91 then
        match scan_section whr with
        | Some sec => ret (0, t, sec ++ B ":")
        | None => key_line
        end
      else key_line
  end.

(** [None] when memory was short: the table has been freed. *)
Fixpoint ini_lines (t : ini_t) (prefix : bytes) (line_num : Z) (ls : list bytes) : M world (option ini_t) :=
  match ls with
  | [] => ret (Some t)
  | l :: ls =>
      let line_num := u32 (line_num + 1) in
      let! '(rc, t, prefix) := ini_line t prefix l line_num in
      if negb (rc =? 0) then ini_clear t ;;; ret None
      else ini_lines t prefix line_num ls
  end.

(** ** Variables *)

(** The buffer of [find_token]: its characters up to the NUL, [*cur_len], and
    [*tokens].  Positions count from the start of the buffer, so that [start] is
    [start_offset] as well. *)
Record tokens := Tokens { tk_buf : bytes; tk_len : Z; tk_left : Z }.
Definition with_left (n : Z) (s : tokens) : tokens := Tokens (tk_buf s) (tk_len s) n.

(** The end of a variable at [p]: [Some] with [start] when it was replaced, and
    [None] when the name is not known or the buffer is too small. *)
Definition replace_token (t : ini_t) (start skip : nat) (max_size : Z) (p : nat) : M tokens (option nat) :=
  fun s =>
  let name := drop (start + skip) (take p (tk_buf s)) in
  match find_key t name 0 with
  | (Some find_str, 1) =>
      match find_str with
      | Junk => Fault
      | Str v =>
          let old_len := Z.of_nat (p - start) + 1 in
          let new_len := strlen v in
          let move_len := tk_len s - old_len - Z.of_nat start in
          let cur_len := tk_len s + (new_len - old_len) in
          if max_size <=? cur_len then Ok (None, Tokens (tk_buf s) cur_len (tk_left s))
          else if move_len <? 0 then Fault
          else Ok (Some start, Tokens (take start (tk_buf s) ++ v ++
                                       take (Z.to_nat move_len) (drop (S p) (tk_buf s)))
                                 cur_len (tk_left s))
      end
  | _ => Ok (None, s)
  end.

(** [depth] bounds the calls inside one another, of which there are at most
    [MAX_TOKENS], and [rounds] the rounds of one call: each moves on by one
    character or is one more call. *)
Definition token_rounds (max_size : Z) : nat := Z.to_nat max_size + Z.to_nat MAX_TOKENS.
Fixpoint scan_tokens (variable : nat -> M tokens (option nat)) (t : ini_t) (start skip : nat)
    (max_size : Z) (rounds p : nat) : M tokens (option nat) :=
  match rounds with
  | O => fun _ => OutOfFuel
  | S rounds =>
      let! buf := gets tk_buf in
      match drop p buf with
      | [] => ret (Some p)
      | c :: rest =>
          if (c =? 36) && bool_decide (head rest = Some 40) then
            let! r := variable p in
            match r with
            | None => ret None
            | Some p => scan_tokens variable t start skip max_size rounds p
            end
          else if (c =? 41) && negb (Nat.eqb skip 0) then replace_token t start skip max_size p
          else scan_tokens variable t start skip max_size rounds (S p)
      end
  end.
Fixpoint find_token (depth : nat) (t : ini_t) (start skip : nat) (max_size : Z) : M tokens (option nat) :=
  match depth with
  | O => fun _ => OutOfFuel
  | S depth =>
      modify (fun s => with_left (tk_left s - 1) s) ;;;
      let! n := gets tk_left in
      if n <=? 0 then ret None
      else scan_tokens (fun p => find_token depth t p 2 max_size) t start skip max_size
             (token_rounds max_size) (start + skip)
  end.

(** The position of [$(], as [strstr] finds it. *)
Fixpoint find_var (s : bytes) : option nat :=
  match s with
  | [] => None
  | c :: rest =>
      if (c =? 36) && bool_decide (head rest = Some 40) then Some 0%nat
      else S <$> find_var rest
  end.

(** The new string, and whether it is a copy because it does not fit in the
    place of [str]; [None] for an error. *)
Definition replace_in_line (str : bytes) (buf_size : Z) (t : ini_t) : M world (option (bytes * bool)) := fun w =>
  match find_var str with
  | None => Ok (Some (str, false), w)
  | Some offset =>
      if buf_size <=? strlen str then Fault
      else
        match find_token (Z.to_nat MAX_TOKENS) t offset 0 buf_size (Tokens str (strlen str) MAX_TOKENS) with
        | Ok (None, _) => Ok (None, w)
        | Ok (Some _, s) =>
            if tk_len s <=? strlen str then Ok (Some (take (Z.to_nat (tk_len s)) (tk_buf s), false), w)
            else (let! ok := malloc in ret (if ok then Some (tk_buf s, true) else None)) w
        | Fault => Fault
        | OutOfFuel => OutOfFuel
        end
  end.

(** The values of a node, one after the other; each is looked up in the table
    as it is by then. *)
Definition set_slot (i : nat) (v : bytes) (kv : ini_kv) : ini_kv :=
  IniKv (value_count kv) (values_size kv)
    (match vals kv with
     | One _ => One (Str v)
     | Arr cap l => Arr cap (<[i := Str v]> l)
     | NoVals => NoVals
     end) (lines kv).
Definition mark_copy (kv : ini_kv) : ini_kv :=
  IniKv (value_count kv) (Z.lor (values_size kv) 1) (vals kv) (lines kv).

Definition replace_slot (t : ini_t) (key : bytes) (kv : ini_kv) (i : nat) (s : slot) (buf_size : Z)
  : M world (option ini_t) :=
  match s with
  | Junk => fault
  | Str str =>
      let! r := replace_in_line str buf_size t in
      match r with
      | None => ret None
      | Some (v, copied) =>
          let kv := set_slot i v kv in
          ret (Some (kv_store t key (if copied && Nat.eqb i 0 then mark_copy kv else kv)))
      end
  end.

Fixpoint replace_values (t : ini_t) (key : bytes) (i n : nat) (buf_size : Z) : M world (option ini_t) :=
  match n with
  | O => ret (Some t)
  | S n =>
      match HASH_FIND_STR t key with
      | Some kv =>
          match vals kv with
          | Arr _ l =>
              let! r := replace_slot t key kv i (default Junk (l !! i)) buf_size in
              match r with
              | None => ret None
              | Some t => replace_values t key (S i) n buf_size
              end
          | _ => fault
          end
      | None => fault
      end
  end.

Fixpoint replace_each (keys : list bytes) (t : ini_t) (buf_size : Z) : M world (Z * ini_t) :=
  match keys with
  | [] => ret (0, t)
  | key :: keys =>
      let! r :=
        match HASH_FIND_STR t key with
        | Some kv =>
            if value_count kv =? 1 then
              match vals kv with
              | One s => replace_slot t key kv 0 s buf_size
              | _ => fault
              end
            else replace_values t key 0 (Z.to_nat (value_count kv)) buf_size
        | None => fault
        end in
      match r with
      | None => ret (MQ_ENOKEY, t)
      | Some t => replace_each keys t buf_size
      end
  end.
Definition replace_var (t : ini_t) (buf_size : Z) : M world (Z * ini_t) := replace_each t.*1 t buf_size.

(** ** Loading a file *)

(** The bytes that [fopen(file, "r")] and [fgets] give; a directory can be
    opened but not read. *)
Definition fopen_read (path : bytes) : M world (option bytes) :=
  let! bad := pick_fault in
  if bad then ret None else fun w =>
  if bool_decide (path ∈ w_dirs w) then Ok (Some [], w)
  else
    match w_names w !! path with
    | Some ino =>
        match w_inodes w !! ino with
        | Some f => Ok (Some (get_bytes (f_data f) 0 (Z.to_nat (f_size f))), w)
        | None => Ok (None, w)
        end
    | None => Ok (None, w)
    end.

Definition ini_load (path : bytes) : M world (option ini_t) :=
  let! ok := malloc in
  if negb ok then ret None
  else
    let! text := fopen_read path in
    match text with
    | None => ret None
    | Some text =>
        let! r := ini_lines [] [] 0 (file_lines (LINE_SIZE - 1) [] text) in
        match r with
        | None => ret None
        | Some t =>
            let! '(rc, t) := replace_var t (Z.of_nat LINE_SIZE) in
            if negb (rc =? 0) then ini_clear t ;;; ret None else ret (Some t)
        end
    end.
