(* ===== verification/IniSpec.v ===== *)
(** * What the parser of the configuration does

    The table as an association of keys with lists of values, the lines of a
    file as steps on it, and the values with their variables replaced: no file
    makes the parser run into undefined behaviour or into an endless loop, as
    long as there is memory and no key has more values than its 16-bit count
    allows. *)
From S2P Require Import Prelude.
From S2P Require Import CLib.
From S2P Require Import World.
From S2P Require Import Ini.

(** ** Characters *)
Lemma scan_set_split p n s : (scan_set p n s).1 ++ (scan_set p n s).2 = s.
Proof.
  revert s. induction n as [|n IH]; intros [|c s]; simpl; try done.
  destruct (p c); [|done]. specialize (IH s). destruct (scan_set p n s). simpl in *. by rewrite IH.
Qed.
Lemma scan_set_length p n s : (length (scan_set p n s).1 <= n)%nat.
Proof.
  revert s. induction n as [|n IH]; intros [|c s]; simpl; try lia.
  destruct (p c); [|simpl; lia]. specialize (IH s). destruct (scan_set p n s). simpl in *. lia.
Qed.
Lemma scan_set_head p n s c r : (scan_set p n s).1 = c :: r -> exists r', s = c :: r'.
Proof. intros E. pose proof (scan_set_split p n s) as Hs. rewrite E in Hs. rewrite <- Hs. by eexists. Qed.
Lemma scan_set_all p n a b :
  Forall (fun c => p c = true) a -> (length a <= n)%nat -> (forall c r, b = c :: r -> p c = false) ->
  scan_set p n (a ++ b) = (a, b).
Proof.
  revert n. induction a as [|c a IH]; intros n Ha Hn Hb.
  - destruct n, b as [|c b]; simpl; try done. by rewrite (Hb c b).
  - apply Forall_cons in Ha as [Hc Ha]. destruct n as [|n]; simpl in *; [lia|].
    rewrite Hc, IH by (done || lia). done.
Qed.

Definition blank_free (s : bytes) : Prop := forall c r, s = c :: r -> isspace c = false.
#[export] Instance blank_free_dec s : Decision (blank_free s).
Proof.
  refine (match s with
          | [] => left _
          | c :: _ => if decide (isspace c = false) then left _ else right _
          end); [by intros ? ?|by intros ? ? [= <- _]|]. intros H. by eapply n, H.
Defined.
Lemma skip_space_free s : blank_free (skip_space s).
Proof.
  induction s as [|c s IH]; intros d r; simpl; [done|].
  destruct (isspace c) eqn:E; [apply IH|]. by intros [= -> _].
Qed.
Lemma skip_space_id s : blank_free s -> skip_space s = s.
Proof. intros H. destruct s as [|c s]; [done|]. simpl. by rewrite (H c s). Qed.
Lemma skip_space_blanks a s : Forall (fun c => isspace c = true) a -> skip_space (a ++ s) = skip_space s.
Proof. induction 1 as [|c a Hc _ IH]; [done|]. simpl. by rewrite Hc. Qed.
Lemma skip_space_length s : (length (skip_space s) <= length s)%nat.
Proof. induction s as [|c s IH]; simpl; [lia|]. destruct (isspace c); simpl; lia. Qed.
Lemma skip_space_nonempty s c : c ∈ s -> isspace c = false -> skip_space s <> [].
Proof.
  intros Hin Hc. induction s as [|d s IH]; [by apply elem_of_nil in Hin|]. simpl.
  destruct (isspace d) eqn:E; [|done]. apply elem_of_cons in Hin as [->|Hin]; [congruence|by apply IH].
Qed.

(** What [trim_str] leaves. *)
Definition trimmed (s : bytes) : bytes := rev (skip_space (rev (skip_space s))).
Lemma trim_start s w : trim_str s false w = Ok (skip_space s, w).
Proof. by destruct s. Qed.
Lemma trim_both s c w : s = [] \/ (c ∈ s /\ isspace c = false) -> trim_str s true w = Ok (trimmed s, w).
Proof.
  intros [->|[Hin Hc]]; [done|]. pose proof (skip_space_nonempty s c Hin Hc) as Hne.
  unfold trim_str, trimmed. destruct s; [by apply elem_of_nil in Hin|]. destruct (skip_space _); done.
Qed.
Lemma trimmed_length s : (length (trimmed s) <= length s)%nat.
Proof.
  unfold trimmed. rewrite length_rev. pose proof (skip_space_length (rev (skip_space s))) as H.
  rewrite length_rev in H. pose proof (skip_space_length s). lia.
Qed.
Lemma trimmed_id s : blank_free s -> blank_free (rev s) -> trimmed s = s.
Proof. intros H H'. unfold trimmed. by rewrite (skip_space_id s), (skip_space_id (rev s)), rev_involutive by done. Qed.

(** ** A node and the values it stands for *)
Inductive node : list bytes -> ini_kv -> Prop :=
| node_one v n : node [v] (IniKv 1 0 (One (Str v)) (LineOne n))
| node_arr vs ll k : 3 <= k <= 15 -> 1 < Z.of_nat (length vs) <= 2 ^ k ->
    node vs (IniKv (Z.of_nat (length vs)) (2 ^ k) (Arr (2 ^ k) (Str <$> vs)) (LineArr (2 ^ k) ll)).

Lemma pow_bounds k : 3 <= k <= 15 -> 8 <= 2 ^ k <= 32768.
Proof. intros H. change 8 with (2 ^ 3). change 32768 with (2 ^ 15). split; apply Z.pow_le_mono_r; lia. Qed.

Lemma malloc_ok w : w_faults w = [] -> malloc w = Ok (true, w).
Proof. intros H. unfold malloc, pick_fault, bind. by rewrite H. Qed.

Definition add_to (kv : ini_kv) (v : bytes) (line : Z) : M world (Z * ini_kv) :=
  let! '(rc, kv) := kv_first_array kv in
  if negb (rc =? 0) then ret (rc, kv)
  else
    let! '(rc, kv) := kv_grow kv in
    if negb (rc =? 0) then ret (rc, kv) else kv_append kv v line.

(** One more value, up to 32768. *)
Lemma append_arr vs v line k ll w :
  w_faults w = [] -> 3 <= k <= 15 -> Z.of_nat (length vs) < 2 ^ k ->
  kv_append (IniKv (Z.of_nat (length vs)) (2 ^ k) (Arr (2 ^ k) (Str <$> vs)) (LineArr (2 ^ k) ll)) v line w
  = Ok ((0, IniKv (Z.of_nat (length (vs ++ [v]))) (2 ^ k) (Arr (2 ^ k) (Str <$> (vs ++ [v])))
              (LineArr (2 ^ k) (ll ++ [line]))), w).
Proof.
  intros Hnf Hk Hl. pose proof (pow_bounds k Hk). unfold kv_append. cbn [vals value_count lines values_size].
  rewrite (proj2 (Z.ltb_lt _ _)) by lia. rewrite length_fmap, Z.eqb_refl. cbn [andb].
  erewrite bind_ok by by apply malloc_ok. cbn [negb]. rewrite length_app. cbn [length].
  rewrite u16_small by lia. rewrite fmap_app. unfold ret. do 4 f_equal. lia.
Qed.

Lemma grow_arr vs k ll w :
  w_faults w = [] -> 3 <= k <= 15 -> 1 <= Z.of_nat (length vs) <= 2 ^ k -> Z.of_nat (length vs) < 32768 ->
  exists k', 3 <= k' <= 15 /\ Z.of_nat (length vs) < 2 ^ k' /\
  kv_grow (IniKv (Z.of_nat (length vs)) (2 ^ k) (Arr (2 ^ k) (Str <$> vs)) (LineArr (2 ^ k) ll)) w
  = Ok ((0, IniKv (Z.of_nat (length vs)) (2 ^ k') (Arr (2 ^ k') (Str <$> vs)) (LineArr (2 ^ k') ll)), w).
Proof.
  intros Hnf Hk Hl Hm. pose proof (pow_bounds k Hk). unfold kv_grow.
  cbn [vals value_count lines values_size]. destruct (Z.leb_spec (2 ^ k) (Z.of_nat (length vs))); cbn [negb].
  - assert (k < 15) as Hk15.
    { destruct (decide (k = 15)) as [->|]; [|lia]. change (2 ^ 15) with 32768 in *. lia. }
    exists (k + 1). assert (2 ^ (k + 1) = 2 ^ k * 2) as Ep by (rewrite Z.pow_add_r by lia; lia).
    pose proof (pow_bounds (k + 1) ltac:(lia)). split_and!; [lia|lia|lia|].
    erewrite bind_ok by by apply malloc_ok. cbn [negb]. erewrite bind_ok by by apply malloc_ok. cbn [negb].
    rewrite Z.shiftl_mul_pow2 by lia. change (2 ^ 1) with 2. rewrite u16_small by lia. by rewrite Ep.
  - exists k. split_and!; try done; lia.
Qed.

Lemma add_to_node vs kv v line w :
  w_faults w = [] -> node vs kv -> Z.of_nat (length vs) < 32768 ->
  exists kv', add_to kv v line w = Ok ((0, kv'), w) /\ node (vs ++ [v]) kv'.
Proof.
  intros Hnf Hn Hl.
  assert (exists k ll, 3 <= k <= 15 /\ 1 <= Z.of_nat (length vs) <= 2 ^ k /\ kv_first_array kv w =
    Ok ((0, IniKv (Z.of_nat (length vs)) (2 ^ k) (Arr (2 ^ k) (Str <$> vs)) (LineArr (2 ^ k) ll)), w))
    as (k & ll & Hk & Hlk & E).
  { destruct Hn as [v0 n|vs ll k Hk Hlk].
    - exists 3, [n]. split; [lia|]. split; [simpl; lia|]. unfold kv_first_array. cbn [values_size Z.eqb negb].
      erewrite bind_ok by by apply malloc_ok. cbn [negb]. by erewrite bind_ok by by apply malloc_ok.
    - exists k, ll. split; [done|]. split; [lia|]. unfold kv_first_array. cbn [values_size].
      pose proof (pow_bounds k Hk). by rewrite (proj2 (Z.eqb_neq _ _)) by lia. }
  unfold add_to. erewrite bind_ok by exact E. cbn [Z.eqb negb].
  destruct (grow_arr vs k ll w) as (k' & Hk' & Hl' & E'); try done; try lia.
  erewrite bind_ok by exact E'. cbn [Z.eqb negb].
  eexists. split; [by apply append_arr|]. apply node_arr; [done|]. rewrite length_app. simpl. lia.
Qed.

(** ** The table and the association it stands for *)
Definition assoc : Type := list (bytes * list bytes).
Fixpoint a_add (m : assoc) (key v : bytes) : assoc :=
  match m with
  | [] => [(key, [v])]
  | (k, vs) :: m => if bool_decide (k = key) then (k, vs ++ [v]) :: m else (k, vs) :: a_add m key v
  end.
Fixpoint a_find (m : assoc) (key : bytes) : list bytes :=
  match m with
  | [] => []
  | (k, vs) :: m => if bool_decide (k = key) then vs else a_find m key
  end.

Definition stands_for (t : ini_t) (m : assoc) : Prop :=
  Forall2 (fun kv mv => kv.1 = mv.1 /\ node mv.2 kv.2) t m.

(** No list of values is longer than [n]. *)
Definition at_most (n : Z) (m : assoc) : Prop := Forall (fun mv => Z.of_nat (length mv.2) <= n) m.
Lemma at_most_add n m key v : at_most n m -> 0 <= n -> at_most (n + 1) (a_add m key v).
Proof.
  intros H Hn. induction H as [|[k vs] m Hv Hm IH]; simpl; [repeat constructor; simpl; lia|].
  destruct (bool_decide (k = key)); constructor; simpl in *; try done; try lia.
  - rewrite length_app. simpl. lia.
  - eapply Forall_impl; [exact Hm|]. intros ? H. simpl in H. lia.
Qed.

Lemma add_key_value_cons k kv t key v line w :
  k <> key ->
  add_key_value ((k, kv) :: t) key v line w =
  match add_key_value t key v line w with
  | Ok ((rc, t'), w') => Ok ((rc, (k, kv) :: t'), w')
  | Fault => Fault
  | OutOfFuel => OutOfFuel
  end.
Proof.
  intros Hk. unfold add_key_value. cbn [HASH_FIND_STR]. rewrite bool_decide_false by done.
  destruct (HASH_FIND_STR t key) as [kv0|].
  - unfold bind. destruct (kv_first_array kv0 w) as [[[rc kv1] w1]| |]; try done.
    destruct (negb (rc =? 0)). { cbn. by rewrite bool_decide_false by done. }
    destruct (kv_grow kv1 w1) as [[[rc2 kv2] w2]| |]; try done.
    destruct (negb (rc2 =? 0)). { cbn. by rewrite bool_decide_false by done. }
    destruct (kv_append kv2 v line w2) as [[[rc3 kv3] w3]| |]; try done.
    cbn. by rewrite bool_decide_false by done.
  - unfold bind. destruct (malloc w) as [[[] w1]| |]; try done.
Qed.

Lemma add_key_value_spec t m key v line w :
  w_faults w = [] -> stands_for t m -> at_most 32767 m ->
  exists t', add_key_value t key v line w = Ok ((0, t'), w) /\ stands_for t' (a_add m key v).
Proof.
  intros Hnf H. induction H as [|[k kv] [k' vs] t m [Ek Hn] Ht IH]; intros Hm.
  { unfold add_key_value. simpl. erewrite bind_ok by by apply malloc_ok. eexists. split; [done|].
    repeat constructor. }
  apply Forall_cons in Hm as [Hv Hm]. cbn in Ek, Hn, Hv. subst k'. cbn [a_add].
  destruct (bool_decide_reflect (k = key)) as [->|Hne].
  - destruct (add_to_node vs kv v line w Hnf Hn) as (kv' & E & Hn'); [lia|].
    exists ((key, kv') :: t). split; [|by constructor].
    unfold add_key_value. cbn [HASH_FIND_STR kv_store]. rewrite bool_decide_true by done.
    revert E. unfold add_to, bind. destruct (kv_first_array kv w) as [[[rc1 kv1] w1]| |]; [|done..].
    destruct (negb (rc1 =? 0)); [by intros [= -> -> ->]|].
    destruct (kv_grow kv1 w1) as [[[rc2 kv2] w2]| |]; [|done..].
    destruct (negb (rc2 =? 0)); [by intros [= -> -> ->]|].
    destruct (kv_append kv2 v line w2) as [[[rc3 kv3] w3]| |]; [|done..]. by intros [= -> -> ->].
  - destruct (IH Hm) as (t' & E & Ht'). exists ((k, kv) :: t'). rewrite add_key_value_cons, E by done.
    split; [done|]. by constructor.
Qed.

(** ** Lines *)
Definition a_key_line (m : assoc) (prefix whr : bytes) : assoc :=
  match scan_key_val whr with
  | None => m
  | Some (key, val) => a_add m (trimmed (prefix ++ key)) (trimmed val)
  end.
Definition a_line (st : assoc * bytes) (line : bytes) : assoc * bytes :=
  let '(m, prefix) := st in
  let whr := skip_space (cstr line) in
  match whr with
  | [] => (m, prefix)
  | c :: _ =>
      if (c =? 59) || (c =? 35) then (m, prefix)
      else if c =? 91 then
        match scan_section whr with
        | Some sec => (m, sec ++ B ":")
        | None => (a_key_line m prefix whr, prefix)
        end
      else (a_key_line m prefix whr, prefix)
  end.

(** A key begins with a character that is no blank, and so does a value that
    is not empty: trimming them stops inside the buffer. *)
Lemma scan_key_val_blanks s key val : blank_free s -> scan_key_val s = Some (key, val) ->
  (exists c r, key = c :: r /\ isspace c = false) /\ blank_free val /\
  (length key <= TOKEN_SIZE)%nat /\ (length val <= TOKEN_SIZE)%nat.
Proof.
  intros Hs. unfold scan_key_val. pose proof (scan_set_length (fun c => negb (c =? 61)) TOKEN_SIZE s) as Hl.
  destruct (scan_set _ _ s) as [[|c k] rest] eqn:E; [done|]. simpl in Hl.
  destruct (scan_set_head (fun c => negb (c =? 61)) TOKEN_SIZE s c k) as [r' ->]; [by rewrite E|].
  pose proof (Hs c r' eq_refl) as Hc.
  assert (forall v, Some (c :: k, v) = Some (key, val) -> blank_free v -> (length v <= TOKEN_SIZE)%nat ->
    (exists c r, key = c :: r /\ isspace c = false) /\ blank_free val /\
    (length key <= TOKEN_SIZE)%nat /\ (length val <= TOKEN_SIZE)%nat) as Hend.
  { intros v [= <- <-] Hv Hlv. split; [by exists c, k|]. done. }
  destruct (skip_space rest) as [|d r] eqn:Er; [intros H; by apply (Hend []); [|intros ? ?|simpl; lia]|].
  assert (d = 61 \/ (d <> 61 /\ forall A (x y : A), match d with 61 => x | _ => y end = y)) as [->|[_ Hd]].
  { destruct (decide (d = 61)) as [->|]; [by left|right; split; [done|]]. intros A x y.
    destruct d as [|p|p]; try done. repeat (destruct p as [p|p|]; try done). }
  - intros H. apply (Hend _ H); [|apply scan_set_length].
    intros x r2 E2. destruct (scan_set_head _ _ _ _ _ E2) as [r3 E3]. eapply skip_space_free. exact E3.
  - rewrite Hd. intros H. by apply (Hend []); [|intros ? ?|simpl; lia].
Qed.

Lemma trim_free s w : blank_free s -> trim_str s true w = Ok (trimmed s, w).
Proof.
  intros H. destruct s as [|c s]; [done|]. apply (trim_both _ c). right. split; [by left|]. by eapply H.
Qed.

Lemma ini_key_line_spec t m prefix whr n w :
  w_faults w = [] -> stands_for t m -> at_most 32767 m -> blank_free whr ->
  exists t', ini_key_line t prefix whr n w = Ok ((0, t'), w) /\ stands_for t' (a_key_line m prefix whr).
Proof.
  intros Hnf Ht Hm Hs. unfold ini_key_line, a_key_line.
  destruct (scan_key_val whr) as [[key val]|] eqn:E; [|by exists t].
  destruct (scan_key_val_blanks _ _ _ Hs E) as ((c & r & -> & Hc) & Hv & _).
  erewrite bind_ok by (apply (trim_both _ c); right; split; [set_solver|done]).
  erewrite bind_ok by by apply trim_free. by apply add_key_value_spec.
Qed.

Lemma ini_line_spec t m prefix line n w :
  w_faults w = [] -> stands_for t m -> at_most 32767 m ->
  exists t', ini_line t prefix line n w = Ok ((0, t', (a_line (m, prefix) line).2), w) /\
             stands_for t' (a_line (m, prefix) line).1.
Proof.
  intros Hnf Ht Hm. unfold ini_line, a_line. erewrite bind_ok by apply trim_start.
  pose proof (skip_space_free (cstr line)) as Hs. set (whr := skip_space (cstr line)) in *.
  destruct (ini_key_line_spec t m prefix whr n w Hnf Ht Hm Hs) as (t' & E & Ht').
  assert (exists t', (let! '(rc, t0) := ini_key_line t prefix whr n in ret (rc, t0, prefix)) w
    = Ok ((0, t', prefix), w) /\ stands_for t' (a_key_line m prefix whr)) as Hkey.
  { exists t'. split; [|done]. by erewrite bind_ok by exact E. }
  destruct whr as [|c r]; [by exists t|]. destruct ((c =? 59) || (c =? 35)); [by exists t|].
  destruct (c =? 91); [|exact Hkey]. destruct (scan_section (c :: r)); [by exists t|exact Hkey].
Qed.

Lemma at_most_line N m prefix line :
  at_most N m -> 0 <= N -> at_most (N + 1) (a_line (m, prefix) line).1.
Proof.
  intros Hm HN.
  assert (at_most (N + 1) m) by (eapply Forall_impl; [exact Hm|]; intros ? H; cbn in *; lia).
  assert (forall whr, at_most (N + 1) (a_key_line m prefix whr)) as Hk.
  { intros whr. unfold a_key_line. destruct (scan_key_val whr) as [[key val]|]; [by apply at_most_add|done]. }
  unfold a_line. destruct (skip_space (cstr line)) as [|c r]; [done|].
  destruct ((c =? 59) || (c =? 35)); [done|]. destruct (c =? 91); [|apply Hk].
  destruct (scan_section (c :: r)); [done|apply Hk].
Qed.

Lemma ini_lines_spec ls : forall t m prefix n N w,
  w_faults w = [] -> stands_for t m -> at_most N m -> 0 <= N -> N + Z.of_nat (length ls) <= 32768 ->
  exists t', ini_lines t prefix n ls w = Ok (Some t', w) /\
             stands_for t' (foldl a_line (m, prefix) ls).1.
Proof.
  induction ls as [|l ls IH]; intros t m prefix n N w Hnf Ht Hm HN Hl; [by exists t|].
  cbn [ini_lines foldl length] in *.
  destruct (ini_line_spec t m prefix l (u32 (n + 1)) w Hnf Ht) as (t' & E & Ht').
  { eapply Forall_impl; [exact Hm|]. intros ? H. cbn in *. lia. }
  erewrite bind_ok by exact E. cbn [Z.eqb negb].
  destruct (IH t' (a_line (m, prefix) l).1 (a_line (m, prefix) l).2 (u32 (n + 1)) (N + 1) w)
    as (t2 & E2 & H2); try done; [by apply at_most_line|lia|lia|].
  exists t2. split; [done|]. by destruct (a_line (m, prefix) l).
Qed.

(** The values are short enough for the buffers. *)
Definition short (n : nat) (m : assoc) : Prop := Forall (fun mv => Forall (fun v => (length v <= n)%nat) mv.2) m.
Lemma short_add n m key v : short n m -> (length v <= n)%nat -> short n (a_add m key v).
Proof.
  intros H Hv. induction H as [|[k vs] m Hs Hm IH]; simpl; [by repeat constructor|].
  destruct (bool_decide (k = key)); constructor; try done. cbn in *. by apply Forall_app_2; [|constructor].
Qed.
Lemma short_lines ls : forall m prefix, short TOKEN_SIZE m -> short TOKEN_SIZE (foldl a_line (m, prefix) ls).1.
Proof.
  induction ls as [|l ls IH]; intros m prefix Hm; [done|]. cbn [foldl].
  assert (short TOKEN_SIZE (a_line (m, prefix) l).1) as Hl.
  { pose proof (skip_space_free (cstr l)) as Hs.
    assert (short TOKEN_SIZE (a_key_line m prefix (skip_space (cstr l)))) as Hk.
    { unfold a_key_line. destruct (scan_key_val _) as [[key val]|] eqn:E; [|done].
      apply scan_key_val_blanks in E as (_ & _ & _ & Hv); [|done].
      apply short_add; [done|]. pose proof (trimmed_length val). lia. }
    unfold a_line. destruct (skip_space (cstr l)) as [|c r]; [done|].
    destruct ((c =? 59) || (c =? 35)); [done|]. destruct (c =? 91); [|done].
    by destruct (scan_section (c :: r)). }
  destruct (a_line (m, prefix) l) as [m' p']. by apply IH.
Qed.

(** ** Looking up *)

(** A node while its variables are replaced: [values_size] may have its last
    bit set. *)
Inductive loaded : list bytes -> ini_kv -> Prop :=
| loaded_one v sz ls : 0 <= sz <= 1 -> loaded [v] (IniKv 1 sz (One (Str v)) ls)
| loaded_arr vs sz cap ls : 1 < sz -> (1 < length vs)%nat ->
    loaded vs (IniKv (Z.of_nat (length vs)) sz (Arr cap (Str <$> vs)) ls).
Definition table_of (t : ini_t) (m : assoc) : Prop :=
  Forall2 (fun kv mv => kv.1 = mv.1 /\ loaded mv.2 kv.2) t m.

Lemma node_loaded vs kv : node vs kv -> loaded vs kv.
Proof.
  intros [v n|vs' ll k Hk Hl]; [by constructor|]. pose proof (pow_bounds k Hk). apply loaded_arr; lia.
Qed.
Lemma stands_table t m : stands_for t m -> table_of t m.
Proof. intros H. eapply Forall2_impl; [exact H|]. intros ? ? [? ?]. split; [done|by apply node_loaded]. Qed.

Lemma table_keys t m : table_of t m -> t.*1 = m.*1.
Proof. induction 1 as [|kv mv t m [Ek _] _ IH]; [done|]. by rewrite !fmap_cons, Ek, IH. Qed.

Lemma loaded_find t m key : table_of t m ->
  match HASH_FIND_STR t key with
  | Some kv => loaded (a_find m key) kv
  | None => a_find m key = []
  end.
Proof.
  induction 1 as [|[k kv] [k' vs] t m [Ek Hn] _ IH]; [done|]. cbn in *. subst k'.
  by destruct (bool_decide (k = key)).
Qed.
Lemma loaded_length vs kv : loaded vs kv -> value_count kv = Z.of_nat (length vs) /\ (0 < length vs)%nat.
Proof. intros []; simpl; lia. Qed.

(** [find_key] returns the values of the association. *)
Lemma find_key_spec t m key (i : nat) : table_of t m ->
  find_key t key (Z.of_nat i) = (Str <$> (a_find m key !! i), Z.of_nat (length (a_find m key))).
Proof.
  intros Ht. pose proof (loaded_find t m key Ht) as Hf. unfold find_key.
  destruct (HASH_FIND_STR t key) as [kv|]; [|by rewrite Hf].
  destruct (loaded_length _ _ Hf) as [-> _]. destruct (Z.leb_spec (Z.of_nat (length (a_find m key))) (Z.of_nat i)).
  { rewrite lookup_ge_None_2 by lia. done. }
  f_equal. destruct Hf as [v sz ls Hsz|vs sz cap ls Hsz Hl]; cbn [values_size vals length] in *.
  - rewrite (proj2 (Z.leb_le _ _)) by lia. by replace i with 0%nat by lia.
  - rewrite (proj2 (Z.leb_gt _ _)) by done. rewrite Nat2Z.id, list_lookup_fmap.
    destruct (lookup_lt_is_Some_2 vs i) as [v ->]; [lia|done].
Qed.
Corollary find_key_first t m key : table_of t m ->
  find_key t key 0 = (Str <$> head (a_find m key), Z.of_nat (length (a_find m key))).
Proof. intros Ht. change 0 with (Z.of_nat 0). rewrite (find_key_spec t m key 0 Ht). by destruct (a_find m key). Qed.

(** ** Variables *)
Definition tokens_ok (max : Z) (s : tokens) : Prop := tk_len s = Z.of_nat (length (tk_buf s)) /\ tk_len s < max.

(** What a step on the buffer leaves: it is still a buffer, the part before
    [start] is the same, and no call was given back. *)
Definition token_post (max : Z) (start : nat) (s : tokens) (r : option nat) (s' : tokens) : Prop :=
  tk_left s' <= tk_left s /\
  forall p, r = Some p -> tokens_ok max s' /\ 0 <= tk_left s' /\ (start <= p <= length (tk_buf s'))%nat /\
                          take start (tk_buf s') = take start (tk_buf s).

Section Vars.
Context (t : ini_t) (m : assoc) (Ht : table_of t m).

(** The buffer with the variable from [start] to the bracket at [p] replaced. *)
Definition replaced (start p : nat) (v buf : bytes) : bytes := take start buf ++ v ++ drop (S p) buf.
Lemma replaced_length start p v buf : (start <= p < length buf)%nat ->
  Z.of_nat (length (replaced start p v buf))
  = Z.of_nat (length buf) + (Z.of_nat (length v) - (Z.of_nat (p - start) + 1)).
Proof using. intros H. unfold replaced. rewrite !length_app, length_take, length_drop. lia. Qed.

Lemma replace_token_eq start skip max p s :
  tokens_ok max s -> (start <= p < length (tk_buf s))%nat ->
  replace_token t start skip max p s =
  match a_find m (drop (start + skip) (take p (tk_buf s))) with
  | [v] => let n := Z.of_nat (length (replaced start p v (tk_buf s))) in
      if max <=? n then Ok (None, Tokens (tk_buf s) n (tk_left s))
      else Ok (Some start, Tokens (replaced start p v (tk_buf s)) n (tk_left s))
  | _ => Ok (None, s)
  end.
Proof using Ht.
  intros [El Hl] Hp. unfold replace_token. rewrite (find_key_first t m) by done.
  destruct (a_find m _) as [|v [|v2 vs]]; [done| |]; cycle 1.
  { assert (Z.of_nat (length (v :: v2 :: vs)) <> 1) as Hz by (simpl; lia). revert Hz.
    generalize (Z.of_nat (length (v :: v2 :: vs))) as z. intros z Hz. by destruct z as [|[]|]. }
  cbn [head fmap option_fmap option_map length]. change (Z.of_nat 1) with 1. cbv iota. unfold strlen.
  rewrite replaced_length, El by done. cbv zeta. case_match; [done|].
  rewrite (proj2 (Z.ltb_ge _ _)) by lia. unfold replaced.
  rewrite (take_ge (drop (S p) (tk_buf s))) by (rewrite length_drop; lia). done.
Qed.

Lemma replace_token_total start skip max p s :
  tokens_ok max s -> 0 <= tk_left s -> (start <= p < length (tk_buf s))%nat ->
  exists r s', replace_token t start skip max p s = Ok (r, s') /\ token_post max start s r s'.
Proof using Ht.
  intros Hs Hl Hp. rewrite replace_token_eq by done.
  assert (exists r s', Ok (None, s) = Ok (r, s') /\ token_post max start s r s') as Hnone.
  { exists None, s. split; [done|]. by split. }
  destruct (a_find m _) as [|v [|v2 vs]]; [exact Hnone| |exact Hnone]. cbv zeta.
  destruct (Z.leb_spec max (Z.of_nat (length (replaced start p v (tk_buf s))))); eexists _, _; (split; [done|]).
  { by split. }
  split; [done|]. intros x [= <-]. cbn [tk_buf tk_left]. split; [done|]. split; [done|].
  split; [unfold replaced; rewrite length_app, length_take; lia|].
  unfold replaced. rewrite take_app_le, take_take by (rewrite length_take; lia). f_equal. lia.
Qed.

Lemma scan_tokens_total max variable start skip (left0 : Z) :
  (forall p s, tokens_ok max s -> (p + 2 <= length (tk_buf s))%nat -> 0 <= tk_left s <= left0 ->
     exists r s', variable p s = Ok (r, s') /\ token_post max p s r s' /\
       (forall x, r = Some x -> tk_left s' < tk_left s)) ->
  forall rounds p s,
  tokens_ok max s -> (start + skip <= p <= length (tk_buf s))%nat -> tk_left s <= left0 -> 0 <= tk_left s ->
  max - Z.of_nat p + tk_left s <= Z.of_nat rounds ->
  exists r s', scan_tokens variable t start skip max rounds p s = Ok (r, s') /\ token_post max start s r s'.
Proof using Ht.
  intros Hvar. induction rounds as [|rounds IH]; intros p s Hs Hp Hl0 Hl Hr.
  { destruct Hs. lia. }
  cbn [scan_tokens]. unfold bind at 1. unfold gets at 1.
  destruct (drop p (tk_buf s)) as [|c rest] eqn:Ed.
  { exists (Some p), s. split; [done|]. split; [done|]. intros x [= <-]. split_and!; try done; lia. }
  assert (p < length (tk_buf s))%nat as Hlt.
  { apply (f_equal length) in Ed. rewrite length_drop in Ed. simpl in Ed. lia. }
  destruct ((c =? 36) && bool_decide (head rest = Some 40)) eqn:Ec.
  - apply andb_true_iff in Ec as [_ Eh%bool_decide_eq_true].
    assert (p + 2 <= length (tk_buf s))%nat as Hp2.
    { apply (f_equal length) in Ed. rewrite length_drop in Ed. destruct rest; [done|]. simpl in Ed. lia. }
    destruct (Hvar p s Hs Hp2) as (r & s1 & E & [Hle Hpost] & Hdec); [lia|].
    erewrite bind_ok by exact E. destruct r as [p1|]; [|by exists None, s1].
    destruct (Hpost p1 eq_refl) as (Hs1 & Hl1 & Hp1 & Htake). specialize (Hdec p1 eq_refl).
    destruct (IH p1 s1) as (r & s' & E' & [Hle' Hpost']); try done; try lia.
    exists r, s'. split; [done|]. split; [lia|]. intros x Hx.
    destruct (Hpost' x Hx) as (? & ? & ? & Ht'). split_and!; try done; try lia. rewrite Ht'.
    apply (f_equal (take start)) in Htake. rewrite !take_take in Htake.
    by rewrite !Nat.min_l in Htake by lia.
  - destruct ((c =? 41) && negb (skip =? 0)%nat); [apply replace_token_total; [done|done|lia]|].
    destruct (IH (S p) s) as (r & s' & E & Hpost); try done; try lia. by exists r, s'.
Qed.

Lemma find_token_total max depth : forall start skip s,
  0 < max -> tokens_ok max s -> (start + skip <= length (tk_buf s))%nat ->
  0 <= tk_left s <= Z.of_nat depth -> tk_left s <= MAX_TOKENS -> (0 < depth)%nat ->
  exists r s', find_token depth t start skip max s = Ok (r, s') /\ token_post max start s r s' /\
    (forall x, r = Some x -> tk_left s' < tk_left s).
Proof using Ht.
  induction depth as [|depth IH]; intros start skip s Hmax Hs Hp Hl HM Hd; [lia|].
  cbn [find_token]. unfold bind, modify, gets. cbn [tk_left with_left].
  destruct (Z.leb_spec (tk_left s - 1) 0).
  { eexists None, _. split; [done|]. split; [|done]. by split; [cbn; lia|]. }
  set (s1 := with_left (tk_left s - 1) s).
  destruct (scan_tokens_total max (fun p => find_token depth t p 2 max) start skip (tk_left s - 1))
    with (rounds := token_rounds max) (p := (start + skip)%nat) (s := s1) as (r & s' & E & Hle & Hpost);
    try done; try (cbn; lia).
  - intros p s2 Hs2 Hp2 Hl2. apply IH; try done; lia.
  - unfold token_rounds, MAX_TOKENS in *. cbn. lia.
  - exists r, s'. split; [done|]. cbn in Hle. split; [by split; [lia|]|]. intros; lia.
Qed.

Lemma find_var_lt s n : find_var s = Some n -> (n < length s)%nat.
Proof using.
  revert n. induction s as [|c s IH]; intros n; [done|]. simpl.
  destruct (_ && _); [intros [= <-]; lia|]. destruct (find_var s) as [k|]; [|done].
  intros [= <-]. specialize (IH k eq_refl). lia.
Qed.

Lemma replace_in_line_total str max w :
  strlen str < max -> w_faults w = [] ->
  exists r, replace_in_line str max t w = Ok (r, w) /\
    (forall v c, r = Some (v, c) -> strlen v < max) /\ (find_var str = None -> r = Some (str, false)).
Proof using Ht.
  intros Hl Hnf. unfold replace_in_line. destruct (find_var str) as [offset|] eqn:Ev; cycle 1.
  { exists (Some (str, false)). split; [done|]. split; [|done]. by intros v c [= <- _]. }
  apply find_var_lt in Ev. rewrite (proj2 (Z.leb_gt _ _)) by done.
  destruct (find_token_total max (Z.to_nat MAX_TOKENS) offset 0 (Tokens str (strlen str) MAX_TOKENS))
    as (r & s' & E & [_ Hpost] & _); try done; try (unfold strlen, MAX_TOKENS in *; cbn; lia).
  rewrite E. destruct r as [p|]; [|exists None; split_and!; [done|by intros ? ?|done]].
  destruct (Hpost p eq_refl) as ([El Hs] & _). rewrite El, Nat2Z.id, firstn_all.
  destruct (_ <=? _).
  { eexists. split; [done|]. split; [|done]. intros v c [= <- _]. unfold strlen. lia. }
  erewrite bind_ok by by apply malloc_ok.
  eexists. split; [done|]. split; [|done]. intros v c [= <- _]. unfold strlen. lia.
Qed.
End Vars.

(** ** The values of the table, one after the other *)
Fixpoint a_store (m : assoc) (key : bytes) (vs : list bytes) : assoc :=
  match m with
  | [] => []
  | (k, vs0) :: m => if bool_decide (k = key) then (k, vs) :: m else (k, vs0) :: a_store m key vs
  end.
Lemma table_store t m key vs kv : table_of t m -> loaded vs kv -> table_of (kv_store t key kv) (a_store m key vs).
Proof.
  intros H Hk. induction H as [|[k kv0] [k' vs0] t m [Ek Hn] Ht IH]; [by constructor|]. cbn in *. subst k'.
  destruct (bool_decide (k = key)); by constructor.
Qed.
Lemma a_find_store m key vs : a_find m key <> [] -> a_find (a_store m key vs) key = vs.
Proof.
  induction m as [|[k vs0] m IH]; [done|]. cbn.
  destruct (bool_decide_reflect (k = key)); cbn; [by rewrite bool_decide_true|].
  rewrite bool_decide_false by done. apply IH.
Qed.
Lemma a_store_store m key vs vs' : a_store (a_store m key vs) key vs' = a_store m key vs'.
Proof.
  induction m as [|[k vs0] m IH]; [done|]. cbn.
  destruct (bool_decide_reflect (k = key)); cbn; [by rewrite bool_decide_true|].
  by rewrite bool_decide_false, IH.
Qed.
Lemma a_store_keys m key vs : (a_store m key vs).*1 = m.*1.
Proof.
  induction m as [|[k vs0] m IH]; [done|]. cbn [a_store].
  destruct (bool_decide (k = key)); [done|]. by rewrite !fmap_cons, IH.
Qed.
Lemma a_store_find m key : a_store m key (a_find m key) = m.
Proof.
  induction m as [|[k vs0] m IH]; [done|]. cbn. destruct (bool_decide (k = key)); [done|]. by rewrite IH.
Qed.
Lemma short_store n m key vs : short n m -> Forall (fun v => (length v <= n)%nat) vs -> short n (a_store m key vs).
Proof.
  intros H Hv. induction H as [|[k vs0] m Hs Hm IH]; simpl; [constructor|].
  destruct (bool_decide (k = key)); by constructor.
Qed.
Lemma short_find n m key : short n m -> Forall (fun v => (length v <= n)%nat) (a_find m key).
Proof.
  induction 1 as [|[k vs] m Hs Hm IH]; simpl; [constructor|]. by destruct (bool_decide (k = key)).
Qed.

Lemma loaded_set vs kv i v : loaded vs kv -> (i < length vs)%nat -> loaded (<[i := v]> vs) (set_slot i v kv).
Proof.
  intros [v0 sz ls Hsz|vs' sz cap ls Hsz Hl] Hi.
  - simpl in Hi. replace i with 0%nat by lia. by constructor.
  - unfold set_slot. cbn [value_count values_size vals lines].
    rewrite <- list_fmap_insert, <- (length_insert vs' i v). apply loaded_arr; [done|]. by rewrite length_insert.
Qed.
Lemma lor_1 a : 0 <= a -> a <= Z.lor a 1 /\ (a <= 1 -> Z.lor a 1 = 1).
Proof. intros Ha. destruct a as [|[p|p|]|p]; unfold Z.lor, Pos.lor; lia. Qed.
Lemma loaded_mark vs kv : loaded vs kv -> loaded vs (mark_copy kv).
Proof.
  intros [v0 sz ls Hsz|vs' sz cap ls Hsz Hl]; unfold mark_copy; cbn [value_count values_size vals lines].
  - constructor. destruct (lor_1 sz) as [_ ->]; lia.
  - constructor; [|done]. destruct (lor_1 sz) as [? _]; lia.
Qed.

Definition max_len : nat := LINE_SIZE - 1.

(** No variable in any value. *)
Definition plain (vs : list bytes) : Prop := Forall (fun v => find_var v = None) vs.
Definition plain_assoc (m : assoc) : Prop := Forall (fun mv => plain mv.2) m.
Lemma plain_find m key : plain_assoc m -> plain (a_find m key).
Proof.
  induction 1 as [|[k vs] m Hs Hm IH]; simpl; [constructor|]. by destruct (bool_decide (k = key)).
Qed.

Lemma replace_slot_total t m key kv vs i w :
  table_of t m -> loaded vs kv -> w_faults w = [] -> (i < length vs)%nat ->
  Forall (fun v => (length v <= max_len)%nat) vs ->
  exists r, replace_slot t key kv i (default Junk ((Str <$> vs) !! i)) (Z.of_nat LINE_SIZE) w = Ok (r, w) /\
    (plain vs -> r <> None) /\
    forall t', r = Some t' -> exists v, table_of t' (a_store m key (<[i := v]> vs)) /\ (length v <= max_len)%nat /\
      (plain vs -> vs !! i = Some v).
Proof.
  intros Ht Hk Hnf Hi Hall. rewrite list_lookup_fmap.
  destruct (lookup_lt_is_Some_2 vs i Hi) as [v Hv]. rewrite Hv. change (default Junk (Str <$> Some v)) with (Str v). unfold replace_slot.
  destruct (replace_in_line_total t m Ht v (Z.of_nat LINE_SIZE) w) as (r & E & Hr & Hpl); [|done|].
  { rewrite Forall_lookup in Hall. apply Hall in Hv. unfold strlen. unfold max_len in Hv.
    assert (0 < LINE_SIZE)%nat by (unfold LINE_SIZE; lia). lia. }
  assert (plain vs -> r = Some (v, false)) as Hplain.
  { intros Hp. apply Hpl. unfold plain in Hp. rewrite Forall_lookup in Hp. by eapply Hp. }
  erewrite bind_ok by exact E. destruct r as [[v' c]|]; cycle 1.
  { exists None. split; [done|]. split; [|done]. intros Hp. by apply Hplain in Hp. }
  eexists. split; [done|]. split; [done|]. intros t' [= <-]. exists v'. split_and!.
  - apply table_store; [done|]. pose proof (loaded_set vs kv i v' Hk Hi) as Hs.
    destruct (c && (i =? 0)%nat); [by apply loaded_mark|done].
  - specialize (Hr v' c eq_refl). unfold strlen in Hr. unfold max_len. lia.
  - intros Hp. apply Hplain in Hp as [= -> _]. done.
Qed.

Lemma loaded_vals vs kv : loaded vs kv ->
  (exists v, vs = [v] /\ value_count kv = 1 /\ vals kv = One (Str v)) \/
  ((1 < length vs)%nat /\ value_count kv = Z.of_nat (length vs) /\ exists cap, vals kv = Arr cap (Str <$> vs)).
Proof. intros []; [left; by eexists|right; split_and!; [done|done|by eexists]]. Qed.

(** The values from the [i]th on. *)
Lemma replace_values_total n : forall t m key i w,
  table_of t m -> w_faults w = [] -> (1 < length (a_find m key))%nat -> short max_len m ->
  (i + n = length (a_find m key))%nat ->
  exists r, replace_values t key i n (Z.of_nat LINE_SIZE) w = Ok (r, w) /\ (plain_assoc m -> r <> None) /\
    forall t', r = Some t' -> exists m', table_of t' m' /\ short max_len m' /\ m'.*1 = m.*1 /\
      (plain_assoc m -> m' = m).
Proof.
  induction n as [|n IH]; intros t m key i w Ht Hnf Hl Hs Hn.
  { exists (Some t). split; [done|]. split; [done|]. intros t' [= <-]. by exists m. }
  cbn [replace_values]. pose proof (loaded_find t m key Ht) as Hf. pose proof (short_find _ _ key Hs) as Hsv.
  destruct (HASH_FIND_STR t key) as [kv|]; [|rewrite Hf in Hl; simpl in Hl; lia].
  destruct (loaded_vals _ _ Hf) as [(v & E & _)|(_ & _ & cap & Ev)]; [rewrite E in Hl; simpl in Hl; lia|].
  rewrite Ev.
  destruct (replace_slot_total t m key kv (a_find m key) i w Ht Hf Hnf) as (r & E & Hrp & Hr); [lia|done|].
  erewrite bind_ok by exact E. destruct r as [t1|]; cycle 1.
  { exists None. split; [done|]. split; [|done]. intros Hp. by apply Hrp, plain_find. }
  destruct (Hr t1 eq_refl) as (v & Ht1 & Hv & Hpv). set (vs := <[i := v]> (a_find m key)) in *.
  assert (a_find (a_store m key vs) key = vs) as Ea.
  { apply a_find_store. intros E0. rewrite E0 in Hl. simpl in Hl. lia. }
  assert (length vs = length (a_find m key)) as El by apply length_insert.
  assert (plain_assoc m -> a_store m key vs = m) as Hid.
  { intros Hp. unfold vs. rewrite list_insert_id by by apply Hpv, plain_find. apply a_store_find. }
  destruct (IH t1 (a_store m key vs) key (S i) w) as (r & E2 & Hp2 & H2); try done; rewrite ?Ea; try lia.
  { apply short_store; [done|]. by apply Forall_insert. }
  exists r. split; [done|]. split.
  { intros Hp. apply Hp2. by rewrite Hid. }
  intros t' Hr'. destruct (H2 t' Hr') as (m' & ? & ? & Hk & Hm'). exists m'. split_and!; try done.
  - by rewrite Hk, a_store_keys.
  - intros Hp. rewrite Hm'; [by apply Hid|by rewrite Hid].
Qed.

Lemma replace_each_total keys : forall t m w,
  table_of t m -> w_faults w = [] -> short max_len m -> Forall (fun k => k ∈ m.*1) keys ->
  exists rc t', replace_each keys t (Z.of_nat LINE_SIZE) w = Ok ((rc, t'), w) /\
    (plain_assoc m -> rc = 0) /\
    exists m', table_of t' m' /\ short max_len m' /\ (plain_assoc m -> m' = m).
Proof.
  induction keys as [|key keys IH]; intros t m w Ht Hnf Hs Hk.
  { exists 0, t. split; [done|]. split; [done|]. by exists m. }
  apply Forall_cons in Hk as [Hkey Hk]. cbn [replace_each].
  pose proof (loaded_find t m key Ht) as Hf. pose proof (short_find _ _ key Hs) as Hsv.
  destruct (HASH_FIND_STR t key) as [kv|] eqn:Eh; cycle 1.
  { exfalso. clear -Ht Hkey Eh. induction Ht as [|[k kv] [k' vs] t m [Ek Hn] Ht IH]; [by apply elem_of_nil in Hkey|].
    cbn in *. subst k'. destruct (bool_decide_reflect (k = key)); [done|].
    apply elem_of_cons in Hkey as [->|Hin]; [done|]. by apply IH. }
  assert (exists r, (if value_count kv =? 1 then
      match vals kv with One s => replace_slot t key kv 0 s (Z.of_nat LINE_SIZE) | _ => fault end
    else replace_values t key 0 (Z.to_nat (value_count kv)) (Z.of_nat LINE_SIZE)) w = Ok (r, w) /\ (plain_assoc m -> r <> None) /\
    forall t', r = Some t' -> exists m', table_of t' m' /\ short max_len m' /\ m'.*1 = m.*1 /\
      (plain_assoc m -> m' = m)) as (r & E & Hrp & Hr).
  { destruct (loaded_vals _ _ Hf) as [(v & E & -> & ->)|(Hl & -> & cap & Ev)].
    - destruct (replace_slot_total t m key kv [v] 0 w Ht) as (r & Er & Hrp & Hr); try done;
        [by rewrite <- E|simpl; lia|by rewrite <- E|].
      exists r. split; [done|]. split; [intros Hp; apply Hrp; rewrite <- E; by apply plain_find|].
      intros t' Hr'. destruct (Hr t' Hr') as (v' & Ht' & Hv' & Hpv).
      eexists. split; [exact Ht'|]. split_and!; [|by rewrite a_store_keys|].
      + apply short_store; [done|]. by constructor.
      + intros Hp. rewrite list_insert_id; [by rewrite <- E, a_store_find|].
        apply Hpv. rewrite <- E. by apply plain_find.
    - rewrite (proj2 (Z.eqb_neq _ 1)) by lia. rewrite Nat2Z.id. by apply replace_values_total. }
  erewrite bind_ok by exact E. destruct r as [t1|].
  - destruct (Hr t1 eq_refl) as (m1 & Ht1 & Hs1 & Hk1 & Hm1).
    destruct (IH t1 m1 w) as (rc & t' & E' & Hrc & m' & ? & ? & Hm'); try done.
    { by rewrite Hk1. }
    exists rc, t'. split; [done|]. split; [intros Hp; apply Hrc; by rewrite Hm1|].
    exists m'. split_and!; try done. intros Hp. rewrite Hm'; [by apply Hm1|by rewrite Hm1].
  - exists MQ_ENOKEY, t. split; [done|]. split; [|by exists m]. intros Hp. by apply Hrp in Hp.
Qed.

(** ** Any file *)

(** Keys with strings that fit in the buffers of the parser. *)
Definition table_ok (t : ini_t) : Prop := exists m, table_of t m /\ short max_len m.

Lemma ini_clear_total t m w : table_of t m -> ini_clear t w = Ok (0, w).
Proof.
  induction 1 as [|[k kv] [k' vs] t m [_ Hn] _ IH]; [done|]. cbn [ini_clear].
  erewrite bind_ok; [exact IH|]. cbn in Hn. unfold kv_free.
  destruct Hn as [v sz ls Hsz|vs' sz cap ls Hsz Hl]; cbn [values_size vals].
  - by assert (sz = 0 \/ sz = 1) as [-> | ->] by lia.
  - by rewrite (proj2 (Z.eqb_neq sz 0)), (proj2 (Z.eqb_neq sz 1)) by lia.
Qed.

Lemma short_weaken a b m : short a m -> (a <= b)%nat -> short b m.
Proof.
  intros H Hab. eapply Forall_impl; [exact H|]. intros mv Hv. eapply Forall_impl; [exact Hv|]. intros v Hl.
  cbn in *. lia.
Qed.

(** ** The variables of a value, all known and without variables of their own *)
Inductive part := Text (s : bytes) | Var (name : bytes).
Definition render_part (p : part) : bytes :=
  match p with Text s => s | Var n => 36 :: 40 :: n ++ [41] end.
Definition render (ps : list part) : bytes := concat (render_part <$> ps).

(** The text with the values of the association in place of the variables. *)
Fixpoint expand (m : assoc) (ps : list part) : option bytes :=
  match ps with
  | [] => Some []
  | Text s :: ps => app s <$> expand m ps
  | Var n :: ps =>
      match a_find m n with
      | [v] => app v <$> expand m ps
      | _ => None
      end
  end.

(** A bound on what the buffer holds meanwhile, and the number of calls. *)
Fixpoint room (m : assoc) (ps : list part) : Z :=
  match ps with
  | [] => 0
  | Text s :: ps => strlen s + room m ps
  | Var n :: ps => strlen n + 3 + strlen (default [] (head (a_find m n))) + room m ps
  end.
Fixpoint vars (ps : list part) : Z :=
  match ps with [] => 0 | Text _ :: ps => vars ps | Var _ :: ps => 1 + vars ps end.

Definition part_ok (m : assoc) (p : part) : Prop :=
  match p with
  | Text s => 36 ∉ s
  | Var n => (36 ∉ n) /\ (41 ∉ n) /\ Forall (fun v => 36 ∉ v) (a_find m n)
  end.

Lemma drop_app_here {A} (a b : list A) : drop (length a) (a ++ b) = b.
Proof. by rewrite drop_app_le, drop_all by lia. Qed.
Lemma room_render m ps : strlen (render ps) <= room m ps /\ 0 <= vars ps.
Proof.
  induction ps as [|[s|n] ps [IH1 IH2]]; [done|..]; unfold render, strlen in *; cbn [fmap list_fmap concat room vars render_part];
    unfold strlen; rewrite ?length_app; cbn [length]; rewrite ?length_app; cbn [length]; lia.
Qed.

Section Expand.
Context (t : ini_t) (m : assoc) (Ht : table_of t m) (max : Z).

(** Characters without a dollar are passed; inside a variable, without a
    closing bracket too. *)
Lemma scan_text variable start skip txt : forall pre rest rounds s,
  tk_buf s = pre ++ txt ++ rest -> 36 ∉ txt -> (skip = 0%nat \/ 41 ∉ txt) -> 
  scan_tokens variable t start skip max (length txt + rounds) (length pre) s
  = scan_tokens variable t start skip max rounds (length (pre ++ txt)) s.
Proof using.
  induction txt as [|c txt IH]; intros pre rest rounds s Hb Hd Hs; [by rewrite app_nil_r|].
  apply not_elem_of_cons in Hd as [Hc Hd]. cbn [length Nat.add scan_tokens]. unfold bind at 1, gets at 1.
  rewrite Hb, drop_app_here. cbn [app]. rewrite (proj2 (Z.eqb_neq c 36)) by done. cbn [andb].
  assert ((c =? 41) && negb (skip =? 0)%nat = false) as ->.
  { destruct Hs as [-> | Hs]; [by rewrite andb_false_r|].
    apply not_elem_of_cons in Hs as [Hc' _]. by rewrite (proj2 (Z.eqb_neq c 41)). }
  replace (S (length pre)) with (length (pre ++ [c])) by (rewrite length_app; simpl; lia).
  rewrite (IH (pre ++ [c]) rest rounds s); [by rewrite <- app_assoc| |done|].
  - by rewrite Hb, <- app_assoc.
  - destruct Hs as [->|Hs]; [by left|right]. by apply not_elem_of_cons in Hs as [_ Hs].
Qed.

(** One variable. *)
Lemma find_token_var depth pre n rest s :
  tk_buf s = pre ++ render_part (Var n) ++ rest -> tokens_ok max s -> 1 < tk_left s <= MAX_TOKENS ->
  (36 ∉ n) -> (41 ∉ n) ->
  find_token (S depth) t (length pre) 2 max s =
  replace_token t (length pre) 2 max (length pre + 2 + length n) (with_left (tk_left s - 1) s).
Proof using.
  intros Hb [El Hs] Hl Hn1 Hn2. cbn [find_token]. unfold bind, modify, gets. cbn [tk_left with_left].
  rewrite (proj2 (Z.leb_gt _ _)) by lia.
  assert (tk_buf (with_left (tk_left s - 1) s) = (pre ++ [36; 40]) ++ n ++ 41 :: rest) as Hb'.
  { cbn. rewrite Hb. cbn [render_part]. by rewrite <- !app_assoc; cbn; rewrite <- app_assoc. }
  assert (length n + S (token_rounds max - length n - 1) = token_rounds max)%nat as <-.
  { rewrite El, Hb in Hs. rewrite !length_app in Hs. cbn [render_part length] in Hs. rewrite length_app in Hs.
    unfold token_rounds. lia. }
  replace (length pre + 2)%nat with (length (pre ++ [36; 40])) by (rewrite length_app; simpl; lia).
  rewrite (scan_text _ _ 2 n (pre ++ [36; 40]) (41 :: rest)) by (done || by right).
  cbn [scan_tokens]. unfold bind at 1, gets at 1. rewrite Hb', app_assoc, drop_app_here.
  change (41 =? 36) with false. cbn [andb]. change ((41 =? 41) && negb (2 =? 0)%nat) with true. cbv iota.
  f_equal. rewrite !length_app. simpl. lia.
Qed.

Lemma name_between pre n rest :
  drop (length pre + 2) (take (length pre + 2 + length n) (pre ++ render_part (Var n) ++ rest)) = n.
Proof using.
  replace (pre ++ render_part (Var n) ++ rest) with ((pre ++ [36; 40]) ++ n ++ [41] ++ rest)
    by (cbn [render_part]; by rewrite <- !app_assoc; cbn; rewrite <- app_assoc).
  replace (length pre + 2)%nat with (length (pre ++ [36; 40])) by (rewrite length_app; simpl; lia).
  by rewrite take_app_add, take_app_length, drop_app_here.
Qed.

Lemma replaced_var pre n rest v :
  replaced (length pre) (length pre + 2 + length n) v (pre ++ render_part (Var n) ++ rest) = pre ++ v ++ rest.
Proof using.
  unfold replaced. rewrite take_app_length. do 2 f_equal.
  replace (pre ++ render_part (Var n) ++ rest) with ((pre ++ render_part (Var n)) ++ rest) by (by rewrite app_assoc).
  replace (S (length pre + 2 + length n)) with (length (pre ++ render_part (Var n))); [apply drop_app_here|].
  rewrite length_app. cbn [render_part length]. rewrite length_app. simpl. lia.
Qed.

Lemma scan_parts depth start ps : forall pre rounds s,
  tk_buf s = pre ++ render ps -> tokens_ok max s -> Forall (part_ok m) ps ->
  vars ps < tk_left s <= MAX_TOKENS -> strlen pre + room m ps < max ->
  max - Z.of_nat (length pre) + tk_left s <= Z.of_nat rounds ->
  exists s', scan_tokens (fun p => find_token (S depth) t p 2 max) t start 0 max rounds (length pre) s
    = Ok ((fun e => length (pre ++ e)) <$> expand m ps, s') /\
    forall e, expand m ps = Some e -> tk_buf s' = pre ++ e /\ tokens_ok max s'.
Proof using Ht.
  induction ps as [|p ps IH]; intros pre rounds s Hb [El Hs] Hok Hv Hroom Hr.
  { cbn [render fmap list_fmap concat] in Hb. rewrite app_nil_r in Hb. destruct rounds as [|rounds].
    { rewrite Hb in El. unfold vars in Hv. lia. }
    cbn [scan_tokens]. unfold bind at 1, gets at 1. rewrite Hb, drop_all. exists s. cbn. rewrite app_nil_r.
    split; [done|]. intros e [= <-]. by rewrite app_nil_r. }
  apply Forall_cons in Hok as [Hp Hok]. change (render (p :: ps)) with (render_part p ++ render ps) in Hb.
  assert (forall txt rounds s, 36 ∉ txt -> tk_buf s = pre ++ txt ++ render ps -> tokens_ok max s ->
    vars ps < tk_left s <= MAX_TOKENS -> strlen pre + strlen txt + room m ps < max ->
    max - Z.of_nat (length pre) + tk_left s <= Z.of_nat rounds ->
    exists s', scan_tokens (fun p => find_token (S depth) t p 2 max) t start 0 max rounds (length pre) s
      = Ok ((fun e => length (pre ++ e)) <$> (app txt <$> expand m ps), s') /\
      forall e, app txt <$> expand m ps = Some e -> tk_buf s' = pre ++ e /\ tokens_ok max s') as Htext.
  { clear Hb El Hs Hv Hroom Hr rounds s. intros txt rounds s Hd Hb Hs Hv Hroom Hr. unfold strlen in *.
    pose proof (room_render m ps) as [Hrr Hvs]. unfold strlen in Hrr.
    assert (length txt + (rounds - length txt) = rounds)%nat as <- by lia.
    rewrite (scan_text _ _ 0 txt pre (render ps)) by (done || by left).
    destruct (IH (pre ++ txt) (rounds - length txt)%nat s) as (s' & E & Hpost);
      [by rewrite Hb, app_assoc|done|done|done|unfold strlen; rewrite length_app; lia|rewrite length_app; lia|].
    exists s'. split.
    - rewrite E. do 2 f_equal. destruct (expand m ps) as [e|]; [|done]. cbn. by rewrite app_assoc.
    - intros e He. destruct (expand m ps) as [e0|]; [|done]. injection He as <-.
      rewrite app_assoc. by apply Hpost. }
  destruct p as [txt|n].
  { cbn [room vars expand] in *. apply Htext; try done; lia. }
  destruct Hp as (Hn1 & Hn2 & Hn3). cbn [room vars] in *.
  pose proof (room_render m ps) as [Hrr Hvs].
  destruct rounds as [|rounds]; [rewrite Hb in El; unfold strlen in *; lia|].
  cbn [scan_tokens]. unfold bind at 1, gets at 1. rewrite Hb, drop_app_here. cbn [render_part app].
  change ((36 =? 36) && bool_decide (head (40 :: (n ++ [41]) ++ render ps) = Some 40)) with true. cbv iota.
  unfold bind at 1. rewrite (find_token_var depth pre n (render ps) s) by (done || lia || by split).
  rewrite (replace_token_eq t m Ht); [|by split|]; cycle 1.
  { cbn. rewrite Hb, !length_app. cbn [render_part length]. rewrite length_app. cbn [length]. lia. }
  cbn [tk_buf tk_left with_left]. rewrite Hb, name_between. cbn [expand].
  destruct (a_find m n) as [|v [|v2 vs]]; [by eexists| |by eexists].
  rewrite replaced_var. cbv zeta. cbn [default head] in Hroom. apply Forall_cons in Hn3 as [Hv3 _].
  assert (Z.of_nat (length (pre ++ v ++ render ps)) < max) as Hlt.
  { unfold strlen in *. cbn in Hroom. rewrite !length_app. lia. }
  rewrite (proj2 (Z.leb_gt _ _)) by done.
  apply Htext; try done; cbn [tk_left]; unfold strlen in *; cbn in Hroom; lia.
Qed.
End Expand.

(** The first variable. *)
Lemma find_var_text s rest : 36 ∉ s -> find_var (s ++ rest) = Nat.add (length s) <$> find_var rest.
Proof.
  induction s as [|c s IH]; intros H; [cbn; by destruct (find_var rest)|].
  apply not_elem_of_cons in H as [Hc H]. cbn. rewrite (proj2 (Z.eqb_neq c 36)) by done. cbn.
  rewrite IH by done. by destruct (find_var rest).
Qed.

Lemma find_var_render m ps : Forall (part_ok m) ps ->
  match find_var (render ps) with
  | None => expand m ps = Some (render ps)
  | Some k => exists pre ps', k = length pre /\ render ps = pre ++ render ps' /\
      expand m ps = app pre <$> expand m ps' /\ Forall (part_ok m) ps' /\
      vars ps' = vars ps /\ strlen pre + room m ps' = room m ps
  end.
Proof.
  induction 1 as [|[s|n] ps Hp Hok IH]; [done|..]; change (render (?p :: ps)) with (render_part p ++ render ps);
    cbn [render_part].
  - rewrite find_var_text by done. cbn [expand]. destruct (find_var (render ps)) as [k|]; cbn.
    + destruct IH as (pre & ps' & -> & -> & -> & Hok' & Hv & Hr). exists (s ++ pre), ps'.
      split; [by rewrite length_app|]. split; [by rewrite app_assoc|]. split.
      { destruct (expand m ps'); [|done]. cbn. by rewrite app_assoc. }
      split; [done|]. split; [done|]. unfold strlen in *. rewrite length_app. lia.
    + by rewrite IH.
  - cbn. exists [], (Var n :: ps). split_and!; try done; [|by constructor].
    change (app (@nil Z)) with (@id bytes). by rewrite option_fmap_id.
Qed.

(** ** Writing a configuration file *)

(** A section and its keys with their values, as lines. *)
Definition config : Type := list (bytes * list (bytes * bytes)).
Definition section_line (sec : bytes) : bytes := B "[" ++ sec ++ B "]".
Definition key_line (kv : bytes * bytes) : bytes := kv.1 ++ B "=" ++ kv.2.
Definition config_lines (c : config) : list bytes :=
  concat ((fun s : bytes * list (bytes * bytes) => section_line s.1 :: (key_line <$> s.2)) <$> c).
Definition print_config (c : config) : bytes := concat ((fun l => l ++ [10]) <$> config_lines c).

(** Characters that end a line or a string. *)
Definition one_line (s : bytes) : Prop := (0 ∉ s) /\ (10 ∉ s) /\ (13 ∉ s).
Definition no_outer_blanks (s : bytes) : Prop := blank_free s /\ blank_free (rev s).
Record name_ok (s : bytes) : Prop := {
  nm_ne : s <> [];
  nm_line : one_line s;
  nm_blanks : no_outer_blanks s;
  nm_length : (length s <= TOKEN_SIZE)%nat
}.
Record pair_ok (kv : bytes * bytes) : Prop := {
  pr_key : name_ok kv.1;
  pr_eq : 61 ∉ kv.1;
  pr_head : forall c r, kv.1 = c :: r -> c <> 59 /\ c <> 35 /\ c <> 91;
  pr_value : one_line kv.2 /\ no_outer_blanks kv.2 /\ (length kv.2 <= TOKEN_SIZE)%nat;
  pr_plain : find_var kv.2 = None
}.
Record section_ok (s : bytes * list (bytes * bytes)) : Prop := {
  sc_name : name_ok s.1;
  sc_bracket : 93 ∉ s.1;
  sc_pairs : Forall pair_ok s.2
}.

(** The values of a key, in the order of the file. *)
Definition config_pairs (c : config) : list (bytes * bytes) :=
  concat ((fun s : bytes * list (bytes * bytes) =>
            (fun kv : bytes * bytes => (s.1 ++ B ":" ++ kv.1, kv.2)) <$> s.2) <$> c).
Definition values_of (c : config) (section key : bytes) : list bytes :=
  snd <$> filter (fun kv => kv.1 = section ++ B ":" ++ key) (config_pairs c).

(** *** What the parser makes of it *)
Lemma file_lines_line l : forall room cur rest, 10 ∉ l -> (length l < room)%nat ->
  file_lines room cur (l ++ 10 :: rest) = (rev cur ++ l ++ [10]) :: file_lines (LINE_SIZE - 1) [] rest.
Proof.
  induction l as [|c l IH]; intros room cur rest Hn Hl; [done|].
  apply not_elem_of_cons in Hn as [Hc Hn]. simpl in Hl. cbn [app file_lines].
  rewrite (proj2 (Z.eqb_neq c 10)) by done. destruct room as [|[|room]]; [lia..|].
  rewrite IH by (done || lia). cbn [rev]. by rewrite <- !app_assoc.
Qed.
Lemma file_lines_lines ls : Forall (fun l => (10 ∉ l) /\ (length l < LINE_SIZE - 1)%nat) ls ->
  file_lines (LINE_SIZE - 1) [] (concat ((fun l => l ++ [10]) <$> ls)) = (fun l => l ++ [10]) <$> ls.
Proof.
  induction 1 as [|l ls [Hn Hl] _ IH]; [done|]. cbn [fmap list_fmap concat].
  rewrite <- app_assoc. cbn [app]. rewrite file_lines_line by done. cbn [rev app]. f_equal. exact IH.
Qed.

Lemma skip_nonblank c s : isspace c = false -> skip_space (c :: s) = c :: s.
Proof. intros H. simpl. by rewrite H. Qed.
Lemma not_in_forall (x : Z) s : x ∉ s -> Forall (fun c => negb (c =? x) = true) s.
Proof.
  intros H. apply Forall_forall. intros c Hc. apply negb_true_iff, Z.eqb_neq. intros ->. done.
Qed.

Lemma a_line_section m p sec : name_ok sec -> 93 ∉ sec -> a_line (m, p) (section_line sec ++ [10]) = (m, sec ++ B ":").
Proof.
  intros [Hne (H0 & _ & _) _ Hl] Hb. unfold a_line, section_line.
  replace ((B "[" ++ sec ++ B "]") ++ [10]) with (91 :: sec ++ [93; 10]) by (cbn; by rewrite <- app_assoc).
  rewrite cstr_id by (rewrite not_elem_of_cons, not_elem_of_app; split_and!; try done; set_solver).
  rewrite skip_nonblank by done. change ((91 =? 59) || (91 =? 35)) with false. change (91 =? 91) with true.
  cbv iota. unfold scan_section. rewrite (scan_set_all _ _ sec [93; 10]); [|by apply not_in_forall|done|].
  - by destruct sec.
  - by intros c r [= <- _].
Qed.

Lemma scan_value v : one_line v -> blank_free v -> (length v <= TOKEN_SIZE)%nat ->
  (scan_set (fun c => negb ((c =? 13) || (c =? 10))) TOKEN_SIZE (skip_space (v ++ [10]))).1 = v.
Proof.
  intros (_ & Hn & Hr) Hb Hl. destruct v as [|c v]; [done|].
  rewrite skip_space_id by (intros d r [= <- _]; by eapply Hb).
  rewrite (scan_set_all _ _ (c :: v) [10]); [done| |done|by intros d r [= <- _]].
  apply Forall_forall. intros d Hd. rewrite negb_true_iff, orb_false_iff, !Z.eqb_neq.
  split; intros ->; done.
Qed.

Lemma blank_free_app a b : a <> [] -> blank_free a -> blank_free (a ++ b).
Proof. intros Hne H c r E. destruct a as [|d a]; [done|]. injection E as -> _. by eapply H. Qed.

Lemma a_line_key m p kv : (p = [] \/ blank_free p) -> pair_ok kv ->
  a_line (m, p) (key_line kv ++ [10]) = (a_add m (p ++ kv.1) kv.2, p).
Proof.
  destruct kv as [k v]. intros Hp [[Hne (H0 & _ & _) [Hb Hb'] Hl] Heq Hh ((Hv0 & Hv1) & [Hvb Hvb'] & Hvl) _].
  cbn [fst snd] in *.
  unfold a_line, key_line. cbn [fst snd]. replace ((k ++ B "=" ++ v) ++ [10]) with (k ++ 61 :: v ++ [10])
    by (by rewrite <- app_assoc).
  rewrite cstr_id by (rewrite not_elem_of_app, not_elem_of_cons, not_elem_of_app; split_and!; try done; set_solver).
  rewrite skip_space_id by by apply blank_free_app.
  assert (a_key_line m p (k ++ 61 :: v ++ [10]) = a_add m (p ++ k) v) as Hk.
  { unfold a_key_line, scan_key_val.
    rewrite (scan_set_all _ _ k); [|by apply not_in_forall|done|by intros c r [= <- _]].
    destruct k as [|c k]; [done|]. rewrite skip_nonblank by done. rewrite scan_value by done.
    rewrite !trimmed_id; try done.
    - destruct Hp as [->|Hp]; [done|]. destruct p as [|d p]; [done|]. by apply (blank_free_app (d :: p)).
    - rewrite rev_app_distr. apply blank_free_app; [|done]. intros E. apply (f_equal length) in E.
      rewrite length_rev in E. done. }
  destruct k as [|c k]; [done|]. destruct (Hh c k eq_refl) as (? & ? & ?). cbn [app].
  rewrite (proj2 (Z.eqb_neq c 59)), (proj2 (Z.eqb_neq c 35)), (proj2 (Z.eqb_neq c 91)) by done. cbn [orb].
  cbn [app] in Hk. by rewrite Hk.
Qed.

Lemma a_find_add m key v k : a_find (a_add m key v) k = a_find m k ++ (if bool_decide (key = k) then [v] else []).
Proof.
  induction m as [|[k0 vs] m IH]; cbn.
  - by destruct (bool_decide (key = k)).
  - destruct (bool_decide_reflect (k0 = key)) as [->|Hne]; cbn.
    + destruct (bool_decide_reflect (key = k)); [done|]. by rewrite app_nil_r.
    + destruct (bool_decide_reflect (k0 = k)) as [->|]; [|done].
      rewrite (bool_decide_false (key = k)) by congruence. by rewrite app_nil_r.
Qed.
Lemma plain_add m key v : plain_assoc m -> find_var v = None -> plain_assoc (a_add m key v).
Proof.
  intros H Hv. induction H as [|[k vs] m Hs Hm IH]; cbn; [by repeat constructor|].
  destruct (bool_decide (k = key)); constructor; try done. cbn in *. by apply Forall_app_2; [|constructor].
Qed.

Definition add_pair (m : assoc) (kv : bytes * bytes) : assoc := a_add m kv.1 kv.2.
Lemma fold_keys kvs : forall m p, (p = [] \/ blank_free p) -> Forall pair_ok kvs ->
  foldl a_line (m, p) ((fun l => l ++ [10]) <$> (key_line <$> kvs))
  = (foldl add_pair m ((fun kv : bytes * bytes => (p ++ kv.1, kv.2)) <$> kvs), p).
Proof.
  induction kvs as [|kv kvs IH]; intros m p Hp Hok; [done|]. apply Forall_cons in Hok as [Hkv Hok].
  rewrite !fmap_cons. cbn [foldl]. rewrite a_line_key by done. by apply IH.
Qed.
Lemma fold_config c : forall m p, Forall section_ok c ->
  (foldl a_line (m, p) ((fun l => l ++ [10]) <$> config_lines c)).1 = foldl add_pair m (config_pairs c).
Proof.
  induction c as [|[sec kvs] c IH]; intros m p Hok; [done|].
  apply Forall_cons in Hok as [[Hn Hb Hkvs] Hok]. cbn [fst snd] in *.
  change (config_lines ((sec, kvs) :: c)) with (section_line sec :: (key_line <$> kvs) ++ config_lines c).
  change (config_pairs ((sec, kvs) :: c))
    with (((fun kv : bytes * bytes => (sec ++ B ":" ++ kv.1, kv.2)) <$> kvs) ++ config_pairs c).
  rewrite fmap_cons, fmap_app. cbn [foldl]. rewrite a_line_section by done.
  rewrite !foldl_app, fold_keys by
    (done || (right; destruct Hn as [Hne _ [? _] _]; by apply blank_free_app)).
  rewrite (IH _ _ Hok). do 2 f_equal. apply list_fmap_ext. intros ? ? _. by rewrite <- app_assoc.
Qed.
Lemma a_find_pairs l : forall m k,
  a_find (foldl add_pair m l) k = a_find m k ++ (snd <$> filter (fun kv => kv.1 = k) l).
Proof.
  induction l as [|[k0 v] l IH]; intros m k; cbn [foldl]; [by rewrite app_nil_r|].
  rewrite IH. unfold add_pair at 1. cbn [fst snd]. rewrite a_find_add, <- app_assoc. f_equal.
  rewrite filter_cons. cbn [fst]. destruct (decide (k0 = k)).
  - by rewrite bool_decide_true.
  - by rewrite bool_decide_false.
Qed.
Lemma plain_pairs l : forall m, plain_assoc m -> Forall (fun kv => find_var kv.2 = None) l ->
  plain_assoc (foldl add_pair m l).
Proof.
  induction l as [|kv l IH]; intros m Hm Hl; [done|]. apply Forall_cons in Hl as [Hv Hl]. cbn.
  apply IH; [by apply plain_add|done].
Qed.

Lemma config_lines_short c : Forall section_ok c ->
  Forall (fun l => (10 ∉ l) /\ (length l < LINE_SIZE - 1)%nat) (config_lines c).
Proof.
  intros H. unfold config_lines. apply Forall_concat, Forall_fmap. eapply Forall_impl; [exact H|].
  intros [sec kvs] [[_ (_ & Hn & _) _ Hl] _ Hp]. cbn [fst snd compose] in *. constructor.
  - unfold section_line. split; [set_solver|]. rewrite !length_app. unfold LINE_SIZE, TOKEN_SIZE in *. simpl in *. lia.
  - apply Forall_fmap. eapply Forall_impl; [exact Hp|].
    intros [k v] [[_ (_ & Hk & _) _ Hkl] _ _ ((_ & Hv & _) & _ & Hvl) _]. cbn [fst snd compose] in *.
    unfold key_line. cbn [fst snd]. split; [set_solver|]. rewrite !length_app.
    unfold LINE_SIZE, TOKEN_SIZE in *. simpl in *. lia.
Qed.
Lemma config_pairs_plain c : Forall section_ok c -> Forall (fun kv => find_var kv.2 = None) (config_pairs c).
Proof.
  intros H. unfold config_pairs. apply Forall_concat, Forall_fmap. eapply Forall_impl; [exact H|].
  intros [sec kvs] [_ _ Hp]. cbn [fst snd compose] in *. apply Forall_fmap.
  eapply Forall_impl; [exact Hp|]. intros kv []. done.
Qed.

(** ** The properties *)

(** C23: a configuration file of at most 32768 lines, whatever they hold, is loaded
    to the end, without undefined behaviour, when every malloc succeeds: [ini_load]
    returns the null pointer or a table whose keys have strings that fit in the
    parser's buffers.  [too_many_values] and [grow_without_memory] show that
    neither condition can be dropped. *)
Theorem ini_load_total path w :
  w_faults w = [] ->
  (forall text, fopen_read path w = Ok (Some text, w) ->
     Z.of_nat (length (file_lines (LINE_SIZE - 1) [] text)) <= 32768) ->
  exists r, ini_load path w = Ok (r, w) /\ forall t, r = Some t -> table_ok t.
Proof.
  intros Hnf Hlines. unfold ini_load. erewrite bind_ok by by apply malloc_ok. cbn [negb].
  assert (exists text, fopen_read path w = Ok (text, w)) as [text E].
  { unfold fopen_read, pick_fault, bind. rewrite Hnf. destruct (bool_decide _); [by eexists|].
    destruct (w_names w !! path) as [ino|]; [|by eexists]. destruct (w_inodes w !! ino); by eexists. }
  erewrite bind_ok by exact E. destruct text as [text|]; [|by exists None]. specialize (Hlines text E).
  destruct (ini_lines_spec (file_lines (LINE_SIZE - 1) [] text) [] [] [] 0 0 w) as (t & E1 & Ht);
    try done; [constructor|constructor|].
  erewrite bind_ok by exact E1.
  set (m := (foldl a_line ([], []) (file_lines (LINE_SIZE - 1) [] text)).1) in *.
  assert (short max_len m) as Hs.
  { eapply short_weaken; [apply short_lines; constructor|]. unfold max_len, LINE_SIZE. lia. }
  destruct (replace_each_total t.*1 t m w) as (rc & t' & E2 & _ & m' & Ht' & Hs' & _);
    [by apply stands_table|done|done| |].
  { apply Forall_forall. intros k Hk. by rewrite <- (table_keys t m) by by apply stands_table. }
  unfold replace_var. erewrite bind_ok by exact E2. cbv beta iota. destruct (negb (rc =? 0)).
  - erewrite bind_ok by by eapply ini_clear_total. by exists None.
  - eexists. split; [done|]. intros t0 [= <-]. by exists m'.
Qed.

(** C25: the variables of a value are replaced by the values of the keys they
    name: for a text with variables whose values hold no variables themselves,
    [replace_in_line] gives the text with the values in their places, in a copy
    when it has grown, and an error when a name has no value or several. *)
Theorem replace_expand t m ps max w :
  table_of t m -> w_faults w = [] -> Forall (part_ok m) ps ->
  vars ps < MAX_TOKENS - 1 -> room m ps < max ->
  replace_in_line (render ps) max t w =
  Ok ((fun e => (e, strlen (render ps) <? strlen e)) <$> expand m ps, w).
Proof.
  intros Ht Hnf Hok Hv Hr. pose proof (room_render m ps) as [Hrr Hvs].
  pose proof (find_var_render m ps Hok) as Hf. unfold replace_in_line.
  destruct (find_var (render ps)) as [k|]; [|by rewrite Hf; cbn; rewrite Z.ltb_irrefl].
  destruct Hf as (pre & ps' & -> & Eps & -> & Hok' & Hv' & Hr'). rewrite (proj2 (Z.leb_gt _ _)) by lia.
  change (Z.to_nat MAX_TOKENS) with (S (S 1022)).
  remember (S 1022) as depth eqn:Ed. cbn [find_token]. unfold bind at 1, modify at 1, bind at 1, gets at 1.
  cbn [tk_left with_left]. change (MAX_TOKENS - 1 <=? 0) with false. cbv iota. rewrite Nat.add_0_r, Ed.
  destruct (scan_parts t m Ht max 1022 (length pre) ps' pre (token_rounds max)
    (with_left (MAX_TOKENS - 1) (Tokens (render ps) (strlen (render ps)) MAX_TOKENS))) as (s' & -> & Hpost);
    try done.
  - split; [done|]. cbn. lia.
  - cbn. unfold MAX_TOKENS in *. lia.
  - lia.
  - unfold token_rounds. cbn. unfold MAX_TOKENS, strlen in *. lia.
  - destruct (expand m ps') as [e|]; [|done]. destruct (Hpost e eq_refl) as [Eb [El _]]. cbn. rewrite El, Eb.
    change (Z.of_nat (length (pre ++ e))) with (strlen (pre ++ e)). rewrite Z.leb_antisym.
    destruct (strlen (render ps) <? strlen (pre ++ e)); cbn [negb].
    + by erewrite bind_ok by by apply malloc_ok.
    + unfold strlen. by rewrite Nat2Z.id, firstn_all.
Qed.

(** C24: a configuration that is written with its sections and keys, one line
    each, is found again by [ini_load]: [ini_find] gives the values of a key in
    the order of the file and [ini_count] their number. *)
Theorem ini_roundtrip c path w :
  Forall section_ok c -> Z.of_nat (length (config_lines c)) <= 32768 -> w_faults w = [] ->
  fopen_read path w = Ok (Some (print_config c), w) ->
  exists t, ini_load path w = Ok (Some t, w) /\
    forall section key (i : nat), section <> [] -> (length section + length key < 2 * TOKEN_SIZE)%nat ->
      ini_find t section key (Z.of_nat i) = Str <$> (values_of c section key !! i) /\
      ini_count t section key = Z.of_nat (length (values_of c section key)).
Proof.
  intros Hok Hl Hnf Hread. unfold ini_load. erewrite bind_ok by by apply malloc_ok. cbn [negb].
  erewrite bind_ok by exact Hread. unfold print_config. rewrite file_lines_lines by by apply config_lines_short.
  destruct (ini_lines_spec ((fun l => l ++ [10]) <$> config_lines c) [] [] [] 0 0 w) as (t & E1 & Ht);
    try done; [constructor|constructor|by rewrite length_fmap|].
  erewrite bind_ok by exact E1.
  pose proof (short_lines ((fun l => l ++ [10]) <$> config_lines c) [] [] ltac:(constructor)) as Hs.
  rewrite (fold_config c [] [] Hok) in Ht, Hs. set (m := foldl add_pair [] (config_pairs c)) in *.
  assert (plain_assoc m) as Hp by (apply plain_pairs; [constructor|by apply config_pairs_plain]).
  destruct (replace_each_total t.*1 t m w) as (rc & t' & E2 & Hrc & m' & Ht' & _ & Hm');
    [by apply stands_table|done| | |].
  { eapply short_weaken; [exact Hs|]. unfold max_len, LINE_SIZE. lia. }
  { apply Forall_forall. intros k Hk. by rewrite <- (table_keys t m) by by apply stands_table. }
  rewrite (Hm' Hp) in Ht'. exists t'. split.
  - unfold replace_var. erewrite bind_ok by exact E2. by rewrite Hrc.
  - intros section key i Hne Hlen. assert (full_key section key = section ++ B ":" ++ key) as Ek.
    { unfold full_key. rewrite bool_decide_false by done. unfold snprintf. apply take_ge.
      rewrite !length_app. unfold TOKEN_SIZE in *. simpl in *. lia. }
    assert (a_find m (section ++ B ":" ++ key) = values_of c section key) as Em by by unfold m; rewrite a_find_pairs.
    unfold ini_find, ini_count. rewrite Ek, (find_key_spec t' m _ i Ht'), (find_key_first t' m _ Ht'). cbn [fst snd].
    by rewrite Em.
Qed.

(** The 16-bit size of the array of values wraps around: a key with 32768
    values takes one more, after which its first value is the address of the
    array, and the value after that is written outside memory. *)
Theorem too_many_values key vs ll v1 v2 n1 n2 w :
  Z.of_nat (length vs) = 32768 -> w_faults w = [] ->
  exists kv,
    add_key_value [(key, IniKv 32768 32768 (Arr 32768 (Str <$> vs)) (LineArr 32768 ll))] key v1 n1 w
      = Ok ((0, [(key, kv)]), w) /\
    find_key [(key, kv)] key 0 = (Some Junk, 32769) /\
    add_key_value [(key, kv)] key v2 n2 w = Fault.
Proof.
  intros Hl Hnf. pose proof (malloc_ok w Hnf) as Hm.
  exists (IniKv 32769 0 (Arr 65536 (Str <$> (vs ++ [v1]))) (LineArr 65536 (ll ++ [n1]))). split; [|split].
  - unfold add_key_value. cbn [HASH_FIND_STR]. rewrite bool_decide_true by done.
    erewrite bind_ok by reflexivity. cbv beta iota. change (negb (0 =? 0)) with false. cbv iota.
    erewrite bind_ok; cycle 1.
    { unfold kv_grow. cbn [values_size value_count vals lines].
      change (negb (32768 <=? 32768)) with false. cbv iota. erewrite bind_ok by exact Hm. cbn [negb]. by erewrite bind_ok by exact Hm. }
    cbv beta iota. change (negb (0 =? 0)) with false. cbv iota. erewrite bind_ok; cycle 1.
    { unfold kv_append. cbn [vals value_count values_size lines]. rewrite length_fmap, Hl.
      change ((32768 <? 32768 * 2) && (32768 =? 32768)) with true. cbv iota.
      erewrite bind_ok by exact Hm. reflexivity. }
    unfold ret. cbn [kv_store]. rewrite bool_decide_true by done. rewrite fmap_app. reflexivity.
  - unfold find_key. cbn [HASH_FIND_STR]. by rewrite bool_decide_true.
  - unfold add_key_value. cbn [HASH_FIND_STR]. rewrite bool_decide_true by done.
    erewrite bind_ok; cycle 1.
    { unfold kv_first_array. cbn [values_size vals value_count lines].
      change (negb (0 =? 0)) with false. cbv iota zeta.
      erewrite bind_ok by exact Hm. cbn [negb]. by erewrite bind_ok by exact Hm. }
    cbv beta iota. change (negb (0 =? 0)) with false. cbv iota. erewrite bind_ok; cycle 1.
    { unfold kv_grow. cbn [values_size value_count vals lines].
      change (negb (8 <=? 32769)) with false. cbv iota. erewrite bind_ok by exact Hm. cbn [negb]. by erewrite bind_ok by exact Hm. }
    reflexivity.
Qed.

(** When there is no memory to enlarge the array of values, the pointer to
    it is lost, and freeing the table reads through the null pointer. *)
Theorem grow_without_memory key vs ll v n rest w :
  Z.of_nat (length vs) = 8 -> w_faults w = true :: rest ->
  exists t, add_key_value [(key, IniKv 8 8 (Arr 8 (Str <$> vs)) (LineArr 8 ll))] key v n w
    = Ok ((MQ_ENOMEM, t), set_faults rest w) /\
  ini_clear t (set_faults rest w) = Fault.
Proof.
  intros Hl Hf. exists [(key, IniKv 8 8 NoVals (LineArr 8 ll))]. split; [|reflexivity].
  unfold add_key_value. cbn [HASH_FIND_STR]. rewrite bool_decide_true by done.
  erewrite bind_ok by reflexivity. cbv beta iota. change (negb (0 =? 0)) with false. cbv iota.
  erewrite bind_ok; cycle 1.
  { unfold kv_grow. cbn [values_size value_count vals lines].
      change (negb (8 <=? 8)) with false. cbv iota. 
    assert (malloc w = Ok (false, set_faults rest w)) as Hm
      by (unfold malloc, pick_fault, bind, ret; by rewrite Hf).
    erewrite bind_ok by exact Hm. reflexivity. }
  cbn. by rewrite bool_decide_true.
Qed.

(** ** Witnesses *)
Definition sample_config : config :=
  [(B "server", [(B "port", B "1818")]); (B "db", [(B "path", B "data dir"); (B "path", [])])].
Definition ini_world (text : bytes) : world :=
  World ∅ {[B "ini" := 2]} {[2 := File (strlen text) (put_bytes ∅ 0 text)]} ∅ ∅ 3 (2 ^ 40) 1000 [].
Definition sample_ini : bytes := B "[a]" ++ [10] ++ B "x=$(a:y" ++ [10] ++ B "y = 1$(a:x)" ++ [10].

Lemma ini_load_total_witness : exists r, ini_load (B "ini") (ini_world sample_ini) = Ok (r, ini_world sample_ini) /\
  forall t, r = Some t -> table_ok t.
Proof.
  apply (ini_load_total (B "ini") (ini_world sample_ini)); [reflexivity|].
  intros text E. assert (text = sample_ini) as ->.
  { assert (fopen_read (B "ini") (ini_world sample_ini) = Ok (Some sample_ini, ini_world sample_ini)) as E'
      by by vm_compute. congruence. }
  vm_compute. discriminate.
Defined.

Lemma replace_expand_witness :
  replace_in_line (render [Text (B "1"); Var (B "k"); Text (B "2")]) 4097
    [(B "k", IniKv 1 0 (One (Str (B "long value"))) (LineOne 1))] (ini_world [])
  = Ok ((fun e => (e, strlen (render [Text (B "1"); Var (B "k"); Text (B "2")]) <? strlen e)) <$>
          Some (B "1long value2"), ini_world []).
Proof.
  apply (replace_expand [(B "k", IniKv 1 0 (One (Str (B "long value"))) (LineOne 1))] [(B "k", [B "long value"])]
           [Text (B "1"); Var (B "k"); Text (B "2")] 4097 (ini_world [])).
  - constructor; [|constructor]. split; [reflexivity|]. apply loaded_one. lia.
  - reflexivity.
  - repeat constructor; decide_it.
  - reflexivity.
  - reflexivity.
Defined.

Lemma ini_roundtrip_witness : exists t,
  ini_load (B "ini") (ini_world (print_config sample_config))
    = Ok (Some t, ini_world (print_config sample_config)) /\
  forall section key (i : nat), section <> [] -> (length section + length key < 2 * TOKEN_SIZE)%nat ->
    ini_find t section key (Z.of_nat i) = Str <$> (values_of sample_config section key !! i) /\
    ini_count t section key = Z.of_nat (length (values_of sample_config section key)).
Proof.
  apply (ini_roundtrip sample_config (B "ini") (ini_world (print_config sample_config))).
  - repeat first
      [ lazymatch goal with
        | |- blank_free _ => decide_it
        | |- _ <> [] => discriminate
        | |- forall c r, _ = _ -> _ => intros ? ? E; vm_compute in E; injection E as <- _; lia
        | |- find_var _ = None => reflexivity
        | |- _ ∉ _ => decide_it
        | |- (_ <= _)%nat => decide_it
        end
      | constructor ].
  - vm_compute. discriminate.
  - reflexivity.
  - by vm_compute.
Defined.

Lemma too_many_values_witness : exists kv,
  add_key_value [(B "k", IniKv 32768 32768 (Arr 32768 (Str <$> replicate 32768 [])) (LineArr 32768 []))]
    (B "k") (B "v") 1 (ini_world []) = Ok ((0, [(B "k", kv)]), ini_world []) /\
  find_key [(B "k", kv)] (B "k") 0 = (Some Junk, 32769) /\
  add_key_value [(B "k", kv)] (B "k") (B "w") 2 (ini_world []) = Fault.
Proof.
  apply (too_many_values (B "k") (replicate 32768 []) [] (B "v") (B "w") 1 2 (ini_world []));
    [by rewrite length_replicate|reflexivity].
Defined.

Lemma grow_without_memory_witness : exists t,
  add_key_value [(B "k", IniKv 8 8 (Arr 8 (Str <$> replicate 8 [])) (LineArr 8 []))] (B "k") (B "v") 1
    (set_faults [true] (ini_world [])) = Ok ((MQ_ENOMEM, t), set_faults [] (set_faults [true] (ini_world []))) /\
  ini_clear t (set_faults [] (set_faults [true] (ini_world []))) = Fault.
Proof.
  apply (grow_without_memory (B "k") (replicate 8 []) [] (B "v") 1 [] (set_faults [true] (ini_world [])));
    reflexivity.
Defined.
