(* ===== verification/MqConfig.v ===== *)
(** * source/mq_config.c

    The defaults of the configuration and the values that [read_conf_file] takes
    from the file.  The parser is the class [ConfSource]; its laws, [ConfLaws],
    are what the theorems need, and [Ini] is an instance of both. *)
From S2P Require Import Prelude.
From S2P Require Import CLib.
From S2P Require Import World.
From S2P Require Import MqTypes.
From S2P Require Import MqUtil.
From S2P Require Import StorePath.
From S2P Require Import Ini.
From S2P Require Import IniSpec.

(** ** The defaults *)
Definition g_mq_conf_init : ucmq_conf :=
  UcmqConf (B "0.0.0.0") 1818 (B "0") (B "../log") (B "info") (B "../binlog") (B "300")
    (B "../conf/ucmq.ini") (B "./ucmq_1818.pid") 4 32 100 100 10000000 0 (B "../data") 64.

(** [SET_STR_OPT(g_mq_conf.conf_file)]: the path of the command line. *)
Definition with_conf_file (path : bytes) (c : ucmq_conf) : ucmq_conf :=
  UcmqConf (http_listen_addr c) (http_listen_port c) (allow_exec_ip c) (output_log_path c) (output_log_level c)
    (binlog_file_path c) (keep_alive c) (take 127 path) (pid_file c) (res_store_space c) (max_qlist_itmes c)
    (sync_interval c) (sync_time_interval c) (def_max_queue c) (def_delay c) (data_file_path c)
    (db_file_max_size c).

(** ** A parser of configuration files *)
Class ConfSource (T : Type) := {
  cs_load : bytes -> M world (option T);
  cs_find : T -> bytes -> bytes -> Z -> option slot;
  cs_free : T -> M world Z
}.

(** What the configuration relies on: of a file that could be loaded, the values
    of each key are strings, and freeing it does nothing else. *)
Class ConfLaws (T : Type) `{ConfSource T} := {
  cs_ok : T -> Prop;
  cs_values : T -> bytes -> bytes -> list bytes;
  cs_find_ok t section key : cs_ok t ->
    cs_find t section key 0 = Str <$> head (cs_values t section key);
  cs_free_ok t w : cs_ok t -> cs_free t w = Ok (0, w)
}.

Section ReadConf.
Context {T : Type} `{ConfSource T}.

(** ** Reading *)

(** [LOAD_OPTIONAL_PARAM]: the string, or the null pointer. *)
Definition LOAD_OPTIONAL_PARAM (t : T) (section key : bytes) : M world (option bytes) :=
  match cs_find t section key 0 with
  | None => ret None
  | Some (Str param) => ret (Some param)
  | Some Junk => fault
  end.

(** [strncpy(field, param, size - 1)]; the last byte of a field is always zero. *)
Definition load_str (t : T) (section key : bytes) (size : nat) (field : bytes) : M world bytes :=
  let! param := LOAD_OPTIONAL_PARAM t section key in
  ret (match param with Some s => take (size - 1) s | None => field end).
(** A number is taken when [is_num_str] says it is one. *)
Definition load_num (t : T) (section key : bytes) (conv : bytes -> Z) (field : Z) : M world Z :=
  let! param := LOAD_OPTIONAL_PARAM t section key in
  ret (match param with Some s => if is_num_str s then conv s else field | None => field end).

(** The limit is an [assert]. *)
Definition load_db_file_max_size (t : T) (field : Z) : M world Z :=
  let! param := LOAD_OPTIONAL_PARAM t (B "db") (B "db_file_max_size") in
  match param with
  | Some s =>
      if is_num_str s then
        if atoi s <=? MAX_DB_FILE_SIZE_LIMIT then ret (atoi s) else fault
      else ret field
  | None => ret field
  end.

Definition read_conf_file (c : ucmq_conf) : M world (bool * ucmq_conf) :=
  let! myini := cs_load (conf_file c) in
  match myini with
  | None => ret (false, c)
  | Some t =>
      let! addr := load_str t (B "server") (B "http_listen_addr") 16 (http_listen_addr c) in
      let! port := load_num t (B "server") (B "http_listen_port") atoi (http_listen_port c) in
      let! exec_ip := load_str t (B "server") (B "allow_exec_ip") 16 (allow_exec_ip c) in
      let! log_path := load_str t (B "server") (B "output_log_path") 128 (output_log_path c) in
      let! log_level := load_str t (B "server") (B "output_log_level") 16 (output_log_level c) in
      let! binlog := load_str t (B "server") (B "binlog_file_path") 128 (binlog_file_path c) in
      let! keep := load_str t (B "server") (B "keep_alive") 16 (keep_alive c) in
      let! cfile := load_str t (B "server") (B "conf_file") 128 (conf_file c) in
      let! pfile := load_str t (B "server") (B "pid_file") 128 (pid_file c) in
      let! space := load_num t (B "server") (B "res_store_space") (fun s => u64 (atoll s)) (res_store_space c) in
      let! items := load_num t (B "server") (B "max_qlist_itmes") atoi (max_qlist_itmes c) in
      let! sync := load_num t (B "rtag") (B "sync_interval") atoi (sync_interval c) in
      let! sync_time := load_num t (B "rtag") (B "sync_time_interval") atoi (sync_time_interval c) in
      let! max_queue := load_num t (B "queue") (B "def_max_queue") (fun s => u32 (atoi s)) (def_max_queue c) in
      let! delay := load_num t (B "queue") (B "def_delay") (fun s => u32 (atoi s)) (def_delay c) in
      let! data := load_str t (B "db") (B "data_file_path") 128 (data_file_path c) in
      let! size := load_db_file_max_size t (db_file_max_size c) in
      cs_free t ;;;
      ret (true, UcmqConf addr port exec_ip log_path log_level binlog keep cfile pfile space items
                   sync sync_time max_queue delay data size)
  end.

(** ** The fields keep their types *)
Record conf_typed (c : ucmq_conf) : Prop := {
  ct_addr : (length (http_listen_addr c) < 16)%nat;
  ct_port : -2147483648 <= http_listen_port c <= INT_MAX;
  ct_ip : (length (allow_exec_ip c) < 16)%nat;
  ct_log : (length (output_log_path c) < 128)%nat;
  ct_level : (length (output_log_level c) < 16)%nat;
  ct_binlog : (length (binlog_file_path c) < 128)%nat;
  ct_keep : (length (keep_alive c) < 16)%nat;
  ct_file : (length (conf_file c) < 128)%nat;
  ct_pid : (length (pid_file c) < 128)%nat;
  ct_space : 0 <= res_store_space c < 18446744073709551616;
  ct_items : -2147483648 <= max_qlist_itmes c <= INT_MAX;
  ct_sync : -2147483648 <= sync_interval c <= INT_MAX;
  ct_sync_time : -2147483648 <= sync_time_interval c <= INT_MAX;
  ct_max_queue : 0 <= def_max_queue c <= UINT_MAX;
  ct_delay : 0 <= def_delay c <= UINT_MAX;
  ct_data : (length (data_file_path c) < 128)%nat;
  ct_size : -2147483648 <= db_file_max_size c <= MAX_DB_FILE_SIZE_LIMIT
}.

(** What is stored for the values of a key: the first one, cut to the field, and
    the field itself when there is none or it is no number. *)
Definition str_of (vs : list bytes) (size : nat) (field : bytes) : bytes :=
  match head vs with Some s => take (size - 1) s | None => field end.
Definition num_of (vs : list bytes) (conv : bytes -> Z) (field : Z) : Z :=
  match head vs with Some s => if is_num_str s then conv s else field | None => field end.
(** [None] when the limit is exceeded. *)
Definition db_size_of (vs : list bytes) (field : Z) : option Z :=
  match head vs with
  | Some s =>
      if is_num_str s then if atoi s <=? MAX_DB_FILE_SIZE_LIMIT then Some (atoi s) else None
      else Some field
  | None => Some field
  end.

Context `{!ConfLaws T}.

Lemma load_str_ok t section key size field w : cs_ok t ->
  load_str t section key size field w = Ok (str_of (cs_values t section key) size field, w).
Proof.
  intros Ht. unfold load_str, LOAD_OPTIONAL_PARAM. rewrite cs_find_ok by done. by destruct (cs_values t section key).
Qed.
Lemma load_num_ok t section key conv field w : cs_ok t ->
  load_num t section key conv field w = Ok (num_of (cs_values t section key) conv field, w).
Proof.
  intros Ht. unfold load_num, LOAD_OPTIONAL_PARAM. rewrite cs_find_ok by done. by destruct (cs_values t section key).
Qed.

(** The configuration with the values of the file and the size [size]. *)
Definition conf_of (t : T) (c : ucmq_conf) (size : Z) : ucmq_conf :=
  let server := cs_values t (B "server") in
  let rtag := cs_values t (B "rtag") in
  let queue := cs_values t (B "queue") in
  UcmqConf (str_of (server (B "http_listen_addr")) 16 (http_listen_addr c))
    (num_of (server (B "http_listen_port")) atoi (http_listen_port c))
    (str_of (server (B "allow_exec_ip")) 16 (allow_exec_ip c))
    (str_of (server (B "output_log_path")) 128 (output_log_path c))
    (str_of (server (B "output_log_level")) 16 (output_log_level c))
    (str_of (server (B "binlog_file_path")) 128 (binlog_file_path c))
    (str_of (server (B "keep_alive")) 16 (keep_alive c))
    (str_of (server (B "conf_file")) 128 (conf_file c))
    (str_of (server (B "pid_file")) 128 (pid_file c))
    (num_of (server (B "res_store_space")) (fun s => u64 (atoll s)) (res_store_space c))
    (num_of (server (B "max_qlist_itmes")) atoi (max_qlist_itmes c))
    (num_of (rtag (B "sync_interval")) atoi (sync_interval c))
    (num_of (rtag (B "sync_time_interval")) atoi (sync_time_interval c))
    (num_of (queue (B "def_max_queue")) (fun s => u32 (atoi s)) (def_max_queue c))
    (num_of (queue (B "def_delay")) (fun s => u32 (atoi s)) (def_delay c))
    (str_of (cs_values t (B "db") (B "data_file_path")) 128 (data_file_path c))
    size.

Lemma read_conf_ok c w t : cs_load (conf_file c) w = Ok (Some t, w) -> cs_ok t ->
  read_conf_file c w =
  match db_size_of (cs_values t (B "db") (B "db_file_max_size")) (db_file_max_size c) with
  | Some size => Ok ((true, conf_of t c size), w)
  | None => Fault
  end.
Proof.
  intros Hl Ht. unfold read_conf_file. erewrite bind_ok by exact Hl. cbv beta iota.
  do 16 (erewrite bind_ok; [|first [by apply load_str_ok|by apply load_num_ok]]; cbv beta).
  unfold bind at 1, load_db_file_max_size, bind at 1, LOAD_OPTIONAL_PARAM. rewrite cs_find_ok by done.
  destruct (cs_values t (B "db") (B "db_file_max_size")) as [|s vs]; cbn [head fmap option_fmap option_map db_size_of].
  - unfold ret, bind. rewrite cs_free_ok by done. done.
  - unfold ret. destruct (is_num_str s); [destruct (atoi s <=? MAX_DB_FILE_SIZE_LIMIT); [|done]|];
      unfold bind; rewrite cs_free_ok by done; done.
Qed.

Lemma str_of_length vs (size : nat) field :
  (0 < size)%nat -> (length field < size)%nat -> (length (str_of vs size field) < size)%nat.
Proof. intros Hs Hf. destruct vs as [|s vs]; [done|]. cbn. rewrite length_take. lia. Qed.
Lemma num_of_range vs conv field a b :
  (forall s, a <= conv s <= b) -> a <= field <= b -> a <= num_of vs conv field <= b.
Proof. intros Hc Hf. destruct vs as [|s vs]; [done|]. cbn. by destruct (is_num_str s). Qed.
Lemma atoi_range s : -2147483648 <= atoi s <= INT_MAX.
Proof. unfold atoi, INT_MAX. pose proof (i32_range (atoll s)). lia. Qed.

(** C27: reading the configuration keeps every field within its C type: with a
    parser that satisfies its laws the strings are cut to their arrays and the
    numbers are values of their types, whatever the file holds; the only other
    outcome is the [assert] on a size of data files above 64 MB. *)
Theorem read_conf_typed c w t :
  conf_typed c -> cs_load (conf_file c) w = Ok (Some t, w) -> cs_ok t ->
  match db_size_of (cs_values t (B "db") (B "db_file_max_size")) (db_file_max_size c) with
  | Some size => exists c', read_conf_file c w = Ok ((true, c'), w) /\ conf_typed c' /\ db_file_max_size c' = size
  | None => read_conf_file c w = Fault
  end.
Proof.
  intros Hc Hl Ht. rewrite (read_conf_ok c w t) by done.
  destruct (db_size_of _ _) as [size|] eqn:E; [|done]. exists (conf_of t c size). split; [done|]. split; [|done].
  assert (forall s, 0 <= u32 (atoi s) <= UINT_MAX) as Hu.
  { intros s. pose proof (u32_range (atoi s)). unfold UINT_MAX. lia. }
  destruct Hc. split; cbn; try (apply str_of_length; [lia|done]);
    try (apply num_of_range; [first [exact atoi_range|exact Hu]|done]).
  - match goal with |- 0 <= ?x < _ => enough (0 <= x <= 18446744073709551615) by lia end.
    apply num_of_range; [intros s; pose proof (u64_range (atoll s)); lia|lia].
  - unfold db_size_of in E. destruct (cs_values t (B "db") (B "db_file_max_size")) as [|s vs]; cbn [head] in E.
    + by injection E as <-.
    + destruct (is_num_str s); [|by injection E as <-].
      destruct (Z.leb_spec (atoi s) MAX_DB_FILE_SIZE_LIMIT); [|done]. injection E as <-.
      pose proof (atoi_range s). lia.
Qed.
End ReadConf.

(** ** The parser of the program *)
#[export] Instance ini_source : ConfSource ini_t := {|
  cs_load := ini_load;
  cs_find := ini_find;
  cs_free := ini_clear
|}.

(** The strings of a node. *)
Definition node_values (kv : ini_kv) : list bytes :=
  omap (fun s => match s with Str v => Some v | Junk => None end)
    (match vals kv with One s => [s] | Arr _ l => l | NoVals => [] end).
Definition ini_values (t : ini_t) (section key : bytes) : list bytes :=
  match HASH_FIND_STR t (full_key section key) with Some kv => node_values kv | None => [] end.

Lemma node_values_loaded vs kv : loaded vs kv -> node_values kv = vs.
Proof.
  intros [v sz ls Hsz|vs' sz cap ls Hsz Hl]; [done|]. unfold node_values. cbn [vals].
  clear. induction vs' as [|v vs IH]; [done|]. cbn in *. by rewrite IH.
Qed.
Lemma ini_values_find t m section key : table_of t m -> ini_values t section key = a_find m (full_key section key).
Proof.
  intros Ht. pose proof (loaded_find t m (full_key section key) Ht) as Hf. unfold ini_values.
  destruct (HASH_FIND_STR t _); [by apply node_values_loaded|done].
Qed.

Lemma ini_find_first t section key : table_ok t ->
  ini_find t section key 0 = Str <$> head (ini_values t section key).
Proof.
  intros (m & Ht & _). unfold ini_find.
  by rewrite (find_key_first t m) by done; cbn; rewrite (ini_values_find t m).
Qed.

#[export] Instance ini_laws : ConfLaws ini_t.
Proof.
  refine {| cs_ok := table_ok; cs_values := ini_values |}.
  - exact ini_find_first.
  - intros t w (m & Ht & _). by eapply ini_clear_total.
Defined.

(** ** Writing a configuration *)
Definition config_of (c : ucmq_conf) : config :=
  [(B "server",
    [(B "http_listen_addr", http_listen_addr c); (B "http_listen_port", dec (http_listen_port c));
     (B "allow_exec_ip", allow_exec_ip c); (B "output_log_path", output_log_path c);
     (B "output_log_level", output_log_level c); (B "binlog_file_path", binlog_file_path c);
     (B "keep_alive", keep_alive c); (B "conf_file", conf_file c); (B "pid_file", pid_file c);
     (B "res_store_space", dec (res_store_space c)); (B "max_qlist_itmes", dec (max_qlist_itmes c))]);
   (B "rtag",
    [(B "sync_interval", dec (sync_interval c)); (B "sync_time_interval", dec (sync_time_interval c))]);
   (B "queue", [(B "def_max_queue", dec (def_max_queue c)); (B "def_delay", dec (def_delay c))]);
   (B "db", [(B "data_file_path", data_file_path c); (B "db_file_max_size", dec (db_file_max_size c))])].

(** A text that can be written as a value of at most [n] characters. *)
Definition text_ok (n : nat) (s : bytes) : Prop :=
  one_line s /\ no_outer_blanks s /\ find_var s = None /\ (length s < n)%nat.

Record conf_writable (c : ucmq_conf) : Prop := {
  cw_addr : text_ok 16 (http_listen_addr c);
  cw_ip : text_ok 16 (allow_exec_ip c);
  cw_log : text_ok 128 (output_log_path c);
  cw_level : text_ok 16 (output_log_level c);
  cw_binlog : text_ok 128 (binlog_file_path c);
  cw_keep : text_ok 16 (keep_alive c);
  cw_file : text_ok 128 (conf_file c);
  cw_pid : text_ok 128 (pid_file c);
  cw_data : text_ok 128 (data_file_path c);
  cw_port : 0 <= http_listen_port c <= INT_MAX;
  cw_space : 0 <= res_store_space c <= LLONG_MAX;
  cw_items : 0 <= max_qlist_itmes c <= INT_MAX;
  cw_sync : 0 <= sync_interval c <= INT_MAX;
  cw_sync_time : 0 <= sync_time_interval c <= INT_MAX;
  cw_max_queue : 0 <= def_max_queue c <= UINT_MAX;
  cw_delay : 0 <= def_delay c <= UINT_MAX;
  cw_size : 0 <= db_file_max_size c <= MAX_DB_FILE_SIZE_LIMIT
}.

(** *** Numbers *)
Lemma dec_pad v : dec v = pad 0 v.
Proof. unfold pad. by rewrite Nat.max_0_l. Qed.
Lemma dec_digits v : Forall (fun c => isdigit c = true) (dec v).
Proof. apply fixed_digits. Qed.
Lemma dec_num v : is_num_str (dec v) = true.
Proof. apply is_num_str_spec, dec_digits. Qed.
Lemma digits_without x s : isdigit x = false -> Forall (fun c => isdigit c = true) s -> x ∉ s.
Proof. intros Hx Hs Hin. rewrite Forall_forall in Hs. apply Hs in Hin. congruence. Qed.
Lemma digits_blank_free s : Forall (fun c => isdigit c = true) s -> blank_free s.
Proof.
  intros Hs c r ->. apply Forall_cons in Hs as [Hc _]. unfold isdigit in Hc. unfold isspace.
  rewrite andb_true_iff, !Z.leb_le in Hc. rewrite orb_false_iff, andb_false_iff, Z.eqb_neq, !Z.leb_gt. lia.
Qed.
Lemma find_var_none s : 36 ∉ s -> find_var s = None.
Proof. intros H. pose proof (find_var_text s [] H) as E. by rewrite app_nil_r in E. Qed.
Lemma dec_length v : 0 <= v <= LLONG_MAX -> (length (dec v) <= 20)%nat.
Proof. intros Hv. rewrite dec_pad, pad_length. pose proof (ndigits_le20 v ltac:(lia)). lia. Qed.
Lemma dec_text v : 0 <= v <= LLONG_MAX -> text_ok 128 (dec v).
Proof.
  intros Hv. pose proof (dec_digits v) as Hd. pose proof (dec_length v Hv). split_and!.
  - split_and!; by eapply digits_without.
  - split; apply digits_blank_free; [done|by apply Forall_rev].
  - by apply find_var_none, digits_without.
  - lia.
Qed.
Lemma atoll_dec v : 0 <= v <= LLONG_MAX -> atoll (dec v) = v.
Proof. intros Hv. rewrite dec_pad. by apply atoll_pad. Qed.
Lemma atoi_dec v : 0 <= v <= INT_MAX -> atoi (dec v) = v.
Proof. intros Hv. rewrite dec_pad. by apply atoi_pad. Qed.
Lemma u32_atoi_dec v : 0 <= v <= UINT_MAX -> u32 (atoi (dec v)) = v.
Proof.
  intros Hv. unfold UINT_MAX in Hv. unfold atoi. rewrite atoll_dec by (unfold LLONG_MAX; lia).
  rewrite u32_i32. apply u32_small. lia.
Qed.

(** *** The lines *)
Lemma text_pair k s n : name_ok k -> 61 ∉ k -> (forall c r, k = c :: r -> c <> 59 /\ c <> 35 /\ c <> 91) ->
  text_ok n s -> (n <= TOKEN_SIZE)%nat -> pair_ok (k, s).
Proof. intros Hk He Hh (? & ? & ? & ?) Hn. split; cbn; try done. split_and!; try done. lia. Qed.
Ltac name_it :=
  lazymatch goal with
  | |- name_ok _ =>
      split; [discriminate|split; [|split]; decide_it|split; decide_it|decide_it]
  end.
Ltac pair_it n :=
  apply (text_pair _ _ n);
  [name_it|decide_it|intros ? ? E; vm_compute in E; injection E as <- _; lia| |decide_it].

Lemma config_of_ok c : conf_writable c -> Forall section_ok (config_of c).
Proof.
  intros [].
  assert (forall v, 0 <= v <= INT_MAX -> 0 <= v <= LLONG_MAX) as Hint by (unfold INT_MAX, LLONG_MAX; lia).
  assert (forall v, 0 <= v <= UINT_MAX -> 0 <= v <= LLONG_MAX) as Huint by (unfold UINT_MAX, LLONG_MAX; lia).
  assert (0 <= db_file_max_size c <= LLONG_MAX) by (unfold MAX_DB_FILE_SIZE_LIMIT, LLONG_MAX in *; lia).
  unfold config_of.
  repeat (apply Forall_cons; split); try apply List.Forall_nil; (split; [name_it|decide_it|]); cbn [snd].
  all: repeat (apply Forall_cons; split); try apply List.Forall_nil.
  all: first [pair_it 16%nat; eassumption | pair_it 128%nat; first [eassumption | apply dec_text; auto]].
Qed.

(** The values that were written, whatever they are. *)
Lemma config_of_values c :
  let v := values_of (config_of c) in
  let server k := head (v (B "server") (B k)) in
  server "http_listen_addr" = Some (http_listen_addr c) /\
  server "http_listen_port" = Some (dec (http_listen_port c)) /\
  server "allow_exec_ip" = Some (allow_exec_ip c) /\
  server "output_log_path" = Some (output_log_path c) /\
  server "output_log_level" = Some (output_log_level c) /\
  server "binlog_file_path" = Some (binlog_file_path c) /\
  server "keep_alive" = Some (keep_alive c) /\
  server "conf_file" = Some (conf_file c) /\
  server "pid_file" = Some (pid_file c) /\
  server "res_store_space" = Some (dec (res_store_space c)) /\
  server "max_qlist_itmes" = Some (dec (max_qlist_itmes c)) /\
  head (v (B "rtag") (B "sync_interval")) = Some (dec (sync_interval c)) /\
  head (v (B "rtag") (B "sync_time_interval")) = Some (dec (sync_time_interval c)) /\
  head (v (B "queue") (B "def_max_queue")) = Some (dec (def_max_queue c)) /\
  head (v (B "queue") (B "def_delay")) = Some (dec (def_delay c)) /\
  head (v (B "db") (B "data_file_path")) = Some (data_file_path c) /\
  head (v (B "db") (B "db_file_max_size")) = Some (dec (db_file_max_size c)).
Proof. repeat split; reflexivity. Qed.

Lemma str_of_text vs n s field : head vs = Some s -> text_ok n s -> str_of vs n field = s.
Proof. intros E (_ & _ & _ & Hl). unfold str_of. rewrite E. apply take_ge. lia. Qed.
Lemma num_of_dec vs conv field v : head vs = Some (dec v) -> conv (dec v) = v -> num_of vs conv field = v.
Proof. intros E Hc. unfold num_of. by rewrite E, dec_num. Qed.

(** C26: a configuration written to a file with one line for each setting is read
    back by [read_conf_file] as it was, through the parser of the program. *)
Theorem conf_roundtrip c c0 w :
  conf_writable c -> w_faults w = [] ->
  fopen_read (conf_file c0) w = Ok (Some (print_config (config_of c)), w) ->
  read_conf_file (T := ini_t) c0 w = Ok ((true, c), w).
Proof.
  intros Hc Hnf Hread. pose proof (config_of_ok c Hc) as Hok.
  assert (Z.of_nat (length (config_lines (config_of c))) <= 32768) as Hlines by (cbn; lia).
  destruct (ini_roundtrip (config_of c) (conf_file c0) w Hok Hlines Hnf Hread) as (t & E & Hfind).
  destruct (ini_load_total (conf_file c0) w Hnf) as (r & E' & Htab).
  { intros text Etext. rewrite Hread in Etext. injection Etext as <-.
    unfold print_config. rewrite file_lines_lines, length_fmap by by apply config_lines_short. done. }
  rewrite E in E'. injection E' as <-. specialize (Htab t eq_refl).
  assert (forall section key, section <> [] -> (length section + length key < 2 * TOKEN_SIZE)%nat ->
    head (ini_values t section key) = head (values_of (config_of c) section key)) as Hv.
  { intros section key Hne Hl. destruct (Hfind section key 0%nat Hne Hl) as [Hf _].
    rewrite Nat2Z.inj_0, ini_find_first in Hf by done. clear -Hf.
    revert Hf. generalize (values_of (config_of c) section key) as vs. generalize (ini_values t section key) as vs'.
    intros [|v' vs'] [|v vs]; cbn; congruence. }
  rewrite (@read_conf_ok ini_t ini_source ini_laws c0 w t E Htab).
  pose proof (config_of_values c) as Hvals. cbv zeta in Hvals.
  rewrite <- !Hv in Hvals by (done || (apply Nat.ltb_lt; by vm_compute)).
  destruct Hvals as (V1 & V2 & V3 & V4 & V5 & V6 & V7 & V8 & V9 & V10 & V11 & V12 & V13 & V14 & V15 & V16 & V17).
  destruct Hc. unfold db_size_of. cbn [cs_values ini_laws]. rewrite V17, dec_num.
  assert (forall v, 0 <= v <= INT_MAX -> atoi (dec v) = v) as Hi by (intros; by apply atoi_dec).
  rewrite Hi by (unfold MAX_DB_FILE_SIZE_LIMIT, INT_MAX in *; lia).
  rewrite (proj2 (Z.leb_le _ _)) by lia. do 3 f_equal. unfold conf_of. cbn [cs_values ini_laws].
  rewrite (str_of_text _ _ _ _ V1), (str_of_text _ _ _ _ V3), (str_of_text _ _ _ _ V4), (str_of_text _ _ _ _ V5),
    (str_of_text _ _ _ _ V6), (str_of_text _ _ _ _ V7), (str_of_text _ _ _ _ V8), (str_of_text _ _ _ _ V9),
    (str_of_text _ _ _ _ V16) by done.
  rewrite (num_of_dec _ _ _ _ V2), (num_of_dec _ _ _ _ V10), (num_of_dec _ _ _ _ V11), (num_of_dec _ _ _ _ V12),
    (num_of_dec _ _ _ _ V13), (num_of_dec _ _ _ _ V14), (num_of_dec _ _ _ _ V15);
    [by destruct c|exact (u32_atoi_dec _ cw_delay0)|exact (u32_atoi_dec _ cw_max_queue0)
    |exact (Hi _ cw_sync_time0)|exact (Hi _ cw_sync0)|exact (Hi _ cw_items0)| |exact (Hi _ cw_port0)].
  rewrite (atoll_dec _ cw_space0). apply u64_small. unfold LLONG_MAX in *. lia.
Qed.

(** ** Witnesses *)
Definition sample_written : ucmq_conf :=
  UcmqConf (B "127.0.0.1") 1818 (B "10.0.0.1") (B "log") (B "INFO") (B "binlog") (B "300") (B "ini")
    (B "ucmq.pid") 4 32 100 100 4294967295 5 (B "data dir") 64.
Definition conf_world : world := ini_world (print_config (config_of sample_written)).
Lemma sample_writable : conf_writable sample_written.
Proof. split; first [decide_it | split_and!; [..|done|]; first [decide_it | split; decide_it | split_and!; decide_it]]. Qed.

Lemma conf_roundtrip_witness :
  read_conf_file (T := ini_t) (with_conf_file (B "ini") g_mq_conf_init) conf_world = Ok ((true, sample_written), conf_world).
Proof.
  apply (conf_roundtrip sample_written (with_conf_file (B "ini") g_mq_conf_init) conf_world);
    [exact sample_writable|reflexivity|by vm_compute].
Defined.

(** The table that the parser makes of [conf_world]. *)
Definition sample_table : ini_t :=
  match ini_load (B "ini") conf_world with Ok (Some t, _) => t | _ => [] end.
Lemma sample_table_load : ini_load (B "ini") conf_world = Ok (Some sample_table, conf_world).
Proof. by vm_compute. Qed.

Lemma read_conf_typed_witness : exists c',
  read_conf_file (T := ini_t) (with_conf_file (B "ini") g_mq_conf_init) conf_world = Ok ((true, c'), conf_world) /\
  conf_typed c' /\ db_file_max_size c' = 64.
Proof.
  assert (table_ok sample_table) as Ht.
  { destruct (ini_load_total (B "ini") conf_world) as (r & E & Hr); [reflexivity| |].
    - intros text E. assert (fopen_read (B "ini") conf_world
        = Ok (Some (print_config (config_of sample_written)), conf_world)) as E' by by vm_compute.
      rewrite E' in E. injection E as <-. vm_compute. discriminate.
    - apply Hr. rewrite sample_table_load in E. by injection E as <-. }
  assert (db_size_of (ini_values sample_table (B "db") (B "db_file_max_size")) 64 = Some 64) as Hs by by vm_compute.
  pose proof (@read_conf_typed ini_t ini_source ini_laws (with_conf_file (B "ini") g_mq_conf_init) conf_world
    sample_table) as Hread.
  cbn [cs_values ini_laws db_file_max_size with_conf_file g_mq_conf_init] in Hread. rewrite Hs in Hread.
  apply Hread; [|exact sample_table_load|exact Ht].
  split; cbn; unfold INT_MAX, UINT_MAX, MAX_DB_FILE_SIZE_LIMIT; lia.
Defined.
