(* ===== verification/EvHttp.v ===== *)
(** * source/mq_evhttp.c, the requests on queues and the timers

    A request carries variables that libevent parses; a handler prints into an
    output buffer, sends it once, and then the variables and the buffer are
    freed: what is used of them afterwards is a fault.  libevent's parser and
    look-up are the operations of the class [Evhttp]; replies and headers that
    the handlers send are recorded in order. *)
From S2P Require Import Prelude.
From S2P Require Import CLib.
From S2P Require Import World.
From S2P Require Import MqTypes.
From S2P Require Import MqUtil.
From S2P Require Import MsgFormat.
From S2P Require Import StoreManage.
From S2P Require Import QueueManage.

Definition QUEUE_MAX_SIZE : Z := 1000000000.
Definition DUMP_INFO_INTERVAL : Z := 60.
Definition MAX_CHARSET_SIZE : nat := 40.
Definition HTTP_OK : Z := 200.
Definition HTTP_BADREQUEST : Z := 400.
Definition HTTP_NOTFOUND : Z := 404.

Definition MQ_HTTP_REASON_BAD_REQ := B "Bad Request".
Definition MQ_HTTP_REASON_UNKNOWN_NAME := B "Invalid requst, Can't find name".
Definition MQ_HTTP_REASON_INVALID_ARG := B "Invalid requst, Invalid requst".
Definition MQ_HTTP_REASON_INVALID_NUM := B "Invalid requst, Invalid dest number".
Definition MQ_HTTP_REASON_QUE_NO_EXIST := B "Can't find queue".
Definition MQ_HTTP_REASON_ADD_QUE_ERR := B "Create queue fail".
Definition MQ_HTTP_REASON_QUE_WLOCK := B "Put error, queue is write lock".
Definition MQ_HTTP_REASON_QUE_FULL := B "Put error, queue is full".
Definition MQ_HTTP_REASON_PUT_ERR := B "Put error".
Definition MQ_HTTP_REASON_QUE_EMPTY := B "queue is empty".
Definition MQ_HTTP_REASON_GET_ERR := B "Get error".
Definition MQ_HTTP_REASON_SET_MAXQUE_ERR := B "Set maxqueue error".
Definition MQ_HTTP_REASON_SET_DELAY_ERR := B "Set delay error".
Definition MQ_HTTP_REASON_SET_WLOCK_ERR := B "Set readonly error".
Definition MQ_HTTP_REASON_SET_SYNCTIME_ERR := B "Set sync time error".
Definition MQ_HTTP_REASON_REMOVE_ERR := B "Remove error".
Definition MQ_HTTP_REASON_RESET_ERR := B "Reset error".
Definition MQ_HTTP_REASON_UNKNOWN_OPT := B "Unknown option".

(** ** libevent, and what the build fixes *)
Class Evhttp (KV : Type) := {
  evhttp_find_header : KV -> bytes -> option bytes;
  evhttp_parse_query : bytes -> KV * bool;      (* false: the query cannot be parsed *)
  evhttp_header_valid : bytes -> bytes -> bool; (* others are not added *)
  version_text : bytes                          (* %s (%s %s): version and build date *)
}.

(** main.h: [app_info_t] *)
Record app_info := AppInfo {
  i_put : Z; i_get : Z; i_times : Z; i_total_time : Z; i_max_time : Z;   (* uint32_t *)
  i_count : Z; i_put_size : Z                                             (* uint64_t *)
}.
Definition app_info_zero : app_info := AppInfo 0 0 0 0 0 0 0.

(** The static and global variables of the server. *)
Record server := Server {
  sv_store : store;
  g_info : app_info;
  g_last_info : app_info;
  last_sync : Z;     (* static int of mq_evhttp_cb_do_sync *)
  next_dump : Z      (* static int of mq_evhttp_cb_do_dump *)
}.
Definition with_store st sv := Server st (g_info sv) (g_last_info sv) (last_sync sv) (next_dump sv).
Definition with_info i sv := Server (sv_store sv) i (g_last_info sv) (last_sync sv) (next_dump sv).
Definition with_last_info i sv := Server (sv_store sv) (g_info sv) i (last_sync sv) (next_dump sv).
Definition with_last_sync t sv := Server (sv_store sv) (g_info sv) (g_last_info sv) t (next_dump sv).
Definition with_next_dump t sv := Server (sv_store sv) (g_info sv) (g_last_info sv) (last_sync sv) t.

(** ** Queue names *)
Definition name_char_ok (c : Z) : bool :=
  ((48 <=? c) && (c <=? 57)) || ((97 <=? c) && (c <=? 122)) || ((65 <=? c) && (c <=? 90)).

(** The loop of [req_qname_check] from index [i]. *)
Fixpoint qname_chars_ok (i : Z) (str : bytes) : bool :=
  match str with
  | [] => true
  | c :: rest =>
      if negb (name_char_ok c) &&
         (negb (c =? 95) || ((c =? 95) && (i =? 0))
          || (bool_decide (rest = []) && (c =? 95)))
      then false else qname_chars_ok (i + 1) rest
  end.
Definition req_qname_check (qname : option bytes) : bool :=
  match qname with
  | None => false
  | Some s =>
      if (strlen s <=? 0) || (Z.of_nat MAX_QUEUE_NAME_LEN <? strlen s) then false
      else qname_chars_ok 0 s
  end.

Section EvHttp.
Context {KV : Type} `{Evhttp KV}.

(** ** The state of one request *)
Record request := Request {
  rq_uri : option bytes;
  rq_body : bytes;         (* input_buffer *)
  rq_headers : KV          (* input_headers *)
}.
Record reply := Reply { rp_code : Z; rp_reason : bytes; rp_body : bytes }.

Record hstate := HState {
  h_server : server;
  h_vars : option KV;                 (* None: not parsed, or cleared *)
  h_out : option bytes;               (* None: freed *)
  h_headers : list (bytes * bytes);   (* output_headers *)
  h_replies : list reply
}.
Definition set_server sv s := HState sv (h_vars s) (h_out s) (h_headers s) (h_replies s).
Definition set_vars v s := HState (h_server s) v (h_out s) (h_headers s) (h_replies s).
Definition set_out o s := HState (h_server s) (h_vars s) o (h_headers s) (h_replies s).

Definition on_store {A} (m : M store A) : M hstate A := fun s =>
  match m (sv_store (h_server s)) with
  | Ok (a, st) => Ok (a, set_server (with_store st (h_server s)) s)
  | Fault => Fault
  | OutOfFuel => OutOfFuel
  end.
Definition update_info (f : app_info -> app_info) : M hstate unit :=
  modify (fun s => set_server (with_info (f (g_info (h_server s))) (h_server s)) s).

(** [evhttp_find_header(http_query_variables, name)] *)
Definition find_header (name : bytes) : M hstate (option bytes) := fun s =>
  match h_vars s with
  | Some kv => Ok (evhttp_find_header kv name, s)
  | None => Fault
  end.
(** A string of the query variables is read. *)
Definition read_var (p : option bytes) : M hstate unit := fun s =>
  match p, h_vars s with
  | Some _, None => Fault
  | _, _ => Ok (tt, s)
  end.
(** [evbuffer_add_printf(content_out, ...)] and [evbuffer_add] *)
Definition print (text : bytes) : M hstate unit := fun s =>
  match h_out s with
  | Some o => Ok (tt, set_out (Some (o ++ text)) s)
  | None => Fault
  end.
Definition evhttp_add_header (key value : bytes) : M hstate unit :=
  modify (fun s => HState (h_server s) (h_vars s) (h_out s)
                     (if evhttp_header_valid key value then h_headers s ++ [(key, value)]
                      else h_headers s) (h_replies s)).
Definition evhttp_send_reply (code : Z) (reason : bytes) : M hstate unit := fun s =>
  match h_out s with
  | Some o => Ok (tt, HState (h_server s) (h_vars s) (h_out s) (h_headers s)
                        (h_replies s ++ [Reply code reason o]))
  | None => Fault
  end.

Definition mq_evhttp_ret_send (code : Z) (reason : bytes) : M hstate unit :=
  evhttp_send_reply code reason ;;;
  modify (set_vars None) ;;;
  modify (set_out None).

Definition is_v2 (ver : option bytes) : bool :=
  match ver with Some v => strcmp v (B "2") =? 0 | None => false end.
Definition line (text : bytes) : bytes := text ++ [13; 10].

Definition MQ_DO_REPLY (hc : Z) (hr v1 v2 : bytes) (ver : option bytes) : M hstate unit :=
  read_var ver ;;;
  if is_v2 ver then print (line v2) ;;; mq_evhttp_ret_send HTTP_OK (B "OK")
  else print (line v1) ;;; mq_evhttp_ret_send hc hr.

Definition MQ_DO_AND_REPLY (x : M hstate bool) (m1 m2 : bytes) (hc : Z) (hr v1 v2 : bytes)
    (ver : option bytes) : M hstate unit :=
  let! x := x in
  if (x : bool) then MQ_DO_REPLY HTTP_OK (B "OK") m1 m2 ver
  else MQ_DO_REPLY hc hr v1 v2 ver.

(** [strncasecmp(s, "keep-alive", 10) == 0] *)
Definition is_keep_alive (s : bytes) : bool :=
  bool_decide (take 10 (tolower <$> s) = B "keep-alive").

Definition mq_evhttp_set_headers (in_headers : KV) (type charset : option bytes)
    (force_close : Z) : M hstate unit :=
  (match type with
   | None => ret tt
   | Some type =>
       read_var charset ;;;
       let buffer :=
         match charset with
         | Some cs => if bool_decide (cs <> []) && (length cs <=? MAX_CHARSET_SIZE)%nat
                      then type ++ B "; charset=" ++ cs else type
         | None => type
         end in
       if (length buffer <? 64)%nat then evhttp_add_header (B "Content-Type") buffer else fault
   end) ;;;
  evhttp_add_header (B "Cache-Control") (B "no-cache") ;;;
  let connection := evhttp_find_header in_headers (B "Connection") in
  let! sv := gets h_server in
  if (force_close =? 0) && match connection with Some c => is_keep_alive c | None => false end then
    evhttp_add_header (B "Connection") (B "keep-alive") ;;;
    evhttp_add_header (B "keep-alive") (keep_alive (g_mq_conf (sv_store sv)))
  else evhttp_add_header (B "Connection") (B "close").

(** ** Finding the queue *)
Definition find_queue_by_qname (qname : bytes) : M hstate (option bytes) :=
  read_var (Some qname) ;;; on_store (mq_qm_find_queue qname).
Definition touch_queue_by_qname (qname : bytes) : M hstate (option bytes) :=
  let! tmp_queue := find_queue_by_qname qname in
  match tmp_queue with
  | Some q => ret (Some q)
  | None => on_store (mq_qm_add_queue qname)
  end.

(** The queue structure behind a pointer. *)
Definition queue_of (key : bytes) : M hstate mq_queue :=
  on_store (on_queue key (fun _ => queue)).

(** Every handler on one queue begins with the check of the name. *)
Definition qname_checked (qname : option bytes) (v1 : bytes) (ver : option bytes)
    (k : bytes -> M hstate unit) : M hstate unit :=
  read_var qname ;;;
  match qname with
  | Some name =>
      if req_qname_check qname then k name
      else MQ_DO_REPLY HTTP_BADREQUEST MQ_HTTP_REASON_UNKNOWN_NAME v1
             (B "UCMQ_HTTP_ERR_INV_NAME") ver
  | None => MQ_DO_REPLY HTTP_BADREQUEST MQ_HTTP_REASON_UNKNOWN_NAME v1
              (B "UCMQ_HTTP_ERR_INV_NAME") ver
  end.
End EvHttp.
Arguments request : clear implicits.
Arguments hstate : clear implicits.
