(* ===== verification/HttpOpt.v ===== *)
(** * source/mq_evhttp.c, the requests on one queue

    One definition per [http_opt_*] handler, and the dispatch
    [mq_evhttp_cb_do_opt_entry].  A handler that goes on after its reply works
    on freed variables, as the code does. *)
From S2P Require Import Prelude.
From S2P Require Import CLib.
From S2P Require Import World.
From S2P Require Import MqTypes.
From S2P Require Import MqUtil.
From S2P Require Import MsgFormat.
From S2P Require Import StoreRtag.
From S2P Require Import StoreManage.
From S2P Require Import QueueManage.
From S2P Require Import EvHttp.

(** A text of the code, with its double quotes written as single ones. *)
Definition J (s : string) : bytes := (fun c => if c =? 39 then 34 else c) <$> B s.

(** The length of a message that fits into a data file. *)
Definition data_len_ok (conf : ucmq_conf) (len : Z) : bool :=
  negb ((len <=? 0) || (u32 (MAX_DB_FILE_SIZE conf - DB_FILE_HEAD_LEN - MSG_HEAD_LEN) <? len)).

(** The counters of [g_info]. *)
Definition count_put (size : Z) (i : app_info) : app_info :=
  AppInfo (u32 (i_put i + 1)) (i_get i) (i_times i) (i_total_time i) (i_max_time i)
    (u64 (i_count i + 1)) (u64 (i_put_size i + size)).
Definition count_get (i : app_info) : app_info :=
  AppInfo (i_put i) (u32 (i_get i + 1)) (i_times i) (i_total_time i) (i_max_time i)
    (u64 (i_count i - 1)) (i_put_size i).
Definition count_time (cur_time : Z) (i : app_info) : app_info :=
  AppInfo (i_put i) (i_get i) (u32 (i_times i + 1)) (u32 (i_total_time i + cur_time))
    (if i_max_time i <? u32 cur_time then u32 cur_time else i_max_time i)
    (i_count i) (i_put_size i).

(** mq_util.h: [rtag_item_t] *)
Record rtag_item := RtagItem {
  ri_rcount : Z; ri_wpos : Z; ri_rpos : Z;                 (* uint32_t *)
  ri_unread : Z; ri_put_num : Z; ri_get_num : Z;           (* uint64_t *)
  ri_maxqueue : Z; ri_delay : Z;                           (* uint32_t *)
  ri_wlock : Z                                             (* int *)
}.
Definition get_rtag_info (q : mq_queue) : rtag_item :=
  RtagItem (opt_count (cur_rdb q)) (pos (cur_wdb q)) (pos (cur_rdb q))
    (unread_count q) (put_num q) (get_num q) (maxque q) (delay q) (wlock q).

Section HttpOpt.
Context {KV : Type} `{Evhttp KV}.
Implicit Types (request : request KV).
#[local] Abbreviation handler := (M (hstate KV) unit).

(** The end of [http_opt_put]: the queue is found or made, and the message
    put; [data] is not null when [msg] points into it. *)
Definition put_message (ver data : option bytes) (name msg : bytes) (buffer_size : Z) : handler :=
  let! mq_queue := touch_queue_by_qname name in
  match mq_queue with
  | None => MQ_DO_REPLY HTTP_BADREQUEST MQ_HTTP_REASON_ADD_QUE_ERR
              (B "HTTPSQS_PUT_ERROR") (B "UCMQ_HTTP_ERR_QUE_ADD_ERR") ver
  | Some key =>
      read_var data ;;;
      let! '(result, _) := on_store (on_queue key (fun conf =>
        mq_qm_push_item conf (MsgItem 0 0 0 0 (u32 buffer_size) (PBuf msg)))) in
      match result with
      | QUEUE_WLOCK => MQ_DO_REPLY HTTP_BADREQUEST MQ_HTTP_REASON_QUE_WLOCK
                         (B "HTTPSQS_PUT_READONLY") (B "UCMQ_HTTP_ERR_WLOCK") ver
      | QUEUE_FULL => MQ_DO_REPLY HTTP_BADREQUEST MQ_HTTP_REASON_QUE_FULL
                        (B "HTTPSQS_PUT_FULL") (B "UCMQ_HTTP_ERR_QUE_FULL") ver
      | QUEUE_PUT_OK =>
          on_store (on_queue key (fun _ =>
            update (fun q => with_unread (u64 (unread_count q + 1)) q))) ;;;
          update_info (count_put buffer_size) ;;;
          let! q := queue_of key in
          evhttp_add_header (B "Pos") (sdec (i32 (put_num q))) ;;;
          MQ_DO_REPLY HTTP_OK (B "OK") (B "HTTPSQS_PUT_OK") (B "UCMQ_HTTP_OK") ver
      | QUEUE_PUT_ERROR => MQ_DO_REPLY HTTP_BADREQUEST MQ_HTTP_REASON_PUT_ERR
                             (B "HTTPSQS_PUT_ERROR") (B "UCMQ_HTTP_ERR_PUT_ERR") ver
      end
  end.

Definition http_opt_put request : handler :=
  let buffer_size := i32 (Z.of_nat (length (rq_body request))) in
  let! ver := find_header (B "ver") in
  let! data := find_header (B "data") in
  let! qname := find_header (B "name") in
  qname_checked qname (B "HTTPSQS_PUT_ERROR") ver (fun name =>
    if ((0 <? buffer_size) && bool_decide (data <> None))
       || ((buffer_size <=? 0) && bool_decide (data = None))
    then MQ_DO_REPLY HTTP_BADREQUEST MQ_HTTP_REASON_INVALID_ARG
           (B "HTTPSQS_PUT_ERROR") (B "UCMQ_HTTP_ERR_INV_DATA") ver
    else
      read_var data ;;;
      let msg := match data with Some data => data | None => rq_body request end in
      let buffer_size := match data with
                         | Some data => i32 (strlen data)
                         | None => buffer_size
                         end in
      let len := u32 buffer_size in
      let! conf := gets (fun s => g_mq_conf (sv_store (h_server s))) in
      if negb (data_len_ok conf len)
      then MQ_DO_REPLY HTTP_BADREQUEST MQ_HTTP_REASON_INVALID_ARG
             (B "HTTPSQS_PUT_ERROR") (B "UCMQ_HTTP_ERR_INV_DATA") ver
      else
        put_message ver data name msg buffer_size).

(** [evbuffer_add] copies the body out of the mapping. *)
Definition http_opt_get : handler :=
  let! ver := find_header (B "ver") in
  let! qname := find_header (B "name") in
  qname_checked qname (B "HTTPSQS_GET_ERROR") ver (fun name =>
    let! mq_queue := find_queue_by_qname name in
    match mq_queue with
    | None => MQ_DO_REPLY HTTP_BADREQUEST MQ_HTTP_REASON_QUE_NO_EXIST
                (B "HTTPSQS_GET_ERROR") (B "UCMQ_HTTP_ERR_QUE_NO_EXIST") ver
    | Some key =>
        let! '(result, item) := on_store (on_queue key (fun conf =>
          mq_qm_pop_item conf msg_item_uninit)) in
        match result with
        | QUEUE_GET_END => MQ_DO_REPLY HTTP_NOTFOUND MQ_HTTP_REASON_QUE_EMPTY
                             (B "HTTPSQS_GET_END") (B "UCMQ_HTTP_ERR_QUE_EMPTY") ver
        | QUEUE_GET_OK =>
            read_var ver ;;;
            (if is_v2 ver then print (line (B "UCMQ_HTTP_OK")) else ret tt) ;;;
            let! body := on_store (os (load_ptr (msg item) (mlen item))) in
            print body ;;;
            update_info count_get ;;;
            let! q := queue_of key in
            evhttp_add_header (B "Pos") (sdec (i32 (get_num q))) ;;;
            mq_evhttp_ret_send HTTP_OK (B "OK")
        | QUEUE_GET_ERROR => MQ_DO_REPLY HTTP_BADREQUEST MQ_HTTP_REASON_GET_ERR
                               (B "HTTPSQS_GET_ERROR") (B "UCMQ_HTTP_ERR_GET_ERR") ver
        end
    end).

(** [get_rtag_info] and [MQ_SHOW_STATUS] read the fields of the queue. *)
Definition http_opt_status : handler :=
  let! ver := find_header (B "ver") in
  let! qname := find_header (B "name") in
  qname_checked qname (B "HTTPSQS_ERROR") ver (fun name =>
    let! mq_queue := find_queue_by_qname name in
    match mq_queue with
    | None => MQ_DO_REPLY HTTP_BADREQUEST MQ_HTTP_REASON_QUE_NO_EXIST
                (B "HTTPSQS_ERROR") (B "UCMQ_HTTP_ERR_QUE_NO_EXIST") ver
    | Some key =>
        let! q := queue_of key in
        let rtag_item := get_rtag_info q in
        print (B "HTTP Simple Message Queue Service v" ++ version_text ++ [10; 10]) ;;;
        print (B "Queue Name: " ++ MqTypes.qname q ++ [10]) ;;;
        print (B "Put the number of queue : " ++ dec (ri_put_num rtag_item) ++ [10]) ;;;
        print (B "Get the number of queue : " ++ dec (ri_get_num rtag_item) ++ [10]) ;;;
        print (B "Unread the number of queue : " ++ dec (ri_unread rtag_item) ++ [10]) ;;;
        print (B "Maximum number of queue: " ++ dec (ri_maxqueue rtag_item) ++ [10]) ;;;
        print (B "Delay time of queue: " ++ dec (ri_delay rtag_item) ++ [10]) ;;;
        print (B "Queue write lock cut-OFF time: " ++ sdec (ri_wlock rtag_item) ++ [10]) ;;;
        mq_evhttp_ret_send HTTP_OK (B "OK")
    end).

Definition http_opt_status_json : handler :=
  let! ver := find_header (B "ver") in
  let! qname := find_header (B "name") in
  qname_checked qname (B "HTTPSQS_ERROR") ver (fun name =>
    let! mq_queue := find_queue_by_qname name in
    match mq_queue with
    | None => MQ_DO_REPLY HTTP_BADREQUEST MQ_HTTP_REASON_QUE_NO_EXIST
                (B "HTTPSQS_ERROR") (B "UCMQ_HTTP_ERR_QUE_NO_EXIST") ver
    | Some key =>
        let! q := queue_of key in
        let rtag_item := get_rtag_info q in
        print (J "{'name':'" ++ MqTypes.qname q ++ J "','putnum':" ++ dec (ri_put_num rtag_item)
               ++ J ",'getnum':" ++ dec (ri_get_num rtag_item)
               ++ J ",'unread':" ++ dec (ri_unread rtag_item)
               ++ J ",'maxqueue':" ++ dec (ri_maxqueue rtag_item)
               ++ J ",'delay':" ++ dec (ri_delay rtag_item)
               ++ J ",'wlock':" ++ sdec (ri_wlock rtag_item) ++ B "}") ;;;
        mq_evhttp_ret_send HTTP_OK (B "OK")
    end).

(** [dest_num]: -1 without the variable ["num"]. *)
Definition dest_num_of (tmp_num : option bytes) : Z :=
  match tmp_num with Some s => atoi s | None => -1 end.

Definition http_opt_maxqueue : handler :=
  let! ver := find_header (B "ver") in
  let! qname := find_header (B "name") in
  let! tmp_num := find_header (B "num") in
  let dest_num := dest_num_of tmp_num in
  qname_checked qname (B "HTTPSQS_MAXQUEUE_CANCEL") ver (fun name =>
    if (dest_num <? 0) || (QUEUE_MAX_SIZE <? dest_num)
    then MQ_DO_REPLY HTTP_BADREQUEST MQ_HTTP_REASON_INVALID_NUM
           (B "HTTPSQS_MAXQUEUE_CANCEL") (B "UCMQ_HTTP_ERR_INV_NUM") ver
    else
      let! mq_queue := touch_queue_by_qname name in
      match mq_queue with
      | None => MQ_DO_REPLY HTTP_BADREQUEST MQ_HTTP_REASON_ADD_QUE_ERR
                  (B "HTTPSQS_MAXQUEUE_CANCEL") (B "UCMQ_HTTP_ERR_QUE_ADD_ERR") ver
      | Some key =>
          MQ_DO_AND_REPLY (on_store (on_queue key (fun _ => mq_qm_set_maxqueue (u32 dest_num))))
            (B "HTTPSQS_MAXQUEUE_OK") (B "UCMQ_HTTP_OK")
            HTTP_BADREQUEST MQ_HTTP_REASON_SET_MAXQUE_ERR
            (B "HTTPSQS_MAXQUEUE_CANCEL") (B "UCMQ_HTTP_ERR_MAXQUE_ERR") ver
      end).

(** There is no return after the reply about the number. *)
Definition http_opt_delay : handler :=
  let! ver := find_header (B "ver") in
  let! qname := find_header (B "name") in
  let! tmp_num := find_header (B "num") in
  let dest_num := dest_num_of tmp_num in
  qname_checked qname (B "HTTPSQS_DELAY_CANCEL") ver (fun name =>
    (if dest_num <? 0
     then MQ_DO_REPLY HTTP_BADREQUEST MQ_HTTP_REASON_INVALID_NUM
            (B "HTTPSQS_DELAY_CANCEL") (B "UCMQ_HTTP_ERR_INV_NUM") ver
     else ret tt) ;;;
    let! mq_queue := touch_queue_by_qname name in
    match mq_queue with
    | None => MQ_DO_REPLY HTTP_BADREQUEST MQ_HTTP_REASON_ADD_QUE_ERR
                (B "HTTPSQS_DELAY_CANCEL") (B "UCMQ_HTTP_ERR_QUE_ADD_ERR") ver
    | Some key =>
        MQ_DO_AND_REPLY (on_store (on_queue key (fun _ => mq_qm_set_delay (u32 dest_num))))
          (B "HTTPSQS_DELAY_OK") (B "UCMQ_HTTP_OK")
          HTTP_BADREQUEST MQ_HTTP_REASON_SET_DELAY_ERR
          (B "HTTPSQS_DELAY_CANCEL") (B "UCMQ_HTTP_ERR_DELAY_ERR") ver
    end).

Definition http_opt_wlock : handler :=
  let! ver := find_header (B "ver") in
  let! qname := find_header (B "name") in
  let! tmp_num := find_header (B "num") in
  let dest_num := dest_num_of tmp_num in
  qname_checked qname (B "HTTPSQS_READONLY_CANCEL") ver (fun name =>
    (if (dest_num <? 0) && negb (dest_num =? -1)
     then MQ_DO_REPLY HTTP_BADREQUEST MQ_HTTP_REASON_INVALID_NUM
            (B "HTTPSQS_READONLY_CANCEL") (B "UCMQ_HTTP_ERR_INV_NUM") ver
     else ret tt) ;;;
    let! mq_queue := find_queue_by_qname name in
    match mq_queue with
    | None => MQ_DO_REPLY HTTP_BADREQUEST MQ_HTTP_REASON_ADD_QUE_ERR
                (B "HTTPSQS_READONLY_CANCEL") (B "UCMQ_HTTP_ERR_QUE_ADD_ERR") ver
    | Some key =>
        MQ_DO_AND_REPLY (on_store (on_queue key (fun _ => mq_qm_set_wlock (u32 dest_num))))
          (B "HTTPSQS_READONLY_OK") (B "UCMQ_HTTP_OK")
          HTTP_BADREQUEST MQ_HTTP_REASON_SET_WLOCK_ERR
          (B "HTTPSQS_READONLY_CANCEL") (B "UCMQ_HTTP_ERR_WLOCK_ERR") ver
    end).

Definition http_opt_remove : handler :=
  let! ver := find_header (B "ver") in
  let! qname := find_header (B "name") in
  qname_checked qname (B "HTTPSQS_REMOVE_ERROR") ver (fun name =>
    let! mq_queue := find_queue_by_qname name in
    match mq_queue with
    | None => MQ_DO_REPLY HTTP_BADREQUEST MQ_HTTP_REASON_QUE_NO_EXIST
                (B "HTTPSQS_REMOVE_ERROR") (B "UCMQ_HTTP_ERR_QUE_NO_EXIST") ver
    | Some _ =>
        MQ_DO_AND_REPLY (on_store (mq_qm_del_queue name))
          (B "HTTPSQS_REMOVE_OK") (B "UCMQ_HTTP_OK")
          HTTP_BADREQUEST MQ_HTTP_REASON_REMOVE_ERR
          (B "HTTPSQS_REMOVE_ERROR") (B "UCMQ_HTTP_ERR_REMOVE_ERR") ver
    end).

(** The result of [mq_qm_del_queue] is not looked at. *)
Definition http_opt_reset : handler :=
  let! ver := find_header (B "ver") in
  let! qname := find_header (B "name") in
  qname_checked qname (B "HTTPSQS_RESET_ERROR") ver (fun name =>
    let! mq_queue := find_queue_by_qname name in
    match mq_queue with
    | None => MQ_DO_REPLY HTTP_BADREQUEST MQ_HTTP_REASON_QUE_NO_EXIST
                (B "HTTPSQS_RESET_ERROR") (B "UCMQ_HTTP_ERR_QUE_NO_EXIST") ver
    | Some _ =>
        let! _ := on_store (mq_qm_del_queue name) in
        MQ_DO_AND_REPLY (on_store (let! q := mq_qm_add_queue name in ret (bool_decide (q <> None))))
          (B "HTTPSQS_RESET_OK") (B "UCMQ_HTTP_OK")
          HTTP_BADREQUEST MQ_HTTP_REASON_RESET_ERR
          (B "HTTPSQS_RESET_ERROR") (B "UCMQ_HTTP_ERR_RESET_ERR") ver
    end).

Definition http_opt_synctime : handler :=
  let! ver := find_header (B "ver") in
  let! tmp_num := find_header (B "num") in
  let dest_num := dest_num_of tmp_num in
  (if (dest_num <? 0) && negb (dest_num =? -1)
   then MQ_DO_REPLY HTTP_BADREQUEST MQ_HTTP_REASON_INVALID_NUM
          (B "HTTPSQS_SYNC_TIME_CANCEL") (B "UCMQ_HTTP_ERR_INV_NUM") ver
   else ret tt) ;;;
  MQ_DO_AND_REPLY (on_store (mq_qm_set_synctime dest_num))
    (B "HTTPSQS_SYNC_TIME_OK") (B "UCMQ_HTTP_OK")
    HTTP_BADREQUEST MQ_HTTP_REASON_SET_SYNCTIME_ERR
    (B "HTTPSQS_SYNC_TIME_CANCEL") (B "UCMQ_HTTP_ERR_SYNC_TIEM_ERR") ver.

Definition http_unknown_opt : handler :=
  let! ver := find_header (B "ver") in
  MQ_DO_REPLY 405 MQ_HTTP_REASON_UNKNOWN_OPT
    (B "HTTPSQS_UNKNWON_OPT") (B "UCMQ_HTTP_ERR_UNKNOWN_OPT") ver.
Definition http_unparse_req : handler :=
  let! ver := find_header (B "ver") in
  MQ_DO_REPLY 400 MQ_HTTP_REASON_BAD_REQ
    (B "HTTPSQS_UNPARSE_URI") (B "UCMQ_HTTP_ERR_BAD_REQ") ver.

(** The chain of comparisons of [opt]. *)
Definition do_opt request (opt : option bytes) : handler :=
  match opt with
  | None => http_unknown_opt
  | Some opt =>
      if strcmp opt (B "put") =? 0 then http_opt_put request
      else if strcmp opt (B "get") =? 0 then http_opt_get
      else if strcmp opt (B "status") =? 0 then http_opt_status
      else if strcmp opt (B "status_json") =? 0 then http_opt_status_json
      else if strcmp opt (B "maxqueue") =? 0 then http_opt_maxqueue
      else if strcmp opt (B "delay") =? 0 then http_opt_delay
      else if (strcmp opt (B "wlock") =? 0) || (strcmp opt (B "readonly") =? 0) then http_opt_wlock
      else if strcmp opt (B "remove") =? 0 then http_opt_remove
      else if strcmp opt (B "reset") =? 0 then http_opt_reset
      else if strcmp opt (B "synctime") =? 0 then http_opt_synctime
      else http_unknown_opt
  end.

(** The two readings of the monotonic clock are the nanoseconds [tm_start]
    and [tm_end]. *)
Definition mq_evhttp_cb_do_opt_entry request (tm_start tm_end : Z) : handler :=
  modify (set_out (Some [])) ;;;
  let k : handler :=
    let! charset := find_header (B "charset") in
    mq_evhttp_set_headers (rq_headers request) (Some (B "text/plain")) charset 0 ;;;
    let! opt := find_header (B "opt") in
    read_var opt ;;;
    do_opt request opt ;;;
    update_info (count_time (i32 (tm_end - tm_start))) in
  match rq_uri request with
  | None => k
  | Some request_uri =>
      let '(http_query_variables, parsed) := evhttp_parse_query request_uri in
      modify (set_vars (Some http_query_variables)) ;;;
      if negb parsed then http_unparse_req else k
  end.

(** One request to a server: no variables and no buffer before it. *)
Definition serve request (tm_start tm_end : Z) (sv : server)
    : outcome (list (bytes * bytes) * list reply * server) :=
  match mq_evhttp_cb_do_opt_entry request tm_start tm_end (HState sv None None [] []) with
  | Ok (_, s) => Ok (h_headers s, h_replies s, h_server s)
  | Fault => Fault
  | OutOfFuel => OutOfFuel
  end.
End HttpOpt.
