(* ===== verification/HttpStat.v ===== *)
(** * source/mq_evhttp.c, the status pages and the timers

    The page "/stat", and the two timers that synchronise the store and dump the
    counters.  A timer returns the seconds after which it is due again. *)
From Stdlib Require Import SpecFloat.
From S2P Require Import Prelude.
From S2P Require Import CLib.
From S2P Require Import World.
From S2P Require Import MqTypes.
From S2P Require Import MqUtil.
From S2P Require Import MsgFormat.
From S2P Require Import StoreManage.
From S2P Require Import QueueManage.
From S2P Require Import EvHttp.
From S2P Require Import HttpOpt.

(** ** Printing a [double] *)

(** Rounding to the nearest integer, ties to even, of [m * 2 ^ e]. *)
Definition round_shift (m e : Z) : Z :=
  if 0 <=? e then m * 2 ^ e
  else
    let d := 2 ^ (- e) in
    let q := m / d in
    let r := 2 * (m mod d) in
    if (r <? d) || ((r =? d) && Z.even q) then q else q + 1.

(** [%.<n>f]; [nan] is the text of a NaN. *)
Definition print_f (nan : bytes) (n : nat) (x : double) : bytes :=
  let sign (s : bool) := if s then B "-" else [] in
  let digits (v : Z) :=
    let ip := v / 10 ^ Z.of_nat n in
    fixed (count_digits 400 ip) ip ++ B "." ++ fixed n (v mod 10 ^ Z.of_nat n) in
  match x with
  | S754_zero s => sign s ++ digits 0
  | S754_infinity s => sign s ++ B "inf"
  | S754_nan => nan
  | S754_finite s m e => sign s ++ digits (round_shift (Z.pos m * 10 ^ Z.of_nat n) e)
  end.

(** [ns_2_ms], the constant 0.000001 *)
Definition ns_2_ms : double := ddiv (double_of 1) (double_of 1000000).

(** ** [sscanf] *)
Fixpoint skip_word (s : bytes) : bytes :=
  match s with
  | c :: rest => if isspace c then s else skip_word rest
  | [] => []
  end.

(** [%*s] [skip] times and then [%llu] [n] times: the numbers that are not
    reached keep the value 0. *)
Fixpoint scan_skip (skip : nat) (s : bytes) : option bytes :=
  match skip with
  | O => Some s
  | S skip => match skip_space s with [] => None | s => scan_skip skip (skip_word s) end
  end.
Fixpoint scan_llu (n : nat) (s : bytes) : list Z :=
  match n with
  | O => []
  | S n =>
      let t := skip_space s in
      let '(neg, d) := match t with
                       | 45 :: d => (true, d)
                       | 43 :: d => (false, d)
                       | _ => (false, t)
                       end in
      match d with
      | c :: _ =>
          if isdigit c then
            let '(v, rest) := digits_value 0 d in
            let v := if 18446744073709551615 <? v then 18446744073709551615
                     else if neg : bool then u64 (- v) else v in
            v :: scan_llu n rest
          else replicate (S n) 0
      | [] => replicate (S n) 0
      end
  end.
Definition sscanf_llu (skip n : nat) (s : bytes) : list Z :=
  match scan_skip skip s with Some s => scan_llu n s | None => replicate n 0 end.

(** ** What the environment gives the status page

    [proc_text path] is what [read_file] leaves in the buffer for a file of
    /proc, and whether it succeeded; [getpid] is the number of the process. *)
Class Process := {
  getpid : Z;
  proc_text : bytes -> bool * bytes;
  nan_text : bytes
}.

Section HttpStat.
Context {KV : Type} `{Evhttp KV} `{Process}.
#[local] Abbreviation handler := (M (hstate KV) unit).

(** [%PRIu64 (%.1f%%)] *)
Definition unread_text (q : mq_queue) : bytes :=
  dec (unread_count q) ++ B " (" ++
  print_f nan_text 1 (ddiv (dmul (double_of (unread_count q)) (double_of 100))
                        (double_of (maxque q))) ++ B "%)".

Definition td (text : bytes) : bytes := B "<TD align=center>" ++ text ++ B "</TD>".

Definition get_queue_stat (q : mq_queue) : handler :=
  let info := get_rtag_info q in
  print (B "<TR><TD align=left>" ++ MqTypes.qname q ++ B "</TD>") ;;;
  print (td (dec (ri_put_num info))) ;;;
  print (td (dec (ri_get_num info))) ;;;
  print (td (unread_text q)) ;;;
  print (td (dec (ri_maxqueue info))) ;;;
  print (td (dec (ri_delay info))) ;;;
  print (line (td (dec (u32 (ri_wlock info))) ++ B "</TR>")).

Definition get_queue_stat_json (q : mq_queue) (qlist_index : Z) : handler :=
  let info := get_rtag_info q in
  print ((if qlist_index =? 0 then J "{'name':'" else J ",{'name':'")
         ++ MqTypes.qname q ++ J "',") ;;;
  print (J "'putnum':'" ++ dec (ri_put_num info) ++ J "',") ;;;
  print (J "'getnum':'" ++ dec (ri_get_num info) ++ J "',") ;;;
  print (J "'unread':'" ++ unread_text q ++ J "',") ;;;
  print (J "'maxqueue':'" ++ dec (ri_maxqueue info) ++ J "',") ;;;
  print (J "'delay':'" ++ dec (ri_delay info) ++ J "',") ;;;
  print (J "'wlock':'" ++ dec (u32 (ri_wlock info)) ++ J "'}").

Fixpoint all_queue_stat (l : qlist) : handler :=
  match l with
  | [] => ret tt
  | (_, q) :: l => get_queue_stat q ;;; all_queue_stat l
  end.
Definition get_all_queue_stat : handler :=
  let! sv := gets h_server in all_queue_stat (g_mq_qlist (sv_store sv)).

Fixpoint all_queue_stat_json (l : qlist) (qlist_index : Z) : handler :=
  match l with
  | [] => ret tt
  | (_, q) :: l => get_queue_stat_json q qlist_index ;;; all_queue_stat_json l (qlist_index + 1)
  end.
Definition get_all_queue_stat_json : handler :=
  let! sv := gets h_server in all_queue_stat_json (g_mq_qlist (sv_store sv)) 0.

(** The branches of [mq_evhttp_cb_do_view_stat] *)
Definition view_html : handler :=
  print (line (B "<HTML>") ++ line (B "<HEAD>") ++
         line (B "<TITLE>UCMQ STAT INFORMATION v" ++ version_text ++ B "</TITLE>")) ;;;
  print (line (J "<META HTTP-EQUIV='refresh' CONTENT='5'>") ++ line (B "</HEAD>")) ;;;
  print (line (J "<BODY style='font-family:verdana'>") ++
         line (B "<TABLE width=90% align=center border=1 cellspacing=0>")) ;;;
  print (line (B "<TR bgcolor=yellow>                 <TH width=20% align=left>QUEUE NAME</TH>                 <TH align=center>WRITE_POS</TH>                 <TH align=center>READ_POS</TH>                 <TH align=center>UNREAD(%)</TH>                 <TH align=center>MAXQUEUE</TH>                 <TH align=center>DELAY</TH>                 <TH align=center>WLOCK</TH>                 </TR>")) ;;;
  get_all_queue_stat ;;;
  print (line (B "</TABLE>") ++ line (B "</BODY>") ++ B "</HTML>").

Definition view_info : handler :=
  let! i := gets (fun s => g_last_info (h_server s)) in
  let avg_size := if i_put i =? 0 then 0 else u32 (i_put_size i / i_put i) in
  let avg_time := if i_times i =? 0 then double_of 0
                  else ddiv (dmul ns_2_ms (double_of (i_total_time i))) (double_of (i_times i)) in
  let max_time := dmul ns_2_ms (double_of (i_max_time i)) in
  print (J "{'put':'" ++ dec (i_put i) ++ J "','get':" ++ dec (i_get i)
         ++ J ",'avg size':" ++ dec avg_size
         ++ J ",'avg op time':" ++ print_f nan_text 6 avg_time
         ++ J ",'max op time':" ++ print_f nan_text 6 max_time ++ B "}").

(** [{"name":"v","name":v,...}]: the first number is quoted. *)
Definition json_numbers (names : list string) (values : list Z) : bytes :=
  let pairs := zip names values in
  match pairs with
  | [] => B "{}"
  | (n, v) :: rest =>
      J "{'" ++ B n ++ J "':'" ++ dec v ++ J "'" ++
      concat ((fun nv : string * Z => J ",'" ++ B nv.1 ++ J "':" ++ dec nv.2) <$> rest) ++ B "}"
  end.

Definition proc_path (name : bytes) : bytes := B "/proc/" ++ sdec getpid ++ B "/" ++ name.

Definition view_mem : handler :=
  let '(ok, buf) := proc_text (proc_path (B "statm")) in
  if negb ok then print (line buf)
  else
    let values := sscanf_llu 0 7 buf in
    print (json_numbers ["virt"; "res"; "shr"; "trs"; "lrs"; "drs"; "dt"]%string
             ((fun v => u64 (Z.shiftl v 2)) <$> values)).

Definition view_cpu : handler :=
  let '(ok1, buf1) := proc_text (proc_path (B "stat")) in
  (if negb ok1 then print (line buf1) else ret tt) ;;;
  let '(ok2, buf2) := proc_text (B "/proc/stat") in
  (if negb ok2 then print (line buf2) else ret tt) ;;;
  if ok1 && ok2 then
    print (json_numbers ["utime"; "stime"; "cutime"; "cstime"; "user"; "nice"; "system"; "idle";
                         "iowait"; "irq"; "softirq"; "steal"; "guest"]%string
             (sscanf_llu 13 4 buf1 ++ sscanf_llu 1 9 buf2))
  else ret tt.

Definition view_page (lpcType : option bytes) : handler :=
  match lpcType with
  | None => view_html
  | Some t =>
      if strncmp t (B "json") 4 =? 0 then
        print (B "[") ;;; get_all_queue_stat_json ;;; print (B "]")
      else if strncmp t (B "info") 4 =? 0 then view_info
      else if strncmp t (B "mem") 3 =? 0 then view_mem
      else if strncmp t (B "cpu") 3 =? 0 then view_cpu
      else ret tt
  end.

(** A query that cannot be parsed leaves the variables empty. *)
Definition mq_evhttp_cb_do_view_stat (request : request KV) : handler :=
  modify (set_out (Some [])) ;;;
  mq_evhttp_set_headers (rq_headers request) (Some (B "text/html")) None 0 ;;;
  (match rq_uri request with
   | None => ret tt
   | Some request_uri => modify (set_vars (Some (evhttp_parse_query request_uri).1))
   end) ;;;
  let! lpcType := find_header (B "type") in
  read_var lpcType ;;;
  view_page lpcType ;;;
  mq_evhttp_ret_send HTTP_OK (B "OK").
End HttpStat.

(** ** The timers *)
Definition sv_time : M server Z := gets (fun sv => w_clock (st_w (sv_store sv))).
Definition sv_store_op {A} (m : M store A) : M server A := fun sv =>
  match m (sv_store sv) with
  | Ok (a, st) => Ok (a, with_store st sv)
  | Fault => Fault
  | OutOfFuel => OutOfFuel
  end.
(** The sum of two values of type [int]; an overflow is undefined. *)
Definition int_add {S} (a b : Z) : M S Z :=
  if (-2147483648 <=? a + b) && (a + b <=? INT_MAX) then ret (a + b) else fault.

Definition mq_evhttp_cb_do_sync : M server Z :=
  let! tv_sec := sv_time in
  modify (fun sv => if last_sync sv =? 0 then with_last_sync (i32 tv_sec) sv else sv) ;;;
  let! sv := get in
  let interval := sync_time_interval (g_mq_conf (sv_store sv)) in
  if negb (interval =? 0) then
    let! due := int_add (last_sync sv) interval in
    (if due <=? tv_sec then sv_store_op mq_qm_sync_store else ret tt) ;;;
    modify (with_last_sync (i32 tv_sec)) ;;;
    ret interval
  else ret 10.

Definition dumped (i : app_info) : app_info :=
  AppInfo 0 0 0 0 0 (i_count i) 0.

Definition mq_evhttp_cb_do_dump : M server Z :=
  let! tv_sec := sv_time in
  modify (fun sv => if next_dump sv =? 0 then with_next_dump (i32 (tv_sec + DUMP_INFO_INTERVAL)) sv
                    else sv) ;;;
  let! sv := get in
  (if next_dump sv <=? tv_sec then
     modify (fun sv => with_last_info (g_info sv) sv) ;;;
     modify (fun sv => with_info (dumped (g_info sv)) sv) ;;;
     let! next := int_add (next_dump sv) DUMP_INFO_INTERVAL in
     modify (with_next_dump next)
   else ret tt) ;;;
  let! sv := get in
  ret (next_dump sv - tv_sec).

(** When the dump timer is due: never before its first run. *)
Definition dump_due (sv : server) : bool :=
  negb (next_dump sv =? 0) && (next_dump sv <=? w_clock (st_w (sv_store sv))).

(** The dump timer, on a clock that an [int] can hold: when it is not more
    than a minute late it asks to be run again after 1 to 60 seconds, and is
    then due at that second; when it is due the counters of the minute become the
    last ones and start again from zero, but for the number of messages, which is
    kept; otherwise no counter changes. *)
Theorem dump_spec sv :
  let t := w_clock (st_w (sv_store sv)) in
  0 < t -> t + 2 * DUMP_INFO_INTERVAL <= INT_MAX ->
  next_dump sv = 0 \/ t - DUMP_INFO_INTERVAL < next_dump sv <= t + DUMP_INFO_INTERVAL ->
  exists d sv', mq_evhttp_cb_do_dump sv = Ok (d, sv') /\
    1 <= d <= DUMP_INFO_INTERVAL /\ next_dump sv' = t + d /\ sv_store sv' = sv_store sv /\
    if dump_due sv
    then g_last_info sv' = g_info sv /\ g_info sv' = AppInfo 0 0 0 0 0 (i_count (g_info sv)) 0
    else g_last_info sv' = g_last_info sv /\ g_info sv' = g_info sv.
Proof.
  intros t Ht Hmax Hnext. unfold DUMP_INFO_INTERVAL, INT_MAX in *.
  unfold mq_evhttp_cb_do_dump, sv_time. erewrite bind_ok by reflexivity. fold t.
  erewrite bind_ok by reflexivity. cbv beta. unfold dump_due. fold t.
  destruct sv as [st gi gl ls nd]. cbn [next_dump] in *. unfold DUMP_INFO_INTERVAL, t in *.
  cbn [sv_store] in *. set (u := w_clock (st_w st)) in *. clearbody u.
  destruct (Z.eqb_spec nd 0) as [->|Hnd]; cbn [negb andb].
  { unfold get, bind, modify, ret. cbn. rewrite i32_small by lia.
    rewrite (proj2 (Z.leb_gt (u + 60) u)) by lia. cbn. eexists _, _. split; [reflexivity|].
    cbn. split_and!; done || lia. }
  unfold get, bind, modify, ret, int_add, INT_MAX. cbn.
  destruct (Z.leb_spec nd u); cbn.
  - rewrite (proj2 (Z.leb_le (-2147483648) (nd + 60))), (proj2 (Z.leb_le (nd + 60) 2147483647)) by lia.
    cbn. eexists _, _. split; [reflexivity|]. cbn. split_and!; done || lia.
  - eexists _, _. split; [reflexivity|]. cbn. split_and!; done || lia.
Qed.

Lemma dump_spec_witness : exists d sv',
  mq_evhttp_cb_do_dump (Server (Store (sample_world 0 ∅) sample_conf []) (AppInfo 3 1 4 40 20 2 9)
    app_info_zero 0 990) = Ok (d, sv') /\
  1 <= d <= 60 /\ next_dump sv' = 1000 + d /\
  sv_store sv' = Store (sample_world 0 ∅) sample_conf [] /\
  g_last_info sv' = AppInfo 3 1 4 40 20 2 9 /\ g_info sv' = AppInfo 0 0 0 0 0 2 0.
Proof.
  apply (dump_spec (Server (Store (sample_world 0 ∅) sample_conf []) (AppInfo 3 1 4 40 20 2 9)
    app_info_zero 0 990)).
  - vm_compute. reflexivity.
  - vm_compute. discriminate.
  - right. vm_compute. split; [reflexivity|discriminate].
Defined.
