(* ===== verification/HttpSpec.v ===== *)
(** * What a request does

    The valid queue names; requests that put and get, down to the files of the
    queue and up to the answer; requests that are refused. *)
From S2P Require Import Prelude.
From S2P Require Import CLib.
From S2P Require Import World.
From S2P Require Import MqTypes.
From S2P Require Import MqUtil.
From S2P Require Import MsgFormat.
From S2P Require Import StorePath.
From S2P Require Import StoreManage.
From S2P Require Import QueueManage.
From S2P Require Import StoreInv.
From S2P Require Import StoreWrite.
From S2P Require Import Fifo.
From S2P Require Import StoreRemove.
From S2P Require Import EvHttp.
From S2P Require Import HttpOpt.

(** ** Names *)
Definition name_char (c : Z) : Prop := name_char_ok c = true \/ c = 95.

Lemma name_char_ok_not c : name_char_ok c = true -> c <> 95 /\ c <> slash /\ c <> 46.
Proof. unfold name_char_ok, slash. repeat case_match; simpl; intros; lia. Qed.

Lemma qname_chars_ok_spec i s : 0 <= i ->
  qname_chars_ok i s = true <->
  Forall name_char s /\ (i = 0 -> head s <> Some 95) /\ last s <> Some 95.
Proof.
  revert i. induction s as [|c s IH]; intros i Hi; [done|]. simpl qname_chars_ok.
  rewrite Forall_cons. unfold name_char at 1. simpl head.
  destruct (name_char_ok c) eqn:Ec; simpl negb; cbn [andb].
  - apply name_char_ok_not in Ec as (H95 & _). rewrite IH by lia.
    destruct s as [|d s].
    + split; intros _; [|done]. split_and!; try done; [by left|intros; simpl; congruence..].
    + change (last (c :: d :: s)) with (last (d :: s)).
      split; [intros (? & ? & ?)|intros ((? & ?) & ? & ?)]; split_and!; try done;
        [by left|intros; simpl; congruence|lia].
  - destruct (Z.eqb_spec c 95) as [->|Hc]; simpl; cycle 1.
    { split; [done|]. intros ([[?|?] _] & _); congruence. }
    destruct (Z.eqb_spec i 0) as [->|Hi0]; simpl.
    { split; [done|]. intros (_ & H & _). by destruct H. }
    destruct s as [|d s].
    { split; [done|]. intros (_ & _ & H). by destruct H. }
    rewrite bool_decide_false by done. cbn [andb]. rewrite IH by lia. change (last (95 :: d :: s)) with (last (d :: s)).
    split; [intros (? & ? & ?)|intros ((? & ?) & ? & ?)]; split_and!; try done; [by right|lia].
Qed.

Lemma checked_name s : req_qname_check (Some s) = true ->
  (length s <= MAX_QUEUE_NAME_LEN)%nat /\ s <> [] /\ (slash ∉ s).
Proof.
  unfold req_qname_check, strlen, MAX_QUEUE_NAME_LEN.
  destruct (_ || _) eqn:E; [done|]. apply orb_false_iff in E as [E1%Z.leb_gt E2%Z.ltb_ge].
  intros [Hall _]%qname_chars_ok_spec; [|lia]. split_and!; [lia|by intros ->|].
  intros Hin. rewrite Forall_forall in Hall. destruct (Hall _ Hin) as [(_ & ? & _)%name_char_ok_not|]; done.
Qed.

(** ** Running a handler *)
Section Run.
Context {KV : Type} `{Evhttp KV}.
Implicit Types (kv : KV) (sv : server) (o : bytes) (oo : option bytes) (hs : list (bytes * bytes)) (rs : list reply).

(** The answer of [MQ_DO_REPLY] after the output [o]. *)
Definition answer_of (ver : option bytes) (hc : Z) (hr v1 v2 o : bytes) : reply :=
  if is_v2 ver then Reply HTTP_OK (B "OK") (o ++ line v2) else Reply hc hr (o ++ line v1).

Lemma run_find_header {A} n (k : option bytes -> M (hstate KV) A) kv sv oo hs rs :
  bind (find_header n) k (HState sv (Some kv) oo hs rs)
  = k (evhttp_find_header kv n) (HState sv (Some kv) oo hs rs).
Proof. done. Qed.
Lemma run_read_var {A} p (k : unit -> M (hstate KV) A) kv sv oo hs rs :
  bind (read_var p) k (HState sv (Some kv) oo hs rs) = k tt (HState sv (Some kv) oo hs rs).
Proof. by destruct p. Qed.
Lemma run_print {A} t (k : unit -> M (hstate KV) A) v sv o hs rs :
  bind (print t) k (HState sv v (Some o) hs rs) = k tt (HState sv v (Some (o ++ t)) hs rs).
Proof. done. Qed.

Lemma do_reply hc hr v1 v2 ver kv sv o hs rs :
  MQ_DO_REPLY hc hr v1 v2 ver (HState sv (Some kv) (Some o) hs rs)
  = Ok (tt, HState sv None None hs (rs ++ [answer_of ver hc hr v1 v2 o])).
Proof. unfold MQ_DO_REPLY, answer_of. rewrite run_read_var. by destruct (is_v2 ver). Qed.

Lemma run_checked name v1 ver k kv sv oo hs rs :
  req_qname_check (Some name) = true ->
  qname_checked (Some name) v1 ver k (HState sv (Some kv) oo hs rs)
  = k name (HState sv (Some kv) oo hs rs).
Proof. intros E. unfold qname_checked. by rewrite run_read_var, E. Qed.

(** The request runs on the server whose store is [Store w conf l]. *)
Definition server_of w conf l i (sv : server) : server :=
  Server (Store w conf l) i (g_last_info sv) (last_sync sv) (next_dump sv).

Lemma run_on_queue {A} key (m : ucmq_conf -> M qstate A) w conf l i sv q a w' q' v oo hs rs :
  find_kv l key = Some q -> m conf (QState w q) = Ok (a, QState w' q') ->
  on_store (on_queue key m) (HState (server_of w conf l i sv) v oo hs rs)
  = Ok (a, HState (KV := KV) (server_of w' conf (set_kv l key q') i sv) v oo hs rs).
Proof. intros E1 E2. unfold on_store, on_queue. cbn. rewrite E1, E2. done. Qed.

Lemma set_headers_ok inh type cs force kv sv oo hs rs :
  type = B "text/plain" \/ type = B "text/html" ->
  exists hs', mq_evhttp_set_headers inh (Some type) cs force (HState sv (Some kv) oo hs rs)
    = Ok (tt, HState sv (Some kv) oo (hs ++ hs') rs).
Proof.
  intros Ht. unfold mq_evhttp_set_headers. rewrite bind_assoc, run_read_var. cbv beta zeta.
  set (buffer := match cs with Some _ => _ | None => _ end).
  assert (length buffer < 64)%nat as Hb.
  { assert (length type <= 10)%nat by (destruct Ht as [-> | ->]; vm_compute; lia).
    unfold buffer. destruct cs as [cs|]; [|lia].
    destruct (bool_decide (cs <> [])); simpl; [|lia].
    destruct (Nat.leb_spec (length cs) MAX_CHARSET_SIZE) as [Hc|]; [|lia].
    rewrite !length_app. unfold MAX_CHARSET_SIZE in Hc. simpl. lia. }
  rewrite (proj2 (Nat.ltb_lt _ _)) by done. unfold evhttp_add_header, modify, gets, bind. cbn.
  destruct ((force =? 0) && _); cbn; repeat case_match;
    (eexists; try rewrite <- !app_assoc; done) || (exists []; by rewrite app_nil_r).
Qed.
End Run.

(** ** Puts and gets on a queue that stands for an abstract queue *)
Definition put_reply (r : queue_put_ret) (ver : option bytes) : reply :=
  match r with
  | QUEUE_PUT_OK => answer_of ver HTTP_OK (B "OK") (B "HTTPSQS_PUT_OK") (B "UCMQ_HTTP_OK") []
  | QUEUE_FULL => answer_of ver HTTP_BADREQUEST MQ_HTTP_REASON_QUE_FULL (B "HTTPSQS_PUT_FULL")
                    (B "UCMQ_HTTP_ERR_QUE_FULL") []
  | QUEUE_WLOCK => answer_of ver HTTP_BADREQUEST MQ_HTTP_REASON_QUE_WLOCK (B "HTTPSQS_PUT_READONLY")
                     (B "UCMQ_HTTP_ERR_WLOCK") []
  | QUEUE_PUT_ERROR => answer_of ver HTTP_BADREQUEST MQ_HTTP_REASON_PUT_ERR (B "HTTPSQS_PUT_ERROR")
                         (B "UCMQ_HTTP_ERR_PUT_ERR") []
  end.
Definition get_reply (r : option bytes) (ver : option bytes) : reply :=
  match r with
  | Some body => Reply HTTP_OK (B "OK") ((if is_v2 ver then line (B "UCMQ_HTTP_OK") else []) ++ body)
  | None => answer_of ver HTTP_NOTFOUND MQ_HTTP_REASON_QUE_EMPTY (B "HTTPSQS_GET_END")
              (B "UCMQ_HTTP_ERR_QUE_EMPTY") []
  end.

Lemma run_put_split conf body w q r w' q' :
  run_put conf body (QState w q) = Ok (AnsPut r, QState w' q') ->
  exists item q1, mq_qm_push_item conf (MsgItem 0 0 0 0 (Z.of_nat (length body)) (PBuf body))
      (QState w q) = Ok ((r, item), QState w' q1) /\
    q' = if bool_decide (r = QUEUE_PUT_OK) then with_unread (u64 (unread_count q1 + 1)) q1 else q1.
Proof.
  intros ([r1 item] & [w1 q1] & E & E2)%bind_inv. destruct r1; cbv beta iota in E2;
    try (unfold ret in E2; simplify_eq; by exists item, q').
  apply bind_inv in E2 as ([] & s2 & E3 & E4). unfold update, modify in E3. unfold ret in E4.
  simplify_eq. by exists item, q1.
Qed.

(** A load changes nothing. *)
Lemma load_ptr_world p n w b w' : load_ptr p n w = Ok (b, w') -> w' = w.
Proof.
  unfold load_ptr, mem_load, ret, fault. intros E. by repeat case_match; simplify_eq.
Qed.

Lemma pop_not_error conf item s r it s' :
  mq_qm_pop_item conf item s = Ok ((r, it), s') -> r <> QUEUE_GET_ERROR.
Proof.
  unfold mq_qm_pop_item. intros (q & s1 & _ & E)%bind_inv. case_match; [by unfold ret in E; simplify_eq|].
  apply bind_inv in E as ([ok it1] & s2 & _ & E). case_match; [by unfold ret in E; simplify_eq|].
  apply bind_inv in E as (? & s3 & _ & E). by unfold ret in E; simplify_eq.
Qed.

Lemma run_get_split conf w q r w' q' :
  run_get conf (QState w q) = Ok (AnsGet r, QState w' q') ->
  exists res item, mq_qm_pop_item conf msg_item_uninit (QState w q) = Ok ((res, item), QState w' q') /\
    match r with
    | Some body => res = QUEUE_GET_OK /\ load_ptr (msg item) (mlen item) w' = Ok (body, w')
    | None => res = QUEUE_GET_END
    end.
Proof.
  intros ([r1 item] & [w1 q1] & E & E2)%bind_inv. pose proof (pop_not_error _ _ _ _ _ _ E).
  destruct r1; cbv beta iota in E2; [|unfold ret in E2; simplify_eq; by eexists _, _|done].
  apply bind_inv in E2 as (body & [w2 q2] & E3 & E4). unfold ret in E4. simplify_eq.
  unfold sys in E3. cbn in E3. destruct (load_ptr _ _ _) as [[b w2]| |] eqn:E5; simplify_eq.
  pose proof (load_ptr_world _ _ _ _ _ E5) as ->. exists QUEUE_GET_OK, item.
  by split_and!.
Qed.

Section PutGet.
Context {KV : Type} `{Evhttp KV} (conf : ucmq_conf) (Hconf : conf_wf conf).
Implicit Types (request : request KV) (kv : KV) (sv : server) (l : qlist).

(** The message a put request carries: the variable ["data"] or the body. *)
Definition sent_body request kv : option bytes :=
  match evhttp_find_header kv (B "data") with
  | Some data => if bool_decide (rq_body request = []) then Some data else None
  | None => Some (rq_body request)
  end.

Lemma body_ok_len body : body_ok conf body ->
  i32 (Z.of_nat (length body)) = Z.of_nat (length body) /\
  u32 (Z.of_nat (length body)) = Z.of_nat (length body) /\
  data_len_ok conf (Z.of_nat (length body)) = true.
Proof using Hconf.
  intros [_ Hl]. pose proof (MAX_DB_FILE_SIZE_range conf Hconf).
  unfold DB_FILE_HEAD_LEN, MSG_HEAD_LEN in Hl. rewrite i32_small, u32_small by lia.
  split_and!; [done|done|]. unfold data_len_ok, DB_FILE_HEAD_LEN, MSG_HEAD_LEN.
  rewrite u32_small by lia. lia.
Qed.

Lemma run_find {A} name q w l i sv (k : option bytes -> M (hstate KV) A) kv oo hs rs :
  find_kv l name = Some q ->
  bind (find_queue_by_qname name) k (HState (server_of w conf l i sv) (Some kv) oo hs rs)
  = k (Some name) (HState (server_of w conf l i sv) (Some kv) oo hs rs).
Proof using. intros E. unfold bind, find_queue_by_qname, on_store. cbn. by rewrite E. Qed.
Lemma run_find_none {A} name w l i sv (k : option bytes -> M (hstate KV) A) kv oo hs rs :
  find_kv l name = None ->
  bind (find_queue_by_qname name) k (HState (server_of w conf l i sv) (Some kv) oo hs rs)
  = k None (HState (server_of w conf l i sv) (Some kv) oo hs rs).
Proof using. intros E. unfold bind, find_queue_by_qname, on_store. cbn. by rewrite E. Qed.
Lemma run_touch {A} name q w l i sv (k : option bytes -> M (hstate KV) A) kv oo hs rs :
  find_kv l name = Some q ->
  bind (touch_queue_by_qname name) k (HState (server_of w conf l i sv) (Some kv) oo hs rs)
  = k (Some name) (HState (server_of w conf l i sv) (Some kv) oo hs rs).
Proof using.
  intros E. unfold touch_queue_by_qname. rewrite bind_assoc. by erewrite run_find by done.
Qed.
Lemma run_queue_of {A} name q w l i sv (k : mq_queue -> M (hstate KV) A) v oo hs rs :
  find_kv l name = Some q ->
  bind (queue_of name) k (HState (server_of w conf l i sv) v oo hs rs)
  = k q (HState (server_of w conf (set_kv l name q) i sv) v oo hs rs).
Proof using. intros E. unfold queue_of. erewrite bind_ok by (by eapply run_on_queue). done. Qed.

Lemma run_update_info {A} f w l i sv (k : unit -> M (hstate KV) A) v oo hs rs :
  bind (update_info f) k (HState (server_of w conf l i sv) v oo hs rs)
  = k tt (HState (server_of w conf l (f i) sv) v oo hs rs).
Proof using. done. Qed.
Lemma run_add_header {A} key value (k : unit -> M (hstate KV) A) sv v oo hs rs :
  bind (evhttp_add_header key value) k (HState sv v oo hs rs)
  = k tt (HState sv v oo (if evhttp_header_valid key value then hs ++ [(key, value)] else hs) rs).
Proof using. done. Qed.

Lemma run_load {A} p n b w l i sv (k : bytes -> M (hstate KV) A) v oo hs rs :
  load_ptr p n w = Ok (b, w) ->
  bind (on_store (os (load_ptr p n))) k (HState (server_of w conf l i sv) v oo hs rs)
  = k b (HState (server_of w conf l i sv) v oo hs rs).
Proof using. intros E. unfold bind, on_store, os. cbn. by rewrite E. Qed.

Lemma put_enters request kv name body w l i sv oo hs rs :
  evhttp_find_header kv (B "name") = Some name -> req_qname_check (Some name) = true ->
  sent_body request kv = Some body -> body_ok conf body ->
  http_opt_put request (HState (server_of w conf l i sv) (Some kv) oo hs rs)
  = put_message (evhttp_find_header kv (B "ver")) (evhttp_find_header kv (B "data")) name body
      (Z.of_nat (length body)) (HState (server_of w conf l i sv) (Some kv) oo hs rs).
Proof using Hconf.
  intros Hname Hchk Hbody Hok. destruct (body_ok_len body Hok) as (Ei & Eu & El).
  destruct Hok as [_ Hlen]. unfold http_opt_put.
  rewrite !run_find_header, Hname, run_checked by done.
  unfold sent_body, strlen in *. destruct (evhttp_find_header kv (B "data")) as [d|].
  - destruct (bool_decide_reflect (rq_body request = [])) as [Hnil|]; [|done].
    injection Hbody as ->. rewrite Hnil, (bool_decide_false (Some body = None)), andb_false_r by done.
    change (0 <? i32 (Z.of_nat (length []))) with false. cbn [orb andb]. rewrite run_read_var. cbv beta zeta.
    rewrite Ei, Eu. erewrite bind_ok by reflexivity. cbn [server_of sv_store h_server g_mq_conf].
    by rewrite El.
  - injection Hbody as <-. rewrite Ei, (proj2 (Z.leb_gt _ 0)), (bool_decide_false (None <> None)),
      andb_false_r by (lia || congruence). cbn [orb andb]. rewrite run_read_var. cbv beta zeta. rewrite Eu.
    erewrite bind_ok by reflexivity. cbn [server_of sv_store h_server g_mq_conf]. by rewrite El.
Qed.

Lemma put_answers ver data name body kv w l i sv q a hs rs n :
  body_ok conf body -> find_kv l name = Some q ->
  refines conf w q a -> in_bounds q a (n + 1) -> 0 <= n -> storage_ok conf w ->
  let '(r, a') := a_push (now_of w) body a in
  exists w' q' hs', put_message ver data name body (Z.of_nat (length body))
      (HState (server_of w conf l i sv) (Some kv) (Some []) hs rs)
    = Ok (tt, HState (server_of w' conf (set_kv l name q')
                (if bool_decide (r = QUEUE_PUT_OK) then count_put (Z.of_nat (length body)) i else i) sv)
              None None hs' (rs ++ [put_reply r ver])) /\
    refines conf w' q' a' /\ in_bounds q' a' n /\ qname q' = qname q /\
    (forall b, lasting conf w q a b (n + 1) ->
       lasting conf w' q' a' (b || bool_decide (r = QUEUE_PUT_OK)) n).
Proof using Hconf.
  intros Hok Hq Href Hb Hn Hst.
  destruct (put_simulates conf Hconf w q body a n Href Hst) as (w' & q' & r0 & a' & E & Ea & Href' & Hf & Hb' & Hqn & Hlast);
    [done..|].
  assert (forall b, lasting conf w q a b (n + 1) -> lasting conf w' q' a' (b || settles (OpPut body) r0) n)
    as Hlast' by (intros b; by apply Hlast). clear Hlast.
  cbn [a_op] in Ea. fold (now_of w) in Ea. destruct (a_push (now_of w) body a) as [r a1] eqn:Ep.
  injection Ea as <- Hclk <-. cbn [run_op] in E. apply run_put_split in E as (item & q1 & E & ->).
  destruct (body_ok_len body Hok) as (_ & Eu & _). unfold put_message.
  erewrite run_touch by done. rewrite run_read_var, Eu.
  erewrite bind_ok by (eapply run_on_queue; [done|exact E]). cbv beta iota.
  destruct r; cycle 3.
  { exfalso. unfold a_push in Ep. by repeat case_match. }
  2,3: (eexists _, _, _; rewrite do_reply; split; [reflexivity|by split_and!]).
  assert (forall q', find_kv (set_kv l name q') name = Some q') as Hset
    by (intros q'; by erewrite find_set, bool_decide_true by done).
  rewrite bool_decide_true in * by done. erewrite bind_ok by (eapply run_on_queue; [apply Hset|reflexivity]).
  rewrite run_update_info, set_set. erewrite run_queue_of by apply Hset. rewrite set_set.
  rewrite run_add_header, do_reply. eexists _, _, _. split; [reflexivity|by split_and!].
Qed.

Lemma get_answers name kv w l i sv q a hs rs n :
  evhttp_find_header kv (B "name") = Some name -> req_qname_check (Some name) = true ->
  find_kv l name = Some q -> refines conf w q a -> in_bounds q a n -> 0 <= n ->
  let '(r, a') := a_pop (now_of w) a in
  exists w' q' hs', http_opt_get (HState (server_of w conf l i sv) (Some kv) (Some []) hs rs)
    = Ok (tt, HState (server_of w' conf (set_kv l name q')
                (if bool_decide (r = None) then i else count_get i) sv)
              None None hs' (rs ++ [get_reply r (evhttp_find_header kv (B "ver"))])) /\
    refines conf w' q' a' /\ in_bounds q' a' n /\ qname q' = qname q /\
    (forall b, lasting conf w q a b (n + 1) -> lasting conf w' q' a' (b || bool_decide (is_Some r)) n).
Proof using Hconf.
  intros Hname Hchk Hq Href Hb Hn.
  destruct (get_simulates conf Hconf w q a n Href Hb Hn)
    as (w' & q' & r0 & a' & E & Ea & Href' & Hf & Hb' & Hqn & Hlast).
  assert (forall b, lasting conf w q a b (n + 1) -> lasting conf w' q' a' (b || settles OpGet r0) n)
    as Hlast' by (intros b; by apply Hlast). clear Hlast.
  cbn [a_op] in Ea. fold (now_of w) in Ea. destruct (a_pop (now_of w) a) as [r a1] eqn:Ep.
  injection Ea as <- Hclk <-. cbn [run_op] in E. apply run_get_split in E as (res & item & E & Hr).
  unfold http_opt_get. rewrite !run_find_header, Hname, run_checked by done.
  erewrite run_find by done.
  erewrite bind_ok by (eapply run_on_queue; [done|exact E]). cbv beta iota.
  destruct r as [body|]; cycle 1.
  { subst res. rewrite do_reply. eexists _, _, _. split; [reflexivity|by split_and!]. }
  destruct Hr as [-> Hload]. rewrite run_read_var. rewrite bool_decide_false by done.
  assert (forall q', find_kv (set_kv l name q') name = Some q') as Hset
    by (intros q''; by erewrite find_set, bool_decide_true by done).
  erewrite bind_ok; cycle 1.
  { instantiate (1 := HState (server_of w' conf (set_kv l name q') i sv) (Some kv)
      (Some (if is_v2 (evhttp_find_header kv (B "ver")) then line (B "UCMQ_HTTP_OK") else []))
      hs rs). instantiate (1 := tt). by destruct (is_v2 _). }
  erewrite run_load by done. rewrite run_print, run_update_info. erewrite run_queue_of by apply Hset.
  rewrite run_add_header, set_set. eexists _, _, _. split; [reflexivity|by split_and!].
Qed.

(** The name leads to a queue that stands for [a], or the queue is made; it can
    take [n] more messages. *)
Definition queue_there w l name a n : Prop :=
  match find_kv l name with
  | Some q => refines conf w q a /\ in_bounds q a n
  | None => fresh_queue conf w name /\ Z.of_nat (length l) < max_qlist_itmes conf /\
            a = AQueue [] (def_max_queue conf) (def_delay conf) 0 /\ 1 + n < LLONG_MAX
  end.
(** The same for a restart: with [b] it finds the messages. *)
Definition lasting_there w l name a b n : Prop :=
  match find_kv l name with
  | Some q => lasting conf w q a b n
  | None => b = false /\ defaults_ok conf /\ room_ok n
  end.
(** [l'] is [l] but for the queue [name]. *)
Definition same_but l name q' l' : Prop :=
  find_kv l' name = Some q' /\ (forall k, k <> name -> find_kv l' k = find_kv l k).

Lemma same_but_set l name q q' : find_kv l name = Some q -> same_but l name q' (set_kv l name q').
Proof using.
  intros E. split; [by erewrite find_set, bool_decide_true by done|].
  intros k Hk. by erewrite find_set, bool_decide_false by done.
Qed.
Lemma same_but_app l name q q' : find_kv l name = None ->
  same_but l name q' (set_kv (l ++ [(name, q)]) name q').
Proof using.
  intros E. assert (find_kv (l ++ [(name, q)]) name = Some q) as E'
    by (by rewrite find_app, E, bool_decide_true).
  destruct (same_but_set _ _ _ q' E') as [H1 H2]. split; [done|]. intros k Hk.
  rewrite H2, find_app by done. rewrite bool_decide_false by congruence. by destruct (find_kv l k).
Qed.

Lemma touch_new name kv w l i sv a oo hs rs n :
  find_kv l name = None -> queue_there w l name a n -> storage_ok conf w ->
  exists w' q, (forall A (k : option bytes -> M (hstate KV) A),
      bind (touch_queue_by_qname name) k (HState (server_of w conf l i sv) (Some kv) oo hs rs)
      = k (Some name) (HState (server_of w' conf (l ++ [(name, q)]) i sv) (Some kv) oo hs rs)) /\
    refines conf w' q a /\ in_bounds q a n /\ w_clock w' = w_clock w /\ storage_ok conf w' /\ qname q = name /\
    (forall b, lasting_there w l name a b n -> lasting conf w' q a b n).
Proof using Hconf.
  intros En. unfold queue_there, lasting_there. rewrite En. intros (Hfr & Hmax & -> & Hb) Hst.
  destruct (add_queue_run (Store w conf l) name Hconf Hfr Hst Hmax) as (w' & q & E & Hr & Hc & Hf & Hi & Hqn & Hlast).
  exists w', q. split_and!; [|done|by unfold in_bounds; rewrite Hi; simpl; lia|done|unfold storage_ok; by rewrite Hf|done
    |intros b (-> & ? & ?); by apply Hlast].
  intros A k. unfold touch_queue_by_qname. rewrite bind_assoc.
  rewrite run_find_none by done. cbv beta iota.
  erewrite bind_ok; [|unfold on_store; cbn [h_server sv_store server_of]; rewrite E; reflexivity].
  done.
Qed.

Lemma put_run request name body kv w l i sv a hs rs n :
  evhttp_find_header kv (B "name") = Some name -> req_qname_check (Some name) = true ->
  sent_body request kv = Some body -> body_ok conf body ->
  queue_there w l name a (n + 1) -> 0 <= n -> storage_ok conf w ->
  let '(r, a') := a_push (now_of w) body a in
  exists w' q' l' hs', http_opt_put request (HState (server_of w conf l i sv) (Some kv) (Some []) hs rs)
    = Ok (tt, HState (server_of w' conf l'
                (if bool_decide (r = QUEUE_PUT_OK) then count_put (Z.of_nat (length body)) i else i) sv)
              None None hs' (rs ++ [put_reply r (evhttp_find_header kv (B "ver"))])) /\
    refines conf w' q' a' /\ same_but l name q' l' /\ in_bounds q' a' n /\
    ((forall q, find_kv l name = Some q -> qname q = name) -> qname q' = name) /\
    l'.*1 = (if find_kv l name then l.*1 else l.*1 ++ [name]) /\
    (forall b, lasting_there w l name a b (n + 1) ->
       lasting conf w' q' a' (b || bool_decide (r = QUEUE_PUT_OK)) n).
Proof using Hconf.
  intros Hname Hchk Hbody Hok Hth Hn Hst. erewrite put_enters by done.
  destruct (find_kv l name) as [q|] eqn:Eq.
  - pose proof Hth as Hth'. unfold queue_there in Hth'. rewrite Eq in Hth'. destruct Hth' as [Href Hb].
    pose proof (put_answers (evhttp_find_header kv (B "ver")) (evhttp_find_header kv (B "data"))
      name body kv w l i sv q a hs rs n Hok Eq Href Hb Hn Hst) as Ha.
    destruct (a_push (now_of w) body a) as [r a']. destruct Ha as (w' & q' & hs' & E & Hr & Hb' & Hq' & Hlast).
    eexists _, q', _, _. split_and!; [exact E|done|by eapply same_but_set|done|by intros Hqn; rewrite Hq'; apply Hqn| |].
    { by rewrite keys_set. }
    unfold lasting_there. by rewrite Eq.
  - destruct (touch_new name kv w l i sv a (Some []) hs rs (n + 1) Eq Hth Hst)
      as (w1 & q1 & Et & Href & Hb & Hc & Hst' & Hq1 & Hlast1).
    assert (find_kv (l ++ [(name, q1)]) name = Some q1) as Eq'
      by (by rewrite find_app, Eq, bool_decide_true).
    pose proof (put_answers (evhttp_find_header kv (B "ver")) (evhttp_find_header kv (B "data"))
      name body kv w1 _ i sv q1 a hs rs n Hok Eq' Href Hb Hn Hst') as Ha.
    unfold now_of in *. rewrite Hc in Ha.
    destruct (a_push _ body a) as [r a']. destruct Ha as (w' & q' & hs' & E & Hr & Hb' & Hq' & Hlast).
    eexists _, q', _, _. split_and!; [|done|by apply same_but_app|done|congruence| |by auto]; cycle 1.
    { by rewrite keys_set, fmap_app. }
    rewrite <- E. unfold put_message. rewrite Et. by erewrite run_touch by done.
Qed.
End PutGet.

(** ** A whole request *)
Section Serve.
Context {KV : Type} `{Evhttp KV}.
Implicit Types (request : request KV) (kv : KV) (sv : server) (t : Z).

(** The request line of [request] gives the variables [kv], with the option
    [opt]. *)
Definition asks request (opt : string) kv : Prop :=
  (exists uri, rq_uri request = Some uri /\ evhttp_parse_query uri = (kv, true)) /\
  evhttp_find_header kv (B "opt") = Some (B opt).

(** The request line of [request] is parsed into the variables [kv]. *)
Definition parsed_as request kv : Prop :=
  exists uri, rq_uri request = Some uri /\ evhttp_parse_query uri = (kv, true).

Lemma serve_parsed request t0 t1 sv kv :
  parsed_as request kv ->
  exists hs, serve request t0 t1 sv =
    match bind (do_opt request (evhttp_find_header kv (B "opt"))) (fun _ => update_info (count_time (i32 (t1 - t0))))
            (HState sv (Some kv) (Some []) hs []) with
    | Ok (_, s) => Ok (h_headers s, h_replies s, h_server s)
    | Fault => Fault
    | OutOfFuel => OutOfFuel
    end.
Proof.
  intros (uri & Eu & Ep).
  destruct (set_headers_ok (rq_headers request) (B "text/plain")
    (evhttp_find_header kv (B "charset")) 0 kv sv (Some []) [] [] (or_introl eq_refl)) as [hs Eh].
  exists hs. unfold serve, mq_evhttp_cb_do_opt_entry. erewrite bind_ok by reflexivity.
  rewrite Eu, Ep. cbv beta zeta iota. erewrite bind_ok by reflexivity. cbn [negb].
  unfold set_vars, set_out. cbn [h_server h_vars h_out h_headers h_replies].
  rewrite run_find_header. erewrite bind_ok by exact Eh. cbv beta.
  rewrite run_find_header, run_read_var. done.
Qed.

Lemma serve_opt request t0 t1 sv opt kv :
  asks request opt kv ->
  exists hs, serve request t0 t1 sv =
    match bind (do_opt request (Some (B opt))) (fun _ => update_info (count_time (i32 (t1 - t0))))
            (HState sv (Some kv) (Some []) hs []) with
    | Ok (_, s) => Ok (h_headers s, h_replies s, h_server s)
    | Fault => Fault
    | OutOfFuel => OutOfFuel
    end.
Proof. intros [Hp Ho]. destruct (serve_parsed request t0 t1 sv kv Hp) as [hs E]. exists hs. by rewrite E, Ho. Qed.
End Serve.

(** ** Settings *)
(** The requests that set something: the option, the number, the operation of
    the abstract queue, and the answer. *)
Inductive is_setting : string -> Z -> op -> string -> Prop :=
| set_maxqueue n : 0 <= n <= QUEUE_MAX_SIZE -> is_setting "maxqueue" n (OpMaxqueue n) "HTTPSQS_MAXQUEUE_OK"
| set_delay n : 0 <= n <= INT_MAX -> is_setting "delay" n (OpDelay n) "HTTPSQS_DELAY_OK"
| set_wlock n : -1 <= n <= INT_MAX -> is_setting "wlock" n (OpWlock (u32 n)) "HTTPSQS_READONLY_OK"
| set_readonly n : -1 <= n <= INT_MAX -> is_setting "readonly" n (OpWlock (u32 n)) "HTTPSQS_READONLY_OK".

Definition setting_run (o : op) : M qstate bool :=
  match o with
  | OpMaxqueue n => mq_qm_set_maxqueue n
  | OpDelay n => mq_qm_set_delay n
  | OpWlock n => mq_qm_set_wlock n
  | _ => ret false
  end.

Lemma setting_result opt n o text s b s' :
  is_setting opt n o text -> setting_run o s = Ok (b, s') -> b = true.
Proof.
  intros Hset E. destruct Hset; cbn [setting_run] in E;
    unfold mq_qm_set_maxqueue, mq_qm_set_delay, mq_qm_set_wlock in E;
    apply bind_inv in E as (? & ? & _ & (? & ? & _ & E)%bind_inv); unfold ret in E; by simplify_eq.
Qed.

Lemma setting_ok conf opt n o text w q a k :
  conf_wf conf -> is_setting opt n o text -> refines conf w q a -> storage_ok conf w ->
  in_bounds q a (k + 1) -> 0 <= k ->
  exists w' q', setting_run o (QState w q) = Ok (true, QState w' q') /\
    refines conf w' q' (a_op o (w_clock w, a)).2.2 /\ in_bounds q' (a_op o (w_clock w, a)).2.2 k /\
    qname q' = qname q /\
    (forall b, lasting conf w q a b (k + 1) -> lasting conf w' q' (a_op o (w_clock w, a)).2.2 true k).
Proof.
  intros Hc Hset Href Hst Hb Hk.
  assert (op_ok conf o) as Ho by by destruct Hset.
  destruct (op_simulates conf Hc w q o a k Href Hst) as (w' & q' & r & a' & E & Ea & Href' & _ & Hb' & Hqn & Hlast);
    [done..|].
  assert (forall b, lasting conf w q a b (k + 1) -> lasting conf w' q' a' true k) as Hlast'.
  { intros b Hl. assert (op_range o) as Hor.
    { destruct Hset; cbn; unfold QUEUE_MAX_SIZE, INT_MAX, UINT_MAX in *; lia || done. }
    specialize (Hlast b Hor Hl). assert (settles o r = true) as Es by by destruct Hset.
    by rewrite Es, orb_true_r in Hlast. }
  assert (run_op conf o = (let! _ := setting_run o in ret AnsDone)) as Er by by destruct Hset.
  rewrite Er in E. apply bind_inv in E as (b & s1 & E & E2). unfold ret in E2. simplify_eq.
  pose proof (setting_result _ _ _ _ _ _ _ Hset E) as ->.
  exists w', q'. rewrite Ea. by split_and!.
Qed.

Section Setting.
Context {KV : Type} `{Evhttp KV}.
Lemma do_and_reply (x : M (hstate KV) bool) m1 m2 hc hr v1 v2 ver s kv sv o hs rs :
  x s = Ok (true, HState sv (Some kv) (Some o) hs rs) ->
  MQ_DO_AND_REPLY x m1 m2 hc hr v1 v2 ver s
  = Ok (tt, HState sv None None hs (rs ++ [answer_of ver HTTP_OK (B "OK") m1 m2 o])).
Proof. intros E. unfold MQ_DO_AND_REPLY. erewrite bind_ok by exact E. apply do_reply. Qed.

Lemma wlock_answers kv name conf n w l q w' q' i sv hs rs :
  evhttp_find_header kv (B "name") = Some name -> req_qname_check (Some name) = true ->
  dest_num_of (evhttp_find_header kv (B "num")) = n -> -1 <= n <= 2147483647 ->
  find_kv l name = Some q -> mq_qm_set_wlock (u32 n) (QState w q) = Ok (true, QState w' q') ->
  http_opt_wlock (HState (server_of w conf l i sv) (Some kv) (Some []) hs rs)
  = Ok (tt, HState (server_of w' conf (set_kv l name q') i sv) None None hs
              (rs ++ [answer_of (evhttp_find_header kv (B "ver")) HTTP_OK (B "OK")
                        (B "HTTPSQS_READONLY_OK") (B "UCMQ_HTTP_OK") []])).
Proof.
  intros Hname Hchk Hn Hb Hq E.
  unfold http_opt_wlock. rewrite !run_find_header, Hname, Hn, run_checked by done.
  assert ((n <? 0) && negb (n =? -1) = false) as ->.
  { destruct (Z.ltb_spec n 0); [|done]. by replace n with (-1) by lia. }
  erewrite bind_ok by reflexivity. erewrite run_find by done.
  eapply do_and_reply. by eapply run_on_queue.
Qed.

Lemma setting_answers request kv name conf opt n o text w l q w' q' i sv hs rs :
  evhttp_find_header kv (B "name") = Some name -> req_qname_check (Some name) = true ->
  dest_num_of (evhttp_find_header kv (B "num")) = n -> is_setting opt n o text ->
  find_kv l name = Some q -> setting_run o (QState w q) = Ok (true, QState w' q') ->
  do_opt request (Some (B opt)) (HState (server_of w conf l i sv) (Some kv) (Some []) hs rs)
  = Ok (tt, HState (server_of w' conf (set_kv l name q') i sv) None None hs
              (rs ++ [answer_of (evhttp_find_header kv (B "ver")) HTTP_OK (B "OK") (B text)
                        (B "UCMQ_HTTP_OK") []])).
Proof.
  intros Hname Hchk Hn Hset Hq E.
  destruct Hset as [n Hb|n Hb|n Hb|n Hb]; cbn [setting_run] in E; unfold QUEUE_MAX_SIZE, INT_MAX in Hb.
  - change (do_opt request (Some (B "maxqueue"))) with (http_opt_maxqueue (KV := KV)).
    unfold http_opt_maxqueue. rewrite !run_find_header, Hname, Hn, run_checked by done.
    rewrite (proj2 (Z.ltb_ge n 0)), (proj2 (Z.ltb_ge QUEUE_MAX_SIZE n)) by (unfold QUEUE_MAX_SIZE; lia).
    cbn [orb]. erewrite run_touch by done.
    eapply do_and_reply. rewrite u32_small by lia. by eapply run_on_queue.
  - change (do_opt request (Some (B "delay"))) with (http_opt_delay (KV := KV)).
    unfold http_opt_delay. rewrite !run_find_header, Hname, Hn, run_checked by done.
    rewrite (proj2 (Z.ltb_ge n 0)) by lia. erewrite bind_ok by reflexivity. erewrite run_touch by done.
    eapply do_and_reply. rewrite u32_small by lia. by eapply run_on_queue.
  - change (do_opt request (Some (B "wlock"))) with (http_opt_wlock (KV := KV)).
    by apply (wlock_answers kv name conf n w l q w' q').
  - change (do_opt request (Some (B "readonly"))) with (http_opt_wlock (KV := KV)).
    by apply (wlock_answers kv name conf n w l q w' q').
Qed.
End Setting.

(** ** Removing and resetting *)
Lemma length_del l k q : find_kv l k = Some q -> length l = S (length (del_kv l k)).
Proof.
  induction l as [|[k1 q1] l IH]; simpl; [done|]. case_bool_decide; [done|].
  intros E. simpl. by rewrite IH.
Qed.

Section Remove.
Context {KV : Type} `{Evhttp KV} (conf : ucmq_conf).

Lemma run_on_store {A} (m : M store A) w l i sv a w' l' v oo hs rs :
  m (Store w conf l) = Ok (a, Store w' conf l') ->
  on_store m (HState (server_of w conf l i sv) v oo hs rs)
  = Ok (a, HState (KV := KV) (server_of w' conf l' i sv) v oo hs rs).
Proof. intros E. unfold on_store. cbn [h_server sv_store server_of]. by rewrite E. Qed.

Lemma remove_answers (kv : KV) name w l q w' l' i sv hs rs :
  evhttp_find_header kv (B "name") = Some name -> req_qname_check (Some name) = true ->
  find_kv l name = Some q -> mq_qm_del_queue name (Store w conf l) = Ok (true, Store w' conf l') ->
  http_opt_remove (HState (server_of w conf l i sv) (Some kv) (Some []) hs rs)
  = Ok (tt, HState (server_of w' conf l' i sv) None None hs
              (rs ++ [answer_of (evhttp_find_header kv (B "ver")) HTTP_OK (B "OK")
                        (B "HTTPSQS_REMOVE_OK") (B "UCMQ_HTTP_OK") []])).
Proof.
  intros Hname Hchk Hq E. unfold http_opt_remove. rewrite !run_find_header, Hname, run_checked by done.
  erewrite run_find by done. eapply do_and_reply. by apply run_on_store.
Qed.

Lemma reset_answers (kv : KV) name w l q b w1 l1 w' l' i sv hs rs :
  evhttp_find_header kv (B "name") = Some name -> req_qname_check (Some name) = true ->
  find_kv l name = Some q -> mq_qm_del_queue name (Store w conf l) = Ok (b, Store w1 conf l1) ->
  mq_qm_add_queue name (Store w1 conf l1) = Ok (Some name, Store w' conf l') ->
  http_opt_reset (HState (server_of w conf l i sv) (Some kv) (Some []) hs rs)
  = Ok (tt, HState (server_of w' conf l' i sv) None None hs
              (rs ++ [answer_of (evhttp_find_header kv (B "ver")) HTTP_OK (B "OK")
                        (B "HTTPSQS_RESET_OK") (B "UCMQ_HTTP_OK") []])).
Proof.
  intros Hname Hchk Hq E1 E2. unfold http_opt_reset.
  rewrite !run_find_header, Hname, run_checked by done.
  erewrite run_find by done. erewrite bind_ok by by apply run_on_store.
  eapply do_and_reply. apply run_on_store. erewrite bind_ok by exact E2.
  by rewrite bool_decide_true.
Qed.

(** The files of the queue [name] are all there is in its directory. *)
Record removable w (l : qlist) name (q : mq_queue) : Prop := {
  rm_node : find_kv l name = Some q /\ qname q = name;
  rm_keys : NoDup l.*1;
  rm_fits : path_fits conf name;
  rm_files : files_only w (queue_dir conf name)
}.

Lemma del_table l name q : find_kv l name = Some q -> NoDup l.*1 ->
  find_kv (del_kv l name) name = None /\
  (forall k, k <> name -> find_kv (del_kv l name) k = find_kv l k).
Proof.
  intros Hq Hd. split; [by rewrite find_del, bool_decide_true by done|].
  intros k Hk. by rewrite find_del, bool_decide_false by done.
Qed.
End Remove.

(** ** Requests that are refused *)

(** The options on one queue, with their answer to a name that is not valid. *)
Definition named_opts : list (string * string) :=
  [("put", "HTTPSQS_PUT_ERROR"); ("get", "HTTPSQS_GET_ERROR"); ("status", "HTTPSQS_ERROR");
   ("status_json", "HTTPSQS_ERROR"); ("maxqueue", "HTTPSQS_MAXQUEUE_CANCEL"); ("delay", "HTTPSQS_DELAY_CANCEL");
   ("wlock", "HTTPSQS_READONLY_CANCEL"); ("readonly", "HTTPSQS_READONLY_CANCEL");
   ("remove", "HTTPSQS_REMOVE_ERROR"); ("reset", "HTTPSQS_RESET_ERROR")]%string.
(** Those that look for a queue and do not make it. *)
Definition finding_opts : list (string * string) :=
  [("get", "HTTPSQS_GET_ERROR"); ("status", "HTTPSQS_ERROR"); ("status_json", "HTTPSQS_ERROR");
   ("remove", "HTTPSQS_REMOVE_ERROR"); ("reset", "HTTPSQS_RESET_ERROR")]%string.
Definition known_opts : list string := (named_opts.*1 ++ ["synctime"%string])%list.

Section Refused.
Context {KV : Type} `{Evhttp KV}.
Context (conf : ucmq_conf) (request : request KV) (kv : KV) (l : qlist).
#[local] Abbreviation var n := (evhttp_find_header kv (B n)).
#[local] Abbreviation refusal := (answer_of (var "ver")).

(** [refused r]: the request is wrong in a way that does not depend on the files,
    and [r] says in which. *)
Inductive refused : reply -> Prop :=
| refused_opt : (forall opt k, var "opt" = Some opt -> k ∈ known_opts -> strcmp opt (B k) <> 0) ->
    refused (refusal 405 MQ_HTTP_REASON_UNKNOWN_OPT (B "HTTPSQS_UNKNWON_OPT") (B "UCMQ_HTTP_ERR_UNKNOWN_OPT") [])
| refused_name opt v1 : (opt, v1) ∈ named_opts -> var "opt" = Some (B opt) -> req_qname_check (var "name") = false ->
    refused (refusal HTTP_BADREQUEST MQ_HTTP_REASON_UNKNOWN_NAME (B v1) (B "UCMQ_HTTP_ERR_INV_NAME") [])
| refused_body name : var "opt" = Some (B "put") -> var "name" = Some name -> req_qname_check (Some name) = true ->
    Z.of_nat (length (rq_body request)) <= INT_MAX ->
    sent_body request kv = None \/ (exists body, sent_body request kv = Some body /\
      Z.of_nat (length body) <= INT_MAX /\ data_len_ok conf (Z.of_nat (length body)) = false) ->
    refused (refusal HTTP_BADREQUEST MQ_HTTP_REASON_INVALID_ARG (B "HTTPSQS_PUT_ERROR") (B "UCMQ_HTTP_ERR_INV_DATA") [])
| refused_number name n : var "opt" = Some (B "maxqueue") -> var "name" = Some name ->
    req_qname_check (Some name) = true -> dest_num_of (var "num") = n -> ~ 0 <= n <= QUEUE_MAX_SIZE ->
    refused (refusal HTTP_BADREQUEST MQ_HTTP_REASON_INVALID_NUM (B "HTTPSQS_MAXQUEUE_CANCEL")
      (B "UCMQ_HTTP_ERR_INV_NUM") [])
| refused_queue opt v1 name : (opt, v1) ∈ finding_opts -> var "opt" = Some (B opt) -> var "name" = Some name ->
    req_qname_check (Some name) = true -> find_kv l name = None ->
    refused (refusal HTTP_BADREQUEST MQ_HTTP_REASON_QUE_NO_EXIST (B v1) (B "UCMQ_HTTP_ERR_QUE_NO_EXIST") [])
| refused_wlock opt name : opt = "wlock"%string \/ opt = "readonly"%string -> var "opt" = Some (B opt) ->
    var "name" = Some name -> req_qname_check (Some name) = true -> -1 <= dest_num_of (var "num") ->
    find_kv l name = None ->
    refused (refusal HTTP_BADREQUEST MQ_HTTP_REASON_ADD_QUE_ERR (B "HTTPSQS_READONLY_CANCEL")
      (B "UCMQ_HTTP_ERR_QUE_ADD_ERR") []).

Lemma run_checked_bad name v1 ver k sv oo hs rs :
  req_qname_check name = false ->
  qname_checked name v1 ver k (HState sv (Some kv) oo hs rs)
  = MQ_DO_REPLY HTTP_BADREQUEST MQ_HTTP_REASON_UNKNOWN_NAME v1 (B "UCMQ_HTTP_ERR_INV_NAME") ver
      (HState sv (Some kv) oo hs rs).
Proof using. intros E. unfold qname_checked. rewrite run_read_var, E. by destruct name. Qed.

Lemma do_unknown opt w i sv hs : (forall k, k ∈ known_opts -> strcmp opt (B k) <> 0) ->
  do_opt request (Some opt) (HState (server_of w conf l i sv) (Some kv) (Some []) hs [])
  = http_unknown_opt (HState (server_of w conf l i sv) (Some kv) (Some []) hs []).
Proof using.
  intros Hk. assert (Forall (fun k => (strcmp opt (B k) =? 0) = false) known_opts) as Hf.
  { apply Forall_forall. intros k Hin. by apply Z.eqb_neq, Hk. }
  unfold known_opts in Hf. cbn in Hf. rewrite !Forall_cons in Hf.
  destruct Hf as (H1 & H2 & H3 & H4 & H5 & H6 & H7 & H8 & H9 & H10 & H11 & _).
  unfold do_opt. by rewrite H1, H2, H3, H4, H5, H6, H7, H8, H9, H10, H11.
Qed.

Lemma put_refuses name w i sv hs :
  var "name" = Some name -> req_qname_check (Some name) = true -> Z.of_nat (length (rq_body request)) <= INT_MAX ->
  sent_body request kv = None \/ (exists body, sent_body request kv = Some body /\
    Z.of_nat (length body) <= INT_MAX /\ data_len_ok conf (Z.of_nat (length body)) = false) ->
  http_opt_put request (HState (server_of w conf l i sv) (Some kv) (Some []) hs [])
  = Ok (tt, HState (server_of w conf l i sv) None None hs
      [refusal HTTP_BADREQUEST MQ_HTTP_REASON_INVALID_ARG (B "HTTPSQS_PUT_ERROR") (B "UCMQ_HTTP_ERR_INV_DATA") []]).
Proof using.
  unfold INT_MAX. intros Hn Hchk Hlen Hb. unfold http_opt_put. rewrite !run_find_header, Hn, run_checked by done.
  rewrite i32_small by lia. unfold sent_body, strlen in *.
  destruct (var "data") as [d|].
  - rewrite (bool_decide_true (Some d <> None)), (bool_decide_false (Some d = None)) by done.
    destruct (bool_decide_reflect (rq_body request = [])) as [Hnil|Hne].
    + destruct Hb as [|(body & [= <-] & Hl & Ho)]; [done|]. rewrite Hnil.
      change (0 <? Z.of_nat (length [])) with false. rewrite !andb_false_r. cbn [orb andb].
      rewrite run_read_var. cbv beta zeta. erewrite bind_ok by reflexivity.
      cbn [server_of sv_store h_server g_mq_conf]. rewrite i32_small, u32_small, Ho by lia. apply (do_reply _ _ _ _ _ kv _ [] hs []).
    + destruct (rq_body request) as [|c r]; [done|]. cbn [length].
      rewrite (proj2 (Z.ltb_lt _ _)) by lia. apply (do_reply _ _ _ _ _ kv _ [] hs []).
  - rewrite (bool_decide_false (None <> None)), (bool_decide_true (None = None)) by (done || tauto).
    destruct Hb as [|(body & [= <-] & Hl & Ho)]; [done|].
    destruct (Z.leb_spec (Z.of_nat (length (rq_body request))) 0) as [Hle|Hgt].
    + rewrite andb_false_r, andb_true_r. cbn [orb]. apply (do_reply _ _ _ _ _ kv _ [] hs []).
    + rewrite !andb_false_r, andb_true_r. cbn [orb]. rewrite run_read_var. cbv beta zeta.
      erewrite bind_ok by reflexivity. cbn [server_of sv_store h_server g_mq_conf].
      rewrite u32_small, Ho by lia. apply (do_reply _ _ _ _ _ kv _ [] hs []).
Qed.

Lemma do_refused r w i sv hs : refused r ->
  do_opt request (var "opt") (HState (server_of w conf l i sv) (Some kv) (Some []) hs [])
  = Ok (tt, HState (server_of w conf l i sv) None None hs [r]).
Proof using.
  destruct 1 as [Hopt|opt v1 Hin -> Hn|name -> Hn Hchk Hlen Hb|name n -> Hn Hchk Hnum Hr
    |opt v1 name Hin -> Hn Hchk Hnone|opt name Hopt -> Hn Hchk Hnum Hnone].
  - transitivity (http_unknown_opt (HState (KV := KV) (server_of w conf l i sv) (Some kv) (Some []) hs [])).
    + destruct (var "opt") as [opt|]; [|done]. apply do_unknown. intros k. by apply Hopt.
    + unfold http_unknown_opt. by rewrite run_find_header, do_reply.
  - unfold named_opts in Hin. rewrite !elem_of_cons, elem_of_nil in Hin.
    repeat destruct Hin as [[= -> ->]|Hin]; [..|done];
      (etrans; [|apply (do_reply _ _ _ _ _ kv _ [] hs [])]); (etrans; [|by apply (run_checked_bad (var "name"))]); reflexivity.
  - by apply (put_refuses name).
  - change (do_opt request (Some (B "maxqueue"))) with (http_opt_maxqueue (KV := KV)).
    unfold http_opt_maxqueue. rewrite !run_find_header, Hn, Hnum, run_checked by done.
    assert ((n <? 0) || (QUEUE_MAX_SIZE <? n) = true) as -> by lia. apply (do_reply _ _ _ _ _ kv _ [] hs []).
  - unfold finding_opts in Hin. rewrite !elem_of_cons, elem_of_nil in Hin.
    repeat destruct Hin as [[= -> ->]|Hin]; [..|done].
    1: change (do_opt request (Some (B "get"))) with (http_opt_get (KV := KV)); unfold http_opt_get.
    2: change (do_opt request (Some (B "status"))) with (http_opt_status (KV := KV)); unfold http_opt_status.
    3: change (do_opt request (Some (B "status_json"))) with (http_opt_status_json (KV := KV)); unfold http_opt_status_json.
    4: change (do_opt request (Some (B "remove"))) with (http_opt_remove (KV := KV)); unfold http_opt_remove.
    5: change (do_opt request (Some (B "reset"))) with (http_opt_reset (KV := KV)); unfold http_opt_reset.
    all: rewrite !run_find_header, Hn, run_checked, run_find_none by done.
    all: apply (do_reply _ _ _ _ _ kv _ [] hs []).
  - assert (do_opt request (Some (B opt)) = http_opt_wlock (KV := KV)) as -> by by destruct Hopt as [-> | ->].
    unfold http_opt_wlock. rewrite !run_find_header, Hn, run_checked by done.
    assert ((dest_num_of (var "num") <? 0) && negb (dest_num_of (var "num") =? -1) = false) as -> by lia.
    erewrite bind_ok by reflexivity. by rewrite run_find_none, do_reply.
Qed.
End Refused.

(** ** The properties *)

(** C6: a put request with a valid name and one message of an accepted size is
    answered once, and as the abstract queue answers the push: the message is
    appended to the queue of that name, which is made when it does not exist, or
    the queue is full or locked and keeps its contents; the counters count the
    message exactly when it was put; no other queue changes. *)
Theorem serve_put KV (EV : Evhttp KV) conf (request : request KV) (t0 t1 : Z) kv name body a w l i sv :
  conf_wf conf -> storage_ok conf w -> asks request "put" kv ->
  evhttp_find_header kv (B "name") = Some name -> req_qname_check (Some name) = true ->
  sent_body request kv = Some body -> body_ok conf body -> queue_there conf w l name a 1 ->
  let '(r, a') := a_push (now_of w) body a in
  exists hs w' q' l',
    serve request t0 t1 (server_of w conf l i sv) = Ok (hs, [put_reply r (evhttp_find_header kv (B "ver"))],
      server_of w' conf l' (count_time (i32 (t1 - t0))
        (if bool_decide (r = QUEUE_PUT_OK) then count_put (Z.of_nat (length body)) i else i)) sv) /\
    refines conf w' q' a' /\ same_but l name q' l'.
Proof.
  intros Hc Hst Hasks Hname Hchk Hbody Hok Hth.
  destruct (serve_opt request t0 t1 (server_of w conf l i sv) "put" kv Hasks) as (hs & ->).
  pose proof (put_run conf Hc request name body kv w l i sv a hs [] 0 Hname Hchk Hbody Hok Hth ltac:(lia) Hst) as Hp.
  destruct (a_push (now_of w) body a) as [r a'].
  destruct Hp as (w' & q' & l' & hs' & E & Hr & Hl & _). exists hs', w', q', l'. split; [|done].
  change (do_opt request (Some (B "put"))) with (http_opt_put request).
  by erewrite bind_ok by exact E.
Qed.

(** C7: a get request for a queue that exists is answered once, and as the
    abstract queue answers the pop: with the body of the first message, which
    leaves the queue, or with the answer that there is none; no other queue
    changes. *)
Theorem serve_get KV (EV : Evhttp KV) conf (request : request KV) (t0 t1 : Z) kv name a w l q i sv :
  conf_wf conf -> asks request "get" kv ->
  evhttp_find_header kv (B "name") = Some name -> req_qname_check (Some name) = true ->
  find_kv l name = Some q -> refines conf w q a -> in_bounds q a 0 ->
  let '(r, a') := a_pop (now_of w) a in
  exists hs w' q' l',
    serve request t0 t1 (server_of w conf l i sv) = Ok (hs, [get_reply r (evhttp_find_header kv (B "ver"))],
      server_of w' conf l' (count_time (i32 (t1 - t0)) (if bool_decide (r = None) then i else count_get i)) sv) /\
    refines conf w' q' a' /\ same_but l name q' l'.
Proof.
  intros Hc Hasks Hname Hchk Hq Href Hb.
  destruct (serve_opt request t0 t1 (server_of w conf l i sv) "get" kv Hasks) as (hs & ->).
  pose proof (get_answers conf Hc name kv w l i sv q a hs [] 0 Hname Hchk Hq Href Hb ltac:(lia)) as Hp.
  destruct (a_pop (now_of w) a) as [r a'].
  destruct Hp as (w' & q' & hs' & E & Hr & _). exists hs', w', q', (set_kv l name q').
  split; [|split; [done|by eapply same_but_set]].
  change (do_opt request (Some (B "get"))) with (http_opt_get (KV := KV)).
  by erewrite bind_ok by exact E.
Qed.

(** C10: a request that sets the limit, the delay or the write lock of a queue to
    a number in range is answered with success, and the setting is the number
    (for a lock of n > 0 seconds the second at which it ends, for -1 a lock
    without end); the messages of the queue and every other queue stay. *)
Theorem serve_setting KV (EV : Evhttp KV) conf (request : request KV) (t0 t1 : Z) kv name opt n o text a w l q i sv :
  conf_wf conf -> storage_ok conf w -> asks request opt kv ->
  evhttp_find_header kv (B "name") = Some name -> req_qname_check (Some name) = true ->
  dest_num_of (evhttp_find_header kv (B "num")) = n -> is_setting opt n o text ->
  find_kv l name = Some q -> refines conf w q a -> in_bounds q a 1 ->
  exists hs w' q' l',
    serve request t0 t1 (server_of w conf l i sv) = Ok (hs,
      [answer_of (evhttp_find_header kv (B "ver")) HTTP_OK (B "OK") (B text) (B "UCMQ_HTTP_OK") []],
      server_of w' conf l' (count_time (i32 (t1 - t0)) i) sv) /\
    refines conf w' q' (a_op o (w_clock w, a)).2.2 /\ same_but l name q' l'.
Proof.
  intros Hc Hst Hasks Hname Hchk Hn Hset Hq Href Hb.
  destruct (serve_opt request t0 t1 (server_of w conf l i sv) opt kv Hasks) as (hs & ->).
  destruct (setting_ok conf opt n o text w q a 0 Hc Hset Href Hst Hb ltac:(lia)) as (w' & q' & E & Hr & _).
  exists hs, w', q', (set_kv l name q'). split; [|split; [done|by eapply same_but_set]].
  by erewrite bind_ok by (by eapply setting_answers).
Qed.

(** C9: a remove request deletes the directory of the queue with all its files,
    and its node of the table, and is answered with success; no other file and
    no other queue of the table changes. *)
Theorem serve_remove KV (EV : Evhttp KV) conf (request : request KV) (t0 t1 : Z) kv name w l q i sv :
  asks request "remove" kv ->
  evhttp_find_header kv (B "name") = Some name -> req_qname_check (Some name) = true ->
  removable conf w l name q ->
  exists hs w' l',
    serve request t0 t1 (server_of w conf l i sv) = Ok (hs,
      [answer_of (evhttp_find_header kv (B "ver")) HTTP_OK (B "OK") (B "HTTPSQS_REMOVE_OK")
         (B "UCMQ_HTTP_OK") []],
      server_of w' conf l' (count_time (i32 (t1 - t0)) i) sv) /\
    find_kv l' name = None /\ (forall k, k <> name -> find_kv l' k = find_kv l k) /\
    w_dirs w' = w_dirs w ∖ {[queue_dir conf name]} /\
    forall p, w_names w' !! p
              = if bool_decide (dirname p = queue_dir conf name) then None else w_names w !! p.
Proof.
  intros Hasks Hname Hchk [[Hq Hqn] Hd Hfit Hfo].
  destruct (serve_opt request t0 t1 (server_of w conf l i sv) "remove" kv Hasks) as (hs & ->).
  destruct (del_queue_run conf w l name q Hq Hqn Hfit Hfo) as (w1 & Hs & E).
  destruct (del_table l name q Hq Hd) as [Hnone Hrest].
  exists hs, (dir_removed w1 (queue_dir conf name)), (del_kv l name). split_and!; [|done|done|..].
  - change (do_opt request (Some (B "remove"))) with (http_opt_remove (KV := KV)).
    by erewrite bind_ok by (by eapply remove_answers).
  - unfold dir_removed. cbn. by rewrite (sf_dirs _ _ Hs).
  - intros p. rewrite removed_names by by eapply files_only_same. by rewrite (sf_names _ _ Hs).
Qed.

(** C8: a reset request leaves the queue of that name empty, with the default
    limit and delay and no lock, whatever it held; it is answered with success,
    and no other queue of the table changes. *)
Theorem serve_reset KV (EV : Evhttp KV) conf (request : request KV) (t0 t1 : Z) kv name w l q i sv :
  conf_wf conf -> storage_ok conf w -> asks request "reset" kv ->
  evhttp_find_header kv (B "name") = Some name -> req_qname_check (Some name) = true ->
  world_wf w -> w_faults w = [] -> dir_exists w (data_file_path conf) = true ->
  removable conf w l name q -> Z.of_nat (length l) <= max_qlist_itmes conf ->
  exists hs w' q' l',
    serve request t0 t1 (server_of w conf l i sv) = Ok (hs,
      [answer_of (evhttp_find_header kv (B "ver")) HTTP_OK (B "OK") (B "HTTPSQS_RESET_OK")
         (B "UCMQ_HTTP_OK") []],
      server_of w' conf l' (count_time (i32 (t1 - t0)) i) sv) /\
    refines conf w' q' (AQueue [] (def_max_queue conf) (def_delay conf) 0) /\ same_but l name q' l'.
Proof.
  intros Hc Hst Hasks Hname Hchk Hwf Hnf Hdata [[Hq Hqn] Hd Hfit Hfo] Hmax.
  destruct (serve_opt request t0 t1 (server_of w conf l i sv) "reset" kv Hasks) as (hs & ->).
  destruct (del_queue_run conf w l name q Hq Hqn Hfit Hfo) as (w1 & Hs & E1).
  destruct (del_table l name q Hq Hd) as [Hnone Hrest].
  set (w2 := dir_removed w1 (queue_dir conf name)) in *.
  destruct (checked_name name Hchk) as (Hlen & Hne & Hsl).
  assert (fresh_queue conf w2 name) as Hfr.
  { apply removed_fresh; try done; [by apply (sf_wf _ _ Hs)|by rewrite (sf_faults _ _ Hs)| |
      by eapply files_only_same]. unfold dir_exists in *. by rewrite (sf_dirs _ _ Hs). }
  destruct (add_queue_run (Store w2 conf (del_kv l name)) name Hc Hfr) as (w3 & q3 & E2 & Hr & _).
  { unfold storage_ok, w2 in *. cbn [st_w g_mq_conf]. by rewrite removed_free, (sf_free _ _ Hs). }
  { cbn. pose proof (length_del l name q Hq). lia. }
  exists hs, w3, q3, (del_kv l name ++ [(name, q3)]). split_and!; [|done|..].
  - change (do_opt request (Some (B "reset"))) with (http_opt_reset (KV := KV)).
    by erewrite bind_ok by (by eapply reset_answers).
  - split; [by rewrite find_app, Hnone, bool_decide_true|]. intros k Hk.
    rewrite find_app, Hrest, bool_decide_false by done. by destruct (find_kv l k).
Qed.

(** The valid queue names: 1 to 32 letters, digits and underscores, with no
    underscore at either end. *)
Theorem qname_check_spec s :
  req_qname_check (Some s) = true <->
  (1 <= length s <= MAX_QUEUE_NAME_LEN)%nat /\ Forall name_char s /\
  head s <> Some 95 /\ last s <> Some 95.
Proof.
  unfold req_qname_check, strlen, MAX_QUEUE_NAME_LEN.
  destruct (_ || _) eqn:E.
  - split; [done|]. intros ([H1 H2] & _). exfalso.
    apply orb_true_iff in E as [E%Z.leb_le|E%Z.ltb_lt]; lia.
  - apply orb_false_iff in E as [E1%Z.leb_gt E2%Z.ltb_ge]. rewrite qname_chars_ok_spec by lia. split; [intros (? & ? & ?)|intros (? & ? & ? & ?)];
      split_and!; try done; try lia. tauto.
Qed.

(** C39: a valid name leads nowhere but to one directory below the data path: it
    has no slash, and is not "." or "..", and when the data path leaves room for the
    name in the buffer, the path the server makes of it is an entry of the data
    path, the paths of two such names differ, and the files of the queue are entries
    of its directory. *)
Theorem qname_check_confines conf s :
  req_qname_check (Some s) = true -> path_fits conf s ->
  (slash ∉ s) /\ is_special_dir s = false /\ dirname (GEN_QUEUE_PATH_BY_QNAME conf s) = data_file_path conf /\
  (forall s', path_fits conf s' ->
     GEN_QUEUE_PATH_BY_QNAME conf s' = GEN_QUEUE_PATH_BY_QNAME conf s -> s' = s) /\
  (forall fname, slash ∉ fname -> (length fname <= 25)%nat ->
     dirname (GEN_DATA_FULL_PATH_BY_FNAME conf s fname) = GEN_QUEUE_PATH_BY_QNAME conf s).
Proof.
  intros E Hfit. rewrite queue_path_eq by done. assert (Forall (fun c => c <> slash /\ c <> 46) s) as Hs.
  { unfold req_qname_check in E. destruct (_ || _); [done|].
    apply qname_chars_ok_spec in E as [E _]; [|lia]. eapply Forall_impl; [exact E|].
    intros c [Hc|Hc]; [by apply name_char_ok_not in Hc as (_ & ? & ?)|by subst c]. }
  assert (slash ∉ s) as Hsl by (intros Hin; rewrite Forall_forall in Hs; by destruct (Hs _ Hin)).
  split_and!; [done| |by apply dirname_child| |].
  2:{ intros s' Hf'. rewrite queue_path_eq by done. unfold queue_dir. by intros E'%app_inv_head%app_inv_head. }
  2:{ intros fname Hf Hl. unfold GEN_DATA_FULL_PATH_BY_FNAME. rewrite full_fits by done. by apply dirname_child. }
  unfold is_special_dir, streq. destruct s as [|c s]; [done|]. apply Forall_cons in Hs as [[_ Hc] _].
  change (B ".") with [46]. change (B "..") with [46; 46].
  rewrite !bool_decide_false by congruence. done.
Qed.


(** a negative number in a delay request (-1 stands for a missing one), and
    one below -1 in a wlock or a synctime request, is answered as invalid, and
    then the handler goes on with the freed variables and buffer: the request
    runs into undefined behaviour. *)
Theorem bad_number_faults KV (EV : Evhttp KV) (kv : KV) sv o hs rs name n :
  evhttp_find_header kv (B "name") = Some name -> req_qname_check (Some name) = true ->
  dest_num_of (evhttp_find_header kv (B "num")) = n -> n < 0 ->
  let s := HState sv (Some kv) (Some o) hs rs in
  http_opt_delay s = Fault /\
  (n <> -1 -> http_opt_wlock s = Fault /\ http_opt_synctime s = Fault).
Proof.
  intros Hname Hchk Hn Hneg s. unfold s, http_opt_delay, http_opt_wlock, http_opt_synctime.
  rewrite !run_find_header, Hname, Hn, !run_checked by done.
  rewrite (proj2 (Z.ltb_lt n 0)) by lia. split.
  { by erewrite bind_ok by apply do_reply. }
  intros H1. rewrite (proj2 (Z.eqb_neq n (-1))) by lia. cbn [andb negb].
  cbv beta iota zeta. split; (erewrite bind_ok by apply do_reply); [done|].
  unfold MQ_DO_AND_REPLY, bind, on_store, mq_qm_set_synctime.
  rewrite (proj2 (Z.leb_gt 0 n)) by lia.
  by destruct (evhttp_find_header kv (B "ver")).
Qed.

(** The header "Content-Type" fits its buffer for every character set the
    client names: for the two types the server uses, the headers of an answer
    are always made, whatever the client sends. *)
Theorem set_headers_safe KV (EV : Evhttp KV) inh type cs force (kv : KV) sv o hs rs :
  type = B "text/plain" \/ type = B "text/html" ->
  exists hs', mq_evhttp_set_headers inh (Some type) cs force (HState sv (Some kv) o hs rs)
    = Ok (tt, HState sv (Some kv) o (hs ++ hs') rs).
Proof. apply set_headers_ok. Qed.

(** ** Witnesses: a request line with a query *)
#[local] Instance sample_evhttp : Evhttp (list (bytes * bytes)) := {
  evhttp_find_header kv n := snd <$> find (fun p => bool_decide (p.1 = n)) kv;
  evhttp_parse_query uri :=
    match strtok 63 uri with
    | [_; q] => ((fun p => (hd [] (strtok 61 p), nth 1 (strtok 61 p) [])) <$> strtok 38 q, true)
    | _ => ([], true)
    end;
  evhttp_header_valid _ _ := true;
  version_text := B "1"
}.

#[local] Abbreviation sample_server i := (server_of sample_qworld sample_conf [(B "q", sample_queue)] i
  (Server sample_store app_info_zero app_info_zero 0 0)).
Definition sample_vars (s : string) : list (bytes * bytes) := (evhttp_parse_query (B s)).1.
Definition sample_request (s : string) : request (list (bytes * bytes)) := Request (Some (B s)) [] [].

Lemma serve_put_witness : exists hs w' q' l',
  serve (sample_request "/?opt=put&name=q&data=hi") 0 5 (sample_server app_info_zero)
  = Ok (hs, [Reply 200 (B "OK") (line (B "HTTPSQS_PUT_OK"))],
        server_of w' sample_conf l' (count_time 5 (count_put 2 app_info_zero))
          (Server sample_store app_info_zero app_info_zero 0 0)) /\
  refines sample_conf w' q' (AQueue [(1000, B "hi")] 10000 0 0) /\
  same_but [(B "q", sample_queue)] (B "q") q' l'.
Proof.
  apply (serve_put _ sample_evhttp sample_conf (sample_request "/?opt=put&name=q&data=hi") 0 5
    (sample_vars "/?opt=put&name=q&data=hi") (B "q") (B "hi") (AQueue [] 10000 0 0)
    sample_qworld [(B "q", sample_queue)]).
  - exact sample_conf_wf.
  - exact sample_storage.
  - split; [exists (B "/?opt=put&name=q&data=hi"); split|]; vm_compute; reflexivity.
  - vm_compute. reflexivity.
  - vm_compute. reflexivity.
  - vm_compute. reflexivity.
  - split; [decide_it|]. vm_compute. split; [reflexivity|discriminate].
  - split; [exact sample_refines|]. split; reflexivity.
Defined.

Lemma serve_get_witness : exists w q hs w' q' l',
  serve (sample_request "/?opt=get&name=q&ver=2") 0 5
    (server_of w sample_conf [(B "q", q)] app_info_zero (Server sample_store app_info_zero app_info_zero 0 0))
  = Ok (hs, [Reply 200 (B "OK") (line (B "UCMQ_HTTP_OK") ++ B "a")],
        server_of w' sample_conf l' (count_time 5 (count_get app_info_zero))
          (Server sample_store app_info_zero app_info_zero 0 0)) /\
  refines sample_conf w' q' (AQueue [] 10000 0 0) /\ same_but [(B "q", q)] (B "q") q' l'.
Proof.
  destruct sample_one as (w & q & Href & _ & Hb & _). exists w, q.
  apply (serve_get _ sample_evhttp sample_conf (sample_request "/?opt=get&name=q&ver=2") 0 5
    (sample_vars "/?opt=get&name=q&ver=2") (B "q") (AQueue [(1000, B "a")] 10000 0 0)
    w [(B "q", q)] q).
  - exact sample_conf_wf.
  - split; [exists (B "/?opt=get&name=q&ver=2"); split|]; vm_compute; reflexivity.
  - vm_compute. reflexivity.
  - vm_compute. reflexivity.
  - reflexivity.
  - exact Href.
  - destruct Hb. split; [lia|done].
Defined.

Lemma qname_check_confines_witness :
  (slash ∉ B "my_queue") /\ is_special_dir (B "my_queue") = false /\
  dirname (GEN_QUEUE_PATH_BY_QNAME sample_conf (B "my_queue")) = data_file_path sample_conf.
Proof.
  destruct (qname_check_confines sample_conf (B "my_queue")) as (H1 & H2 & H3 & _);
    [vm_compute; reflexivity|decide_it|by split_and!].
Defined.

(** A data path that fills its buffer leaves no room: the directory of every queue
    is then the data path itself. *)
Theorem long_data_path conf s :
  length (data_file_path conf) = 127%nat -> GEN_QUEUE_PATH_BY_QNAME conf s = data_file_path conf.
Proof.
  intros Hl. unfold GEN_QUEUE_PATH_BY_QNAME, snprintf, MAX_DATA_PATH_NAME_LEN.
  rewrite take_app_le by (rewrite Hl; simpl; lia). apply take_ge. rewrite Hl. simpl. lia.
Qed.


Lemma bad_number_faults_witness :
  let s := HState (Server sample_store app_info_zero app_info_zero 0 0)
             (Some (sample_vars "/?opt=delay&name=q&num=-5")) (Some []) [] [] in
  http_opt_delay s = Fault /\ (-5 <> -1 -> http_opt_wlock s = Fault /\ http_opt_synctime s = Fault).
Proof.
  apply (bad_number_faults _ sample_evhttp (sample_vars "/?opt=delay&name=q&num=-5")
    (Server sample_store app_info_zero app_info_zero 0 0) [] [] [] (B "q") (-5)); vm_compute; reflexivity.
Defined.

Lemma set_headers_safe_witness :
  exists hs', mq_evhttp_set_headers (sample_vars "/") (Some (B "text/plain")) (Some (B "utf-8")) 0
      (HState (Server sample_store app_info_zero app_info_zero 0 0) (Some (sample_vars "/")) (Some []) [] [])
    = Ok (tt, HState (Server sample_store app_info_zero app_info_zero 0 0) (Some (sample_vars "/"))
                (Some []) ([] ++ hs') []).
Proof.
  apply (set_headers_safe _ sample_evhttp (sample_vars "/") (B "text/plain") (Some (B "utf-8")) 0).
  left. reflexivity.
Defined.

Lemma serve_setting_witness : exists w q hs w' q' l',
  serve (sample_request "/?opt=readonly&name=q&num=60") 0 5
    (server_of w sample_conf [(B "q", q)] app_info_zero (Server sample_store app_info_zero app_info_zero 0 0))
  = Ok (hs, [Reply 200 (B "OK") (line (B "HTTPSQS_READONLY_OK"))],
        server_of w' sample_conf l' (count_time 5 app_info_zero)
          (Server sample_store app_info_zero app_info_zero 0 0)) /\
  refines sample_conf w' q' (AQueue [(1000, B "a")] 10000 0 1060) /\ same_but [(B "q", q)] (B "q") q' l'.
Proof.
  destruct sample_one as (w & q & Href & Hst & Hb & Hclk & _). exists w, q.
  pose proof (serve_setting _ sample_evhttp sample_conf (sample_request "/?opt=readonly&name=q&num=60") 0 5
    (sample_vars "/?opt=readonly&name=q&num=60") (B "q") "readonly" 60 (OpWlock 60) "HTTPSQS_READONLY_OK"
    (AQueue [(1000, B "a")] 10000 0 0) w [(B "q", q)] q app_info_zero
    (Server sample_store app_info_zero app_info_zero 0 0)) as H.
  rewrite Hclk in H. apply H.
  - exact sample_conf_wf.
  - exact Hst.
  - split; [exists (B "/?opt=readonly&name=q&num=60"); split|]; vm_compute; reflexivity.
  - vm_compute. reflexivity.
  - vm_compute. reflexivity.
  - vm_compute. reflexivity.
  - apply (set_readonly 60). vm_compute. split; discriminate.
  - reflexivity.
  - exact Href.
  - destruct Hb. split; [lia|done].
Defined.

Lemma sample_removable : removable sample_conf sample_qworld [(B "q", sample_queue)] (B "q") sample_queue.
Proof.
  split; [done|decide_it|decide_it|]. split.
  - split; decide_it.
  - split; decide_it.
  - decide_it.
  - decide_it.
Qed.

Lemma serve_remove_witness : exists hs w' l',
  serve (sample_request "/?opt=remove&name=q") 0 5 (sample_server app_info_zero)
  = Ok (hs, [Reply 200 (B "OK") (line (B "HTTPSQS_REMOVE_OK"))],
        server_of w' sample_conf l' (count_time 5 app_info_zero)
          (Server sample_store app_info_zero app_info_zero 0 0)) /\
  find_kv l' (B "q") = None /\ (forall k, k <> B "q" -> find_kv l' k = find_kv [(B "q", sample_queue)] k) /\
  w_dirs w' = w_dirs sample_qworld ∖ {[queue_dir sample_conf (B "q")]} /\
  forall p, w_names w' !! p
            = if bool_decide (dirname p = queue_dir sample_conf (B "q")) then None
              else w_names sample_qworld !! p.
Proof.
  apply (serve_remove _ sample_evhttp sample_conf (sample_request "/?opt=remove&name=q") 0 5
    (sample_vars "/?opt=remove&name=q") (B "q") sample_qworld [(B "q", sample_queue)] sample_queue).
  - split; [exists (B "/?opt=remove&name=q"); split|]; vm_compute; reflexivity.
  - vm_compute. reflexivity.
  - vm_compute. reflexivity.
  - exact sample_removable.
Defined.

Lemma serve_reset_witness : exists hs w' q' l',
  serve (sample_request "/?opt=reset&name=q") 0 5 (sample_server app_info_zero)
  = Ok (hs, [Reply 200 (B "OK") (line (B "HTTPSQS_RESET_OK"))],
        server_of w' sample_conf l' (count_time 5 app_info_zero)
          (Server sample_store app_info_zero app_info_zero 0 0)) /\
  refines sample_conf w' q' (AQueue [] 10000 0 0) /\ same_but [(B "q", sample_queue)] (B "q") q' l'.
Proof.
  apply (serve_reset _ sample_evhttp sample_conf (sample_request "/?opt=reset&name=q") 0 5
    (sample_vars "/?opt=reset&name=q") (B "q") sample_qworld [(B "q", sample_queue)] sample_queue).
  - exact sample_conf_wf.
  - exact sample_storage.
  - split; [exists (B "/?opt=reset&name=q"); split|]; vm_compute; reflexivity.
  - vm_compute. reflexivity.
  - vm_compute. reflexivity.
  - exact (inv_wf _ _ _ _ sample_inv).
  - reflexivity.
  - decide_it.
  - exact sample_removable.
  - vm_compute. discriminate.
Defined.
