(* ===== verification/Main.v ===== *)
(** * source/main.c, and the handlers of source/mq_evhttp.c

    The page "/exec", the handlers that libevent calls, the start of the server and
    its stop.  What libevent and the system answer at the start is the record [boot];
    the event loop is one of its fields, as its code is libevent's. *)
From S2P Require Import Prelude.
From S2P Require Import CLib.
From S2P Require Import World.
From S2P Require Import MqTypes.
From S2P Require Import MqUtil.
From S2P Require Import Ini.
From S2P Require Import MqConfig.
From S2P Require Import StoreManage.
From S2P Require Import QueueManage.
From S2P Require Import EvHttp.
From S2P Require Import HttpOpt.
From S2P Require Import HttpStat.

(** ** main.h: [ucmq_run_step_e] *)
Definition RUN_STEP_BEGIN : Z := 1.
Definition RUN_STEP_STORE_INIT : Z := 2.
Definition RUN_STEP_STORE_END : Z := 3.
Definition RUN_STEP_EVENT_INIT : Z := 4.
Definition RUN_STEP_HTTP_SERVER_CREATE : Z := 5.
Definition RUN_STEP_ADDR_PORT_BIND : Z := 6.
Definition RUN_STEP_PIPE_CREATE : Z := 7.
Definition RUN_STEP_EVENT_END : Z := 8.
Definition RUN_STEP_END : Z := 0.

Definition PATH_MAX : nat := 4096.

(** [read_conf_file()] on the global configuration of the server. *)
Definition reload : M store unit := fun st =>
  match read_conf_file (T := ini_t) (g_mq_conf st) (st_w st) with
  | Ok ((_, c), w) => Ok (tt, Store w c (g_mq_qlist st))
  | Fault => Fault
  | OutOfFuel => OutOfFuel
  end.

Section Main.
Context {KV : Type} `{Evhttp KV} `{Process}.
#[local] Abbreviation handler := (M (hstate KV)).

(** ** The page "/exec" *)

(** [show]: the text for the commands that only report success. *)
Definition exec_ok (cmd ip : bytes) (port : Z) : handler unit :=
  print (line (B "Exec cmd : " ++ cmd ++ B " from " ++ ip ++ B ":" ++ sdec port ++ B " ")) ;;;
  print (line (B "Exec cmd result : ok")).

Definition exec_get : handler unit :=
  let! file := find_header (B "file") in
  match file with
  | None => print (line (B "no files"))
  | Some file =>
      let path := snprintf (PATH_MAX - 1) (B "/proc/" ++ sdec getpid ++ B "/" ++ file) in
      let '(ok, buf) := proc_text path in
      if negb (ok : bool) then print (line buf) else print buf
  end.

(** What the handler writes to [pipe_fd[1]]; a peer that may not use the page is
    refused before the query is parsed. *)
Definition mq_evhttp_cb_do_exec (request : request KV) (ip : bytes) (port : Z) : handler bytes :=
  modify (set_out (Some [])) ;;;
  let! sv := gets h_server in
  let allow := allow_exec_ip (g_mq_conf (sv_store sv)) in
  if negb (strcmp allow ip =? 0) && negb (str_to_ll (Some allow) =? 0) then
    print (line (B "You can not exec cmd from " ++ ip ++ B " ")) ;;;
    evhttp_send_reply 401 (B "Unauthorized") ;;;
    modify (set_out None) ;;;
    ret []
  else
    (match rq_uri request with
     | None => ret tt
     | Some request_uri => modify (set_vars (Some (evhttp_parse_query request_uri).1))
     end) ;;;
    let! cmd := find_header (B "cmd") in
    match cmd with
    | None =>
        print (line (B "You can not find exec cmd ")) ;;;
        mq_evhttp_ret_send HTTP_BADREQUEST (B "Unknown cmd") ;;;
        ret []
    | Some cmd =>
        let! charset := find_header (B "charset") in
        mq_evhttp_set_headers (rq_headers request) (Some (B "text/plain")) charset 1 ;;;
        let! written :=
          if strcmp cmd (B "kill") =? 0 then
            on_store mq_qm_sync_store ;;; exec_ok cmd ip port ;;; ret (B "kill by remote request")
          else if strcmp cmd (B "reload") =? 0 then
            on_store reload ;;; exec_ok cmd ip port ;;; ret []
          else if strcmp cmd (B "get") =? 0 then exec_get ;;; ret []
          else print (line (B "Unknown cmd : " ++ cmd)) ;;; ret [] in
        mq_evhttp_ret_send HTTP_OK (B "OK") ;;;
        ret written
    end.

(** ** The handlers *)

(** What libevent calls: a request for a path, a timer that is due, and the exit
    pipe that can be read. *)
Inductive event :=
| EvRequest (path : bytes) (r : request KV) (ip : bytes) (port tm_start tm_end : Z)
| EvSync
| EvDump
| EvPipe.

Record process := Proc {
  p_server : server;
  p_pipe : bytes;                   (* written to the pipe and not yet read *)
  p_exit : bool;                    (* event_base_loopexit was called *)
  p_replies : list (list reply)     (* the answers to each request *)
}.
Definition with_server sv p := Proc sv (p_pipe p) (p_exit p) (p_replies p).

(** A request that is handled to its end. *)
Definition handle_request (m : handler bytes) : M process unit := fun p =>
  match m (HState (p_server p) None None [] []) with
  | Ok (written, s) =>
      Ok (tt, Proc (h_server s) (p_pipe p ++ written) (p_exit p) (p_replies p ++ [h_replies s]))
  | Fault => Fault
  | OutOfFuel => OutOfFuel
  end.
Definition on_server {A} (m : M server A) : M process A := fun p =>
  match m (p_server p) with
  | Ok (a, sv) => Ok (a, with_server sv p)
  | Fault => Fault
  | OutOfFuel => OutOfFuel
  end.

(** The callbacks that [mq_http_init] sets for the paths. *)
Definition do_request (path : bytes) (r : request KV) (ip : bytes) (port tm_start tm_end : Z) : handler bytes :=
  if bool_decide (path = B "/stat") then mq_evhttp_cb_do_view_stat r ;;; ret []
  else if bool_decide (path = B "/exec") then mq_evhttp_cb_do_exec r ip port
  else mq_evhttp_cb_do_opt_entry r tm_start tm_end ;;; ret [].

(** The handler of the signals, when it does not interrupt another handler. *)
Definition exec_safe_exit : M process unit :=
  on_server (sv_store_op mq_qm_sync_store) ;;;
  modify (fun p => Proc (p_server p) (p_pipe p ++ B "exec_safe_exit") (p_exit p) (p_replies p)).

(** At most 1023 characters are read at once; an empty pipe is not readable. *)
Definition mq_evhttp_cb_do_write_pipe : M process unit :=
  modify (fun p => match p_pipe p with
                   | [] => p
                   | _ => Proc (p_server p) (drop 1023 (p_pipe p)) true (p_replies p)
                   end).

Definition handle_event (e : event) : M process unit :=
  match e with
  | EvRequest path r ip port t0 t1 => handle_request (do_request path r ip port t0 t1)
  | EvSync => let! _ := on_server mq_evhttp_cb_do_sync in ret tt
  | EvDump => let! _ := on_server mq_evhttp_cb_do_dump in ret tt
  | EvPipe => mq_evhttp_cb_do_write_pipe
  end.

(** ** Start and stop *)

(** What libevent and the system answer while the server starts and runs: the rest
    of the buffer the process number is printed into, and event_base_dispatch, which
    calls the handlers in any order and gives a result. *)
Record boot := Boot {
  b_event_init : bool;
  b_evhttp_new : bool;
  b_bind : bytes -> Z -> bool;
  b_pipe : bool;
  b_pid_rest : bytes;
  b_dispatch : M process Z
}.

Definition mq_http_init (b : boot) (conf : ucmq_conf) : Z :=
  if negb (b_event_init b) then RUN_STEP_EVENT_INIT
  else if negb (b_evhttp_new b) then RUN_STEP_HTTP_SERVER_CREATE
  else if negb (b_bind b (http_listen_addr conf) (u16 (http_listen_port conf))) then RUN_STEP_ADDR_PORT_BIND
  else if negb (b_pipe b) then RUN_STEP_PIPE_CREATE
  else RUN_STEP_EVENT_END.

Definition on_store_of {A} (m : M store A) : M process A := on_server (sv_store_op m).

Definition mq_http_start (b : boot) : M process Z := b_dispatch b.

(** All sixteen bytes of the buffer are written. *)
Definition write_process_id (b : boot) : M process unit :=
  let! conf := on_store_of (gets g_mq_conf) in
  on_store_of (os (sys_unlink (pid_file conf))) ;;;
  let! p_fd := on_store_of (os (sys_open (pid_file conf) true false true)) in
  if 0 <? p_fd then
    let! _ := on_store_of (os (sys_write p_fd (take 16 (sdec getpid ++ [0] ++ b_pid_rest b)))) in
    on_store_of (os (sys_close p_fd))
  else ret tt.

Definition mq_init_store : M process Z :=
  modify (fun p => with_server (with_last_info app_info_zero (with_info app_info_zero (p_server p))) p) ;;;
  let! ok := on_store_of mq_qm_open_store in
  if negb (ok : bool) then ret RUN_STEP_STORE_INIT
  else
    let! count := on_store_of mq_qm_get_store_count in
    modify (fun p =>
      let i := g_info (p_server p) in
      with_server (with_info (AppInfo (i_put i) (i_get i) (i_times i) (i_total_time i) (i_max_time i)
                                count (i_put_size i)) (p_server p)) p) ;;;
    ret RUN_STEP_STORE_END.

Definition mq_store_destroy : M process unit :=
  let! _ := on_store_of mq_qm_close_store in ret tt.
Definition mq_http_stop : M process unit :=
  let! conf := on_store_of (gets g_mq_conf) in
  on_store_of (os (sys_unlink (pid_file conf))).

Definition main_entrance (b : boot) : M process Z :=
  let! exit_code := mq_init_store in
  if negb (exit_code =? RUN_STEP_STORE_END) then ret exit_code
  else
    let! conf := on_store_of (gets g_mq_conf) in
    let exit_code := mq_http_init b conf in
    if negb (exit_code =? RUN_STEP_EVENT_END) then mq_store_destroy ;;; ret exit_code
    else
      write_process_id b ;;;
      let! ret_code := mq_http_start b in
      mq_store_destroy ;;;
      mq_http_stop ;;;
      ret (if ret_code =? 0 then exit_code else RUN_STEP_END).

(** ** The command line *)
Inductive option_char := OptConfig (path : bytes) | OptDaemon | OptVersion | OptHelp.

(** The options in order: the configuration and whether to run as a daemon, or
    [None] when the program only prints something and returns 0. *)
Fixpoint parse_args (args : list option_char) (c : ucmq_conf) (daemon : bool) : option (ucmq_conf * bool) :=
  match args with
  | [] => Some (c, daemon)
  | OptConfig path :: args => parse_args args (with_conf_file path c) daemon
  | OptDaemon :: args => parse_args args c true
  | OptVersion :: _ | OptHelp :: _ => None
  end.

Definition log_level_of (level : bytes) : Z :=
  if strcmp level (B "TRACE") =? 0 then 0
  else if strcmp level (B "DEBUG") =? 0 then 10
  else if strcmp level (B "INFO") =? 0 then 100
  else if strcmp level (B "WARN") =? 0 then 1000
  else if strcmp level (B "ERROR") =? 0 then 10000
  else if strcmp level (B "FATAL") =? 0 then 65535
  else 100.

(** The result of the process, its log level, and the state it ends in; the
    daemon is the grandchild, whose parents exit with 0. *)
Definition main (args : list option_char) (b : boot) (w : world) : outcome (Z * option Z * world) :=
  match parse_args args g_mq_conf_init false with
  | None => Ok (0, None, w)
  | Some (c, _) =>
      match read_conf_file (T := ini_t) c w with
      | Ok ((false, _), w) => Ok (1, None, w)
      | Ok ((true, c), w) =>
          match main_entrance b (Proc (Server (Store w c []) app_info_zero app_info_zero 0 0) [] false []) with
          | Ok (code, p) =>
              Ok (code, Some (log_level_of (output_log_level c)), st_w (sv_store (p_server p)))
          | Fault => Fault
          | OutOfFuel => OutOfFuel
          end
      | Fault => Fault
      | OutOfFuel => OutOfFuel
      end
  end.
End Main.
Arguments event : clear implicits.
