(* ===== verification/MainSpec.v ===== *)
(** * What the process does

    A request to stop is not lost, whatever handlers run after it; whatever
    happens while the server starts and runs, its end leaves no queue open, its
    result says how far it came, and the process file of the configuration is
    gone; the page "/exec" refuses a peer that is not allowed; and what reading
    the configuration again does to the mapped files. *)
From S2P Require Import Prelude.
From S2P Require Import CLib.
From S2P Require Import World.
From S2P Require Import Crc16.
From S2P Require Import MqTypes.
From S2P Require Import MqUtil.
From S2P Require Import MsgFormat.
From S2P Require Import Ini.
From S2P Require Import MqConfig.
From S2P Require Import StorePath.
From S2P Require Import StoreManage.
From S2P Require Import QueueManage.
From S2P Require Import StoreInv.
From S2P Require Import Fifo.
From S2P Require Import Restart.
From S2P Require Import EvHttp.
From S2P Require Import HttpOpt.
From S2P Require Import HttpStat.
From S2P Require Import Main.

(** ** Requests to stop *)
Section Stopping.
Context {KV : Type} `{Evhttp KV} `{Process}.

(** The process has been told to stop: the exit pipe can be read, or has been. *)
Definition stopping (p : process) : Prop := p_pipe p <> [] \/ p_exit p = true.

Lemma handle_request_keeps (m : M (hstate KV) bytes) p p' : handle_request m p = Ok (tt, p') ->
  p_exit p' = p_exit p /\ exists written, p_pipe p' = p_pipe p ++ written.
Proof using.
  unfold handle_request. destruct (m _) as [[written s]| |]; [|done..]. intros [= <-]. by split; [|exists written].
Qed.
Lemma on_server_keeps {A} (m : M server A) (a : A) p p' : on_server m p = Ok (a, p') ->
  p_exit p' = p_exit p /\ p_pipe p' = p_pipe p.
Proof using. unfold on_server. destruct (m _) as [[x sv]| |]; [|done..]. by intros [= _ <-]. Qed.

(** No event undoes a stop. *)
Lemma handle_event_keeps (e : event KV) p p' : handle_event e p = Ok (tt, p') ->
  (p_exit p = true -> p_exit p' = true) /\ (stopping p -> stopping p').
Proof using.
  assert (p_exit p' = p_exit p -> (exists written, p_pipe p' = p_pipe p ++ written) ->
    (p_exit p = true -> p_exit p' = true) /\ (stopping p -> stopping p')) as Hsame.
  { intros He [written Hw]. unfold stopping. rewrite He, Hw. split; [done|].
    intros [Hp|]; [left|by right]. intros E. by apply app_eq_nil in E as [? _]. }
  destruct e as [path r ip port t0 t1| | |]; cbn [handle_event].
  - intros E. apply handle_request_keeps in E as [He Hw]. by apply Hsame.
  - intros (x & p1 & E & [= <-])%bind_inv. apply on_server_keeps in E as [He Hw].
    apply Hsame; [done|]. exists []. by rewrite Hw, app_nil_r.
  - intros (x & p1 & E & [= <-])%bind_inv. apply on_server_keeps in E as [He Hw].
    apply Hsame; [done|]. exists []. by rewrite Hw, app_nil_r.
  - intros [= <-]. unfold stopping. destruct p as [sv [|c l] ex rs]; cbn; [done|]. split; [done|by right].
Qed.

(** The handlers that libevent calls, one after the other. *)
Fixpoint run_handlers (evs : list (event KV)) : M process unit :=
  match evs with
  | [] => ret tt
  | e :: evs => handle_event e ;;; run_handlers evs
  end.
Lemma run_handlers_keep evs : forall p p', run_handlers evs p = Ok (tt, p') ->
  (p_exit p = true -> p_exit p' = true) /\ (stopping p -> stopping p').
Proof using.
  induction evs as [|e evs IH]; intros p p'; cbn [run_handlers]; [by intros [= <-]|].
  intros ([] & p1 & [He Hs]%handle_event_keeps & [He' Hs']%IH)%bind_inv. auto.
Qed.

(** A request to stop is not lost: once the handler of the signal has run to its
    end, then after any handlers the exit pipe can be read or the end of the loop
    has been asked for; and the handler of the pipe asks for it. *)
Theorem stop_not_lost evs p p1 p2 :
  exec_safe_exit p = Ok (tt, p1) -> run_handlers evs p1 = Ok (tt, p2) ->
  stopping p2 /\ exists p3, handle_event (KV := KV) EvPipe p2 = Ok (tt, p3) /\ p_exit p3 = true.
Proof using.
  intros (x & p0 & _ & [= <-])%bind_inv [_ Hs]%run_handlers_keep.
  assert (stopping p2) as Hp. { apply Hs. left. cbn. by destruct (p_pipe p0). }
  split; [done|]. eexists. split; [reflexivity|]. destruct Hp as [Hp|Hp]; [|by destruct (p_pipe p2)].
  by destruct (p_pipe p2).
Qed.
End Stopping.

(** ** Start and stop *)
Section Stop.
Context {KV : Type} `{Evhttp KV} `{Process}.

Definition queues_of (p : process) : qlist := g_mq_qlist (sv_store (p_server p)).
Definition world_of (p : process) : world := st_w (sv_store (p_server p)).
Definition conf_of_server (p : process) : ucmq_conf := g_mq_conf (sv_store (p_server p)).

Lemma on_store_of_inv {A} (m : M store A) (a : A) p p' : on_store_of m p = Ok (a, p') ->
  exists st, m (sv_store (p_server p)) = Ok (a, st) /\ sv_store (p_server p') = st.
Proof using.
  unfold on_store_of, on_server, sv_store_op. destruct (m _) as [[x st]| |]; [|done..].
  intros [= -> <-]. by exists st.
Qed.

(** The start does not change the configuration. *)
Abbreviation keeps_conf c := (maintains (fun s => g_mq_conf s = c)).
Lemma kc_os {A} c (m : M world A) : keeps_conf c (os m) anything.
Proof using. intros s a s' Hc. unfold os. destruct (m _) as [[x w]| |]; [|done..]. by intros [= _ <-]. Qed.
Lemma kc_local {A} c q (m : ucmq_conf -> M qstate A) : keeps_conf c (on_local q m) anything.
Proof using.
  intros s a s' Hc. unfold on_local. destruct (m _ _) as [[x [w q1]]| |]; [|done..]. by intros [= _ <-].
Qed.
Lemma kc_queue {A} c key (m : ucmq_conf -> M qstate A) : keeps_conf c (on_queue key m) anything.
Proof using.
  intros s a s' Hc. unfold on_queue. destruct (find_kv _ _); [|done].
  destruct (m _ _) as [[x [w q1]]| |]; [|done..]. by intros [= _ <-].
Qed.
Lemma kc_gets {A} c (f : store -> A) : keeps_conf c (gets f) anything.
Proof using. by apply mt_gets. Qed.
#[local] Hint Resolve kc_os kc_local kc_queue kc_gets : maintain.
Lemma kc_add c qn q : keeps_conf c (hash_add_queue_kv qn q) anything.
Proof using.
  assert (keeps_conf c (modify (fun s => set_qlist (g_mq_qlist s ++ [(qn, q)]) s)) anything) by by apply mt_modify.
  unfold hash_add_queue_kv, hash_add_node. maintain.
Qed.
#[local] Hint Resolve kc_add : maintain.
Lemma kc_open c : keeps_conf c mq_qm_open_store anything.
Proof using.
  assert (forall name, keeps_conf c (open_one name) anything) by (intros name; unfold open_one; maintain).
  assert (forall ents, keeps_conf c (open_entries ents) anything).
  { induction ents as [|ent ents IH]; cbn [open_entries]; maintain. }
  unfold mq_qm_open_store. maintain.
Qed.
Lemma kc_count c : keeps_conf c mq_qm_get_store_count anything.
Proof using.
  assert (forall keys n, keeps_conf c (count_each keys n) anything).
  { induction keys as [|key keys IH]; intros n; cbn [count_each]; maintain. }
  unfold mq_qm_get_store_count. maintain.
Qed.

Abbreviation process_keeps c := (maintains (fun p => conf_of_server p = c)).
Lemma pk_store {A} c (m : M store A) Q : keeps_conf c m Q -> process_keeps c (on_store_of m) Q.
Proof using.
  intros Hm p a p' Hc (st & E & Es)%on_store_of_inv. unfold conf_of_server. rewrite Es.
  by apply (Hm (sv_store (p_server p)) a st).
Qed.
#[local] Hint Resolve pk_store kc_open kc_count : maintain.
Lemma init_store_conf c : process_keeps c mq_init_store anything.
Proof using.
  assert (forall f : process -> process, (forall p, conf_of_server (f p) = conf_of_server p) ->
    process_keeps c (modify f) anything) as Hm.
  { intros f Hf. apply mt_modify. intros p. by rewrite Hf. }
  unfold mq_init_store. apply mt_then; [by apply Hm|intros _]. apply mt_then; [maintain|intros ok].
  destruct ok; cbn [negb]; [|by apply mt_ret]. apply mt_then; [maintain|intros n].
  apply mt_then; [by apply Hm|intros _]. by apply mt_ret.
Qed.
Lemma write_pid_conf b c : process_keeps c (write_process_id b) anything.
Proof using. unfold write_process_id. maintain. Qed.

Lemma open_store_false s s' : mq_qm_open_store s = Ok (false, s') -> g_mq_qlist s' = g_mq_qlist s.
Proof using.
  assert (forall A (m : M world A) a s s', os m s = Ok (a, s') -> g_mq_qlist s' = g_mq_qlist s) as Hos.
  { intros A m a s0 s1. unfold os. destruct (m _) as [[x w]| |]; [|done..]. by intros [= _ <-]. }
  unfold mq_qm_open_store. intros (conf & s1 & [= <- <-] & E)%bind_inv.
  apply bind_inv in E as (ok & s2 & E2%Hos & E). destruct ok; cbn [negb] in E; [|by injection E as <-].
  apply bind_inv in E as (ents & s3 & E3%Hos & E). destruct ents as [ents|]; cycle 1.
  { injection E as <-. congruence. }
  by apply bind_inv in E as (u & s4 & _ & [=]).
Qed.

Lemma init_store_inv p code p' : mq_init_store p = Ok (code, p') ->
  (code = RUN_STEP_STORE_END /\ exists st, mq_qm_open_store (sv_store (p_server p)) = Ok (true, st)) \/
  (code = RUN_STEP_STORE_INIT /\ queues_of p' = queues_of p /\
   mq_qm_open_store (sv_store (p_server p)) = Ok (false, sv_store (p_server p'))).
Proof using.
  unfold mq_init_store. intros (u & p1 & [= _ <-] & E)%bind_inv.
  apply bind_inv in E as (ok & p2 & E2 & E). apply on_store_of_inv in E2 as (st & E2 & Es).
  destruct ok; cbn [negb] in E.
  - left. apply bind_inv in E as (count & p3 & _ & E). apply bind_inv in E as (u1 & p4 & _ & [= <- _]).
    split; [done|]. by exists st.
  - right. injection E as <- <-. split; [done|]. unfold queues_of. rewrite Es. split; [|exact E2].
    apply open_store_false in E2. exact E2.
Qed.

Lemma store_destroy_run p : exists p', mq_store_destroy p = Ok (tt, p') /\ queues_of p' = [] /\
  conf_of_server p' = conf_of_server p.
Proof using.
  unfold mq_store_destroy, on_store_of, on_server, sv_store_op, queues_of, conf_of_server.
  destruct (p_server p) as [[w c l] gi gl ls nd] eqn:Ep. destruct (close_store_run w c l) as (w' & E & _).
  unfold bind. rewrite Ep. cbn [sv_store]. rewrite E. eexists. split; [reflexivity|]. done.
Qed.
Lemma http_stop_run p : exists p', mq_http_stop p = Ok (tt, p') /\ queues_of p' = queues_of p /\
  conf_of_server p' = conf_of_server p /\ w_names (world_of p') !! pid_file (conf_of_server p) = None.
Proof using.
  eexists. split; [reflexivity|]. split_and!; [done..|]. unfold world_of, conf_of_server. cbn. apply lookup_delete_eq.
Qed.
End Stop.

(** ** The properties *)

(** C28: the end of the server, on every branch.  No queue is left open, and the
    result says how far the start came: the store could not be opened; or libevent,
    the address or the pipe failed, as [mq_http_init] reports for the
    configuration the server started with; or the event loop ran and gave [rc],
    which decides the result.  In this last case the configuration is the one the
    loop left, and the process file that it names is gone. *)
Theorem main_entrance_end `{Process} (b : boot) p code p' :
  let conf := conf_of_server p in
  let opened := mq_qm_open_store (sv_store (p_server p)) in
  queues_of p = [] -> main_entrance b p = Ok (code, p') ->
  queues_of p' = [] /\
  ((code = RUN_STEP_STORE_INIT /\ opened = Ok (false, sv_store (p_server p'))) \/
   ((exists st, opened = Ok (true, st)) /\ mq_http_init b conf <> RUN_STEP_EVENT_END /\ code = mq_http_init b conf) \/
   ((exists st, opened = Ok (true, st)) /\ mq_http_init b conf = RUN_STEP_EVENT_END /\
    exists p1 rc p2, conf_of_server p1 = conf /\ b_dispatch b p1 = Ok (rc, p2) /\
      code = (if rc =? 0 then RUN_STEP_EVENT_END else RUN_STEP_END) /\
      conf_of_server p' = conf_of_server p2 /\
      w_names (world_of p') !! pid_file (conf_of_server p') = None)).
Proof.
  intros conf opened Hp. unfold main_entrance. intros (c1 & p1 & E1 & E)%bind_inv.
  destruct (init_store_conf conf _ _ _ eq_refl E1) as [Hc1 _].
  apply init_store_inv in E1 as [[-> Hopen]|(-> & Hq & Hopen)]; cycle 1.
  { cbn in E. injection E as <- <-. split; [congruence|]. by left. }
  rewrite Z.eqb_refl in E. cbn [negb] in E. apply bind_inv in E as (conf1 & p2 & Ec & E).
  injection Ec as <- <-. change (g_mq_conf _) with (conf_of_server p1) in E. rewrite Hc1 in E. cbv zeta in E.
  destruct (Z.eqb_spec (mq_http_init b conf) RUN_STEP_EVENT_END) as [Hi|Hi]; cbn [negb] in E.
  - apply bind_inv in E as (u & p3 & E3 & E). destruct (write_pid_conf b conf _ _ _ Hc1 E3) as [Hc3 _].
    apply bind_inv in E as (rc & p4 & E4 & E).
    destruct (store_destroy_run p4) as (p5 & E5 & Hq5 & Hc5). erewrite bind_ok in E by exact E5.
    destruct (http_stop_run p5) as (p6 & E6 & Hq6 & Hc6 & Hn). erewrite bind_ok in E by exact E6.
    injection E as <- <-. split; [congruence|]. right. right. split_and!; [done..|].
    exists p3, rc, p4. rewrite Hc6. split_and!; [done|done|by rewrite Hi|done|done].
  - destruct (store_destroy_run p1) as (p3 & E3 & Hq3 & _). erewrite bind_ok in E by exact E3.
    injection E as <- <-. split; [done|]. right. left. by split_and!.
Qed.

(** C40: a peer whose address is not the configured one cannot use "/exec", unless
    the configured address is the number 0: the request is answered with 401 and
    changes neither the queues, nor the configuration, nor the exit pipe. *)
Theorem exec_refused {KV} `{Evhttp KV} `{Process} (r : request KV) ip port t0 t1 p :
  let allow := allow_exec_ip (conf_of_server p) in
  strcmp allow ip <> 0 -> str_to_ll (Some allow) <> 0 ->
  handle_event (EvRequest (B "/exec") r ip port t0 t1) p =
  Ok (tt, Proc (p_server p) (p_pipe p) (p_exit p)
            (p_replies p ++ [[Reply 401 (B "Unauthorized")
                                (line (B "You can not exec cmd from " ++ ip ++ B " "))]])).
Proof.
  intros allow Hip Hn. cbn [handle_event]. unfold handle_request, do_request.
  rewrite bool_decide_false by done. rewrite bool_decide_true by done.
  unfold mq_evhttp_cb_do_exec. erewrite bind_ok by reflexivity. erewrite bind_ok by reflexivity.
  change (allow_exec_ip _) with allow.
  rewrite (proj2 (Z.eqb_neq (strcmp allow ip) 0)), (proj2 (Z.eqb_neq (str_to_ll (Some allow)) 0)) by done.
  cbn. by rewrite app_nil_r.
Qed.

(** Storing past the end of a mapping is a fault. *)
Lemma copy_step w addr len d p bs :
  mapped w addr len d -> (forall m f, map_file w addr = Some (m, f) -> m_len m = len) -> 0 <= p ->
  copy_to addr p bs w = Fault \/
  (p + Z.of_nat (length bs) <= len /\ exists w' d', copy_to addr p bs w = Ok (p + Z.of_nat (length bs), w') /\
     mapped w' addr len d' /\ (forall m f, map_file w' addr = Some (m, f) -> m_len m = len)).
Proof.
  intros (m & f & Hm & Hl & Hf & Hd) Hlen Hp. unfold copy_to, bind, mem_store. rewrite Hm.
  destruct (in_map m f p (Z.of_nat (length bs))) eqn:Ei; [right|by left].
  unfold in_map in Ei. rewrite !andb_true_iff, !Z.leb_le in Ei. specialize (Hlen m f Hm).
  split; [lia|]. eexists _, _. split; [reflexivity|].
  unfold map_file in *. destruct (w_maps w !! addr) as [m'|] eqn:Em; [|done].
  destruct (w_inodes w !! m_ino m') as [f'|] eqn:Ef; [|done]. injection Hm as -> ->.
  assert (forall g, match w_maps (set_inodes (<[m_ino m := g]> (w_inodes w)) w) !! addr with
    | Some m0 => match w_inodes (set_inodes (<[m_ino m := g]> (w_inodes w)) w) !! m_ino m0 with
                 | Some f0 => Some (m0, f0) | None => None end
    | None => None end = Some (m, g)) as Hnew.
  { intros g. cbn. rewrite Em. by rewrite lookup_insert_eq. }
  split.
  - eexists m, _. unfold map_file. split; [apply Hnew|]. cbn. by split_and!.
  - intros m0 f0. rewrite Hnew. by intros [= <- _].
Qed.

(** Writing a message with the greater limit [conf'] into a file that is mapped up
    to the limit of [conf]. *)
Lemma write_outside conf conf' w q ino d item body :
  conf_wf conf' -> db_handle conf w q (cur_wdb q) ino d ->
  0 <= pos (cur_wdb q) -> msg item = PBuf body -> mlen item = Z.of_nat (length body) ->
  MAX_DB_FILE_SIZE conf < pos (cur_wdb q) + MSG_HEAD_LEN + mlen item <= MAX_DB_FILE_SIZE conf' ->
  mq_sm_db_write_msg conf' item (QState w q) = Fault.
Proof.
  intros Hc ((_ & Hi & _) & Hm & _) Hp Hmsg Hlen Hfit. pose proof (MAX_DB_FILE_SIZE_range conf' Hc).
  unfold MSG_HEAD_LEN in Hfit. unfold mq_sm_db_write_msg. rewrite run_queue.
  rewrite (u32_small (pos (cur_wdb q) + mlen item)), !u32_small by (unfold MSG_HEAD_LEN; lia).
  rewrite (proj2 (Z.ltb_ge _ _)) by (unfold MSG_HEAD_LEN; lia).
  erewrite bind_ok by reflexivity. cbn [negb]. rewrite run_queue. cbv zeta.
  assert (mapped w (map_mem (cur_wdb q)) (MAX_DB_FILE_SIZE conf) d) as Hmap.
  { exists (Mapping ino (MAX_DB_FILE_SIZE conf)), (File (MAX_DB_FILE_SIZE conf) d).
    unfold map_file. rewrite Hm. cbn. rewrite Hi. done. }
  assert (forall m f, map_file w (map_mem (cur_wdb q)) = Some (m, f) -> m_len m = MAX_DB_FILE_SIZE conf) as Hml.
  { intros m f. unfold map_file. rewrite Hm. cbn. rewrite Hi. by intros [= <- _]. }
  assert (forall bs (k : Z -> M qstate bool) w p d,
    mapped w (map_mem (cur_wdb q)) (MAX_DB_FILE_SIZE conf) d ->
    (forall m f, map_file w (map_mem (cur_wdb q)) = Some (m, f) -> m_len m = MAX_DB_FILE_SIZE conf) -> 0 <= p ->
    (forall w' d', mapped w' (map_mem (cur_wdb q)) (MAX_DB_FILE_SIZE conf) d' ->
      (forall m f, map_file w' (map_mem (cur_wdb q)) = Some (m, f) -> m_len m = MAX_DB_FILE_SIZE conf) ->
      p + Z.of_nat (length bs) <= MAX_DB_FILE_SIZE conf -> k (p + Z.of_nat (length bs)) (QState w' q) = Fault) ->
    (let! x := sys (copy_to (map_mem (cur_wdb q)) p bs) in k x) (QState w q) = Fault) as Hstep.
  { clear. intros bs k w p d Hmap Hml Hp Hk. unfold bind, sys. cbn [qs_w qs_q].
    destruct (copy_step w (map_mem (cur_wdb q)) _ d p bs Hmap Hml Hp) as [->|(Hl & w' & d' & -> & Hm' & Hml')];
      [done|]. by eapply Hk. }
  clear Hi Hm.
  do 5 (eapply Hstep; [eassumption|eassumption|lia|]; clear w d Hmap Hml; intros w d Hmap Hml ?).
  erewrite run_sys; cycle 1.
  { rewrite Hmsg, Hlen. cbn [load_ptr]. rewrite !(proj2 (Z.leb_le _ _)) by lia. reflexivity. }
  rewrite Nat2Z.id, firstn_all.
  eapply Hstep; [eassumption|eassumption|lia|]. intros w' d' _ _ Hlast.
  rewrite ?length_le_bytes in Hlast. cbn [length] in Hlast. lia.
Qed.

Lemma build_crc item body w : msg item = PBuf body -> mlen item = Z.of_nat (length body) ->
  mlen item <= INT_MAX ->
  mq_sm_db_build_msg_crc16 (msg item) (i32 (mlen item)) w = Ok (Some (crc16_append body), w).
Proof.
  intros Hb Hl Hm. unfold INT_MAX in Hm. unfold mq_sm_db_build_msg_crc16. rewrite Hb, i32_small by lia.
  rewrite (proj2 (Z.ltb_ge _ 0)) by lia. cbn [orb load_ptr]. rewrite !(proj2 (Z.leb_le _ _)) by lia.
  cbn [andb]. by rewrite Hl, Nat2Z.id, firstn_all.
Qed.

(** A message that fits below both limits is written in the same way. *)
Lemma write_same conf conf' item w q :
  0 <= pos (cur_wdb q) -> 0 <= mlen item ->
  pos (cur_wdb q) + MSG_HEAD_LEN + mlen item <= MAX_DB_FILE_SIZE conf ->
  pos (cur_wdb q) + MSG_HEAD_LEN + mlen item <= MAX_DB_FILE_SIZE conf' ->
  mq_sm_db_write_msg conf' item (QState w q) = mq_sm_db_write_msg conf item (QState w q).
Proof.
  intros Hp Hl H1 H2. unfold MSG_HEAD_LEN in *.
  assert (forall c, MAX_DB_FILE_SIZE c < 2147483648) as Hmax.
  { intros c. unfold MAX_DB_FILE_SIZE. apply i32_range. }
  pose proof (Hmax conf). pose proof (Hmax conf').
  unfold mq_sm_db_write_msg. rewrite !run_queue. unfold MSG_HEAD_LEN.
  rewrite (u32_small (pos (cur_wdb q) + mlen item)), !u32_small by lia.
  by rewrite !(proj2 (Z.ltb_ge _ _)) by lia.
Qed.

(** C34: the size of the data files must not grow while the server runs.  When
    "/exec?cmd=reload" has read a configuration with another db_file_max_size, the
    file that a queue writes to stays mapped with the old size.  A put of a message
    that ends behind the old size and fits in the new one then writes outside the
    mapping; a message that fits in both is stored as before the reload. *)
Theorem reload_breaks_mapping st conf' key q ino d item body :
  read_conf_file (T := ini_t) (g_mq_conf st) (st_w st) = Ok ((true, conf'), st_w st) -> conf_wf conf' ->
  find_kv (g_mq_qlist st) key = Some q -> db_handle (g_mq_conf st) (st_w st) q (cur_wdb q) ino d ->
  0 <= pos (cur_wdb q) -> msg item = PBuf body -> mlen item = Z.of_nat (length body) ->
  queue_full q = false -> write_locked q (now_of (st_w st)) = false ->
  let last := pos (cur_wdb q) + MSG_HEAD_LEN + mlen item in
  exists st', reload st = Ok (tt, st') /\ find_kv (g_mq_qlist st') key = Some q /\
  (MAX_DB_FILE_SIZE (g_mq_conf st) < last <= MAX_DB_FILE_SIZE conf' ->
   on_queue key (fun conf => mq_qm_push_item conf item) st' = Fault) /\
  (last <= MAX_DB_FILE_SIZE (g_mq_conf st) -> last <= MAX_DB_FILE_SIZE conf' ->
   mq_sm_put_data (g_mq_conf st') item (QState (st_w st') q)
   = mq_sm_put_data (g_mq_conf st) item (QState (st_w st) q)).
Proof.
  intros Hread Hc Hq Hh Hp Hb Hl Hfull Hlock last. destruct st as [w conf l].
  cbn [st_w g_mq_conf g_mq_qlist] in *. exists (Store w conf' l).
  pose proof (MAX_DB_FILE_SIZE_range conf' Hc). unfold MSG_HEAD_LEN in last.
  split_and!; [unfold reload; cbn [st_w g_mq_conf g_mq_qlist]; by rewrite Hread|done|..].
  - intros Hfit. unfold on_queue. cbn [st_w g_mq_conf g_mq_qlist]. rewrite Hq.
    unfold mq_qm_push_item. cbv zeta. rewrite run_queue, Hfull. erewrite run_sys by reflexivity. cbv zeta.
    change (u32 (i32 _)) with (now_of w). rewrite Hlock. unfold bind at 1, mq_sm_put_data. erewrite run_sys; cycle 1.
    { apply build_crc; [exact Hb|exact Hl|]. cbn. unfold INT_MAX. lia. }
    unfold bind at 1. by rewrite (write_outside conf conf' w q ino d _ body).
  - intros H1 H2. cbn [st_w g_mq_conf]. unfold mq_sm_put_data.
    erewrite !run_sys by (apply build_crc; [exact Hb|exact Hl|unfold INT_MAX; lia]).
    unfold bind. by rewrite (write_same conf conf') by (unfold MSG_HEAD_LEN; cbn; lia).
Qed.

(** ** Witnesses *)
#[local] Instance plain_evhttp : Evhttp unit := {
  evhttp_find_header := fun _ _ => None;
  evhttp_parse_query := fun _ => (tt, true);
  evhttp_header_valid := fun _ _ => true;
  version_text := B "1"
}.
#[local] Instance plain_process : Process := {
  getpid := 7; proc_text := fun _ => (true, B "0"); nan_text := B "nan"
}.
Definition sample_proc : process :=
  Proc (Server (Store (sample_world 0 ∅) sample_conf []) app_info_zero app_info_zero 0 0) [] false [].
(** An event loop that calls three handlers and ends with 0. *)
Definition sample_boot : boot :=
  Boot true true (fun _ _ => true) true []
    (run_handlers (KV := unit) [EvDump; EvSync; EvPipe] ;;; ret 0).

Lemma main_entrance_end_witness : exists p', main_entrance sample_boot sample_proc = Ok (RUN_STEP_EVENT_END, p') /\
  queues_of p' = [] /\ w_names (world_of p') !! B "pid" = None.
Proof.
  destruct (main_entrance sample_boot sample_proc) as [[c p']| |] eqn:E.
  - exists p'. destruct (main_entrance_end sample_boot sample_proc c p') as (Hq & Hc); [reflexivity|exact E|].
    assert (c = RUN_STEP_EVENT_END /\ pid_file (conf_of_server p') = B "pid") as [-> Hf].
    { vm_compute in E. injection E as <- <-. by vm_compute. }
    split; [reflexivity|]. split; [exact Hq|].
    destruct Hc as [[Hc _]|[(_ & Hne & Hc)|(_ & _ & p1 & rc & p2 & _ & _ & _ & _ & Hn)]]; [discriminate Hc|by destruct Hne|].
    by rewrite Hf in Hn.
  - vm_compute in E. discriminate E.
  - vm_compute in E. discriminate E.
Defined.

Lemma exec_refused_witness :
  handle_event (EvRequest (B "/exec") (Request (Some (B "/exec?cmd=kill")) [] tt) (B "10.0.0.9") 80 0 1) sample_proc =
  Ok (tt, Proc (p_server sample_proc) [] false
            [[Reply 401 (B "Unauthorized") (line (B "You can not exec cmd from 10.0.0.9 "))]]).
Proof.
  apply (exec_refused (Request (Some (B "/exec?cmd=kill")) [] tt) (B "10.0.0.9") 80 0 1 sample_proc);
    vm_compute; discriminate.
Defined.

(** The queue [sample_queue], almost full, next to a configuration file that asks
    for files of two megabytes. *)
Definition full_queue : mq_queue := with_wdb (with_pos 1048570) sample_queue.
Definition reload_world : world :=
  let w := sample_qworld in
  let text := B "[db]" ++ [10] ++ B "db_file_max_size = 2" ++ [10] in
  World (w_dirs w) (<[B "ucmq.ini" := 90]> (w_names w))
    (<[90 := File (Z.of_nat (length text)) (list_to_map (imap (fun i c => (Z.of_nat i, c)) text))]> (w_inodes w))
    (w_fds w) (w_maps w) (w_next w) (w_free w) (w_clock w) [].
Definition bigger_conf : ucmq_conf :=
  UcmqConf (B "0.0.0.0") 1818 (B "127.0.0.1") (B "log") (B "debug") (B "binlog") (B "keep-alive")
    (B "ucmq.ini") (B "pid") 0 1024 100 100 10000 0 (B "data") 2.
Lemma reload_breaks_mapping_witness : exists st',
  reload (Store reload_world sample_conf [(B "q", full_queue)]) = Ok (tt, st') /\
  on_queue (B "q") (fun conf => mq_qm_push_item conf (MsgItem 0 0 0 0 5 (PBuf (B "hello")))) st' = Fault.
Proof.
  destruct (inv_contents _ _ _ _ sample_inv) as (ino & d & Hw & _).
  destruct (reload_breaks_mapping (Store reload_world sample_conf [(B "q", full_queue)]) bigger_conf (B "q")
    full_queue ino d (MsgItem 0 0 0 0 5 (PBuf (B "hello"))) (B "hello")) as (st' & E & _ & Hf & _).
  - by vm_compute.
  - unfold conf_wf, MAX_DB_FILE_SIZE_LIMIT. cbn. lia.
  - reflexivity.
  - destruct Hw as ((Hn & Hi & Hd) & Hm & Hf). split; [|split; [exact Hm|exact Hf]]. split; [|split; [|exact Hd]].
    + cbn. rewrite lookup_insert_ne; [exact Hn|]. vm_compute. discriminate.
    + cbn. rewrite lookup_insert_ne; [exact Hi|]. intros <-. vm_compute in Hn. discriminate Hn.
  - cbn. lia.
  - reflexivity.
  - reflexivity.
  - reflexivity.
  - reflexivity.
  - exists st'. split; [exact E|]. apply Hf. vm_compute. split; [reflexivity|discriminate].
Defined.
