(* ===== verification/CStr.v ===== *)
(** * Searching in strings, and sockets

    The searching functions of the C library that the client uses, with the
    lemma that finds the first line of a text with a given header; pointers that
    may be null; and the system calls of the client as the class [Sockets]. *)
From S2P Require Import Prelude.
From S2P Require Import CLib.

(** ** Searching *)

(** [p] is a prefix of [s], where characters are compared through [f]. *)
Definition starts (f : Z -> Z) (p s : bytes) : bool :=
  bool_decide (f <$> p = f <$> take (length p) s).

(** The end of [s] from the first occurrence of [p] on. *)
Fixpoint find_sub (f : Z -> Z) (p s : bytes) : option bytes :=
  if starts f p s then Some s
  else match s with
       | [] => None
       | _ :: t => find_sub f p t
       end.
Definition strstr (s p : bytes) : option bytes := find_sub id p s.
Definition strcasestr (s p : bytes) : option bytes := find_sub tolower p s.

(** The length of the longest prefix without a character of [reject], and that
    prefix, which is what the conversion [%[^...]] reads. *)
Fixpoint span_not (reject s : bytes) : bytes :=
  match s with
  | [] => []
  | c :: s => if bool_decide (c ∈ reject) then [] else c :: span_not reject s
  end.
Definition strcspn (s reject : bytes) : Z := strlen (span_not reject s).

Fixpoint skip_blank (s : bytes) : bytes :=
  match s with
  | c :: rest => if isblank c then skip_blank rest else s
  | [] => []
  end.

Definition CR : Z := 13.
Definition LF : Z := 10.
Definition CRLF : bytes := [13; 10].

(** [sscanf(s, "HTTP/1.1 %d %[^\r\n]\r\n", &code, word)]: what is stored in the
    two variables.  A blank of the format matches any white space. *)
Definition sscanf_status (s : bytes) : option Z * option bytes :=
  if negb (starts id (B "HTTP/1.1") s) then (None, None)
  else
    let t := skip_space (drop 8 s) in
    let '(v, rest, _) := strtoll t in
    if bool_decide (length rest = length t) then (None, None)
    else match span_not CRLF (skip_space rest) with
         | [] => (Some (i32 v), None)
         | word => (Some (i32 v), Some word)
         end.

(** ** Pointers to memory of the heap *)
Inductive ptr (A : Type) := pNull | pTo (a : A) | pFreed.
Arguments pNull {_}.
Arguments pTo {_} _.
Arguments pFreed {_}.

(** ** The system calls *)
Record tspec := TSpec { ts_sec : Z; ts_nsec : Z }.

Definition E_INTR : Z := 4.
Definition E_AGAIN : Z := 11.
Definition E_ISCONN : Z := 106.
Definition E_TIMEDOUT : Z := 110.
Definition E_INPROGRESS : Z := 115.

Definition EV_POLLIN : Z := 1.
Definition EV_POLLOUT : Z := 4.
Definition EV_POLLERR : Z := 8.
Definition EV_POLLHUP : Z := 16.
Definition EV_POLLNVAL : Z := 32.

(** A call that can fail returns [inr errno] with the error number; a call without a result of its own
    returns [None], or [Some errno].  [inet_addr], [inet_ntoa] and [strerror] are
    functions of the C library on addresses and error numbers.  [behind_text] is what
    the memory holds behind the NUL that ends a received text. *)
Class Sockets (S : Type) := {
  sk_socket : M S (Z + Z);
  sk_nonblock : Z -> M S (option Z);
  sk_connect : Z -> Z -> Z -> M S (option Z);
  sk_so_error : Z -> M S (Z + Z);
  sk_poll : Z -> Z -> Z -> M S (Z + Z);
  sk_writev : Z -> bytes -> M S (Z + Z);
  sk_recv : Z -> Z -> M S (bytes + Z);
  sk_close : Z -> M S unit;
  sk_clock : M S tspec;
  sk_rand : M S Z;
  sk_malloc : M S bool;
  inet_addr : bytes -> Z;
  inet_ntoa : Z -> bytes;
  strerror : Z -> bytes;
  behind_text : bytes
}.

(** The text after [name] at the start of [p] and one more character.  When [p] ends
    with [name], that character is its NUL, and the text is what is behind it. *)
Definition behind_name (behind p name : bytes) : bytes :=
  if (length name <? length p)%nat then drop (length name + 1) p else cstr behind.

(** ** Facts about searching *)
Lemma starts_app f p s : starts f p (p ++ s) = true.
Proof. apply bool_decide_true. by rewrite take_app_length. Qed.

Lemma starts_spec f p s :
  starts f p s = true <-> exists q t, s = q ++ t /\ f <$> p = f <$> q.
Proof.
  unfold starts. rewrite bool_decide_eq_true. split.
  - intros E. exists (take (length p) s), (drop (length p) s).
    by rewrite take_drop.
  - intros (q & t & -> & E). pose proof (f_equal length E) as El.
    rewrite !length_fmap in El. by rewrite El, take_app_length.
Qed.

Lemma find_sub_here f p s : starts f p s = true -> find_sub f p s = Some s.
Proof. intros E. destruct s; simpl; by rewrite E. Qed.

(** An occurrence of [p] lies inside [l], or starts in what follows the
    separator, when [p] has no character that [f] takes to the separator. *)
Definition occurs (f : Z -> Z) (p l : bytes) : bool := bool_decide (is_Some (find_sub f p l)).

Lemma occurs_cons f p c l :
  occurs f p (c :: l) = starts f p (c :: l) || occurs f p l.
Proof.
  unfold occurs. simpl. by destruct (starts f p (c :: l)).
Qed.

Lemma starts_within f p l c rest :
  f c ∉ f <$> p -> starts f p (l ++ c :: rest) = starts f p l.
Proof.
  intros Hc. apply eq_true_iff_eq. rewrite !starts_spec. split.
  - intros (q & t & E & Hq). destruct (decide (length q <= length l)%nat) as [Hl|Hl].
    + exists q, (drop (length q) l). split; [|done].
      apply (f_equal (take (length q))) in E.
      rewrite take_app_le, take_app_length in E by done.
      rewrite <- E at 1. by rewrite take_drop.
    + exfalso. apply Hc. rewrite Hq. apply list_elem_of_fmap. exists c. split; [done|].
      assert (q !! length l = Some c) as Hi.
      { rewrite <- (lookup_app_l q t) by lia. rewrite <- E.
        by rewrite list_lookup_middle. }
      by eapply list_elem_of_lookup_2.
  - intros (q & t & -> & Hq). exists q, (t ++ c :: rest). by rewrite <- app_assoc.
Qed.

Lemma find_sub_skip f p l c rest :
  f c ∉ f <$> p -> p <> [] -> occurs f p l = false ->
  find_sub f p (l ++ c :: rest) = find_sub f p rest.
Proof.
  intros Hc Hp. induction l as [|d l IH]; intros Hl.
  - simpl. replace (starts f p (c :: rest)) with false; [done|].
    symmetry. pose proof (starts_within f p [] c rest Hc) as E. simpl in E. rewrite E.
    by destruct p.
  - rewrite occurs_cons in Hl. apply orb_false_iff in Hl as [Hs Hl].
    simpl. pose proof (starts_within f p (d :: l) c rest Hc) as E. simpl in E.
    rewrite E, Hs. by apply IH.
Qed.

Lemma find_sub_prefix f p a b : find_sub f p (a ++ b) = None -> find_sub f p a = None.
Proof.
  assert (forall a, starts f p a = true -> starts f p (a ++ b) = true) as Hs.
  { intros a0. rewrite !starts_spec. intros (q & t & -> & E).
    exists q, (t ++ b). by rewrite <- app_assoc. }
  induction a as [|c a IH]; intros E.
  - simpl in E |- *. destruct (starts f p []) eqn:E1; [|done].
    apply Hs in E1. simpl in E1. by rewrite find_sub_here in E by done.
  - simpl in E |- *. destruct (starts f p (c :: a)) eqn:E1.
    + apply Hs in E1. simpl in E1. by rewrite E1 in E.
    + destruct (starts f p (c :: a ++ b)); [done|]. by apply IH.
Qed.

(** The end of a line, when nothing but the end of the headers is looked for. *)
Lemma find_end_line w t :
  CR ∉ w -> find_sub id (CRLF ++ CRLF) (w ++ CRLF ++ t) =
  if starts id CRLF t then Some (CRLF ++ t) else find_sub id (CRLF ++ CRLF) t.
Proof.
  assert (starts id (CRLF ++ CRLF) (CRLF ++ t) = starts id CRLF t) as Hs.
  { unfold starts. apply bool_decide_ext. rewrite !list_fmap_id. simpl.
    split; [|by intros <-]. intros E. by injection E. }
  assert (forall c s, c <> CR -> starts id (CRLF ++ CRLF) (c :: s) = false) as Hc.
  { intros c s Hc. unfold starts. apply bool_decide_false. simpl. unfold CR, id in *. congruence. }
  induction w as [|c w IH]; intros Hw.
  - change ([] ++ CRLF ++ t) with (13 :: 10 :: t). cbn [find_sub].
    change (starts id _ (13 :: 10 :: t)) with (starts id (CRLF ++ CRLF) (CRLF ++ t)).
    rewrite Hs. destruct (starts id CRLF t); [done|]. by rewrite Hc by (unfold CR; done).
  - apply not_elem_of_cons in Hw as [Hne Hw].
    change ((c :: w) ++ CRLF ++ t) with (c :: w ++ CRLF ++ t). cbn [find_sub].
    rewrite Hc by congruence. by apply IH.
Qed.

Lemma skip_space_stop c s : isspace c = false -> skip_space (c :: s) = c :: s.
Proof. simpl. by intros ->. Qed.
Lemma skip_blank_stop c s : isblank c = false -> skip_blank (c :: s) = c :: s.
Proof. simpl. by intros ->. Qed.

Lemma span_not_app r a c s : Forall (fun x => x ∉ r) a -> c ∈ r -> span_not r (a ++ c :: s) = a.
Proof.
  intros Ha Hc. induction Ha as [|x a Hx Ha IH]; simpl.
  - by rewrite bool_decide_true.
  - rewrite bool_decide_false by done. by rewrite IH.
Qed.

Lemma cstr_app a b : 0 ∉ a -> cstr (a ++ b) = a ++ cstr b.
Proof.
  induction a as [|c a IH]; intros Ha; [done|]. apply not_elem_of_cons in Ha as [Hc Ha].
  simpl. rewrite (proj2 (Z.eqb_neq c 0)) by congruence. by rewrite IH.
Qed.

(** ** Decimal numbers inside a text *)
Lemma digit_not_blank c : isdigit c = true -> isblank c = false /\ isspace c = false.
Proof.
  unfold isdigit, isblank, isspace. intros [?%Z.leb_le ?%Z.leb_le]%andb_true_iff.
  split; apply orb_false_iff; split; try (apply Z.eqb_neq; lia).
  apply andb_false_iff. right. apply Z.leb_gt. lia.
Qed.

Lemma strtoll_stop s v c t rest :
  s = c :: t -> isdigit c = true -> digits_value 0 s = (v, rest) ->
  0 <= v <= LLONG_MAX -> strtoll s = (v, rest, false).
Proof.
  intros Hs Hc Hd Hv. unfold strtoll.
  assert (skip_space s = s) as ->.
  { subst s. apply skip_space_stop. by apply digit_not_blank. }
  assert (match s with 45 :: d => (true, d) | 43 :: d => (false, d) | _ => (false, s) end
          = (false, s)) as ->.
  { subst s. unfold isdigit in Hc.
    apply andb_true_iff in Hc as [?%Z.leb_le ?%Z.leb_le].
    destruct c as [|p|p]; try lia.
    do 6 (destruct p as [p|p|]; try lia; try done). }
  rewrite Hd. subst s. rewrite Hc.
  replace (clamp_ll v) with v by (unfold clamp_ll, LLONG_MIN; lia).
  rewrite bool_decide_false by congruence. done.
Qed.

Lemma dec_cons v : exists c t, dec v = c :: t /\ isdigit c = true.
Proof.
  destruct (pad_cons 0 v) as (c & t & E & Hc). exists c, t. split; [|done].
  rewrite <- E. unfold pad, dec. done.
Qed.

Lemma strtoll_dec v c rest :
  0 <= v <= LLONG_MAX -> isdigit c = false ->
  strtoll (dec v ++ c :: rest) = (v, c :: rest, false).
Proof.
  intros Hv Hc. destruct (dec_cons v) as (d & t & E & Hd).
  eapply strtoll_stop with (c := d) (t := t ++ c :: rest); [by rewrite E|done| |done].
  unfold dec. rewrite digits_value_app. simpl (0 * _ + _).
  rewrite Z.mod_small.
  - simpl. by rewrite Hc.
  - split; [lia|]. apply ndigits_bound. unfold LLONG_MAX in Hv. lia.
Qed.

Lemma atoi_dec_stop v c rest :
  0 <= v <= INT_MAX -> isdigit c = false -> atoi (dec v ++ c :: rest) = v.
Proof.
  intros Hv Hc. unfold atoi, atoll.
  rewrite strtoll_dec by (done || (unfold INT_MAX, LLONG_MAX in *; lia)).
  simpl. apply i32_small. unfold INT_MAX in Hv. lia.
Qed.

Lemma sscanf_status_line code reason c t rest :
  0 <= code <= INT_MAX -> reason = c :: t -> isspace c = false ->
  Forall (fun x => x ∉ CRLF) reason ->
  sscanf_status (B "HTTP/1.1 " ++ dec code ++ B " " ++ reason ++ CRLF ++ rest)
  = (Some code, Some reason).
Proof.
  intros Hcode -> Hsp Hre. unfold sscanf_status.
  replace (starts id (B "HTTP/1.1") _) with true by reflexivity. cbn [negb].
  change (drop 8 _) with (32 :: dec code ++ 32 :: (c :: t) ++ CRLF ++ rest).
  assert (skip_space (32 :: dec code ++ 32 :: (c :: t) ++ CRLF ++ rest)
          = dec code ++ 32 :: (c :: t) ++ CRLF ++ rest) as ->.
  { destruct (dec_cons code) as (d & u & E & Hd). simpl. rewrite E. simpl.
    by rewrite (proj2 (digit_not_blank d Hd)). }
  rewrite strtoll_dec by (done || (unfold INT_MAX, LLONG_MAX in *; lia)).
  rewrite bool_decide_false.
  2: { rewrite length_app. destruct (dec_cons code) as (d & u & -> & _). simpl. lia. }
  simpl skip_space. rewrite Hsp. change (c :: t ++ CRLF ++ rest) with ((c :: t) ++ CRLF ++ rest).
  simpl ((c :: t) ++ CRLF ++ rest).
  change (c :: t ++ 13 :: 10 :: rest) with ((c :: t) ++ 13 :: 10 :: rest).
  rewrite span_not_app by (done || (unfold CRLF; set_solver)).
  by rewrite i32_small by (unfold INT_MAX in Hcode; lia).
Qed.
