(* ===== verification/MqClient.v ===== *)
(** * client/c/mq_client.c: the client library in C

    The servers of a client and their connections ([mq_object]), one request
    ([in_mq_operate]: connect, send, receive, close), the choice of the server
    ([in_do_operate]) and the calls of the API.  The state [cst] has the kernel,
    [errno], the object of the client, and the locals of one call that are passed
    by their address: [info], the answer and the text of an error. *)
From S2P Require Import Prelude.
From S2P Require Import CLib.
From S2P Require Import MsgFormat.
From S2P Require Import CStr.

(** ** mq_client.h and object.h *)
Definition MQ_TRUE : Z := 1.
Definition MQ_FALSE : Z := 0.
Definition MQ_OK : Z := 0.
Definition MQ_FAIL : Z := -1.
Definition MQ_RET_REASON_SIZE : nat := 256.
Definition DOMAIN_MAX_SIZE : nat := 64.
(** The size of the fields [mq_dest]. *)
Definition DEST_SIZE : nat := DOMAIN_MAX_SIZE + 6 + 1.

Definition MQ_OPT_STATUS : Z := 0.
Definition MQ_OPT_STATUS_JSON : Z := 1.
Definition MQ_OPT_VIEW : Z := 2.
Definition MQ_OPT_RESET : Z := 10.
Definition MQ_OPT_MAXQUEUE : Z := 11.
Definition MQ_OPT_SYNCTIME : Z := 12.
Definition MQ_OPT_REMOVE : Z := 13.
Definition MQ_OPT_DELAY : Z := 14.
Definition MQ_OPT_READONLY : Z := 15.
Definition MQ_GET_MSG_END : Z := 404.
Definition MQ_LOOKUP_ORDER : Z := 0.
Definition MQ_LOOKUP_RANDOM : Z := 1.

Record mq_conf := MqConf { charset : option bytes; ver : Z }.

Record mq_return := MqReturn {
  r_pos : Z;
  r_result : Z;
  r_reason : bytes;          (* char[256]; [] is the empty string *)
  r_data : option bytes;
  r_data_len : Z;
  r_index : Z;
  r_opt_value : Z            (* uint32_t *)
}.

(** The pointer [num]: null, a string, or a buffer on the stack that nothing
    has written to. *)
Inductive numbuf := NumNull | NumStr (s : bytes) | NumUnset.

Record mq_opt_info := MqOptInfo {
  i_opt : bytes;
  i_name : bytes;
  i_num : numbuf;
  i_data : option bytes;     (* with data_len *)
  i_dest : bytes;
  i_start : tspec;
  i_conf : mq_conf
}.

Record mq_srv := MqSrv {
  s_dest : bytes;            (* char[71]; without a NUL when it has 71 characters *)
  s_port : Z;
  s_domain : bytes;
  s_fd : Z;
  s_last_use : Z;
  s_timeout : Z
}.

Record mq_object := MqObject {
  o_count : Z;
  o_timeout : Z;
  o_look_up : Z;
  o_keep_alive : Z;
  o_conn_list : list mq_srv
}.

Record cst (S : Type) := Cst {
  c_net : S;
  c_errno : Z;
  c_mq : ptr mq_object;
  c_info : mq_opt_info;
  c_ret : mq_return;
  c_reason : bytes
}.
Arguments Cst {_}.
Arguments c_net {_}.
Arguments c_errno {_}.
Arguments c_mq {_}.
Arguments c_info {_}.
Arguments c_ret {_}.
Arguments c_reason {_}.

Definition with_fd (fd : Z) (v : mq_srv) : mq_srv :=
  MqSrv (s_dest v) (s_port v) (s_domain v) fd (s_last_use v) (s_timeout v).
Definition with_last_use (t : Z) (v : mq_srv) : mq_srv :=
  MqSrv (s_dest v) (s_port v) (s_domain v) (s_fd v) t (s_timeout v).
Definition with_srv_timeout (t : Z) (v : mq_srv) : mq_srv :=
  MqSrv (s_dest v) (s_port v) (s_domain v) (s_fd v) (s_last_use v) t.
Definition with_dest (d : bytes) (v : mq_srv) : mq_srv :=
  MqSrv d (s_port v) (s_domain v) (s_fd v) (s_last_use v) (s_timeout v).

Definition with_conn_list (l : list mq_srv) (m : mq_object) : mq_object :=
  MqObject (o_count m) (o_timeout m) (o_look_up m) (o_keep_alive m) l.
Definition with_timeout (t : Z) (m : mq_object) : mq_object :=
  MqObject (o_count m) t (o_look_up m) (o_keep_alive m) (o_conn_list m).
Definition with_look_up (k : Z) (m : mq_object) : mq_object :=
  MqObject (o_count m) (o_timeout m) k (o_keep_alive m) (o_conn_list m).

Definition with_result (v : Z) (r : mq_return) : mq_return :=
  MqReturn (r_pos r) v (r_reason r) (r_data r) (r_data_len r) (r_index r) (r_opt_value r).
Definition with_pos (v : Z) (r : mq_return) : mq_return :=
  MqReturn v (r_result r) (r_reason r) (r_data r) (r_data_len r) (r_index r) (r_opt_value r).
Definition with_ret_reason (t : bytes) (r : mq_return) : mq_return :=
  MqReturn (r_pos r) (r_result r) t (r_data r) (r_data_len r) (r_index r) (r_opt_value r).
Definition with_data (d : bytes) (r : mq_return) : mq_return :=
  MqReturn (r_pos r) (r_result r) (r_reason r) (Some d) (strlen d) (r_index r) (r_opt_value r).
Definition with_index (i : Z) (r : mq_return) : mq_return :=
  MqReturn (r_pos r) (r_result r) (r_reason r) (r_data r) (r_data_len r) i (r_opt_value r).
Definition with_opt_value (v : Z) (r : mq_return) : mq_return :=
  MqReturn (r_pos r) (r_result r) (r_reason r) (r_data r) (r_data_len r) (r_index r) v.

Definition with_i_dest (d : bytes) (i : mq_opt_info) : mq_opt_info :=
  MqOptInfo (i_opt i) (i_name i) (i_num i) (i_data i) d (i_start i) (i_conf i).
Definition with_i_start (t : tspec) (i : mq_opt_info) : mq_opt_info :=
  MqOptInfo (i_opt i) (i_name i) (i_num i) (i_data i) (i_dest i) t (i_conf i).

(** ** The text of an answer *)

(** Pointers into the text are the text from there on. *)
Definition in_get_header_info_str (behind header type : bytes) : option bytes :=
  match strcasestr header type with
  | None => None
  | Some p => Some (skip_blank (behind_name behind p type))
  end.
Definition in_get_header_info_int (behind header type : bytes) : Z :=
  match in_get_header_info_str behind header type with
  | Some p => atoi p
  | None => -1
  end.
Definition in_get_data (data : bytes) : option bytes :=
  match strstr data (CRLF ++ CRLF) with
  | Some p => Some (drop 4 p)
  | None => None
  end.
(** Ends the buffer after its first [count] bytes [got], and looks for the end
    of the headers. *)
Definition in_check_header_finish (got : bytes) : Z :=
  match in_get_data (cstr got) with
  | None => -1
  | Some _ => 0
  end.

Definition in_init_return : mq_return := MqReturn (-1) (-1) [] None 0 (-1) (u32 (-1)).

(** ** The bytes of a request *)

(** The string [num] points to; [SET_IOV] takes a null pointer for the empty
    string. *)
Definition num_text (n : numbuf) : option bytes :=
  match n with
  | NumNull => Some []
  | NumStr s => Some s
  | NumUnset => None
  end.

Definition query (i : mq_opt_info) (num : bytes) : bytes :=
  i_name i ++ B "&opt=" ++ i_opt i
  ++ match charset (i_conf i) with
     | Some c => B "&charset=" ++ c
     | None => []
     end
  ++ match i_num i with
     | NumNull => []
     | _ => B "&" ++ num
     end.

(** The text the vectors of [comm_send_http_req] hold. *)
Definition request_text (i : mq_opt_info) (num : bytes) : bytes :=
  match i_data i with
  | None | Some [] =>
      B "GET /?name=" ++ query i num ++ B " HTTP/1.1" ++ CRLF ++ B "Host: " ++ i_dest i
      ++ CRLF ++ B "Connection: keep-alive" ++ CRLF ++ CRLF
  | Some data =>
      B "POST /?name=" ++ query i num ++ B " HTTP/1.1" ++ CRLF ++ B "Host: " ++ i_dest i
      ++ CRLF ++ B "Content-Length: " ++ snprintf 128 (sdec (strlen data))
      ++ CRLF ++ B "Connection: keep-alive" ++ CRLF ++ CRLF ++ data
  end.

Section MqClient.
Context {S : Type} `{Sockets S}.
Abbreviation MC := (M (cst S)).

(** ** The state *)
Definition sys {A} (m : M S A) : MC A := fun s =>
  match m (c_net s) with
  | Ok (a, n) => Ok (a, Cst n (c_errno s) (c_mq s) (c_info s) (c_ret s) (c_reason s))
  | Fault => Fault
  | OutOfFuel => OutOfFuel
  end.
Definition put_errno (e : Z) : MC unit := modify (fun s =>
  Cst (c_net s) e (c_mq s) (c_info s) (c_ret s) (c_reason s)).
Definition set_mq (p : ptr mq_object) : MC unit := modify (fun s =>
  Cst (c_net s) (c_errno s) p (c_info s) (c_ret s) (c_reason s)).
Definition set_info (i : mq_opt_info) : MC unit := modify (fun s =>
  Cst (c_net s) (c_errno s) (c_mq s) i (c_ret s) (c_reason s)).
Definition upd_ret (f : mq_return -> mq_return) : MC unit := modify (fun s =>
  Cst (c_net s) (c_errno s) (c_mq s) (c_info s) (f (c_ret s)) (c_reason s)).
Definition set_reason (r : bytes) : MC unit := modify (fun s =>
  Cst (c_net s) (c_errno s) (c_mq s) (c_info s) (c_ret s) r).

Definition the_mq : MC mq_object := fun s =>
  match c_mq s with
  | pTo m => Ok (m, s)
  | _ => Fault
  end.
Definition upd_mq (f : mq_object -> mq_object) : MC unit :=
  let! m := the_mq in set_mq (pTo (f m)).
(** [mq->conn_list[i]] *)
Definition conn (i : Z) : MC mq_srv :=
  let! m := the_mq in
  match (if i <? 0 then None else o_conn_list m !! Z.to_nat i) with
  | Some v => ret v
  | None => fault
  end.
Definition upd_conn (i : Z) (f : mq_srv -> mq_srv) : MC unit :=
  let! v := conn i in
  upd_mq (fun m => with_conn_list (<[Z.to_nat i := f v]> (o_conn_list m)) m).
(** Reading [mq_dest] as a string. *)
Definition dest_of (v : mq_srv) : MC bytes :=
  if (length (s_dest v) <? DEST_SIZE)%nat then ret (s_dest v) else fault.

(** A system call with a result: -1 and [errno] when it fails. *)
Definition sys_int (m : M S (Z + Z)) : MC Z :=
  let! r := sys m in
  match r with
  | inl v => ret v
  | inr e => put_errno e ;;; ret (-1)
  end.

(** [size] is [sizeof(reason)]: 8, the size of a pointer, where [reason] is a
    parameter. *)
Definition SHOW_ERROR (size : nat) (text : bytes) : MC unit :=
  let! s := get in
  match c_reason s with
  | [] => set_reason (snprintf size
            (text ++ B ". errno " ++ sdec (c_errno s) ++ B " - " ++ strerror (c_errno s)))
  | _ => ret tt
  end.

(** ** Time and descriptors *)
Fixpoint wait_loop (fuel : nat) (fd events timeout : Z) : MC Z :=
  match fuel with
  | O => fun _ => OutOfFuel
  | Datatypes.S fuel =>
      let! r := sys (sk_poll fd events timeout) in
      match r with
      | inl revents => ret revents
      | inr e =>
          put_errno e ;;;
          if e =? E_INTR then wait_loop fuel fd events timeout else ret (-1)
      end
  end.
Definition comm_wait_fd (fuel : nat) (fd events timeout : Z) : MC Z :=
  put_errno 0 ;;; wait_loop fuel fd events timeout.

(** The first connection with this descriptor. *)
Fixpoint set_timeout_in (fd timeout : Z) (l : list mq_srv) : Z * list mq_srv :=
  match l with
  | [] => (-1, [])
  | v :: l =>
      if s_fd v =? fd then (0, with_srv_timeout timeout v :: l)
      else let '(r, l) := set_timeout_in fd timeout l in (r, v :: l)
  end.
Definition comm_set_timeout_by_fd (fd timeout : Z) : MC Z :=
  let! m := the_mq in
  let '(r, l) := set_timeout_in fd timeout (o_conn_list m) in
  upd_mq (with_conn_list l) ;;; ret r.

Definition comm_get_rest_time : MC Z :=
  let! tm := sys sk_clock in
  let! m := the_mq in
  let! i := gets c_info in
  let rest_time :=
    i32 (o_timeout m - (i64 ((ts_sec tm - ts_sec (i_start i)) * 1000)
                        + Z.shiftr (ts_nsec tm - ts_nsec (i_start i)) 20)) in
  ret (if 0 <? rest_time then rest_time else 0).

(** The digits and dots of the string, into [char tmp[32]]: the NUL behind 32 of
    them is written outside. *)
Definition str2ip (ip_str : bytes) : MC Z :=
  let kept := take 32 (filter (fun c => c = 46 \/ isdigit c = true) ip_str) in
  if (length kept <? 32)%nat
  then ret (if i32 (inet_addr kept) =? -1 then u32 MQ_FAIL else MQ_TRUE)
  else fault.

(** ** The list of connections *)
Definition in_add_to_list (curr fd : Z) (dest : bytes) (sec_now : Z) : MC Z :=
  let! v := conn curr in
  (if s_fd v =? -1 then ret tt else sys (sk_close (s_fd v))) ;;;
  upd_conn curr (fun v =>
    with_dest dest (with_srv_timeout 3600 (with_last_use sec_now (with_fd fd v)))) ;;;
  ret 0.

Fixpoint del_from (fd : Z) (l : list mq_srv) : MC (Z * list mq_srv) :=
  match l with
  | [] => ret (0, [])
  | v :: l =>
      if (s_fd v =? fd) && negb (s_fd v =? -1) then
        sys (sk_close (s_fd v)) ;;;
        let! r := del_from fd l in
        ret (r.1 + 1, with_fd (-1) v :: r.2)
      else
        let! r := del_from fd l in
        ret (r.1, v :: r.2)
  end.
Definition in_del_from_list (fd : Z) : MC Z :=
  let! m := the_mq in
  let! r := del_from fd (o_conn_list m) in
  upd_mq (with_conn_list r.2) ;;; ret r.1.

Definition in_get_from_list (fuel : nat) (curr : Z) (dest : bytes) (sec_now : Z) : MC Z :=
  let! v := conn curr in
  if s_fd v =? -1 then ret (-1)
  else
    let! d := dest_of v in
    if negb (strcmp dest d =? 0) then ret (-1)
    else
      let! events := comm_wait_fd fuel (s_fd v)
        (Z.lor (Z.lor (Z.lor EV_POLLIN EV_POLLERR) EV_POLLHUP) EV_POLLNVAL) 0 in
      if events =? 0 then
        upd_conn curr (with_last_use sec_now) ;;;
        ret (s_fd v)
      else
        sys (sk_close (s_fd v)) ;;;
        upd_conn curr (with_fd (-1)) ;;;
        ret (-1).

Fixpoint close_all (l : list mq_srv) : MC unit :=
  match l with
  | [] => ret tt
  | v :: l =>
      (if s_fd v =? -1 then ret tt else sys (sk_close (s_fd v))) ;;;
      close_all l
  end.
(** The list is freed with the object, by [mq_fini]. *)
Definition in_del_list : MC Z :=
  let! m := the_mq in
  close_all (o_conn_list m) ;;; ret MQ_OK.

(** ** Connecting *)

(** The call that is not interrupted: a connection that is made at once leaves
    the loop, and the function returns -1. *)
Fixpoint connect_loop (fuel : nat) (s addr port : Z) : MC Z :=
  match fuel with
  | O => fun _ => OutOfFuel
  | Datatypes.S fuel' =>
      let show text := SHOW_ERROR 8
        (B "Connect to mq " ++ inet_ntoa addr ++ B ":" ++ sdec port ++ text) in
      let close_it := sys (sk_close s) ;;; ret (-1) in
      let! r := sys (sk_connect s addr port) in
      match r with
      | None => ret (-1)
      | Some e =>
          put_errno e ;;;
          if e =? E_INPROGRESS then
            let! rest := comm_get_rest_time in
            let! ev := comm_wait_fd fuel s EV_POLLOUT rest in
            if negb (ev =? 0) then
              let! err := sys (sk_so_error s) in
              match err with
              | inl error =>
                  if error =? 0 then ret s
                  else put_errno error ;;; show (B " error") ;;; close_it
              | inr _ => put_errno (-1) ;;; show (B " error") ;;; close_it
              end
            else put_errno E_TIMEDOUT ;;; show (B " timeout") ;;; close_it
          else if e =? E_ISCONN then ret s
          else if e =? E_INTR then connect_loop fuel' s addr port
          else show (B " error") ;;; close_it
      end
  end.

Definition comm_create_socket (fuel : nat) (curr : Z) : MC Z :=
  let! v := conn curr in
  let addr := inet_addr (s_domain v) in
  let port := u16 (s_port v) in
  let! s := sys_int sk_socket in
  if s <? 0 then SHOW_ERROR 8 (B "Create socket error") ;;; ret s
  else
    let! r := sys (sk_nonblock s) in
    match r with
    | Some e =>
        put_errno e ;;;
        SHOW_ERROR 8 (B "Can not set socket " ++ sdec s ++ B " to non-blocking mode") ;;;
        sys (sk_close s) ;;; ret (-1)
    | None => connect_loop fuel s addr port
    end.

Definition comm_get_socket (fuel : nat) (curr : Z) : MC Z :=
  let! i := gets c_info in
  let! s := in_get_from_list fuel curr (i_dest i) (i32 (ts_sec (i_start i))) in
  if s <? 0 then
    let! s := comm_create_socket fuel curr in
    if s <? 0 then ret (-1)
    else in_add_to_list curr s (i_dest i) (i32 (ts_sec (i_start i))) ;;; ret s
  else ret s.

(** ** Sending and receiving *)
Fixpoint writev_loop (fuel : nat) (s : Z) (text : bytes) : MC Z :=
  match fuel with
  | O => fun _ => OutOfFuel
  | Datatypes.S fuel =>
      let! r := sys (sk_writev s text) in
      match r with
      | inl n => ret n
      | inr e =>
          put_errno e ;;;
          if (e =? E_INTR) || (e =? E_AGAIN) then writev_loop fuel s text else ret (-1)
      end
  end.

Definition comm_send_http_req (fuel : nat) (s : Z) : MC Z :=
  let! i := gets c_info in
  match num_text (i_num i) with
  | None => fault
  | Some num =>
      let text := request_text i num in
      let! send_size := writev_loop fuel s text in
      if negb (send_size =? strlen text) then
        SHOW_ERROR 8 (B "Send request error, Meybe timeout, Need to send " ++ sdec (strlen text)
                      ++ B " bytes, But only send " ++ sdec send_size ++ B " bytes") ;;;
        put_errno 70 ;;; ret (-1)
      else ret 0
  end.

(** The result and the bytes stored; [is_finish] is asked after each part. *)
Fixpoint recv_loop (fuel : nat) (fd count : Z) (is_finish : option (bytes -> Z))
    (got : bytes) : MC (Z * bytes) :=
  match fuel with
  | O => fun _ => OutOfFuel
  | Datatypes.S fuel' =>
      let next (g : bytes) :=
        if (strlen g <? count)
           && match is_finish with None => true | Some f => f g <? 0 end
        then recv_loop fuel' fd count is_finish g
        else ret (strlen g, g) in
      let! r := sys (sk_recv fd (count - strlen got)) in
      match r with
      | inl [] => ret (strlen got, got)
      | inl bs => next (got ++ bs)
      | inr e =>
          put_errno e ;;;
          if e =? E_AGAIN then
            let! rest := comm_get_rest_time in
            let! ev := comm_wait_fd fuel fd EV_POLLIN rest in
            if ev =? 0 then put_errno E_TIMEDOUT ;;; ret (strlen got, got)
            else next got
          else if e =? E_INTR then next got
          else ret (-1, got)
      end
  end.
Definition comm_recv_n (fuel : nat) (fd count : Z) (is_finish : option (bytes -> Z))
    : MC (Z * bytes) :=
  recv_loop fuel fd count is_finish [].

(** ** One request *)

(** The body: what came with the headers, then the rest. *)
Definition recv_body (fuel : nat) (s body_len : Z) (has : bytes) : MC (option bytes) :=
  if body_len <? strlen has then SHOW_ERROR 256 (B "Invalid body len") ;;; ret None
  else if strlen has <? body_len then
    let! r := comm_recv_n fuel s (body_len - strlen has) None in
    if negb (r.1 =? body_len - strlen has)
    then SHOW_ERROR 256 (B "recv body error") ;;; ret None
    else ret (Some (has ++ r.2))
  else ret (Some has).

(** [sscanf] stores the code and the reason; the array for the reason has as many
    characters as the first line.  [None] is the array nothing has written to. *)
Definition read_status (buffer : bytes) : MC (option bytes) :=
  let size := strcspn buffer CRLF in
  let '(code, word) := sscanf_status buffer in
  if size =? 0 then fault
  else
    match code with
    | Some v => upd_ret (with_result v)
    | None => ret tt
    end ;;;
    match word with
    | Some w => if strlen w <? size then ret (Some w) else fault
    | None => ret None
    end.

(** The answer, from the first byte on: the last part of [in_mq_operate]. *)
Definition recv_answer (fuel : nat) (s : Z) : MC Z :=
  let! r := comm_recv_n fuel s 1023 (Some in_check_header_finish) in
  let total_recv := r.1 in
  let got := if total_recv <? 0 then [] else r.2 in
  let buffer := cstr got in
  match in_get_data buffer with
  | None =>
      SHOW_ERROR 256 (B "recv http header error") ;;;
      let! e := gets c_errno in
      upd_ret (with_result e) ;;; ret MQ_FAIL
  | Some data =>
      let! http_reason := read_status buffer in
      let! rt := gets c_ret in
      if r_result rt =? MQ_GET_MSG_END then ret MQ_FAIL
      else
        upd_ret (with_pos (in_get_header_info_int behind_text buffer (B "Pos"))) ;;;
        let body_len := in_get_header_info_int behind_text buffer (B "Content-Length") in
        if body_len <? 0 then
          SHOW_ERROR 256 (B "data length is invalid : " ++ sdec body_len) ;;; ret MQ_FAIL
        else
          let timeout := in_get_header_info_int behind_text buffer (LF :: B "keep-alive") in
          (if 0 <? timeout then comm_set_timeout_by_fd s timeout ;;; ret tt else ret tt) ;;;
          if body_len =? INT_MAX then fault
          else
            let! body := recv_body fuel s body_len
                           (drop (length buffer - length data) got) in
            match body with
            | None => ret MQ_FAIL
            | Some body =>
                let! ok := sys sk_malloc in
                if negb ok then fault
                else
                  upd_ret (with_data (cstr body)) ;;;
                  match http_reason with
                  | None => fault
                  | Some t =>
                      upd_ret (with_ret_reason (take MQ_RET_REASON_SIZE t)) ;;; ret MQ_OK
                  end
            end
  end.

(** The connection and the result of [in_mq_operate], before its end. *)
Definition operate_body (fuel : nat) (curr : Z) : MC (Z * Z) :=
  let! m := the_mq in
  let! s := (if o_keep_alive m =? MQ_TRUE
             then comm_get_socket fuel curr
             else comm_create_socket fuel curr) in
  if s <? 0 then
    let! st := get in
    upd_ret (with_ret_reason (take MQ_RET_REASON_SIZE (c_reason st))) ;;;
    upd_ret (with_result (c_errno st)) ;;;
    ret (s, MQ_FAIL)
  else
    let! r := comm_send_http_req fuel s in
    if r <? 0 then
      let! e := gets c_errno in
      upd_ret (with_result e) ;;; ret (s, MQ_FAIL)
    else
      let! is_ok := recv_answer fuel s in
      ret (s, is_ok).

Definition in_mq_operate (fuel : nat) (curr : Z) : MC Z :=
  set_reason [] ;;;
  let! m := the_mq in
  (if o_timeout m =? 0 then upd_mq (with_timeout 1000) else ret tt) ;;;
  let! tm := sys sk_clock in
  let! i := gets c_info in
  set_info (with_i_start tm i) ;;;
  let! r := operate_body fuel curr in
  let '(s, is_ok) := r in
  let! m := the_mq in
  (if (o_keep_alive m =? MQ_FALSE) && negb (s =? -1) then sys (sk_close s) else ret tt) ;;;
  let! rt := gets c_ret in
  (if negb (r_result rt =? MQ_GET_MSG_END) && (o_keep_alive m =? MQ_TRUE)
      && negb (is_ok =? MQ_OK)
   then in_del_from_list s ;;; ret tt else ret tt) ;;;
  ret is_ok.

(** ** The choice of the server *)

(** [swap(&a[i], &a[j])] *)
Definition swap (a : list Z) (i j : Z) : MC (list Z) :=
  match (if (i <? 0) || (j <? 0) then None else a !! Z.to_nat i),
        (if (i <? 0) || (j <? 0) then None else a !! Z.to_nat j) with
  | Some t, Some u => ret (<[Z.to_nat j := t]> (<[Z.to_nat i := u]> a))
  | _, _ => fault
  end.

(** [for (j = count - 1; j > 0; --j)]; the argument is [j]. *)
Fixpoint shuffle_loop (count : Z) (j : nat) (a : list Z) : MC (list Z) :=
  match j with
  | O => ret a
  | Datatypes.S j' =>
      let! r := sys sk_rand in
      let! a := swap a (Z.of_nat j) (Z.rem r count) in
      shuffle_loop count j' a
  end.

(** The order in which the servers are tried. *)
Definition lookup_order (m : mq_object) : MC (list Z) :=
  let ids := seqZ 0 (o_count m) in
  if o_look_up m =? MQ_LOOKUP_RANDOM
  then shuffle_loop (o_count m) (Z.to_nat (o_count m - 1)) ids
  else ret ids.

(** One server after the other, until one does not fail; the result is the last
    one tried. *)
Fixpoint try_servers (fuel : nat) (curr : Z) (order : list Z) : MC Z :=
  match order with
  | [] => ret curr
  | i :: order =>
      let! v := conn i in
      let! d := dest_of v in
      let! info := gets c_info in
      set_info (with_i_dest d info) ;;;
      let! r := in_mq_operate fuel i in
      if r =? MQ_FAIL then try_servers fuel i order else ret i
  end.

Definition in_do_operate (fuel : nat) : MC unit :=
  let! m := the_mq in
  let! order := lookup_order m in
  let! curr := try_servers fuel 0 order in
  upd_ret (with_index curr).

(** ** The API *)

Definition new_info (opt name : bytes) (num : numbuf) (data : option bytes) (conf : mq_conf)
    : mq_opt_info :=
  MqOptInfo opt name num data [] (TSpec 0 0) conf.

(** The answer and the locals of a call, when there is memory for the answer. *)
Definition start_call (i : mq_opt_info) (r : mq_return) : MC bool :=
  let! ok := sys sk_malloc in
  if negb ok then ret false
  else upd_ret (fun _ => r) ;;; set_info i ;;; ret true.

Definition is_null {A} (p : ptr A) : bool := match p with pNull => true | _ => false end.

Definition mq_put_msg (fuel : nat) (name data : option bytes) (conf : option mq_conf)
    : MC (option mq_return) :=
  let! p := gets c_mq in
  match is_null p, name, data, conf with
  | false, Some name, Some data, Some conf =>
      let! ok := start_call (new_info (B "put") name (NumStr []) (Some data) conf)
                   in_init_return in
      if negb ok then ret None
      else
        in_do_operate fuel ;;;
        let! r := gets c_ret in ret (Some r)
  | _, _, _, _ => ret None
  end.

Definition mq_get_msg (fuel : nat) (name : option bytes) (conf : option mq_conf)
    : MC (option mq_return) :=
  let! p := gets c_mq in
  match is_null p, name, conf with
  | false, Some name, Some conf =>
      let! ok := start_call (new_info (B "get") name NumNull None conf) in_init_return in
      if negb ok then ret None
      else
        in_do_operate fuel ;;;
        let! r := gets c_ret in ret (Some r)
  | _, _, _ => ret None
  end.

(** The cases of [switch (opt)], and whether [num] is emptied.  The case
    [MQ_OPT_REMOVE] goes on into the next one. *)
Definition set_opt_name (opt : Z) : option (bytes * bool) :=
  if opt =? MQ_OPT_RESET then Some (B "reset", true)
  else if opt =? MQ_OPT_MAXQUEUE then Some (B "maxqueue", false)
  else if opt =? MQ_OPT_SYNCTIME then Some (B "synctime", false)
  else if opt =? MQ_OPT_REMOVE then Some (B "delay", true)
  else if opt =? MQ_OPT_DELAY then Some (B "delay", false)
  else if opt =? MQ_OPT_READONLY then Some (B "readonly", false)
  else None.
Definition get_opt_name (opt : Z) : option (bytes * bool) :=
  if opt =? MQ_OPT_STATUS then Some (B "status", true)
  else if opt =? MQ_OPT_STATUS_JSON then Some (B "status_json", true)
  else if opt =? MQ_OPT_VIEW then Some (B "view", false)
  else None.

(** A call with an option: [num] is the text in [buf], [act] what is done with
    the request. *)
Definition opt_call (name_of : Z -> option (bytes * bool)) (unknown : bytes) (num : numbuf)
    (name : option bytes) (opt data : Z) (conf : option mq_conf) (act : MC unit)
    : MC (option mq_return) :=
  let! p := gets c_mq in
  match is_null p, name, conf with
  | false, Some name, Some conf =>
      if opt <? 0 then ret None
      else
        let! ok := start_call (new_info [] name num (Some (le_bytes 4 data)) conf)
                     (with_opt_value opt in_init_return) in
        if negb ok then ret None
        else
          match name_of opt with
          | None =>
              upd_ret (fun r => with_result 22 (with_ret_reason unknown r)) ;;;
              let! r := gets c_ret in ret (Some r)
          | Some (o, empty) =>
              set_info (new_info o name (if empty : bool then NumStr [] else num)
                          (Some (le_bytes 4 data)) conf) ;;;
              act ;;;
              let! r := gets c_ret in ret (Some r)
          end
  | _, _, _ => ret None
  end.

Definition num_buf (data : Z) : numbuf := NumStr (B "num=" ++ sdec (i32 data)).

Definition mq_all_set_opt (fuel : nat) (name : option bytes) (opt data : Z)
    (conf : option mq_conf) : MC (option mq_return) :=
  opt_call set_opt_name (B "Unknown mq_set_opt") (num_buf data) name opt data conf
    (upd_mq (with_look_up MQ_LOOKUP_ORDER) ;;; in_do_operate fuel).

(** The server of that name. *)
Fixpoint find_server (fuel : nat) (server : bytes) (i : Z) (l : list mq_srv) : MC unit :=
  match l with
  | [] => ret tt
  | v :: l =>
      let! d := dest_of v in
      if strcmp d server =? 0 then
        let! info := gets c_info in
        set_info (with_i_dest d info) ;;;
        in_mq_operate fuel i ;;; ret tt
      else find_server fuel server (i + 1) l
  end.
Definition at_server (fuel : nat) (server : bytes) : MC unit :=
  let! m := the_mq in find_server fuel server 0 (o_conn_list m).

Definition mq_set_opt (fuel : nat) (server name : option bytes) (opt data : Z)
    (conf : option mq_conf) : MC (option mq_return) :=
  match server with
  | None => ret None
  | Some server =>
      opt_call set_opt_name (B "Unknown mq_set_opt") (num_buf data) name opt data conf
        (at_server fuel server)
  end.

(** [buf] is not written to. *)
Definition mq_get_opt (fuel : nat) (server name : option bytes) (opt data : Z)
    (conf : option mq_conf) : MC (option mq_return) :=
  match server with
  | None => ret None
  | Some server =>
      opt_call get_opt_name (B "Unknown mq_get_opt") NumUnset name opt data conf
        (at_server fuel server)
  end.

(** ** Making and ending a client *)

Definition assert (b : bool) : MC unit := if b then ret tt else fault.

(** One server; [None] when it is no address with a port. *)
Definition init_srv (addr : bytes) : MC (option mq_srv) :=
  if bool_decide (58 ∈ addr) then
    let domain := span_not [58] addr in
    let port := atoi (drop (length domain + 1) addr) in
    let! ip := str2ip domain in
    if negb (ip =? MQ_TRUE) then ret None
    else if (length domain <=? DOMAIN_MAX_SIZE)%nat
         then ret (Some (MqSrv (take DEST_SIZE addr) port domain (-1) 0 0))
         else fault
  else ret None.
Fixpoint init_srvs (l : list bytes) : MC (option (list mq_srv)) :=
  match l with
  | [] => ret (Some [])
  | addr :: l =>
      let! v := init_srv addr in
      match v with
      | None => ret None
      | Some v =>
          let! r := init_srvs l in
          ret (match r with Some l => Some (v :: l) | None => None end)
      end
  end.

(** The object, or the null pointer.  The test behind the second [malloc] is on
    the wrong pointer. *)
Definition mq_init (server_group : list bytes) (count look_up timeout keep_alive : Z)
    : MC (ptr mq_object) :=
  assert (0 <? count) ;;; assert (0 <=? look_up) ;;; assert (0 <=? timeout) ;;;
  assert (0 <=? keep_alive) ;;;
  let! ok := sys sk_malloc in
  if negb ok then ret pNull
  else
    let! ok := sys sk_malloc in
    if negb ok then fault
    else
      let! r := init_srvs (take (Z.to_nat count) server_group) in
      match r with
      | Some l =>
          if (length l <? Z.to_nat count)%nat then fault
          else ret (pTo (MqObject count timeout look_up keep_alive l))
      | None => ret pNull
      end.

Definition mq_fini : MC Z :=
  let! p := gets c_mq in
  if is_null p then ret MQ_OK
  else in_del_list ;;; set_mq pFreed ;;; ret MQ_OK.
End MqClient.
