(* ===== verification/ClientAnswer.v ===== *)
(** * The client reads the answers of a server

    [recv_answer] of [MqClient] on a connection that delivers the text of an
    answer in parts of any size, with interrupted and early calls in between.
    What the connection does is the class [SocketStream]. *)
From S2P Require Import Prelude.
From S2P Require Import CLib.
From S2P Require Import CStr.
From S2P Require Import MqClient.

(** [pending fd s] are the bytes of the peer that are not yet received on [fd]:
    as long as there are some, [recv] gives at least one of them, or has to be
    called again, which happens [delay] times at most; [poll] does not time
    out. *)
Class SocketStream (S : Type) `{Sockets S} (pending : Z -> S -> bytes) (delay : S -> nat)
    : Prop := {
  stream_recv fd n s : pending fd s <> [] -> 0 < n ->
    exists r s', sk_recv fd n s = Ok (r, s') /\
      match r with
      | inl bs => bs <> [] /\ strlen bs <= n /\ pending fd s = bs ++ pending fd s'
                  /\ (delay s' <= delay s)%nat
      | inr e => (e = E_INTR \/ e = E_AGAIN) /\ pending fd s' = pending fd s
                 /\ (delay s' < delay s)%nat
      end;
  stream_poll fd t s : pending fd s <> [] ->
    exists r s', sk_poll fd EV_POLLIN t s = Ok (r, s') /\ pending fd s' = pending fd s /\
      match r with
      | inl ev => ev <> 0 /\ (delay s' <= delay s)%nat
      | inr e => e = E_INTR /\ (delay s' < delay s)%nat
      end;
  stream_clock fd s : exists t s', sk_clock s = Ok (t, s') /\
    pending fd s' = pending fd s /\ (delay s' <= delay s)%nat;
  stream_malloc fd s : exists s', sk_malloc s = Ok (true, s') /\ pending fd s' = pending fd s
}.

(** ** Receiving *)
Section Receive.
Context {S : Type} {pending : Z -> S -> bytes} {delay : S -> nat} `{SocketStream S pending delay}.
Implicit Types (s : cst S).

Definition still (fd : Z) (s : cst S) : bytes := pending fd (c_net s).
Definition delays (s : cst S) : nat := delay (c_net s).

(** Only the kernel and [errno] are different. *)
Definition same_but_net (s s' : cst S) : Prop :=
  c_mq s' = c_mq s /\ c_info s' = c_info s /\ c_ret s' = c_ret s /\ c_reason s' = c_reason s.

Lemma sys_run {A} (m : M S A) s a n :
  m (c_net s) = Ok (a, n) ->
  sys m s = Ok (a, Cst n (c_errno s) (c_mq s) (c_info s) (c_ret s) (c_reason s)).
Proof. intros E. unfold sys. by rewrite E. Qed.

Lemma wait_loop_ok fuel fd t s :
  still fd s <> [] -> (delays s < fuel)%nat ->
  exists ev s', wait_loop fuel fd EV_POLLIN t s = Ok (ev, s') /\ ev <> 0 /\
    still fd s' = still fd s /\ (delays s' <= delays s)%nat /\ same_but_net s s'.
Proof.
  revert s. induction fuel as [|fuel IH]; intros s Hp Hf; [lia|].
  destruct (stream_poll fd t (c_net s) Hp) as (r & n & E & Hp' & Hr).
  cbn [wait_loop]. run (sys_run _ _ _ _ E). destruct r as [ev|e].
  - destruct Hr as [Hev Hd]. eexists _, _. split; [done|].
    unfold still, delays, same_but_net. simpl. by rewrite Hp'.
  - destruct Hr as [-> Hd]. erewrite bind_ok by reflexivity.
    replace (E_INTR =? E_INTR) with true by done.
    match goal with |- context [wait_loop fuel fd EV_POLLIN t ?s1] =>
      destruct (IH s1) as (ev & s' & E' & Hev & Hp2 & Hd2 & Hsame) end.
    { unfold still in *. simpl. by rewrite Hp'. }
    { unfold delays in *. simpl. lia. }
    eexists _, _. split; [exact E'|].
    unfold still, delays, same_but_net in *. simpl in *. rewrite Hp2, Hp'.
    destruct Hsame as (?&?&?&?). split_and!; (done || lia).
Qed.

Lemma comm_get_rest_time_ok fd s m :
  c_mq s = pTo m ->
  exists t s', comm_get_rest_time s = Ok (t, s') /\
    still fd s' = still fd s /\ (delays s' <= delays s)%nat /\ same_but_net s s'.
Proof.
  intros Hm. destruct (stream_clock fd (c_net s)) as (t & n & E & Hp & Hd).
  unfold comm_get_rest_time. run (sys_run _ _ _ _ E).
  unfold the_mq, gets, ret, bind. simpl. rewrite Hm.
  eexists _, _. split; [done|]. unfold still, delays, same_but_net. simpl. by rewrite Hp.
Qed.

(** Whether the loop of [comm_recv_n] stops at [g]. *)
Definition stops (count : Z) (fin : option (bytes -> Z)) (g : bytes) : bool :=
  negb ((strlen g <? count) && match fin with None => true | Some f => f g <? 0 end).

Lemma stops_some count f g : stops count (Some f) g = negb ((strlen g <? count) && (f g <? 0)).
Proof. done. Qed.
Lemma stops_none count g : stops count None g = negb (strlen g <? count).
Proof. unfold stops. by rewrite andb_true_r. Qed.

Lemma same_but_net_trans s1 s2 s3 :
  same_but_net s1 s2 -> same_but_net s2 s3 -> same_but_net s1 s3.
Proof. unfold same_but_net. intros (?&?&?&?) (?&?&?&?). split_and!; congruence. Qed.

(** The loop ends, at the first part after which it has to, whatever the sizes of
    the parts are. *)
Lemma recv_loop_ok fuel fd count fin g s m :
  c_mq s = pTo m -> stops count fin g = false ->
  stops count fin (g ++ still fd s) = true ->
  (length (still fd s) + delays s < fuel)%nat ->
  exists g' s', recv_loop fuel fd count fin g s = Ok ((strlen g', g'), s') /\
    g' ++ still fd s' = g ++ still fd s /\ strlen g' <= count /\ stops count fin g' = true /\
    (delays s' <= delays s)%nat /\ same_but_net s s'.
Proof.
  revert g s. induction fuel as [|fuel IH]; intros g s Hm Hg Hstop Hf; [lia|].
  assert (still fd s <> []) as Hp.
  { intros E. rewrite E, app_nil_r in Hstop. congruence. }
  assert (strlen g < count) as Hlt.
  { unfold stops in Hg. apply negb_false_iff, andb_true_iff in Hg as [?%Z.ltb_lt _]. done. }
  cbn [recv_loop].
  assert (forall g1 s1, c_mq s1 = pTo m -> same_but_net s s1 -> strlen g1 <= count ->
    g1 ++ still fd s1 = g ++ still fd s -> (delays s1 <= delays s)%nat ->
    (length (still fd s1) + delays s1 < fuel)%nat \/ stops count fin g1 = true ->
    exists g' s', (if (strlen g1 <? count)
                      && match fin with None => true | Some f => f g1 <? 0 end
                   then recv_loop fuel fd count fin g1 else ret (strlen g1, g1)) s1
                  = Ok ((strlen g', g'), s') /\
      g' ++ still fd s' = g ++ still fd s /\ strlen g' <= count /\ stops count fin g' = true /\
      (delays s' <= delays s)%nat /\ same_but_net s s') as Hnext.
  { intros g1 s1 Hm1 Hsame1 Hle1 Happ1 Hd1 Hor.
    destruct (stops count fin g1) eqn:Es; unfold stops in Es.
    - apply negb_true_iff in Es. rewrite Es. exists g1, s1. split; [done|].
      split_and!; try done. unfold stops. by rewrite Es.
    - pose proof Es as Es'. apply negb_false_iff in Es'. rewrite Es'.
      destruct Hor as [Hf1|?]; [|congruence].
      destruct (IH g1 s1 Hm1 Es) as (g' & s' & E & Happ & Hle & Hst & Hd & Hsame).
      { by rewrite Happ1. }
      { done. }
      exists g', s'. split; [exact E|]. rewrite Happ.
      split_and!; try done; [lia|]. by eapply same_but_net_trans. }
  assert (0 < count - strlen g) as Hn by lia.
  destruct (stream_recv fd _ (c_net s) Hp Hn) as (r & n & E & Hr).
  run (sys_run _ _ _ _ E). destruct r as [bs|e].
  - destruct Hr as (Hne & Hlen & Hpend & Hd). destruct bs as [|b bs]; [done|].
    assert (length (still fd s) = length (b :: bs) + length (pending fd n))%nat as Hl.
    { unfold still. by rewrite Hpend, length_app. }
    apply Hnext; unfold still, delays, same_but_net in *; simpl in *; try done.
    + unfold strlen in *. rewrite length_app. simpl in *. lia.
    + by rewrite Hpend, <- app_assoc.
    + left. lia.
  - destruct Hr as (He & Hpend & Hd). erewrite bind_ok by reflexivity.
    destruct He as [->| ->]; simpl (_ =? _); cbn match.
    + apply Hnext; unfold still, delays, same_but_net in *; simpl in *; try done;
        [lia|by rewrite Hpend|lia|rewrite Hpend; left; lia].
    + match goal with |- context [bind comm_get_rest_time _ ?s1] =>
        destruct (comm_get_rest_time_ok fd s1 m) as (t & s2 & E2 & Hp2 & Hd2 & Hs2); [done|] end.
      run E2. unfold comm_wait_fd. rewrite bind_assoc. erewrite bind_ok by reflexivity.
      match goal with |- context [bind (wait_loop _ fd EV_POLLIN t) _ ?s3] =>
        destruct (wait_loop_ok (Datatypes.S fuel) fd t s3) as (ev & s4 & E4 & Hev & Hp4 & Hd4 & Hs4) end.
      { unfold still in *. simpl in *. by rewrite Hp2, Hpend. }
      { unfold delays in *. simpl in *. lia. }
      run E4. rewrite (proj2 (Z.eqb_neq ev 0) Hev).
      unfold still, delays, same_but_net in *; simpl in *.
      apply Hnext; try done.
      * destruct Hs2 as (?&?&?&?), Hs4 as (?&?&?&?). congruence.
      * destruct Hs2 as (?&?&?&?), Hs4 as (?&?&?&?). split_and!; congruence.
      * lia.
      * by rewrite Hp4, Hp2, Hpend.
      * lia.
      * left. rewrite Hp4, Hp2, Hpend. lia.
Qed.
End Receive.

(** ** The text of an answer *)

(** A status line, lines of headers and a body, as HTTP/1.1 has them. *)
Definition status_line (code : Z) (reason : bytes) : bytes :=
  B "HTTP/1.1 " ++ dec code ++ B " " ++ reason.
Definition header_line (h : bytes * bytes) : bytes := h.1 ++ B ": " ++ h.2.
Definition lines_text (ws : list bytes) : bytes := concat ((fun w => w ++ CRLF) <$> ws).
Definition head_lines (code : Z) (reason : bytes) (hs : list (bytes * bytes)) : list bytes :=
  status_line code reason :: (header_line <$> hs).
Definition http_head (code : Z) (reason : bytes) (hs : list (bytes * bytes)) : bytes :=
  lines_text (head_lines code reason hs) ++ CRLF.

(** The value of the first header with this name, in upper or lower case. *)
Fixpoint header (type : bytes) (hs : list (bytes * bytes)) : option bytes :=
  match hs with
  | [] => None
  | (n, v) :: hs =>
      if bool_decide (tolower <$> type = tolower <$> n) then Some v else header type hs
  end.

(** No line but the ones with this name has the name in it. *)
Definition only_header (type : bytes) (code : Z) (reason : bytes) (hs : list (bytes * bytes))
    : Prop :=
  occurs tolower type (status_line code reason) = false /\
  Forall (fun h => tolower <$> type = tolower <$> h.1
                   \/ occurs tolower type (header_line h) = false) hs.

Definition clean_line (w : bytes) : Prop := w <> [] /\ Forall (fun c => c ∉ 0 :: CRLF) w.

Record good_head (code : Z) (reason : bytes) (hs : list (bytes * bytes)) : Prop := {
  gh_code : 0 <= code <= INT_MAX;
  gh_reason : exists c t, reason = c :: t /\ isspace c = false;
  gh_reason_clean : clean_line reason;
  gh_headers : Forall (fun h => clean_line (header_line h)) hs;
  gh_size : strlen (http_head code reason hs) <= 1023
}.

#[export] Instance clean_line_dec w : Decision (clean_line w).
Proof. unfold clean_line. apply _. Defined.
#[export] Instance only_header_dec type code reason hs :
  Decision (only_header type code reason hs).
Proof. unfold only_header. apply _. Defined.

Lemma digit_clean c : isdigit c = true -> c ∉ 0 :: CRLF.
Proof.
  unfold isdigit. intros [?%Z.leb_le ?%Z.leb_le]%andb_true_iff Hin.
  unfold CRLF in Hin. rewrite !elem_of_cons in Hin. destruct Hin as [?|[?|[?|Hin]]]; try lia.
  by apply not_elem_of_nil in Hin.
Qed.

Lemma status_clean code reason : clean_line reason -> clean_line (status_line code reason).
Proof.
  intros [_ Hr]. split; [done|]. unfold status_line.
  rewrite !Forall_app. split_and!; [|eapply Forall_impl; [apply fixed_digits|exact digit_clean]| |done].
  - decide_it.
  - decide_it.
Qed.

Lemma head_lines_clean code reason hs :
  good_head code reason hs -> Forall clean_line (head_lines code reason hs).
Proof. intros G. constructor; [by apply status_clean, G|]. apply Forall_fmap, G. Qed.

Lemma clean_no_cr w : clean_line w -> CR ∉ w.
Proof.
  intros [_ Hw] Hin. rewrite Forall_forall in Hw. apply (Hw _ Hin).
  decide_it.
Qed.

Lemma lines_text_cons w ws : lines_text (w :: ws) = w ++ CRLF ++ lines_text ws.
Proof. unfold lines_text. simpl. by rewrite <- app_assoc. Qed.

Lemma lines_no_nul ws : Forall clean_line ws -> 0 ∉ lines_text ws.
Proof.
  induction 1 as [|w ws [_ Hw] _ IH]; [apply not_elem_of_nil|].
  rewrite lines_text_cons, !elem_of_app. intros [Hin|[Hin|Hin]]; [|revert Hin; decide_it|done].
  rewrite Forall_forall in Hw. apply (Hw _ Hin). decide_it.
Qed.

Lemma head_no_nul code reason hs : good_head code reason hs -> 0 ∉ http_head code reason hs.
Proof.
  intros G. unfold http_head. rewrite elem_of_app. intros [Hin|Hin]; [|revert Hin; decide_it].
  by apply (lines_no_nul _ (head_lines_clean _ _ _ G)).
Qed.

Lemma lines_not_crlf w ws t : clean_line w -> starts id CRLF (lines_text (w :: ws) ++ t) = false.
Proof.
  intros [Hne Hw]. rewrite lines_text_cons. destruct w as [|c w]; [done|].
  inversion_clear Hw as [|? ? Hc _]. unfold starts. apply bool_decide_false. simpl.
  unfold CRLF, id in *. intros E. injection E as <- _. apply Hc. decide_it.
Qed.

(** The end of the headers is found behind the last line, and not before. *)
Lemma data_found ws rest :
  Forall clean_line ws -> ws <> [] ->
  find_sub id (CRLF ++ CRLF) (lines_text ws ++ CRLF ++ rest) = Some (CRLF ++ CRLF ++ rest).
Proof.
  induction 1 as [|w ws Hw Hws IH]; [done|]. intros _.
  rewrite lines_text_cons, <- !app_assoc, find_end_line by (by apply clean_no_cr).
  destruct ws as [|w' ws].
  - simpl. done.
  - inversion_clear Hws. rewrite lines_not_crlf by done. by apply IH.
Qed.

Lemma data_not_found ws :
  Forall clean_line ws -> find_sub id (CRLF ++ CRLF) (lines_text ws ++ [CR]) = None.
Proof.
  induction 1 as [|w ws Hw Hws IH]; [done|].
  rewrite lines_text_cons, <- !app_assoc, find_end_line by (by apply clean_no_cr).
  destruct ws as [|w' ws]; [done|]. inversion_clear Hws. by rewrite lines_not_crlf.
Qed.

Section Head.
Context (code : Z) (reason : bytes) (hs : list (bytes * bytes)).
Hypothesis G : good_head code reason hs.
Let head := http_head code reason hs.

Lemma finish_head b : in_get_data (cstr (head ++ b)) = Some (cstr b).
Proof.
  rewrite cstr_app by (by apply head_no_nul). unfold in_get_data, strstr, head, http_head.
  rewrite <- app_assoc, data_found by (done || by apply head_lines_clean). done.
Qed.

Lemma not_finished g rest b :
  g ++ rest = head ++ b -> (length g < length head)%nat -> in_get_data (cstr g) = None.
Proof.
  intros E Hl.
  assert (exists u, g ++ u = lines_text (head_lines code reason hs) ++ [CR]) as [u Hu].
  { unfold head, http_head in *. rewrite length_app in Hl. simpl in Hl.
    exists (drop (length g) (lines_text (head_lines code reason hs) ++ [CR])).
    assert (g = take (length g) (lines_text (head_lines code reason hs) ++ [CR])) as Hg.
    { apply (f_equal (take (length g))) in E. rewrite take_app_length in E.
      rewrite E at 1. change CRLF with ([CR] ++ [LF]).
      rewrite (app_assoc _ [CR]), <- app_assoc. apply take_app_le.
      rewrite length_app. simpl. lia. }
    rewrite Hg at 1. apply take_drop. }
  assert (cstr g = g) as ->.
  { apply cstr_id. intros Hin.
    assert (0 ∈ lines_text (head_lines code reason hs) ++ [CR]) as Hin2
      by (rewrite <- Hu; apply elem_of_app; by left).
    apply elem_of_app in Hin2 as [Hin2|Hin2].
    - by apply (lines_no_nul _ (head_lines_clean _ _ _ G)).
    - revert Hin2. decide_it. }
  unfold in_get_data, strstr.
  rewrite (find_sub_prefix id _ g u); [done|]. rewrite Hu.
  by apply data_not_found, head_lines_clean.
Qed.

(** ** The headers *)
Lemma skip_clean_line type w t :
  occurs tolower type w = false -> type <> [] -> CR ∉ tolower <$> type -> LF ∉ tolower <$> type ->
  find_sub tolower type (w ++ CRLF ++ t) = find_sub tolower type t.
Proof.
  intros Hw Hne Hcr Hlf. unfold CRLF. change ([13; 10] ++ t) with (13 :: 10 :: t).
  rewrite find_sub_skip by done.
  change (10 :: t) with ([] ++ 10 :: t). apply find_sub_skip; [done|done|].
  unfold occurs. simpl. by destruct type.
Qed.

Lemma find_header type v t (l : list (bytes * bytes)) :
  type <> [] -> CR ∉ tolower <$> type -> LF ∉ tolower <$> type ->
  Forall (fun h => tolower <$> type = tolower <$> h.1
                   \/ occurs tolower type (header_line h) = false) l ->
  header type l = Some v ->
  exists n u, find_sub tolower type (lines_text (header_line <$> l) ++ t)
    = Some (n ++ B ": " ++ v ++ CRLF ++ u) /\ length n = length type.
Proof.
  intros Hne Hcr Hlf. induction l as [|[n w] l IH]; intros Hl Hv; [done|].
  inversion_clear Hl as [|? ? Hh Hl']. cbn [header] in Hv. rewrite fmap_cons, lines_text_cons.
  rewrite <- !app_assoc.
  destruct (decide (tolower <$> type = tolower <$> n)) as [En|En].
  - rewrite bool_decide_true in Hv by done. injection Hv as ->.
    exists n, (lines_text (header_line <$> l) ++ t). unfold header_line. simpl fst. simpl snd.
    rewrite <- !app_assoc. split.
    + apply find_sub_here, starts_spec. eauto.
    + apply (f_equal length) in En. rewrite !length_fmap in En. done.
  - rewrite bool_decide_false in Hv by done. destruct Hh as [?|Hh]; [done|].
    rewrite skip_clean_line by done. by apply IH.
Qed.

(** A header whose value is a number is read as that number. *)
Lemma header_int behind type v rest :
  type <> [] -> CR ∉ tolower <$> type -> LF ∉ tolower <$> type ->
  only_header type code reason hs -> header type hs = Some (dec v) -> 0 <= v <= INT_MAX ->
  in_get_header_info_int behind (head ++ rest) type = v.
Proof.
  intros Hne Hcr Hlf [Hst Hhs] Hv Hr.
  destruct (find_header type (dec v) (CRLF ++ rest) hs Hne Hcr Hlf Hhs Hv) as (n & u & E & Hn).
  unfold in_get_header_info_int, in_get_header_info_str, strcasestr, head, http_head, head_lines.
  rewrite lines_text_cons, <- !app_assoc, skip_clean_line, E by done.
  unfold behind_name. rewrite (proj2 (Nat.ltb_lt _ _)) by (rewrite length_app, Hn; simpl; lia).
  replace (drop (length type + 1) (n ++ B ": " ++ dec v ++ CRLF ++ u))
    with (32 :: dec v ++ CRLF ++ u).
  2: { rewrite <- Hn, <- drop_drop, drop_app_length. done. }
  assert (skip_blank (32 :: dec v ++ CRLF ++ u) = dec v ++ CRLF ++ u) as ->.
  { destruct (dec_cons v) as (c & t & -> & Hc). simpl.
    by rewrite (proj1 (digit_not_blank c Hc)). }
  by apply atoi_dec_stop.
Qed.
End Head.

(** ** The theorem *)
Section Answer.
Context {S : Type} {pending : Z -> S -> bytes} {delay : S -> nat} `{SocketStream S pending delay}.
Implicit Types (s : cst S).
Context (code : Z) (reason : bytes) (hs : list (bytes * bytes)).
Hypothesis G : good_head code reason hs.
Let head := http_head code reason hs.

(** The first part that is received ends the headers. *)
Lemma recv_head fuel fd s m body :
  c_mq s = pTo m -> still (pending := pending) fd s = head ++ body ->
  (length (head ++ body) + delays (delay := delay) s < fuel)%nat ->
  exists b s', comm_recv_n fuel fd 1023 (Some in_check_header_finish) s
      = Ok ((strlen (head ++ b), head ++ b), s') /\
    body = b ++ still (pending := pending) fd s' /\
    (delays (delay := delay) s' <= delays (delay := delay) s)%nat /\ same_but_net s s'.
Proof.
  intros Hm Hst Hf.
  destruct (recv_loop_ok fuel fd 1023 (Some in_check_header_finish) [] s m)
    as (g & s' & E & Happ & _ & Hstop & Hd & Hsame).
  - done.
  - reflexivity.
  - rewrite Hst. change ([] ++ head ++ body) with (head ++ body). rewrite stops_some.
    unfold in_check_header_finish, head. rewrite finish_head by done. by rewrite andb_false_r.
  - by rewrite Hst.
  - rewrite Hst in Happ. change ([] ++ head ++ body) with (head ++ body) in Happ.
    destruct (decide (length g < length head)%nat) as [Hl|Hl].
    + exfalso. rewrite stops_some in Hstop. unfold in_check_header_finish in Hstop.
      rewrite (not_finished code reason hs G g _ body Happ Hl) in Hstop.
      rewrite andb_true_r in Hstop. apply negb_true_iff, Z.ltb_ge in Hstop.
      pose proof (gh_size _ _ _ G) as Hsize. fold head in Hsize. unfold strlen in *. lia.
    + assert (g = head ++ drop (length head) g) as Hg.
      { apply (f_equal (take (length head))) in Happ.
        rewrite take_app_length, take_app_le in Happ by lia.
        rewrite <- Happ at 1. by rewrite take_drop. }
      exists (drop (length head) g), s'. rewrite <- Hg. split_and!; try done.
      rewrite Hg, <- app_assoc in Happ. by apply app_inv_head in Happ.
Qed.

(** What [sscanf] and [strcspn] find in the status line. *)
Lemma status_scanned b :
  sscanf_status (head ++ b) = (Some code, Some reason) /\ 0 < strcspn (head ++ b) CRLF /\
  strlen reason < strcspn (head ++ b) CRLF.
Proof using G.
  assert (exists rest, head ++ b = B "HTTP/1.1 " ++ dec code ++ B " " ++ reason ++ CRLF ++ rest)
    as [rest ->].
  { eexists. unfold head, http_head, head_lines. rewrite lines_text_cons.
    unfold status_line. rewrite <- !app_assoc. reflexivity. }
  destruct (gh_reason _ _ _ G) as (c & t & Ec & Hsp).
  pose proof (gh_reason_clean _ _ _ G) as [_ Hcl].
  assert (Forall (fun x => x ∉ CRLF) reason) as Hcl'.
  { eapply Forall_impl; [exact Hcl|]. intros x Hx Hin. apply Hx. by apply elem_of_cons; right. }
  assert (strcspn (B "HTTP/1.1 " ++ dec code ++ B " " ++ reason ++ CRLF ++ rest) CRLF
          = strlen (status_line code reason)) as ->.
  { unfold strcspn. f_equal.
    pose proof (status_clean code reason (gh_reason_clean _ _ _ G)) as [_ Hs].
    replace (B "HTTP/1.1 " ++ dec code ++ B " " ++ reason ++ CRLF ++ rest)
      with (status_line code reason ++ 13 :: 10 :: rest).
    - apply span_not_app; [|decide_it].
      eapply Forall_impl; [exact Hs|]. intros x Hx Hin. apply Hx. by apply elem_of_cons; right.
    - unfold status_line. by rewrite <- !app_assoc. }
  rewrite (sscanf_status_line code reason c t rest (gh_code _ _ _ G) Ec Hsp Hcl').
  assert (strlen reason < strlen (status_line code reason)) as Hlt.
  { unfold status_line, strlen. rewrite !length_app. cbn. lia. }
  split_and!; [done| |done]. unfold strlen in *. lia.
Qed.
Lemma read_status_ok b s :
  read_status (head ++ b) s =
  Ok (Some reason, Cst (c_net s) (c_errno s) (c_mq s) (c_info s)
                     (with_result code (c_ret s)) (c_reason s)).
Proof using G.
  destruct (status_scanned b) as (E & H0' & Hlt). unfold read_status.
  rewrite E, (proj2 (Z.eqb_neq _ 0)), (proj2 (Z.ltb_lt _ _) Hlt) by lia. done.
Qed.

(** The rest of the body. *)
Lemma recv_body_ok fuel fd s m b :
  c_mq s = pTo m ->
  (length (still (pending := pending) fd s) + delays (delay := delay) s < fuel)%nat ->
  exists s', recv_body fuel fd (strlen (b ++ still (pending := pending) fd s)) b s
      = Ok (Some (b ++ still (pending := pending) fd s), s') /\
    still (pending := pending) fd s' = [] /\ same_but_net s s'.
Proof.
  intros Hm Hf. unfold recv_body.
  assert (strlen (b ++ still fd s) = strlen b + strlen (still (pending := pending) fd s)) as ->
    by (unfold strlen; rewrite length_app; lia).
  rewrite (proj2 (Z.ltb_ge _ _)) by (unfold strlen; lia).
  destruct (still fd s) as [|x rest] eqn:Est.
  - rewrite (proj2 (Z.ltb_ge _ _)) by (unfold strlen; simpl; lia).
    exists s. by rewrite app_nil_r.
  - rewrite (proj2 (Z.ltb_lt _ _)) by (unfold strlen; simpl; lia).
    replace (strlen b + strlen (x :: rest) - strlen b) with (strlen (x :: rest)) by lia.
    destruct (recv_loop_ok fuel fd (strlen (x :: rest)) None [] s m)
      as (g & s' & E & Happ & Hle & Hstop & Hd & Hsame).
    + done.
    + done.
    + rewrite Est. rewrite stops_none. simpl app. by rewrite Z.ltb_irrefl.
    + by rewrite Est.
    + rewrite Est in Happ. simpl app in Happ.
      rewrite stops_none in Hstop. apply negb_true_iff, Z.ltb_ge in Hstop.
      assert (length g = length (x :: rest)) as Hlen by (unfold strlen in *; lia).
      pose proof (f_equal length Happ) as Hl2. rewrite length_app in Hl2.
      assert (still (pending := pending) fd s' = []) as Hnil.
      { apply length_zero_iff_nil. lia. }
      rewrite Hnil, app_nil_r in Happ. subst g.
      unfold comm_recv_n. run E. simpl fst. simpl snd. rewrite Z.eqb_refl. simpl negb. cbn match.
      eexists. split; [reflexivity|done].
Qed.

Lemma keep_alive_ok fd t s m :
  c_mq s = pTo m ->
  exists m', (if 0 <? t then comm_set_timeout_by_fd fd t ;;; ret tt else ret tt) s
    = Ok (tt, Cst (c_net s) (c_errno s) (pTo m') (c_info s) (c_ret s) (c_reason s)).
Proof.
  intros Hm. destruct (0 <? t).
  - unfold comm_set_timeout_by_fd, upd_mq, the_mq, set_mq, modify, bind, ret. rewrite Hm.
    destruct (set_timeout_in fd t (o_conn_list m)) as [r l]. rewrite Hm. eauto.
  - exists m. unfold ret. destruct s. simpl in *. by subst.
Qed.

(** C29: An answer with a complete head is read to its end, in whatever parts the
    connection delivers it: the code, the reason, the position and the body are
    the ones of the answer.  The code 404 is a failure, at which the next server
    is tried. *)
Theorem recv_answer_spec fuel fd s m body :
  c_mq s = pTo m -> still (pending := pending) fd s = head ++ body ->
  only_header (B "Content-Length") code reason hs ->
  header (B "Content-Length") hs = Some (dec (strlen body)) -> strlen body < INT_MAX ->
  (length (head ++ body) + delays (delay := delay) s < fuel)%nat ->
  exists s', recv_answer fuel fd s
      = Ok (if code =? MQ_GET_MSG_END then MQ_FAIL else MQ_OK, s') /\
    r_result (c_ret s') = code /\
    (code <> MQ_GET_MSG_END ->
      r_reason (c_ret s') = take MQ_RET_REASON_SIZE reason /\
      r_data (c_ret s') = Some (cstr body) /\ r_data_len (c_ret s') = strlen (cstr body) /\
      (forall pos, only_header (B "Pos") code reason hs ->
        header (B "Pos") hs = Some (dec pos) -> 0 <= pos <= INT_MAX ->
        r_pos (c_ret s') = pos) /\
      still (pending := pending) fd s' = []).
Proof.
  intros Hm Hst Hoc Hcl Hmax Hf. unfold recv_answer.
  destruct (recv_head fuel fd s m body Hm Hst Hf) as (b & s1 & E1 & Hb & Hd1 & Hsame1).
  run E1. cbn [fst snd].
  rewrite (proj2 (Z.ltb_ge (strlen (head ++ b)) 0)) by (unfold strlen; lia).
  unfold head at 1. rewrite finish_head by done.
  assert (cstr (head ++ b) = head ++ cstr b) as Hcs by (apply cstr_app; by apply head_no_nul).
  rewrite Hcs. run (read_status_ok (cstr b) s1). erewrite bind_ok by reflexivity.
  cbn [c_ret r_result with_result].
  destruct (Z.eqb_spec code MQ_GET_MSG_END) as [E404|E404].
  { eexists. split; [reflexivity|]. split; [done|]. by intros []. }
  erewrite bind_ok by reflexivity.
  assert (in_get_header_info_int behind_text (head ++ cstr b) (B "Content-Length") = strlen body) as ->.
  { apply header_int; [discriminate|decide_it|decide_it|assumption|assumption|].
    unfold strlen in *; lia. }
  rewrite (proj2 (Z.ltb_ge (strlen body) 0)) by (unfold strlen; lia).
  rewrite (proj2 (Z.eqb_neq (strlen body) INT_MAX)) by lia.
  destruct Hsame1 as (Hm1 & Hi1 & Hr1 & Hre1).
  match goal with |- context [bind (if 0 <? ?t then _ else _) _ ?s2] =>
    destruct (keep_alive_ok fd t s2 m) as [m' E2]; [cbn; congruence|] end.
  run E2. cbn [c_net c_errno c_mq c_info c_ret c_reason].
  rewrite length_app.
  replace (length head + length (cstr b) - length (cstr b))%nat with (length head) by lia.
  rewrite drop_app_length.
  match goal with |- context [bind (recv_body _ _ _ _) _ ?s2] =>
    destruct (recv_body_ok fuel fd s2 m' b) as (s3 & E3 & Hp3 & Hsame3); [done| |] end.
  { unfold still, delays in *. cbn [c_net]. rewrite Hb, !length_app in Hf. lia. }
  unfold still in E3. cbn [c_net] in E3. fold (still (pending := pending) fd s1) in E3.
  rewrite <- Hb in E3. run E3.
  destruct (stream_malloc fd (c_net s3)) as (n4 & E4 & Hp4).
  run (sys_run _ _ _ _ E4). cbn [negb]. cbn iota.
  do 2 erewrite bind_ok by reflexivity.
  destruct Hsame3 as (Hm3 & Hi3 & Hr3 & Hre3). cbn [c_ret] in Hr3.
  eexists. split; [reflexivity|]. cbn [c_ret c_net with_ret_reason with_data r_result r_reason
    r_data r_data_len r_pos]. rewrite Hr3. split; [done|]. intros _.
  split_and!; try done.
  - intros pos Hop Hpos Hr. apply header_int; [discriminate|decide_it|decide_it|assumption..].
  - unfold still in *. cbn [c_net]. by rewrite Hp4.
Qed.
End Answer.
