(* ===== verification/ClientFds.v ===== *)
(** * The descriptors of the client

    Every socket the client opens is in its list of connections or closed again
    before a call returns, and the list is closed at the end, but for one kind: a
    socket whose [connect] succeeds at once is given up without being closed.  What
    the kernel promises about descriptors is the class [SocketFds]; the proofs are
    about [KnownFds], the descriptors less those that were connected at once. *)
From S2P Require Import Prelude.
From S2P Require Import CLib.
From S2P Require Import CStr.
From S2P Require Import MqClient.

(** [opened s] are the descriptors of the process, and [at_once s] those of them on
    which [connect] has returned 0. *)
Class SocketFds (S : Type) `{Sockets S} (opened at_once : S -> gset Z) : Prop := {
  sf_socket s r s' : sk_socket s = Ok (r, s') -> at_once s' = at_once s /\
    match r with
    | inl fd => 0 <= fd /\ (fd ∉ opened s) /\ opened s' = {[fd]} ∪ opened s
    | inr _ => opened s' = opened s
    end;
  sf_close fd s r s' : sk_close fd s = Ok (r, s') ->
    opened s' = opened s ∖ {[fd]} /\ at_once s' = at_once s ∖ {[fd]};
  sf_connect fd a p s r s' : sk_connect fd a p s = Ok (r, s') -> opened s' = opened s /\
    match r with
    | None => fd ∈ opened s /\ at_once s' = {[fd]} ∪ at_once s
    | Some _ => at_once s' = at_once s
    end;
  sf_nonblock fd s r s' : sk_nonblock fd s = Ok (r, s') -> opened s' = opened s /\ at_once s' = at_once s;
  sf_so_error fd s r s' : sk_so_error fd s = Ok (r, s') -> opened s' = opened s /\ at_once s' = at_once s;
  sf_poll fd e t s r s' : sk_poll fd e t s = Ok (r, s') -> opened s' = opened s /\ at_once s' = at_once s;
  sf_writev fd b s r s' : sk_writev fd b s = Ok (r, s') -> opened s' = opened s /\ at_once s' = at_once s;
  sf_recv fd n s r s' : sk_recv fd n s = Ok (r, s') -> opened s' = opened s /\ at_once s' = at_once s;
  sf_clock s r s' : sk_clock s = Ok (r, s') -> opened s' = opened s /\ at_once s' = at_once s;
  sf_rand s r s' : sk_rand s = Ok (r, s') -> opened s' = opened s /\ at_once s' = at_once s;
  sf_malloc s r s' : sk_malloc s = Ok (r, s') -> opened s' = opened s /\ at_once s' = at_once s;
  sf_at_once s : at_once s ⊆ opened s
}.

(** The descriptors that are not given up. *)
Class KnownFds (S : Type) `{Sockets S} (known : S -> gset Z) : Prop := {
  fds_socket s r s' : sk_socket s = Ok (r, s') ->
    match r with
    | inl fd => 0 <= fd /\ (fd ∉ known s) /\ known s' = {[fd]} ∪ known s
    | inr _ => known s' = known s
    end;
  fds_close fd s r s' : sk_close fd s = Ok (r, s') -> known s' = known s ∖ {[fd]};
  fds_connect fd a p s r s' : sk_connect fd a p s = Ok (r, s') ->
    match r with None => known s' = known s ∖ {[fd]} | Some _ => known s' = known s end;
  fds_nonblock fd s r s' : sk_nonblock fd s = Ok (r, s') -> known s' = known s;
  fds_so_error fd s r s' : sk_so_error fd s = Ok (r, s') -> known s' = known s;
  fds_poll fd e t s r s' : sk_poll fd e t s = Ok (r, s') -> known s' = known s;
  fds_writev fd b s r s' : sk_writev fd b s = Ok (r, s') -> known s' = known s;
  fds_recv fd n s r s' : sk_recv fd n s = Ok (r, s') -> known s' = known s;
  fds_clock s r s' : sk_clock s = Ok (r, s') -> known s' = known s;
  fds_rand s r s' : sk_rand s = Ok (r, s') -> known s' = known s;
  fds_malloc s r s' : sk_malloc s = Ok (r, s') -> known s' = known s
}.

Section Known.
Context {S : Type} (opened at_once : S -> gset Z) `{SocketFds S opened at_once}.
Definition less_at_once (s : S) : gset Z := opened s ∖ at_once s.

Lemma less_same s s' : opened s' = opened s /\ at_once s' = at_once s -> less_at_once s' = less_at_once s.
Proof using. unfold less_at_once. by intros [-> ->]. Qed.
#[export] Instance socket_known : KnownFds S less_at_once.
Proof.
  split; intros;
    try (apply less_same; first [by eapply sf_nonblock|by eapply sf_so_error|by eapply sf_poll|by eapply sf_writev
                                |by eapply sf_recv|by eapply sf_clock|by eapply sf_rand|by eapply sf_malloc]);
    unfold less_at_once.
  - pose proof (sf_at_once s) as Hs. apply sf_socket in H1 as [-> Hr]. destruct r as [fd|e]; [|by rewrite Hr].
    destruct Hr as (H2 & H3 & ->). split_and!; [done|set_solver|set_solver].
  - apply sf_close in H1 as [-> ->]. set_solver.
  - apply sf_connect in H1 as [-> Hr]. destruct r as [e|]; [by rewrite Hr|]. destruct Hr as [_ ->]. set_solver.
Qed.
(** What is open at the end, when nothing was given up at the start. *)
Lemma less_back s s' : at_once s = ∅ -> less_at_once s' = less_at_once s ->
  opened s' = opened s ∪ at_once s' /\ opened s ## at_once s'.
Proof using All.
  unfold less_at_once. intros -> E. pose proof (sf_at_once s'). rewrite difference_empty_L in E.
  split; [|set_solver]. rewrite <- E. apply set_eq. intros x. rewrite elem_of_union, elem_of_difference.
  destruct (decide (x ∈ at_once s')); set_solver.
Qed.
End Known.

Create HintDb keeps.

Section Keeps.
Context {S : Type} {known : S -> gset Z} `{KnownFds S known}.
Implicit Types (s : cst S).

(** What the theorem is about: the descriptors, the mode and the list. *)
Definition view (s : cst S) : gset Z * option (Z * list Z) :=
  (known (c_net s),
   match c_mq s with
   | pTo m => Some (o_keep_alive m, s_fd <$> o_conn_list m)
   | _ => None
   end).

(** ** Statements that leave it as it is *)
Definition keeps {A} (m : M (cst S) A) : Prop :=
  forall s a s', m s = Ok (a, s') -> view s' = view s.

Lemma keeps_ret {A} (a : A) : keeps (ret a).
Proof. intros s b s' E. unfold ret in E. by simplify_eq. Qed.
Lemma keeps_fault {A} : keeps (@fault _ A).
Proof. done. Qed.
Lemma keeps_bind {A C} (m : M (cst S) A) (f : A -> M (cst S) C) :
  keeps m -> (forall a, keeps (f a)) -> keeps (bind m f).
Proof.
  intros Hm Hf s b s' E. apply bind_inv in E as (a & s1 & E1 & E2).
  apply Hm in E1. apply Hf in E2. congruence.
Qed.
Lemma keeps_gets {A} (f : cst S -> A) : keeps (gets f).
Proof. intros s a s' E. unfold gets in E. by simplify_eq. Qed.
Lemma keeps_get : keeps get.
Proof. intros s a s' E. unfold get in E. by simplify_eq. Qed.
Lemma keeps_modify f : (forall s, view (f s) = view s) -> keeps (modify f).
Proof. intros Hf s a s' E. unfold modify in E. by simplify_eq. Qed.
Lemma keeps_sys {A} (m : M S A) :
  (forall n a n', m n = Ok (a, n') -> known n' = known n) -> keeps (sys m).
Proof.
  intros Hm s a s' E. unfold sys in E. destruct (m (c_net s)) as [[b n]| |] eqn:En; simplify_eq.
  apply Hm in En. unfold view. simpl. by rewrite En.
Qed.
Lemma keeps_the_mq : keeps the_mq.
Proof. intros s a s' E. unfold the_mq in E. destruct (c_mq s); by simplify_eq. Qed.
Lemma keeps_conn i : keeps (conn i).
Proof.
  apply keeps_bind; [apply keeps_the_mq|]. intros m.
  destruct (if i <? 0 then _ else _); [apply keeps_ret|apply keeps_fault].
Qed.
Lemma keeps_dest v : keeps (dest_of v).
Proof. unfold dest_of. destruct (_ <? _)%nat; [apply keeps_ret|apply keeps_fault]. Qed.
Lemma keeps_upd_mq f :
  (forall m, o_keep_alive (f m) = o_keep_alive m /\
             s_fd <$> o_conn_list (f m) = s_fd <$> o_conn_list m) -> keeps (upd_mq f).
Proof.
  intros Hf s a s' E. unfold upd_mq, bind, the_mq, set_mq, modify in E.
  destruct (c_mq s) as [|m|] eqn:Em; simplify_eq. unfold view. simpl. rewrite Em.
  by rewrite (proj1 (Hf m)), (proj2 (Hf m)).
Qed.
Lemma keeps_upd_conn i f : (forall v, s_fd (f v) = s_fd v) -> keeps (upd_conn i f).
Proof.
  intros Hf s a s' E. unfold upd_conn in E. apply bind_inv in E as (v & s1 & E1 & E2).
  pose proof (keeps_conn _ _ _ _ E1) as Hv. unfold conn in E1.
  apply bind_inv in E1 as (m & s2 & E1 & E3). unfold the_mq in E1.
  destruct (c_mq s) as [|m0|] eqn:Em; simplify_eq.
  destruct (if i <? 0 then _ else _) as [v0|] eqn:El; [|done]. unfold ret in E3. simplify_eq.
  unfold upd_mq, bind, the_mq, set_mq, modify in E2. rewrite Em in E2. simplify_eq.
  unfold view. simpl. rewrite Em. rewrite list_fmap_insert, Hf.
  rewrite list_insert_id; [done|]. destruct (i <? 0); [done|].
  by rewrite list_lookup_fmap, El.
Qed.

Lemma keeps_put_errno e : keeps (put_errno e).
Proof. by apply keeps_modify. Qed.
Lemma keeps_set_info i : keeps (set_info i).
Proof. by apply keeps_modify. Qed.
Lemma keeps_upd_ret f : keeps (upd_ret f).
Proof. by apply keeps_modify. Qed.
Lemma keeps_set_reason r : keeps (set_reason r).
Proof. by apply keeps_modify. Qed.
End Keeps.

#[export] Hint Resolve keeps_ret keeps_fault keeps_gets keeps_get keeps_the_mq keeps_conn
  keeps_dest keeps_put_errno keeps_set_info keeps_upd_ret keeps_set_reason : keeps.

(** Follows the structure of a statement; what is left are loops and updates. *)
Ltac keep_step :=
  match goal with
  | |- keeps (bind _ _) => apply keeps_bind; [|intros ?]
  | |- keeps (sys _) =>
      apply keeps_sys; intros ? ? ?;
      first [apply fds_nonblock|apply fds_so_error|apply fds_poll
            |apply fds_writev|apply fds_recv|apply fds_clock|apply fds_rand|apply fds_malloc]
  | |- keeps (match ?x with _ => _ end) => destruct x
  | |- keeps (let '(_, _) := ?x in _) => destruct x
  | |- keeps _ => solve [eauto with keeps]
  end.
Ltac keep := repeat keep_step.

Section Functions.
Context {S : Type} {known : S -> gset Z} `{KnownFds S known}.
Implicit Types (s : cst S).
Abbreviation keeps := (keeps (known := known)).

Lemma keeps_show n t : keeps (SHOW_ERROR n t).
Proof. unfold SHOW_ERROR. keep. Qed.
Hint Resolve keeps_show : keeps.
Lemma keeps_wait fuel fd ev t : keeps (comm_wait_fd fuel fd ev t).
Proof.
  unfold comm_wait_fd. keep.
  induction fuel as [|fuel IH]; [done|]. cbn [wait_loop]. keep.
Qed.
Hint Resolve keeps_wait : keeps.
Lemma keeps_rest_time : keeps comm_get_rest_time.
Proof. unfold comm_get_rest_time. keep. Qed.
Hint Resolve keeps_rest_time : keeps.
Lemma keeps_writev fuel fd b : keeps (writev_loop fuel fd b).
Proof. induction fuel as [|fuel IH]; [done|]. cbn [writev_loop]. keep. Qed.
Hint Resolve keeps_writev : keeps.
Lemma keeps_send fuel fd : keeps (comm_send_http_req fuel fd).
Proof. unfold comm_send_http_req. keep. Qed.
Lemma keeps_recv fuel fd n fin : keeps (comm_recv_n fuel fd n fin).
Proof.
  unfold comm_recv_n. generalize (@nil Z) as got.
  induction fuel as [|fuel IH]; intros got; [done|]. cbn [recv_loop]. keep.
Qed.
Hint Resolve keeps_send keeps_recv : keeps.

Lemma set_timeout_fds fd t l : s_fd <$> (set_timeout_in fd t l).2 = s_fd <$> l.
Proof.
  induction l as [|v l IH]; [done|]. cbn [set_timeout_in].
  destruct (s_fd v =? fd); [done|]. destruct (set_timeout_in fd t l) as [r l'].
  cbn [snd] in *. by rewrite !fmap_cons, IH.
Qed.
Lemma keeps_set_timeout fd t : keeps (comm_set_timeout_by_fd fd t).
Proof.
  intros s a s' E. unfold comm_set_timeout_by_fd in E.
  apply bind_inv in E as (m & s1 & E1 & E). unfold the_mq in E1.
  destruct (c_mq s) as [|m0|] eqn:Em; simplify_eq.
  pose proof (set_timeout_fds fd t (o_conn_list m)) as Hl.
  destruct (set_timeout_in fd t (o_conn_list m)) as [r l].
  unfold upd_mq, bind, the_mq, set_mq, modify, ret in E. rewrite Em in E. simplify_eq.
  unfold view. simpl in *. by rewrite Em, Hl.
Qed.
Hint Resolve keeps_set_timeout : keeps.

Lemma keeps_recv_answer fuel fd : keeps (recv_answer fuel fd).
Proof. unfold recv_answer, recv_body, read_status. keep. Qed.
Hint Resolve keeps_recv_answer : keeps.

Lemma keeps_lookup m : keeps (lookup_order m).
Proof.
  unfold lookup_order. keep. generalize (seqZ 0 (o_count m)).
  induction (Z.to_nat (o_count m - 1)) as [|j IH]; intros l; cbn [shuffle_loop]; [keep|].
  unfold swap. keep.
Qed.
End Functions.
#[export] Hint Resolve keeps_show keeps_wait keeps_rest_time keeps_writev keeps_send keeps_recv
  keeps_set_timeout keeps_recv_answer keeps_lookup : keeps.

(** ** The invariant

    [owns base o fds]: the descriptors [o] are the ones of the list [fds], each
    once, and those of [base], which are none of them. *)
Record owns (base o : gset Z) (fds : list Z) : Prop := {
  owns_open x : x ∈ o <-> x ∈ base \/ (x <> -1 /\ x ∈ fds);
  owns_once i j x : fds !! i = Some x -> fds !! j = Some x -> x <> -1 -> i = j;
  owns_apart x : x ∈ fds -> x <> -1 -> x ∉ base;
  owns_range x : x ∈ fds -> -1 <= x
}.

Lemma elem_of_insert (l : list Z) i x y :
  (i < length l)%nat ->
  y ∈ <[i:=x]> l <-> y = x \/ exists j, j <> i /\ l !! j = Some y.
Proof.
  intros Hi. rewrite list_elem_of_lookup. split.
  - intros [j Hj]. destruct (decide (j = i)) as [->|Hne].
    + rewrite list_lookup_insert_eq in Hj by done. naive_solver.
    + rewrite list_lookup_insert_ne in Hj by done. eauto.
  - intros [->|(j & Hne & Hj)].
    + exists i. by rewrite list_lookup_insert_eq.
    + exists j. by rewrite list_lookup_insert_ne.
Qed.

Lemma insert_once (l : list Z) i x :
  (forall i j z, l !! i = Some z -> l !! j = Some z -> z <> -1 -> i = j) ->
  (x <> -1 -> x ∉ l) -> (i < length l)%nat ->
  forall k j z, <[i:=x]> l !! k = Some z -> <[i:=x]> l !! j = Some z -> z <> -1 -> k = j.
Proof.
  intros Hon Hx Hi k j z Hk Hj Hz.
  rewrite list_lookup_insert_Some in Hk, Hj.
  destruct Hk as [(-> & -> & _)|(Hk1 & Hk2)], Hj as [(<- & Hxz & _)|(Hj1 & Hj2)]; try done.
  - exfalso. apply Hx; [done|]. by eapply list_elem_of_lookup_2.
  - subst z. exfalso. apply Hx; [done|]. by eapply list_elem_of_lookup_2.
  - eauto.
Qed.

Lemma owns_empty base o fds i x :
  owns base o fds -> fds !! i = Some x -> x <> -1 ->
  owns base (o ∖ {[x]}) (<[i:=-1]> fds).
Proof.
  intros [Ho Hon Ha Hr] Hi Hx. pose proof (lookup_lt_Some _ _ _ Hi) as Hlt.
  pose proof (list_elem_of_lookup_2 _ _ _ Hi) as Hin.
  split.
  - intros y. rewrite elem_of_difference, elem_of_singleton, Ho, elem_of_insert by done.
    split.
    + intros [[Hb|[Hy Hiny]] Hne]; [by left|]. right. split; [done|]. right.
      apply list_elem_of_lookup in Hiny as [j Hj]. exists j. split; [|done].
      intros ->. congruence.
    + intros [Hb|[Hy [->|(j & Hj & Hjy)]]]; [|done|].
      * split; [by left|]. intros ->. by apply (Ha x).
      * split; [right; split; [done|by eapply list_elem_of_lookup_2]|].
        intros ->. apply Hj. by eapply Hon.
  - by apply insert_once.
  - intros y. rewrite elem_of_insert by done. intros [->|(j & _ & Hj)] Hy; [done|].
    apply Ha; [by eapply list_elem_of_lookup_2|done].
  - intros y. rewrite elem_of_insert by done. intros [->|(j & _ & Hj)]; [lia|].
    apply Hr. by eapply list_elem_of_lookup_2.
Qed.

Lemma owns_fill base o fds i y :
  owns base o fds -> fds !! i = Some (-1) -> y ∉ o -> 0 <= y ->
  owns base ({[y]} ∪ o) (<[i:=y]> fds).
Proof.
  intros [Ho Hon Ha Hr] Hi Hy H0. pose proof (lookup_lt_Some _ _ _ Hi) as Hlt.
  assert ((y ∉ fds) /\ (y ∉ base)) as [Hyf Hyb].
  { split; intros Hin; apply Hy, Ho; [right; split; [lia|done]|by left]. }
  split.
  - intros x. rewrite elem_of_union, elem_of_singleton, Ho, elem_of_insert by done.
    split.
    + intros [->|[Hb|[Hx Hin]]]; [right; split; [lia|by left]|by left|].
      right. split; [done|]. right. apply list_elem_of_lookup in Hin as [j Hj].
      exists j. split; [|done]. intros ->. congruence.
    + intros [Hb|[Hx [->|(j & _ & Hj)]]]; [by right; left|by left|].
      right. right. split; [done|by eapply list_elem_of_lookup_2].
  - by apply insert_once.
  - intros x. rewrite elem_of_insert by done. intros [->|(j & _ & Hj)] Hx; [done|].
    apply Ha; [by eapply list_elem_of_lookup_2|done].
  - intros x. rewrite elem_of_insert by done. intros [->|(j & _ & Hj)]; [lia|].
    apply Hr. by eapply list_elem_of_lookup_2.
Qed.

(** Closing every connection with the descriptor [fd]. *)
Definition forget (fd : Z) (x : Z) : Z := if (x =? fd) && negb (x =? -1) then -1 else x.
Definition drops (fd : Z) (fds : list Z) (o : gset Z) : gset Z :=
  if bool_decide (fd ∈ fds /\ fd <> -1) then o ∖ {[fd]} else o.

Lemma forget_fixed fd x : x <> fd \/ fd = -1 -> forget fd x = x.
Proof.
  intros Hx. unfold forget. destruct (Z.eqb_spec x fd) as [->|]; [|done].
  destruct Hx as [?| ->]; [congruence|done].
Qed.
Lemma owns_forget base o fds fd :
  owns base o fds -> owns base (drops fd fds o) (forget fd <$> fds).
Proof.
  intros W. unfold drops. destruct (decide (fd ∈ fds /\ fd <> -1)) as [[Hin Hne]|Hno].
  - rewrite bool_decide_true by done. apply list_elem_of_lookup in Hin as [i Hi].
    replace (forget fd <$> fds) with (<[i:=-1]> fds); [by apply owns_empty|].
    apply list_eq. intros j. rewrite list_lookup_fmap.
    destruct (decide (j = i)) as [->|Hj].
    + rewrite list_lookup_insert_eq by (by eapply lookup_lt_Some). rewrite Hi. simpl.
      unfold forget. rewrite Z.eqb_refl. by rewrite (proj2 (Z.eqb_neq fd (-1)) Hne).
    + rewrite list_lookup_insert_ne by done. destruct (fds !! j) as [x|] eqn:Ex; [|done].
      simpl. rewrite forget_fixed; [done|]. left. intros ->. apply Hj. by eapply owns_once.
  - rewrite bool_decide_false by done.
    replace (forget fd <$> fds) with fds; [done|].
    transitivity (id <$> fds); [by rewrite list_fmap_id|].
    apply list_fmap_ext. intros i x Hi. symmetry.
    apply (forget_fixed fd x). destruct (decide (fd = -1)); [by right|]. left. intros ->.
    apply Hno. split; [by eapply list_elem_of_lookup_2|done].
Qed.

(** [ret a] has returned. *)
Ltac ret_eq E := unfold ret in E; injection E; clear E; intros; subst.

(** ** The operations on descriptors *)
Section Owns.
Context {S : Type} {known : S -> gset Z} `{KnownFds S known}.
Implicit Types (s : cst S).
Abbreviation keeps := (keeps (known := known)).
Abbreviation view := (view (known := known)).
Abbreviation vw := (gset Z * option (Z * list Z))%type.

(** What a statement does to the view, given its result. *)
Definition yields {A} (m : M (cst S) A) (R : A -> vw -> vw -> Prop) : Prop :=
  forall s a s', m s = Ok (a, s') -> R a (view s) (view s').

Lemma yields_fact {A C} (P : A -> Prop) (m : M (cst S) A) (f : A -> M (cst S) C) R :
  keeps m -> (forall s a s', m s = Ok (a, s') -> P a) ->
  (forall a, P a -> yields (f a) R) -> yields (bind m f) R.
Proof.
  intros Hm HP Hf s b s' E. apply bind_inv in E as (a & s1 & E1 & E2).
  pose proof (HP _ _ _ E1) as Ha. apply Hm in E1. apply (Hf a Ha) in E2. by rewrite E1 in E2.
Qed.
Lemma yields_keep {A C} (m : M (cst S) A) (f : A -> M (cst S) C) R :
  keeps m -> (forall a, yields (f a) R) -> yields (bind m f) R.
Proof. intros Hm Hf. by apply (yields_fact (fun _ => True)). Qed.
Lemma yields_ret {A} (a : A) (R : A -> vw -> vw -> Prop) :
  (forall v, R a v v) -> yields (ret a) R.
Proof. intros HR s b s' E. unfold ret in E. by simplify_eq. Qed.

Lemma view_close fd s a s' :
  sys (sk_close fd) s = Ok (a, s') -> view s' = ((view s).1 ∖ {[fd]}, (view s).2).
Proof.
  unfold sys. destruct (sk_close fd (c_net s)) as [[b n]| |] eqn:E; [|done|done].
  intros E'. simplify_eq. apply fds_close in E. unfold ClientFds.view. simpl. by rewrite E.
Qed.
(** The two ways [connect_loop] ends. *)
Definition connected (fd r : Z) (v v' : vw) : Prop :=
  (r = fd /\ v' = v) \/ (r = -1 /\ v' = (v.1 ∖ {[fd]}, v.2)).

Lemma close_it fd : yields (sys (sk_close fd) ;;; ret (-1)) (connected fd).
Proof.
  intros s r s' E. apply bind_inv in E as (u & s1 & E1 & E). unfold ret in E. simplify_eq.
  right. split; [done|]. by eapply view_close.
Qed.

Ltac yield_step :=
  match goal with
  | |- yields (sys (sk_close _) ;;; _) _ => apply close_it
  | |- yields (bind _ _) _ => apply yields_keep; [solve [keep]|intros ?]
  | |- yields (match ?x with _ => _ end) _ => destruct x
  | |- yields (ret _) _ => apply yields_ret; intros ?; left; done
  end.

Lemma connect_view fd a p s r s' : sys (sk_connect fd a p) s = Ok (r, s') ->
  view s' = match r with None => ((view s).1 ∖ {[fd]}, (view s).2) | Some _ => view s end.
Proof.
  unfold sys. destruct (sk_connect fd a p (c_net s)) as [[b n]| |] eqn:E; [|done|done].
  intros E'. simplify_eq. apply fds_connect in E. unfold ClientFds.view. simpl. by destruct r; rewrite E.
Qed.
(** A socket that is connected at once counts as closed: it is given up. *)
Lemma connect_loop_yields fuel fd a p : yields (connect_loop fuel fd a p) (connected fd).
Proof.
  induction fuel as [|fuel IH]; [done|]. cbn [connect_loop]. intros s r s' E.
  apply bind_inv in E as (c & s1 & E1 & E). apply connect_view in E1. destruct c as [e|].
  - rewrite <- E1. revert s1 r s' E1 E. enough (yields (A := Z) _ (connected fd)) as Hy by (intros ???? E; exact (Hy _ _ _ E)).
    repeat first [apply IH|yield_step].
  - ret_eq E. right. by split.
Qed.

(** A new descriptor, or none. *)
Definition created (r : Z) (v v' : vw) : Prop :=
  (r = -1 /\ v' = v) \/ (0 <= r /\ (r ∉ v.1) /\ v' = ({[r]} ∪ v.1, v.2)).

Lemma socket_yields : yields (sys_int sk_socket) created.
Proof.
  intros s r s' E. unfold sys_int in E. apply bind_inv in E as (x & s1 & E1 & E).
  unfold sys in E1. destruct (sk_socket (c_net s)) as [[y n]| |] eqn:Es; simplify_eq.
  apply fds_socket in Es. unfold ClientFds.view, created. destruct x as [fd|e].
  - unfold ret in E. simplify_eq. destruct Es as (? & ? & Hop). right. simpl. by rewrite Hop.
  - unfold bind, put_errno, modify, ret in E. simplify_eq. left. simpl. by rewrite Es.
Qed.

Lemma yields_seq {A C} (R1 : A -> vw -> vw -> Prop) (R2 : A -> C -> vw -> vw -> Prop)
    (m : M (cst S) A) (f : A -> M (cst S) C) R :
  yields m R1 -> (forall a, yields (f a) (R2 a)) ->
  (forall a b v v1 v2, R1 a v v1 -> R2 a b v1 v2 -> R b v v2) -> yields (bind m f) R.
Proof.
  intros Hm Hf HR s b s' E. apply bind_inv in E as (a & s1 & E1 & E2).
  apply Hm in E1. apply Hf in E2. eauto.
Qed.

Lemma create_yields fuel curr : yields (comm_create_socket fuel curr) created.
Proof.
  unfold comm_create_socket. apply yields_keep; [keep|]. intros c.
  apply (yields_seq created (fun a b v v' =>
    if a <? 0 then b = a /\ v' = v else connected a b v v')); [apply socket_yields| |].
  - intros a. destruct (a <? 0).
    + apply yields_keep; [keep|]. intros _. by apply yields_ret.
    + repeat first [apply connect_loop_yields|yield_step].
  - intros a b v v1 v2 [[-> ->]|(Ha & Hno & ->)] H2.
    + destruct H2 as [-> ->]. by left.
    + rewrite (proj2 (Z.ltb_ge a 0) Ha) in H2. destruct H2 as [[-> ->]|[-> ->]]; [by right|].
      left. split; [done|]. destruct v as [o l]. simpl in *. f_equal. set_solver.
Qed.
(** ** The list *)

(** The list is there, the client is in mode [ka], and the descriptors of the
    process are those of the list and [base]. *)
Definition safe (base : gset Z) (ka : Z) (v : vw) : Prop :=
  exists fds, v.2 = Some (ka, fds) /\ owns base v.1 fds.

Lemma conn_inv i s v s' :
  conn i s = Ok (v, s') ->
  s' = s /\ exists ka fds, (view s).2 = Some (ka, fds) /\ fds !! Z.to_nat i = Some (s_fd v).
Proof.
  intros E. unfold conn in E. apply bind_inv in E as (m & s1 & E1 & E). unfold the_mq in E1.
  destruct (c_mq s) as [|m0|] eqn:Em; simplify_eq.
  destruct (if i <? 0 then _ else _) as [v0|] eqn:El; [|done]. ret_eq E.
  split; [done|]. unfold ClientFds.view. rewrite Em. simpl. do 2 eexists. split; [done|].
  destruct (i <? 0); [done|]. by rewrite list_lookup_fmap, El.
Qed.

Lemma upd_conn_inv i f x s a s' :
  (forall v, s_fd (f v) = x) -> upd_conn i f s = Ok (a, s') ->
  exists ka fds, (view s).2 = Some (ka, fds) /\
    view s' = ((view s).1, Some (ka, <[Z.to_nat i := x]> fds)).
Proof.
  intros Hf E. unfold upd_conn in E. apply bind_inv in E as (v & s1 & E1 & E).
  apply conn_inv in E1 as (-> & ka & fds & Hv & Hl).
  unfold upd_mq in E. apply bind_inv in E as (m & s2 & E2 & E). unfold the_mq in E2.
  destruct (c_mq s) as [|m0|] eqn:Em; simplify_eq. unfold set_mq, modify in E. simplify_eq.
  exists ka, fds. split; [done|]. unfold ClientFds.view in *. rewrite Em in *. simpl in *.
  simplify_eq. by rewrite list_fmap_insert, Hf.
Qed.

Lemma get_from_list_safe base ka fuel curr d t s r s' :
  safe base ka (view s) -> in_get_from_list fuel curr d t s = Ok (r, s') ->
  safe base ka (view s').
Proof.
  intros Hs E. unfold in_get_from_list in E. apply bind_inv in E as (v & s1 & E1 & E).
  apply conn_inv in E1 as (-> & ka' & fds & Hv & Hl).
  destruct Hs as (fds' & Hv' & W). rewrite Hv in Hv'. simplify_eq.
  assert (safe base ka (view s)) as Hs by (exists fds'; done).
  destruct (Z.eqb_spec (s_fd v) (-1)) as [Hno|Hfd].
  { by ret_eq E. }
  apply bind_inv in E as (d' & s1 & E1 & E). apply (keeps_dest (known := known)) in E1.
  rewrite <- E1 in *.
  destruct (negb _). { by ret_eq E. }
  apply bind_inv in E as (ev & s2 & E2 & E). apply (keeps_wait (known := known)) in E2.
  rewrite <- E2 in *.
  destruct (ev =? 0).
  - apply bind_inv in E as (u & s3 & E3 & E). ret_eq E.
    apply (keeps_upd_conn (known := known)) in E3; [|done]. by rewrite E3.
  - apply bind_inv in E as (u & s3 & E3 & E). apply view_close in E3.
    apply bind_inv in E as (u' & s4 & E4 & E). ret_eq E.
    apply (upd_conn_inv _ _ (-1)) in E4 as (ka1 & fds1 & Hv1 & E4); [|done].
    rewrite E3 in *. simpl in *. rewrite Hv in Hv1. simplify_eq.
    exists (<[Z.to_nat curr := -1]> fds1). rewrite E4. simpl. split; [done|].
    by apply owns_empty.
Qed.

Lemma add_to_list_safe base ka curr fd d t s r s' o fds :
  view s = ({[fd]} ∪ o, Some (ka, fds)) -> owns base o fds -> 0 <= fd -> fd ∉ o ->
  in_add_to_list curr fd d t s = Ok (r, s') -> safe base ka (view s').
Proof.
  intros Hv W H0' Hno E. unfold in_add_to_list in E.
  apply bind_inv in E as (v & s1 & E1 & E).
  apply conn_inv in E1 as (-> & ka' & fds' & Hv' & Hl). rewrite Hv in Hv'. simpl in Hv'.
  simplify_eq. apply bind_inv in E as (u & s1 & E1 & E).
  apply bind_inv in E as (u' & s2 & E2 & E). ret_eq E.
  apply (upd_conn_inv _ _ fd) in E2 as (ka1 & fds1 & Hv1 & E2); [|done]. rewrite E2.
  exists (<[Z.to_nat curr := fd]> fds'). destruct (Z.eqb_spec (s_fd v) (-1)) as [Hx|Hx].
  - ret_eq E1. rewrite Hv in Hv1 |- *. simpl in *. simplify_eq.
    split; [done|]. apply owns_fill; try done. by rewrite Hl, Hx.
  - apply view_close in E1. rewrite E1, Hv in Hv1 |- *. simpl in *. simplify_eq. split; [done|].
    assert (s_fd v ∈ o) as Hin.
    { apply (owns_open _ _ _ W). right. split; [done|]. by eapply list_elem_of_lookup_2. }
    replace (({[fd]} ∪ o) ∖ {[s_fd v]}) with ({[fd]} ∪ o ∖ {[s_fd v]}).
    2: { assert (fd <> s_fd v) by (intros ->; done). set_solver. }
    rewrite <- (list_insert_insert_eq fds1 (Z.to_nat curr) fd (-1)).
    apply owns_fill; [by apply owns_empty| |set_solver|done].
    apply list_lookup_insert_eq. by eapply lookup_lt_Some.
Qed.

Lemma the_mq_inv s m s' :
  the_mq s = Ok (m, s') ->
  s' = s /\ (view s).2 = Some (o_keep_alive m, s_fd <$> o_conn_list m) /\ c_mq s = pTo m.
Proof.
  unfold the_mq. destruct (c_mq s) as [|m0|] eqn:Em; [done| |done]. intros E. simplify_eq.
  unfold ClientFds.view. by rewrite Em.
Qed.

Lemma get_socket_safe base ka fuel curr s r s' :
  safe base ka (view s) -> comm_get_socket fuel curr s = Ok (r, s') -> safe base ka (view s').
Proof.
  intros Hs E. unfold comm_get_socket in E. apply bind_inv in E as (i & s1 & E1 & E).
  apply (keeps_gets (known := known)) in E1. rewrite <- E1 in Hs.
  apply bind_inv in E as (x & s2 & E2 & E). apply (get_from_list_safe base ka) in E2; [|done].
  destruct (x <? 0); [|by ret_eq E].
  apply bind_inv in E as (fd & s3 & E3 & E). apply create_yields in E3.
  destruct E3 as [[-> E3]|(H0' & Hno & E3)].
  - rewrite <- E3 in E2. unfold ret in E. cbn in E. by injection E as _ <-.
  - rewrite (proj2 (Z.ltb_ge fd 0) H0') in E.
    apply bind_inv in E as (u & s4 & E4 & E). ret_eq E.
    destruct E2 as (fds & Hv & W). rewrite Hv in E3. by eapply add_to_list_safe.
Qed.

Lemma del_from_inv fd l s r s' :
  del_from fd l s = Ok (r, s') ->
  s_fd <$> r.2 = forget fd <$> (s_fd <$> l) /\
  view s' = (drops fd (s_fd <$> l) (view s).1, (view s).2).
Proof.
  revert s r s'. induction l as [|v l IH]; intros s r s' E; cbn [del_from] in E.
  - ret_eq E. split; [done|]. unfold drops.
    rewrite bool_decide_false by set_solver. by destruct (view s').
  - assert (forall a o, drops a (s_fd v :: (s_fd <$> l)) o
            = if (s_fd v =? a) && negb (s_fd v =? -1) then o ∖ {[a]} else drops a (s_fd <$> l) o)
      as Hd.
    { intros a o. unfold drops. destruct (Z.eqb_spec (s_fd v) a) as [<-|Hne]; simpl.
      - destruct (Z.eqb_spec (s_fd v) (-1)) as [E1|E1]; simpl.
        + rewrite !bool_decide_false; [done|naive_solver..].
        + rewrite bool_decide_true; [done|]. split; [by left|done].
      - erewrite bool_decide_ext; [done|]. rewrite elem_of_cons. naive_solver. }
    rewrite !fmap_cons, Hd. unfold forget at 1.
    destruct ((s_fd v =? fd) && negb (s_fd v =? -1)) eqn:Eb.
    + apply bind_inv in E as (u & s1 & E1 & E). apply view_close in E1.
      apply bind_inv in E as (r1 & s2 & E2 & E). apply IH in E2 as [Hr Hv].
      ret_eq E. cbn [snd]. rewrite fmap_cons, Hr. split; [done|].
      apply andb_true_iff in Eb as [Efd%Z.eqb_eq _]. subst fd.
      rewrite Hv, E1. simpl. f_equal. unfold drops. destruct (bool_decide _); [set_solver|done].
    + apply bind_inv in E as (r1 & s2 & E2 & E). apply IH in E2 as [Hr Hv].
      ret_eq E. cbn [snd]. by rewrite fmap_cons, Hr.
Qed.

Lemma del_list_safe base ka fd s r s' :
  safe base ka (view s) -> in_del_from_list fd s = Ok (r, s') -> safe base ka (view s').
Proof.
  intros (fds & Hv & W) E. unfold in_del_from_list in E.
  apply bind_inv in E as (m & s1 & E1 & E). apply the_mq_inv in E1 as (-> & Hm & _).
  rewrite Hv in Hm. injection Hm as Hka0 Hfds0. subst ka fds.
  apply bind_inv in E as (x & s1 & E1 & E). apply del_from_inv in E1 as [Hl Hv1].
  apply bind_inv in E as (u & s2 & E2 & E). ret_eq E.
  unfold upd_mq in E2. apply bind_inv in E2 as (m1 & s3 & E3 & E2).
  apply the_mq_inv in E3 as (-> & Hm1 & _). rewrite Hv1 in Hm1. cbn [fst snd] in Hm1. rewrite Hv in Hm1.
  injection Hm1 as Hka Hfds.
  unfold set_mq, modify in E2. injection E2 as _ <-.
  exists (forget fd <$> (s_fd <$> o_conn_list m)). unfold ClientFds.view in *. simpl in *.
  rewrite Hl. split; [congruence|]. injection Hv1 as Hv1 _. rewrite Hv1. by apply owns_forget.
Qed.

(** ** One request *)

(** Behind [operate_body] an open socket is in the list, or is the one that is
    closed next. *)
Definition held (base : gset Z) (ka r : Z) (v : vw) : Prop :=
  if ka =? MQ_TRUE then safe base ka v
  else (r = -1 /\ safe base ka v) \/
       (0 <= r /\ exists o fds, v = ({[r]} ∪ o, Some (ka, fds)) /\ (r ∉ o) /\ owns base o fds).

Lemma operate_body_held base ka fuel curr s r s' :
  safe base ka (view s) -> operate_body fuel curr s = Ok (r, s') -> held base ka r.1 (view s').
Proof.
  intros Hs E. unfold operate_body in E. apply bind_inv in E as (m & s1 & E1 & E).
  apply the_mq_inv in E1 as (-> & Hm & _).
  assert (o_keep_alive m = ka) as Hka.
  { destruct Hs as (fds & Hv & _). rewrite Hv in Hm. by simplify_eq. }
  apply bind_inv in E as (fd & s1 & E1 & E).
  assert (held base ka fd (view s1)) as Hh.
  { unfold held. rewrite Hka in E1. destruct (ka =? MQ_TRUE); [by eapply get_socket_safe|].
    apply create_yields in E1. destruct E1 as [[-> ->]|(H0' & Hno & ->)]; [by left|].
    right. split; [done|]. destruct Hs as (fds & Hv & W).
    exists (view s).1, fds. by rewrite Hv. }
  assert (r.1 = fd /\ view s' = view s1) as [-> ->]; [|done].
  destruct (fd <? 0).
  - apply bind_inv in E as (st & s2 & E2 & E). unfold get in E2. simplify_eq.
    apply bind_inv in E as (u & s3 & E3 & E). apply bind_inv in E as (u' & s4 & E4 & E).
    apply (keeps_upd_ret (known := known)) in E3, E4. ret_eq E.
    split; [done|congruence].
  - apply bind_inv in E as (x & s2 & E2 & E). apply (keeps_send (known := known)) in E2.
    destruct (x <? 0).
    + apply bind_inv in E as (e & s3 & E3 & E). apply bind_inv in E as (u' & s4 & E4 & E).
      apply (keeps_gets (known := known)) in E3. apply (keeps_upd_ret (known := known)) in E4.
      ret_eq E. split; [done|congruence].
    + apply bind_inv in E as (e & s3 & E3 & E). apply (keeps_recv_answer (known := known)) in E3.
      ret_eq E. split; [done|congruence].
Qed.

Lemma held_mode base ka r s : held base ka r (view s) -> exists fds, (view s).2 = Some (ka, fds).
Proof.
  unfold held. destruct (ka =? MQ_TRUE); [intros (fds & Hv & _); eauto|].
  intros [[_ (fds & Hv & _)]|(_ & o & fds & Hv & _)]; [eauto|]. rewrite Hv. simpl. eauto.
Qed.

(** The socket of a client that keeps no connections is closed. *)
Lemma held_closed base ka fd s u s' :
  ka = MQ_TRUE \/ ka = MQ_FALSE -> held base ka fd (view s) ->
  (if (ka =? MQ_FALSE) && negb (fd =? -1) then sys (sk_close fd) else ret tt) s = Ok (u, s') ->
  safe base ka (view s').
Proof.
  unfold held. intros [-> | ->] Hh E; cbn in Hh, E; [by ret_eq E|].
  destruct Hh as [[-> Hs]|(H0' & o & fds & Hv & Hno & W)].
  - cbn in E. by ret_eq E.
  - rewrite (proj2 (Z.eqb_neq fd (-1))) in E by lia. cbn in E.
    apply view_close in E. rewrite E, Hv. exists fds. simpl. split; [done|].
    by replace (({[fd]} ∪ o) ∖ {[fd]}) with o by set_solver.
Qed.

Lemma operate_safe base ka fuel curr s r s' :
  ka = MQ_TRUE \/ ka = MQ_FALSE ->
  safe base ka (view s) -> in_mq_operate fuel curr s = Ok (r, s') -> safe base ka (view s').
Proof.
  intros Hka Hs E. unfold in_mq_operate in E.
  apply bind_inv in E as (u1 & s1 & E1 & E). apply (keeps_set_reason (known := known)) in E1.
  apply bind_inv in E as (m & s2 & E2 & E). apply (keeps_the_mq (known := known)) in E2.
  apply bind_inv in E as (u3 & s3 & E3 & E).
  assert (view s3 = view s2) as H3.
  { destruct (_ =? 0); [|by ret_eq E3].
    by apply (keeps_upd_mq (known := known)) in E3. }
  apply bind_inv in E as (tm & s4 & E4 & E).
  apply (keeps_sys (known := known)) in E4; [|by apply fds_clock].
  apply bind_inv in E as (i & s5 & E5 & E). apply (keeps_gets (known := known)) in E5.
  apply bind_inv in E as (u6 & s6 & E6 & E). apply (keeps_set_info (known := known)) in E6.
  apply bind_inv in E as ([fd ok] & s7 & E7 & E).
  apply (operate_body_held base ka) in E7; [|congruence]. cbn [fst] in E7.
  apply bind_inv in E as (m8 & s8 & E8 & E). apply the_mq_inv in E8 as (-> & Hm & _).
  destruct (held_mode _ _ _ _ E7) as [fds Hk]. rewrite Hk in Hm. injection Hm as Hk' _.
  rewrite <- Hk' in E.
  apply bind_inv in E as (u9 & s9 & E9 & E).
  pose proof (held_closed _ _ _ _ _ _ Hka E7 E9) as H9.
  apply bind_inv in E as (rt & s10 & E10 & E). apply (keeps_gets (known := known)) in E10.
  rewrite <- E10 in H9.
  apply bind_inv in E as (u11 & s11 & E11 & E). ret_eq E.
  match type of E11 with (if ?b then _ else _) _ = _ => destruct b end; [|by ret_eq E11].
  apply bind_inv in E11 as (u12 & s12 & E12 & E11). ret_eq E11.
  by eapply del_list_safe.
Qed.
End Owns.

(** ** The calls of the API, from [mq_init] to [mq_fini] *)
Inductive api_call :=
| CallPut (name data : option bytes) (conf : option mq_conf)
| CallGet (name : option bytes) (conf : option mq_conf)
| CallAllSet (name : option bytes) (opt data : Z) (conf : option mq_conf)
| CallSet (server name : option bytes) (opt data : Z) (conf : option mq_conf)
| CallGetOpt (server name : option bytes) (opt data : Z) (conf : option mq_conf).

Section Session.
Context {S : Type} {known : S -> gset Z} `{KnownFds S known}.
Implicit Types (s : cst S).
Abbreviation keeps := (keeps (known := known)).
Abbreviation view := (view (known := known)).

Definition api (fuel : nat) (c : api_call) : M (cst S) (option mq_return) :=
  match c with
  | CallPut name data conf => mq_put_msg fuel name data conf
  | CallGet name conf => mq_get_msg fuel name conf
  | CallAllSet name opt data conf => mq_all_set_opt fuel name opt data conf
  | CallSet server name opt data conf => mq_set_opt fuel server name opt data conf
  | CallGetOpt server name opt data conf => mq_get_opt fuel server name opt data conf
  end.
Fixpoint apis (fuel : nat) (l : list api_call) : M (cst S) unit :=
  match l with
  | [] => ret tt
  | c :: l => api fuel c ;;; apis fuel l
  end.
Definition session (fuel : nat) (servers : list bytes) (count look_up timeout keep_alive : Z)
    (calls : list api_call) : M (cst S) Z :=
  let! p := mq_init servers count look_up timeout keep_alive in
  set_mq p ;;; apis fuel calls ;;; mq_fini.

Definition good (base : gset Z) (v : gset Z * option (Z * list Z)) : Prop :=
  match v.2 with
  | Some (ka, _) => (ka = MQ_TRUE \/ ka = MQ_FALSE) /\ safe base ka v
  | None => v.1 = base
  end.
Definition preserves {A} (base : gset Z) (m : M (cst S) A) : Prop :=
  forall s a s', good base (view s) -> m s = Ok (a, s') -> good base (view s').

Lemma preserves_keeps {A} base (m : M (cst S) A) : keeps m -> preserves base m.
Proof. intros Hm s a s' G E. apply Hm in E. by rewrite E. Qed.
Lemma preserves_bind {A C} base (m : M (cst S) A) (f : A -> M (cst S) C) :
  preserves base m -> (forall a, preserves base (f a)) -> preserves base (bind m f).
Proof.
  intros Hm Hf s b s' G E. apply bind_inv in E as (a & s1 & E1 & E2).
  eapply Hf; [|exact E2]. by eapply Hm.
Qed.

Lemma preserves_operate base fuel curr : preserves base (in_mq_operate fuel curr).
Proof.
  intros s a s' G E. unfold good in G.
  destruct ((view s).2) as [[ka fds]|] eqn:Ev.
  - destruct G as [Hka Hs]. pose proof (operate_safe _ _ _ _ _ _ _ Hka Hs E) as Hs'.
    unfold good. destruct Hs' as (fds' & Hv & W). rewrite Hv. split; [done|]. by exists fds'.
  - exfalso. unfold in_mq_operate in E. apply bind_inv in E as (u & s1 & E1 & E).
    apply (keeps_set_reason (known := known)) in E1.
    apply bind_inv in E as (m & s2 & E2 & E).
    apply (the_mq_inv (known := known)) in E2 as (-> & Hv & _).
    congruence.
Qed.

Ltac preserve :=
  repeat match goal with
  | |- preserves _ (in_mq_operate _ _) => apply preserves_operate
  | |- preserves _ (bind _ _) => apply preserves_bind; [|intros ?]
  | |- preserves _ (match ?x with _ => _ end) => destruct x
  | |- preserves _ _ => solve [apply preserves_keeps; keep|auto]
  end.

Lemma preserves_try base fuel curr order : preserves base (try_servers fuel curr order).
Proof.
  revert curr. induction order as [|i order IH]; intros curr; cbn [try_servers]; preserve.
Qed.
Hint Resolve preserves_try : core.
Lemma preserves_do base fuel : preserves base (in_do_operate fuel).
Proof. unfold in_do_operate. preserve. Qed.
Hint Resolve preserves_do : core.
Lemma preserves_at base fuel server : preserves base (at_server fuel server).
Proof.
  unfold at_server. preserve. generalize 0 as i.
  match goal with |- context [o_conn_list ?m] => induction (o_conn_list m) as [|v l IH] end;
    intros i; cbn [find_server]; preserve.
Qed.
Hint Resolve preserves_at : core.
Lemma preserves_opt base name_of unknown num name opt data conf (act : M (cst S) unit) :
  preserves base act ->
  preserves base (opt_call name_of unknown num name opt data conf act).
Proof. intros Ha. unfold opt_call, start_call. preserve. Qed.

Lemma preserves_api base fuel c : preserves base (api fuel c).
Proof.
  destruct c; cbn [api].
  - unfold mq_put_msg, start_call. preserve.
  - unfold mq_get_msg, start_call. preserve.
  - apply preserves_opt. apply preserves_bind; [|auto].
    apply preserves_keeps, keeps_upd_mq. done.
  - unfold mq_set_opt. destruct server; [|preserve]. by apply preserves_opt.
  - unfold mq_get_opt. destruct server; [|preserve]. by apply preserves_opt.
Qed.
Hint Resolve preserves_api : core.
Lemma preserves_apis base fuel l : preserves base (apis fuel l).
Proof. induction l as [|c l IH]; cbn [apis]; preserve. Qed.

(** ** The start and the end *)
Lemma init_srvs_inv l s r s' :
  init_srvs l s = Ok (r, s') -> view s' = view s /\
  match r with Some vs => Forall (fun v => s_fd v = -1) vs | None => True end.
Proof.
  revert r s s'. induction l as [|a l IH]; intros r s s' E; cbn [init_srvs] in E.
  - ret_eq E. by split.
  - apply bind_inv in E as (v & s1 & E1 & E).
    assert (view s1 = view s /\ match v with Some v => s_fd v = -1 | None => True end)
      as [Hw1 Hv].
    { unfold init_srv in E1. destruct (bool_decide _); [|by ret_eq E1].
      apply bind_inv in E1 as (ip & s2 & E2 & E1). unfold str2ip in E2.
      destruct (_ <? 32)%nat; [|done]. ret_eq E2.
      destruct (negb _); [by ret_eq E1|]. destruct (_ <=? _)%nat; [|done]. by ret_eq E1. }
    destruct v as [v|]; [|by ret_eq E].
    apply bind_inv in E as (x & s2 & E2 & E). apply IH in E2 as [Hw2 Hx]. ret_eq E.
    split; [congruence|]. destruct x; [by constructor|done].
Qed.

Lemma assert_inv {A} b (m : M (cst S) A) s r : (assert b ;;; m) s = Ok r -> m s = Ok r.
Proof. unfold assert, bind. by destruct b. Qed.

Lemma mq_init_inv l count look_up timeout ka s p s' :
  mq_init l count look_up timeout ka s = Ok (p, s') -> view s' = view s /\
  match p with
  | pTo m => o_keep_alive m = ka /\ Forall (fun v => s_fd v = -1) (o_conn_list m)
  | _ => True
  end.
Proof.
  intros E. unfold mq_init in E. do 4 apply assert_inv in E.
  apply bind_inv in E as (ok & s1 & E1 & E).
  apply (keeps_sys (known := known)) in E1; [|by apply fds_malloc].
  destruct (negb ok); [by ret_eq E|].
  apply bind_inv in E as (ok2 & s2 & E2 & E).
  apply (keeps_sys (known := known)) in E2; [|by apply fds_malloc].
  destruct (negb ok2); [done|].
  apply bind_inv in E as (r & s3 & E3 & E). apply init_srvs_inv in E3 as [Hw3 Hr].
  destruct r as [vs|].
  - destruct (_ <? _)%nat; [done|]. ret_eq E. simpl. split; [congruence|done].
  - ret_eq E. split; [congruence|done].
Qed.

Lemma owns_start base vs : Forall (fun v => s_fd v = -1) vs -> owns base base (s_fd <$> vs).
Proof.
  intros Hvs. assert (forall x, x ∈ s_fd <$> vs -> x = -1) as Hx.
  { intros x (v & -> & Hin)%list_elem_of_fmap. rewrite Forall_forall in Hvs. by apply Hvs. }
  split.
  - intros x. split; [by left|]. intros [?|[Hne Hin]]; [done|]. by apply Hx in Hin.
  - intros i j x Hi _ Hne. apply list_elem_of_lookup_2, Hx in Hi. done.
  - intros x Hin Hne. by apply Hx in Hin.
  - intros x ->%Hx. lia.
Qed.

Lemma close_all_inv l s r s' :
  close_all l s = Ok (r, s') -> forall x,
  x ∈ (view s').1 <-> x ∈ (view s).1 /\ ~ (x <> -1 /\ x ∈ s_fd <$> l).
Proof.
  revert s. induction l as [|v l IH]; intros s E x; cbn [close_all] in E.
  - ret_eq E. rewrite fmap_nil, elem_of_nil. tauto.
  - apply bind_inv in E as (u & s1 & E1 & E). apply (IH s1) with (x := x) in E.
    rewrite E, fmap_cons, elem_of_cons. destruct (Z.eqb_spec (s_fd v) (-1)) as [Hv|Hv].
    + ret_eq E1. rewrite Hv. naive_solver.
    + apply (view_close (known := known)) in E1. rewrite E1. cbn [fst].
      rewrite elem_of_difference, elem_of_singleton. naive_solver.
Qed.

(** Between [mq_init] and [mq_fini] the known descriptors are kept. *)
Lemma session_keeps fuel servers count look_up timeout keep_alive calls s r s' :
  keep_alive = MQ_TRUE \/ keep_alive = MQ_FALSE ->
  session fuel servers count look_up timeout keep_alive calls s = Ok (r, s') ->
  known (c_net s') = known (c_net s).
Proof.
  intros Hka E. unfold session in E. apply bind_inv in E as (p & s1 & E1 & E).
  apply mq_init_inv in E1 as [Hv1 Hp]. apply bind_inv in E as (u & s2 & E2 & E).
  assert (good (known (c_net s)) (view s2)) as G2.
  { unfold set_mq, modify in E2. injection E2 as _ <-.
    unfold ClientFds.view in Hv1. injection Hv1 as Hop _.
    unfold good, ClientFds.view. simpl. destruct p as [|m|]; simpl; try done.
    destruct Hp as [-> Hfds]. split; [done|]. exists (s_fd <$> o_conn_list m).
    simpl. rewrite Hop. split; [done|]. by apply owns_start. }
  apply bind_inv in E as (u3 & s3 & E3 & E). pose proof (preserves_apis _ _ _ _ _ _ G2 E3) as G3.
  unfold mq_fini in E. apply bind_inv in E as (p4 & s4 & E4 & E).
  unfold gets in E4. injection E4 as <- <-. unfold good, ClientFds.view in G3. simpl in G3.
  destruct (c_mq s3) as [|m|] eqn:Em; cbn [is_null] in E.
  - by ret_eq E.
  - apply bind_inv in E as (x & s5 & E5 & E). apply bind_inv in E as (u6 & s6 & E6 & E).
    ret_eq E. unfold set_mq, modify in E6. injection E6 as _ <-. simpl.
    unfold in_del_list in E5. apply bind_inv in E5 as (m' & s7 & E7 & E5).
    apply (the_mq_inv (known := known)) in E7 as (-> & _ & Em'). rewrite Em in Em'.
    injection Em' as <-.
    apply bind_inv in E5 as (u8 & s8 & E8 & E5). ret_eq E5.
    pose proof (close_all_inv _ _ _ _ E8) as Hc.
    destruct G3 as (_ & fds & Hfds & W). simpl in *. injection Hfds as <-.
    apply set_eq. intros y. rewrite Hc, (owns_open _ _ _ W). split; [tauto|].
    intros Hb. split; [by left|]. intros [Hy Hin]. by apply (owns_apart _ _ _ W y).
  - exfalso. apply bind_inv in E as (x & s5 & E5 & E). unfold in_del_list in E5.
    apply bind_inv in E5 as (m' & s7 & E7 & E5).
    apply (the_mq_inv (known := known)) in E7 as (-> & _ & Em').
    congruence.
Qed.
End Session.

(** C31: From [mq_init] to [mq_fini] exactly the sockets that are connected at once
    are lost: after any calls, with any answers of the servers and any failures, the
    process has the descriptors it had before and those sockets on which [connect]
    has returned 0 at once; every other one is closed. *)
Theorem no_descriptor_leak {S : Type} {opened at_once : S -> gset Z} `{SocketFds S opened at_once}
    fuel servers count look_up timeout keep_alive calls (s : cst S) r s' :
  keep_alive = MQ_TRUE \/ keep_alive = MQ_FALSE -> at_once (c_net s) = ∅ ->
  session fuel servers count look_up timeout keep_alive calls s = Ok (r, s') ->
  opened (c_net s') = opened (c_net s) ∪ at_once (c_net s') /\ opened (c_net s) ## at_once (c_net s').
Proof.
  intros Hka Ha E. apply (less_back opened at_once); [done|].
  by apply (session_keeps (known := less_at_once opened at_once)) in E.
Qed.
