(* ===== verification/ClientWire.v ===== *)
(** * A network for the examples of the client

    [wire] is a kernel whose sockets deliver scripted answers: each request that
    is sent is followed by the next answer of [wi_answers], in the given parts,
    with calls in between that come too early or are interrupted. *)
From S2P Require Import Prelude.
From S2P Require Import CLib.
From S2P Require Import CStr.
From S2P Require Import MqClient.
From S2P Require Import ClientAnswer.
From S2P Require Import ClientFds.

(** A part of an answer has at least one byte. *)
Inductive wev := Part (b : Z) (bs : bytes) | Late (intr : bool).

Record wire := Wire {
  wi_open : list Z;
  wi_connects : list Z;          (* what connect answers, 0 or an error; then E_INPROGRESS *)
  wi_events : list wev;          (* what is received next, then the end *)
  wi_answers : list (list wev);
  wi_sent : list (Z * bytes);
  wi_rands : list Z;
  wi_once : list Z               (* connected at once *)
}.

Definition wi_with_open (l : list Z) (w : wire) : wire :=
  Wire l (wi_connects w) (wi_events w) (wi_answers w) (wi_sent w) (wi_rands w) (wi_once w).
Definition wi_with_events (l : list wev) (w : wire) : wire :=
  Wire (wi_open w) (wi_connects w) l (wi_answers w) (wi_sent w) (wi_rands w) (wi_once w).

Definition part_bytes (e : wev) : bytes :=
  match e with Part b bs => b :: bs | Late _ => [] end.
Definition wi_pending (fd : Z) (w : wire) : bytes := concat (part_bytes <$> wi_events w).
Definition wi_delay (w : wire) : nat :=
  length (filter (fun e => part_bytes e = []) (wi_events w)).
Definition wi_opened (w : wire) : gset Z := list_to_set (wi_open w).
Definition wi_at_once (w : wire) : gset Z := list_to_set (wi_once w) ∩ wi_opened w.

(** Parts of the given sizes. *)
Definition part (s : bytes) : list wev := match s with [] => [] | b :: bs => [Part b bs] end.

#[export] Instance wire_sockets : Sockets wire := {
  sk_socket w :=
    let fd := foldr Z.max 2 (wi_open w) + 1 in
    Ok (inl fd, Wire (fd :: wi_open w) (wi_connects w) (wi_events w) (wi_answers w) (wi_sent w) (wi_rands w)
                  (filter (fun x => x <> fd) (wi_once w)));
  sk_nonblock fd := ret None;
  sk_connect fd a p w :=
    match wi_connects w with
    | [] => Ok (Some E_INPROGRESS, w)
    | e :: l =>
        let done := (e =? 0) && bool_decide (fd ∈ wi_open w) in
        Ok (if done then None else Some (if e =? 0 then 9 else e),
            Wire (wi_open w) l (wi_events w) (wi_answers w) (wi_sent w) (wi_rands w)
              (if done then fd :: wi_once w else wi_once w))
    end;
  sk_so_error fd := ret (inl 0);
  sk_poll fd events t w :=
    Ok (inl (if events =? EV_POLLOUT then EV_POLLOUT
             else match wi_events w with [] => 0 | _ => EV_POLLIN end), w);
  sk_writev fd text w :=
    Ok (inl (strlen text),
        Wire (wi_open w) (wi_connects w) (wi_events w ++ default [] (head (wi_answers w)))
          (tail (wi_answers w)) (wi_sent w ++ [(fd, text)]) (wi_rands w) (wi_once w));
  sk_recv fd n w :=
    match wi_events w with
    | [] => Ok (inl [], w)
    | Late intr :: l => Ok (inr (if intr : bool then E_INTR else E_AGAIN), wi_with_events l w)
    | Part b bs :: l =>
        Ok (inl (take (Z.to_nat n) (b :: bs)),
            wi_with_events (part (drop (Z.to_nat n) (b :: bs)) ++ l) w)
    end;
  sk_close fd w := Ok (tt, wi_with_open (filter (fun x => x <> fd) (wi_open w)) w);
  sk_clock := ret (TSpec 0 0);
  sk_rand w :=
    match wi_rands w with
    | [] => Ok (0, w)
    | r :: l => Ok (r, Wire (wi_open w) (wi_connects w) (wi_events w) (wi_answers w) (wi_sent w) l (wi_once w))
    end;
  sk_malloc := ret true;
  inet_addr s := 16777343;
  inet_ntoa a := B "127.0.0.1";
  strerror e := B "failed";
  behind_text := []
}.

Lemma part_pending s l :
  concat (part_bytes <$> (part s ++ l)) = s ++ concat (part_bytes <$> l).
Proof. by destruct s. Qed.
Lemma part_delay s l :
  length (filter (fun e => part_bytes e = []) (part s ++ l))
  = length (filter (fun e => part_bytes e = []) l).
Proof. by destruct s. Qed.

#[export] Instance wire_stream : SocketStream wire wi_pending wi_delay.
Proof.
  split.
  - intros fd n w Hp Hn. simpl. unfold wi_pending, wi_delay in *.
    destruct (wi_events w) as [|[b bs|intr] l]; [done| |].
    + eexists _, _. split; [done|]. cbn [wi_events wi_with_events].
      rewrite part_pending, part_delay, app_assoc, take_drop. split_and!; try done.
      * destruct (Z.to_nat n) eqn:E; [lia|done].
      * unfold strlen. rewrite length_take. lia.
    + eexists _, _. split; [done|]. split; [destruct intr; auto|]. split; [done|].
      simpl. lia.
  - intros fd t w Hp. simpl. eexists _, _. split; [done|]. split; [done|].
    unfold wi_pending in Hp. destruct (wi_events w); [done|]. by split.
  - intros fd w. eexists _, _. split; [done|]. done.
  - intros fd w. eexists. split; [done|]. done.
Qed.

Lemma max_not_in l : foldr Z.max 2 l + 1 ∉ l.
Proof.
  assert (forall x, x ∈ l -> x <= foldr Z.max 2 l) as Hx.
  { induction l as [|y l IH]; intros x; [by intros ?%not_elem_of_nil|].
    rewrite elem_of_cons. simpl. intros [->|Hin]; [lia|]. specialize (IH _ Hin). lia. }
  intros Hin%Hx. lia.
Qed.

#[export] Instance wire_fds : SocketFds wire wi_opened wi_at_once.
Proof.
  split; simpl; unfold ret, wi_at_once, wi_opened.
  - intros w r w' E. simplify_eq. simpl. pose proof (max_not_in (wi_open w)) as Hm. split; [|split_and!].
    + apply set_eq. intros x. rewrite !elem_of_intersection, elem_of_union, elem_of_singleton, !elem_of_list_to_set,
        list_elem_of_filter.
      split; [intros [[Hne Hx] [->|?]]; done|]. intros [Hx Ho]. split_and!; [by intros ->|done|by right].
    + clear Hm. induction (wi_open w) as [|y l IH]; simpl; lia.
    + by rewrite elem_of_list_to_set.
    + done.
  - intros fd w r w' E. simplify_eq. simpl.
    assert (list_to_set (filter (fun x => x <> fd) (wi_open w)) =@{gset Z} list_to_set (wi_open w) ∖ {[fd]}) as ->.
    { apply set_eq. intros x. rewrite elem_of_difference, !elem_of_list_to_set, list_elem_of_filter, elem_of_singleton. tauto. }
    split; [done|]. set_solver.
  - intros fd a p w r w' E. destruct (wi_connects w) as [|e l]; [by simplify_eq|].
    destruct ((e =? 0) && _) eqn:Ed; simplify_eq; simpl; (split; [done|]); [|done].
    apply andb_true_iff in Ed as [_ Ed%bool_decide_eq_true_1]. split; [by apply elem_of_list_to_set|]. set_solver.
  - intros. by simplify_eq.
  - intros. by simplify_eq.
  - intros. by simplify_eq.
  - intros. by simplify_eq.
  - intros fd n w r w' E. destruct (wi_events w) as [|[] l]; by simplify_eq.
  - intros. by simplify_eq.
  - intros w r w' E. destruct (wi_rands w); by simplify_eq.
  - intros. by simplify_eq.
  - intros w. set_solver.
Qed.

(** ** A client with three servers *)
Definition text (l : list string) : bytes := concat (map (fun s => B s ++ CRLF) l).
Definition answer_of (l : list string) (body : string) : bytes := text l ++ CRLF ++ B body.
Definition whole (s : bytes) : list wev := part s.

Definition servers3 : list bytes := [B "10.0.0.1:8803"; B "10.0.0.2:8803"; B "10.0.0.3:8803"].
Definition srv3 (d : bytes) : mq_srv := MqSrv d 8803 (take 8 d) (-1) 0 0.
Definition client3 (look_up : Z) (w : wire) : cst wire :=
  Cst w 0 (pTo (MqObject 3 1000 look_up MQ_TRUE (map srv3 servers3)))
    (new_info [] [] NumNull None (MqConf None 0)) in_init_return [].

Definition found (body : string) : bytes :=
  answer_of ["HTTP/1.1 200 UCMQ_HTTP_OK"; "Pos: 7"; "Content-Length: 5"] body.
Definition empty_queue : bytes :=
  answer_of ["HTTP/1.1 404 UCMQ_HTTP_ERR_QUEUE_END"; "Content-Length: 0"] "".
