(* ===== verification/ClientSpec.v ===== *)
(** * What the client does

    The order in which it tries its servers, the theorems of [ClientAnswer] and
    [ClientFds] on concrete runs, and runs that end otherwise than the header of
    the library says. *)
From S2P Require Import Prelude.
From S2P Require Import CLib.
From S2P Require Import CStr.
From S2P Require Import MqClient.
From S2P Require Import ClientAnswer.
From S2P Require Import ClientFds.
From S2P Require Import ClientWire.

(** ** The choice of the server *)
Section Lookup.
Context {S : Type} `{Sockets S}.
Implicit Types (s : cst S).

Lemma swap_permutation a i j s a' s' : swap a i j s = Ok (a', s') -> a' ≡ₚ a.
Proof.
  unfold swap. destruct ((i <? 0) || (j <? 0)); [done|].
  destruct (a !! Z.to_nat i) as [t|] eqn:Ei; [|done].
  destruct (a !! Z.to_nat j) as [u|] eqn:Ej; [|done].
  unfold ret. intros E. injection E as <- _. by apply Permutation_insert_swap.
Qed.

Lemma shuffle_permutation count j a s a' s' :
  shuffle_loop count j a s = Ok (a', s') -> a' ≡ₚ a.
Proof.
  revert a s. induction j as [|j IH]; intros a s E; cbn [shuffle_loop] in E.
  - unfold ret in E. by injection E as <- _.
  - apply bind_inv in E as (r & s1 & _ & E). apply bind_inv in E as (b & s2 & E2 & E).
    apply swap_permutation in E2. apply IH in E. by rewrite E.
Qed.

Lemma lookup_order_permutation m s order s' :
  lookup_order m s = Ok (order, s') ->
  order ≡ₚ seqZ 0 (o_count m) /\
  (o_look_up m <> MQ_LOOKUP_RANDOM -> order = seqZ 0 (o_count m)).
Proof.
  unfold lookup_order. destruct (Z.eqb_spec (o_look_up m) MQ_LOOKUP_RANDOM) as [Hr|Hr]; intros E.
  - split; [by eapply shuffle_permutation|done].
  - unfold ret in E. by injection E as <- _.
Qed.

(** One request to server [i]. *)
Definition ask (fuel : nat) (i : Z) : M (cst S) Z :=
  let! v := conn i in
  let! d := dest_of v in
  let! info := gets c_info in
  set_info (with_i_dest d info) ;;;
  in_mq_operate fuel i.

(** The servers that fail, one after the other. *)
Inductive all_fail (fuel : nat) : list Z -> cst S -> cst S -> Prop :=
| all_fail_nil s : all_fail fuel [] s s
| all_fail_cons i l s s1 s' :
    ask fuel i s = Ok (MQ_FAIL, s1) -> all_fail fuel l s1 s' -> all_fail fuel (i :: l) s s'.

Lemma try_servers_ask fuel curr i order s :
  try_servers fuel curr (i :: order) s =
  bind (ask fuel i) (fun r => if r =? MQ_FAIL then try_servers fuel i order else ret i) s.
Proof.
  cbn [try_servers]. unfold ask, bind, gets, set_info, modify.
  destruct (conn i s) as [[v s1]| |]; [|done|done].
  destruct (dest_of v s1) as [[d s2]| |]; [|done|done]. cbn beta iota.
  match goal with |- context [in_mq_operate fuel i ?x] =>
    by destruct (in_mq_operate fuel i x) as [[r s3]| |] end.
Qed.

Lemma try_servers_inv fuel curr i order s c s' :
  try_servers fuel curr (i :: order) s = Ok (c, s') ->
  exists tried rest s1 r, i :: order = tried ++ c :: rest /\ all_fail fuel tried s s1 /\
    ask fuel c s1 = Ok (r, s') /\ (r <> MQ_FAIL \/ rest = []).
Proof.
  revert curr i s. induction order as [|j order IH]; intros curr i s E.
  - rewrite try_servers_ask in E. apply bind_inv in E as (r & s1 & E1 & E).
    assert (c = i /\ s' = s1) as [-> ->].
    { destruct (r =? MQ_FAIL); cbn [try_servers] in E; unfold ret in E; by injection E as <- <-. }
    exists [], [], s, r. split_and!; try done; [constructor|by right].
  - rewrite try_servers_ask in E. apply bind_inv in E as (r & s1 & E1 & E).
    destruct (Z.eqb_spec r MQ_FAIL) as [->|Hr].
    + apply IH in E as (tried & rest & s2 & r & -> & Hf & E & Ho).
      exists (i :: tried), rest, s2, r. split_and!; try done. by econstructor.
    + unfold ret in E. injection E as <- <-.
      exists [], (j :: order), s, r. split_and!; try done; [constructor|by left].
Qed.

(** C33: The client tries its servers in an order that has each of them once (the
    order of the list, or a shuffle of it), one after the other as long as they
    fail, and stops at the first that does not; the index of the answer is the
    one of the last server it has tried. *)
Theorem lookup_once fuel s s' m :
  c_mq s = pTo m -> 0 < o_count m -> in_do_operate fuel s = Ok (tt, s') ->
  exists order tried curr rest s1 s2 r s3,
    order = tried ++ curr :: rest /\ order ≡ₚ seqZ 0 (o_count m) /\
    (o_look_up m <> MQ_LOOKUP_RANDOM -> order = seqZ 0 (o_count m)) /\
    lookup_order m s = Ok (order, s1) /\ all_fail fuel tried s1 s2 /\
    ask fuel curr s2 = Ok (r, s3) /\ (r <> MQ_FAIL \/ rest = []) /\
    r_index (c_ret s') = curr.
Proof.
  intros Hm Hc E. unfold in_do_operate in E. apply bind_inv in E as (m1 & s0 & E0 & E).
  unfold the_mq in E0. rewrite Hm in E0. injection E0 as <- <-.
  apply bind_inv in E as (order & s1 & E1 & E).
  destruct (lookup_order_permutation _ _ _ _ E1) as [Hp Ho].
  apply bind_inv in E as (c & s3 & E3 & E). unfold upd_ret, modify in E. injection E as <-.
  destruct order as [|i order].
  { apply Permutation_length in Hp. rewrite length_seqZ in Hp. simpl in Hp. lia. }
  apply try_servers_inv in E3 as (tried & rest & s2 & r & Heq & Hf & Ha & Hr).
  exists (i :: order), tried, c, rest, s1, s2, r, s3. split_and!; done.
Qed.
End Lookup.

(** ** Runs *)

(** The first server has no message, the second gives one, in three parts. *)
Definition demo (look_up : Z) : cst wire :=
  client3 look_up (Wire [] [] []
    [whole empty_queue;
     whole (take 40 (found "hello")) ++ [Late false; Late true]
       ++ whole (drop 40 (found "hello"))] [] [1; 0] []).

Lemma lookup_once_witness :
  exists s' order tried curr rest s1 s2 r s3,
    in_do_operate 50 (demo MQ_LOOKUP_RANDOM) = Ok (tt, s') /\
    order = tried ++ curr :: rest /\ order ≡ₚ seqZ 0 3 /\
    lookup_order (MqObject 3 1000 MQ_LOOKUP_RANDOM MQ_TRUE (map srv3 servers3))
      (demo MQ_LOOKUP_RANDOM) = Ok (order, s1) /\
    all_fail 50 tried s1 s2 /\ ask 50 curr s2 = Ok (r, s3) /\ r_index (c_ret s') = curr.
Proof.
  assert (exists s', in_do_operate 50 (demo MQ_LOOKUP_RANDOM) = Ok (tt, s')) as [s' E]
    by (eexists; vm_compute; reflexivity).
  destruct (lookup_once 50 (demo MQ_LOOKUP_RANDOM) s'
              (MqObject 3 1000 MQ_LOOKUP_RANDOM MQ_TRUE (map srv3 servers3)))
    as (order & tried & curr & rest & s1 & s2 & r & s3 & H1 & H2 & _ & H3 & H4 & H5 & _ & H6);
    [reflexivity|reflexivity|exact E|].
  exists s', order, tried, curr, rest, s1, s2, r, s3. split_and!; assumption.
Defined.

Definition one_answer : cst wire :=
  client3 MQ_LOOKUP_ORDER (Wire [3] []
    (whole (take 40 (found "hello")) ++ [Late false; Late true]
       ++ whole (drop 40 (found "hello"))) [] [] [] []).
Definition demo_headers : list (bytes * bytes) :=
  [(B "Pos", B "7"); (B "Content-Length", B "5")].

Lemma demo_head : good_head 200 (B "UCMQ_HTTP_OK") demo_headers.
Proof.
  split; [split; discriminate| |decide_it|decide_it|vm_compute; discriminate].
  do 2 eexists. split; reflexivity.
Qed.

Lemma recv_answer_spec_witness :
  exists s', recv_answer 100 3 one_answer = Ok (MQ_OK, s') /\ r_result (c_ret s') = 200 /\
    r_data (c_ret s') = Some (B "hello") /\ r_pos (c_ret s') = 7.
Proof.
  destruct (recv_answer_spec 200 (B "UCMQ_HTTP_OK") demo_headers demo_head 100 3 one_answer
              (MqObject 3 1000 MQ_LOOKUP_ORDER MQ_TRUE (map srv3 servers3)) (B "hello"))
    as (s' & E & Hr & Ho);
    [reflexivity|vm_compute; reflexivity|decide_it|vm_compute; reflexivity
    |vm_compute; reflexivity|vm_compute; repeat constructor|].
  exists s'. split; [exact E|]. split; [exact Hr|].
  destruct (Ho ltac:(discriminate)) as (_ & Hd & _ & Hp & _). split; [exact Hd|].
  apply Hp; [decide_it|vm_compute; reflexivity|split; discriminate].
Defined.

(** A client that puts, gets and sets, with a server that cannot be reached and
    one that breaks off its answer. *)
Definition demo_calls : list api_call :=
  [CallPut (Some (B "q")) (Some (B "hello")) (Some (MqConf None 0));
   CallGet (Some (B "q")) (Some (MqConf None 0));
   CallSet (Some (B "10.0.0.2:8803")) (Some (B "q")) MQ_OPT_DELAY 3 (Some (MqConf None 0))].
Definition demo_net : cst wire :=
  Cst (Wire [7] [111; 0; E_INTR] []
    [whole (found "hello"); whole (take 60 (found "hello")); whole (found "hello")] [] [] []) 0 pNull
    (new_info [] [] NumNull None (MqConf None 0)) in_init_return [].

Lemma no_descriptor_leak_witness :
  exists s', session 100 servers3 3 MQ_LOOKUP_ORDER 1000 MQ_TRUE demo_calls demo_net
      = Ok (MQ_OK, s') /\
    wi_opened (c_net s') = {[7; 8]} /\ wi_at_once (c_net s') = {[8]}.
Proof.
  assert (exists s', session 100 servers3 3 MQ_LOOKUP_ORDER 1000 MQ_TRUE demo_calls demo_net
      = Ok (MQ_OK, s') /\ wi_at_once (c_net s') = {[8]}) as (s' & E & Hl)
    by (eexists; split; vm_compute; reflexivity).
  exists s'. split; [exact E|]. split; [|exact Hl].
  destruct (no_descriptor_leak (opened := wi_opened) (at_once := wi_at_once) 100 servers3 3 MQ_LOOKUP_ORDER 1000 MQ_TRUE
             demo_calls demo_net MQ_OK s') as [-> _]; [left; reflexivity|vm_compute; reflexivity|exact E|].
  rewrite Hl. vm_compute. reflexivity.
Defined.

(** ** Where the client does not do what it means to *)

(** More than 31 digits and dots in the name of a server: the end of the string
    is written behind the buffer. *)
Theorem str2ip_overflow {S} `{Sockets S} (ip : bytes) (s : cst S) :
  32 <= strlen (filter (fun c => c = 46 \/ isdigit c = true) ip) ->
  str2ip ip s = Fault.
Proof.
  unfold strlen. intros Hl. unfold str2ip. rewrite length_take.
  by rewrite (proj2 (Nat.ltb_ge _ _)) by lia.
Qed.

(** A connection that is made at once is taken for a failure, and its descriptor
    is lost. *)
Theorem connect_at_once_lost {S} {opened at_once : S -> gset Z} `{SocketFds S opened at_once}
    fuel curr (s : cst S) v fd n1 n2 n3 :
  conn curr s = Ok (v, s) -> sk_socket (c_net s) = Ok (inl fd, n1) ->
  sk_nonblock fd n1 = Ok (None, n2) ->
  sk_connect fd (inet_addr (s_domain v)) (u16 (s_port v)) n2 = Ok (None, n3) ->
  exists s', comm_create_socket (Datatypes.S fuel) curr s = Ok (-1, s') /\
    opened (c_net s') = {[fd]} ∪ opened (c_net s) /\ c_mq s' = c_mq s.
Proof.
  intros Hc E1 E2 E3. pose proof (sf_socket _ _ _ E1) as (_ & Hfd & _ & Ho).
  pose proof (sf_nonblock _ _ _ _ E2) as [Ho2 _]. pose proof (sf_connect _ _ _ _ _ _ E3) as [Ho3 _].
  unfold comm_create_socket. run Hc. unfold sys_int. rewrite bind_assoc.
  unfold sys, bind, ret. rewrite E1. rewrite (proj2 (Z.ltb_ge fd 0) Hfd). cbn [c_net].
  rewrite E2. cbn [connect_loop c_net]. unfold sys, bind, ret. cbn [c_net]. rewrite E3.
  eexists. split; [reflexivity|]. simpl. split; [congruence|done].
Qed.

Definition conf0 : option mq_conf := Some (MqConf None 0).
(** The answer, the texts that were sent, and the mode of the client. *)
Definition report (m : M (cst wire) (option mq_return)) (s : cst wire)
    : option (option mq_return * list bytes * option Z) :=
  match m s with
  | Ok (r, s') =>
      Some (r, snd <$> wi_sent (c_net s'),
            match c_mq s' with pTo m => Some (o_look_up m) | _ => None end)
  | _ => None
  end.
Definition wire_with (answers : list (list wev)) (connects : list Z) : cst wire :=
  client3 MQ_LOOKUP_RANDOM (Wire [] connects [] answers [] [1; 0] []).

(** Removing a queue: the request that is sent sets the delay. *)
Theorem remove_sends_delay :
  exists r k t, report (mq_set_opt 50 (Some (B "10.0.0.2:8803")) (Some (B "q")) MQ_OPT_REMOVE 0 conf0)
      (wire_with [whole (found "hello")] []) = Some (Some r, [t], k) /\
    take 24 t = B "POST /?name=q&opt=delay&" /\ r_result r = 200.
Proof. do 3 eexists. vm_compute. repeat split; reflexivity. Qed.

(** Setting an option on all servers: one request is sent, to the first one, and
    the client is no longer in the random mode. *)
Theorem set_all_stops :
  exists r t, report (mq_all_set_opt 50 (Some (B "q")) MQ_OPT_DELAY 5 conf0)
      (wire_with [whole (found "hello"); whole (found "hello"); whole (found "hello")] [])
      = Some (Some r, [t], Some MQ_LOOKUP_ORDER) /\ r_result r = 200 /\ r_index r = 0.
Proof. do 2 eexists. vm_compute. repeat split; reflexivity. Qed.

(** Looking at a message: the number of the message is read from a buffer that
    nothing was written to. *)
Theorem view_faults data :
  mq_get_opt 50 (Some (B "10.0.0.2:8803")) (Some (B "q")) MQ_OPT_VIEW data conf0
    (wire_with [whole (found "hello")] []) = Fault.
Proof. reflexivity. Qed.

(** A refused connection: the text of the reason has seven characters. *)
Theorem reason_is_cut :
  exists r k, report (mq_get_msg 50 (Some (B "q")) conf0) (wire_with [] [111; 111; 111])
      = Some (Some r, [], k) /\ r_result r = 111 /\ r_reason r = B "Connect".
Proof. do 2 eexists. vm_compute. repeat split; reflexivity. Qed.

(** The connection breaks inside the body of the last answer: the result is 200,
    as for a message, but there is no data; and the message was put on every
    server. *)
Theorem broken_body_is_200 :
  exists r t1 t2 t3 k, report (mq_put_msg 50 (Some (B "q")) (Some (B "m")) conf0)
      (wire_with (repeat (whole (take 58 (found "hello"))) 3) [])
      = Some (Some r, [t1; t2; t3], k) /\ r_result r = 200 /\ r_data r = None.
Proof. do 5 eexists. vm_compute. repeat split; reflexivity. Qed.
