(* ===== verification/PhpClient.v ===== *)
(** * client/php/ucmq.c: the client as an extension of PHP

    The pool of connections that a PHP process keeps between its scripts
    ([mq_list]), one request to a server ([mq_op]), and the functions of the
    scripts, which are given an array of servers and return an array.  The values
    of the scripts and their conversions to a string, a number or an array belong
    to the engine and are parameters.  The state [php] has the kernel, [errno], the
    globals of the extension and the [mq_op_info] of the call.  [php_wait_fd] and
    [php_show_error] are wait_fd and SHOW_ERROR; the loops of a function are
    definitions of their own. *)
From S2P Require Import Prelude.
From S2P Require Import CLib.
From S2P Require Import CStr.

(** What the extension uses of the system beside the sockets of the C client:
    [gethostbyname] and the [recv] of one byte with MSG_PEEK and MSG_DONTWAIT. *)
Class PhpSockets (S : Type) `{Sockets S} := {
  sk_gethostbyname : bytes -> M S (option Z);
  sk_peek : Z -> M S (Z + Z)
}.
Definition E_BADF : Z := 9.

(** ** The structures *)
Record mq_op_info := OpInfo {
  i_port : Z;
  i_mq_dest : bytes;
  i_domain : bytes;
  i_opt : option bytes;
  i_name : option bytes;
  i_charset : option bytes;
  i_extra : option bytes;
  i_data : option bytes;        (* with data_len *)
  i_timeout : Z;
  i_start : tspec;
  return_pos : Z;
  return_index : Z;
  return_result : Z;
  return_httpcode : Z;
  return_reason : Z;
  return_data : Z
}.

(** A connection of the pool. *)
Record mq_srv_info := SrvInfo {
  v_dest : option bytes;
  v_fd : Z;
  v_last_use : Z;
  v_timeout : Z
}.
Definition with_fd (x : Z) (v : mq_srv_info) := SrvInfo (v_dest v) x (v_last_use v) (v_timeout v).
Definition with_last_use (x : Z) (v : mq_srv_info) := SrvInfo (v_dest v) (v_fd v) x (v_timeout v).
Definition with_idle (x : Z) (v : mq_srv_info) := SrvInfo (v_dest v) (v_fd v) (v_last_use v) x.

(** The array that a function returns. *)
Inductive zval := ZLong (n : Z) | ZString (s : bytes).
Definition zarray : Type := list (bytes * zval).
Fixpoint add_assoc (a : zarray) (k : bytes) (v : zval) : zarray :=
  match a with
  | [] => [(k, v)]
  | (k', v') :: a => if bool_decide (k' = k) then (k, v) :: a else (k', v') :: add_assoc a k v
  end.

Record php (S : Type) := Php {
  p_net : S;
  p_errno : Z;
  p_list : list mq_srv_info;    (* mq_list[10] *)
  p_reason : bytes;             (* reason[1024] *)
  p_info : mq_op_info;
  p_ret : zarray
}.
Arguments Php {_}.
Arguments p_net {_}.
Arguments p_errno {_}.
Arguments p_list {_}.
Arguments p_reason {_}.
Arguments p_info {_}.
Arguments p_ret {_}.

Definition set_target (port : Z) (dest domain : bytes) (i : mq_op_info) : mq_op_info :=
  OpInfo port dest domain (i_opt i) (i_name i) (i_charset i) (i_extra i) (i_data i) (i_timeout i) (i_start i)
    (return_pos i) (return_index i) (return_result i) (return_httpcode i) (return_reason i) (return_data i).
Definition set_opt (x : bytes) (i : mq_op_info) : mq_op_info :=
  OpInfo (i_port i) (i_mq_dest i) (i_domain i) (Some x) (i_name i) (i_charset i) (i_extra i) (i_data i) (i_timeout i) (i_start i)
    (return_pos i) (return_index i) (return_result i) (return_httpcode i) (return_reason i) (return_data i).
Definition set_name (x : bytes) (i : mq_op_info) : mq_op_info :=
  OpInfo (i_port i) (i_mq_dest i) (i_domain i) (i_opt i) (Some x) (i_charset i) (i_extra i) (i_data i) (i_timeout i) (i_start i)
    (return_pos i) (return_index i) (return_result i) (return_httpcode i) (return_reason i) (return_data i).
Definition set_charset (x : bytes) (i : mq_op_info) : mq_op_info :=
  OpInfo (i_port i) (i_mq_dest i) (i_domain i) (i_opt i) (i_name i) (Some x) (i_extra i) (i_data i) (i_timeout i) (i_start i)
    (return_pos i) (return_index i) (return_result i) (return_httpcode i) (return_reason i) (return_data i).
Definition set_extra (x : bytes) (i : mq_op_info) : mq_op_info :=
  OpInfo (i_port i) (i_mq_dest i) (i_domain i) (i_opt i) (i_name i) (i_charset i) (Some x) (i_data i) (i_timeout i) (i_start i)
    (return_pos i) (return_index i) (return_result i) (return_httpcode i) (return_reason i) (return_data i).
Definition set_data (x : bytes) (i : mq_op_info) : mq_op_info :=
  OpInfo (i_port i) (i_mq_dest i) (i_domain i) (i_opt i) (i_name i) (i_charset i) (i_extra i) (Some x) (i_timeout i) (i_start i)
    (return_pos i) (return_index i) (return_result i) (return_httpcode i) (return_reason i) (return_data i).
Definition set_timeout (x : Z) (i : mq_op_info) : mq_op_info :=
  OpInfo (i_port i) (i_mq_dest i) (i_domain i) (i_opt i) (i_name i) (i_charset i) (i_extra i) (i_data i) x (i_start i)
    (return_pos i) (return_index i) (return_result i) (return_httpcode i) (return_reason i) (return_data i).
Definition set_start (x : tspec) (i : mq_op_info) : mq_op_info :=
  OpInfo (i_port i) (i_mq_dest i) (i_domain i) (i_opt i) (i_name i) (i_charset i) (i_extra i) (i_data i) (i_timeout i) x
    (return_pos i) (return_index i) (return_result i) (return_httpcode i) (return_reason i) (return_data i).
Definition set_return (pos index result httpcode reason data : Z) (i : mq_op_info) : mq_op_info :=
  OpInfo (i_port i) (i_mq_dest i) (i_domain i) (i_opt i) (i_name i) (i_charset i) (i_extra i) (i_data i) (i_timeout i) (i_start i)
    pos index result httpcode reason data.
Definition set_pos (x : Z) (i : mq_op_info) := set_return x (return_index i) (return_result i) (return_httpcode i) (return_reason i) (return_data i) i.
Definition set_index (x : Z) (i : mq_op_info) := set_return (return_pos i) x (return_result i) (return_httpcode i) (return_reason i) (return_data i) i.
Definition set_result (x : Z) (i : mq_op_info) := set_return (return_pos i) (return_index i) x (return_httpcode i) (return_reason i) (return_data i) i.
Definition set_httpcode (x : Z) (i : mq_op_info) := set_return (return_pos i) (return_index i) (return_result i) x (return_reason i) (return_data i) i.
Definition set_has_reason (x : Z) (i : mq_op_info) := set_return (return_pos i) (return_index i) (return_result i) (return_httpcode i) x (return_data i) i.
Definition set_has_data (x : Z) (i : mq_op_info) := set_return (return_pos i) (return_index i) (return_result i) (return_httpcode i) (return_reason i) x i.

(** [INIT_INFO] sets everything to zero but the results. *)
Definition info_zero : mq_op_info :=
  OpInfo 0 [] [] None None None None None 0 (TSpec 0 0) (-1) 0 (-1) (-1) (-1) (-1).

(** ** The text of an answer *)
Definition get_header_info_str (behind header type : bytes) : option bytes :=
  match strcasestr header type with
  | None => None
  | Some p => Some (skip_blank (behind_name behind p type))
  end.
Definition get_header_info_int (behind header type : bytes) : Z :=
  match get_header_info_str behind header type with
  | Some p => atoi p
  | None => -1
  end.
Definition get_data (data : bytes) : option bytes :=
  match strstr data (CRLF ++ CRLF) with
  | Some p => Some (drop 4 p)
  | None => None
  end.
Definition check_header_finish (got : bytes) : Z :=
  match get_data (cstr got) with
  | None => -1
  | Some _ => 0
  end.

(** ** The bytes of a request *)
(** [SET_IOV] takes a null pointer for the empty string. *)
Definition iov (s : option bytes) : bytes := match s with Some s => cstr s | None => [] end.
Definition url_query (i : mq_op_info) : bytes :=
  iov (i_name i) ++ B "&opt=" ++ iov (i_opt i)
  ++ match i_charset i with Some c => B "&charset=" ++ cstr c | None => [] end
  ++ match i_extra i with Some e => B "&" ++ cstr e | None => [] end.
Definition http_req (i : mq_op_info) : bytes :=
  match i_data i with
  | None | Some [] =>
      B "GET /?name=" ++ url_query i ++ B " HTTP/1.1" ++ CRLF ++ B "Host: " ++ cstr (i_mq_dest i)
      ++ CRLF ++ B "Connection: keep-alive" ++ CRLF ++ CRLF
  | Some data =>
      B "POST /?name=" ++ url_query i ++ B " HTTP/1.1" ++ CRLF ++ B "Host: " ++ cstr (i_mq_dest i)
      ++ CRLF ++ B "Content-Length: " ++ snprintf 128 (sdec (strlen data))
      ++ CRLF ++ B "Connection: keep-alive" ++ CRLF ++ CRLF ++ data
  end.

Section PhpClient.
Context {S : Type} `{PhpSockets S}.
Abbreviation MP := (M (php S)).

(** ** The state *)
Definition sys {A} (m : M S A) : MP A := fun s =>
  match m (p_net s) with
  | Ok (a, n) => Ok (a, Php n (p_errno s) (p_list s) (p_reason s) (p_info s) (p_ret s))
  | Fault => Fault
  | OutOfFuel => OutOfFuel
  end.
Definition put_errno (e : Z) : MP unit := modify (fun s =>
  Php (p_net s) e (p_list s) (p_reason s) (p_info s) (p_ret s)).
Definition set_list (l : list mq_srv_info) : MP unit := modify (fun s =>
  Php (p_net s) (p_errno s) l (p_reason s) (p_info s) (p_ret s)).
Definition set_reason (r : bytes) : MP unit := modify (fun s =>
  Php (p_net s) (p_errno s) (p_list s) r (p_info s) (p_ret s)).
Definition upd_info (f : mq_op_info -> mq_op_info) : MP unit := modify (fun s =>
  Php (p_net s) (p_errno s) (p_list s) (p_reason s) (f (p_info s)) (p_ret s)).
Definition upd_ret (f : zarray -> zarray) : MP unit := modify (fun s =>
  Php (p_net s) (p_errno s) (p_list s) (p_reason s) (p_info s) (f (p_ret s))).

(** A system call with a result: -1 and [errno] when it fails. *)
Definition sys_int (m : M S (Z + Z)) : MP Z :=
  let! r := sys m in
  match r with
  | inl v => ret v
  | inr e => put_errno e ;;; ret (-1)
  end.
(** [close], also of the descriptor -1. *)
Definition close (fd : Z) : MP unit :=
  if fd <? 0 then put_errno E_BADF else sys (sk_close fd).

Definition php_show_error (text : bytes) : MP unit :=
  let! s := get in
  match p_reason s with
  | [] => set_reason (snprintf 1024
            (text ++ B ". errno " ++ sdec (p_errno s) ++ B " - " ++ strerror (p_errno s)))
  | _ => ret tt
  end.

(** ** Time and descriptors *)
Fixpoint poll_loop (fuel : nat) (fd events timeout : Z) : MP Z :=
  match fuel with
  | O => fun _ => OutOfFuel
  | Datatypes.S fuel =>
      let! r := sys (sk_poll fd events timeout) in
      match r with
      | inl revents => ret revents
      | inr e =>
          put_errno e ;;;
          if e =? E_INTR then poll_loop fuel fd events timeout else ret (-1)
      end
  end.
Definition php_wait_fd (fuel : nat) (fd events timeout : Z) : MP Z :=
  put_errno 0 ;;; poll_loop fuel fd events timeout.

Definition get_rest_time : MP Z :=
  let! tm := sys sk_clock in
  let! i := gets p_info in
  let t := i32 (i_timeout i - (i64 ((ts_sec tm - ts_sec (i_start i)) * 1000)
                               + Z.shiftr (ts_nsec tm - ts_nsec (i_start i)) 20)) in
  ret (if 0 <? t then t else 0).

(** ** The pool *)
(** The first slot that is free, or else the first of those used least recently. *)
Fixpoint choose_slot (l : list mq_srv_info) (i oldest choose_id : Z) : Z :=
  match l with
  | [] => choose_id
  | v :: l =>
      if v_fd v =? -1 then i
      else if v_last_use v <? oldest then choose_slot l (i + 1) (v_last_use v) i
      else choose_slot l (i + 1) oldest choose_id
  end.
Definition add_to_list (fd : Z) (dest : bytes) (sec_now : Z) : MP Z :=
  let! l := gets p_list in
  let choose_id := choose_slot l 0 INT_MAX (-1) in
  match (if choose_id <? 0 then None else l !! Z.to_nat choose_id) with
  | None => fault
  | Some v =>
      (if v_fd v =? -1 then ret tt else close (v_fd v)) ;;;
      let! ok := sys sk_malloc in
      if negb ok then fault
      else
        set_list (<[Z.to_nat choose_id := SrvInfo (Some (cstr dest)) fd sec_now 3600]> l) ;;;
        ret 0
  end.

(** The connection is alive when nothing is to be read, or more than its end. *)
Definition conn_alive (fuel : nat) (fd : Z) : MP bool :=
  let! events := php_wait_fd fuel fd (Z.lor (Z.lor (Z.lor EV_POLLIN EV_POLLERR) EV_POLLHUP) EV_POLLNVAL) 0 in
  if events =? 0 then ret true
  else if events =? EV_POLLIN then
    let! r := sys_int (sk_peek fd) in ret (negb (r =? 0))
  else ret false.

Fixpoint get_from (fuel : nat) (dest : bytes) (sec_now : Z) (l : list mq_srv_info)
    : MP (Z * list mq_srv_info) :=
  match l with
  | [] => ret (-1, [])
  | v :: l =>
      if negb (v_fd v =? -1) && match v_dest v with Some d => strcmp (cstr dest) d =? 0 | None => false end then
        let! alive := conn_alive fuel (v_fd v) in
        if alive : bool then ret (v_fd v, with_last_use sec_now v :: l)
        else
          close (v_fd v) ;;;
          let! r := get_from fuel dest sec_now l in
          ret (r.1, with_fd (-1) v :: r.2)
      else
        let! r := get_from fuel dest sec_now l in
        ret (r.1, v :: r.2)
  end.
Definition get_from_list (fuel : nat) (dest : bytes) (sec_now : Z) : MP Z :=
  let! l := gets p_list in
  let! r := get_from fuel dest sec_now l in
  set_list r.2 ;;; ret r.1.

Fixpoint del_slots (fd : Z) (l : list mq_srv_info) : MP (Z * list mq_srv_info) :=
  match l with
  | [] => ret (0, [])
  | v :: l =>
      if v_fd v =? fd then
        close (v_fd v) ;;;
        let! r := del_slots fd l in
        ret (r.1 + 1, with_fd (-1) v :: r.2)
      else
        let! r := del_slots fd l in
        ret (r.1, v :: r.2)
  end.
Definition del_from_list (fd : Z) : MP Z :=
  let! l := gets p_list in
  let! r := del_slots fd l in
  set_list r.2 ;;; ret r.1.

Fixpoint set_idle (fd timeout : Z) (l : list mq_srv_info) : Z * list mq_srv_info :=
  match l with
  | [] => (-1, [])
  | v :: l =>
      if v_fd v =? fd then (0, with_idle timeout v :: l)
      else let '(r, l) := set_idle fd timeout l in (r, v :: l)
  end.
Definition set_timeout_by_fd (fd timeout : Z) : MP Z :=
  let! l := gets p_list in
  let '(r, l) := set_idle fd timeout l in
  set_list l ;;; ret r.

(** ** Connecting *)
(** A connection that is made at once leaves the loop, and the function returns
    -1. *)
Fixpoint try_connect (fuel : nat) (s addr port : Z) : MP Z :=
  match fuel with
  | O => fun _ => OutOfFuel
  | Datatypes.S fuel' =>
      let show text := php_show_error
        (B "Connect to mq " ++ inet_ntoa addr ++ B ":" ++ sdec port ++ text) in
      let close_it := close s ;;; ret (-1) in
      let! r := sys (sk_connect s addr port) in
      match r with
      | None => ret (-1)
      | Some e =>
          put_errno e ;;;
          if e =? E_INPROGRESS then
            let! rest := get_rest_time in
            let! ev := php_wait_fd fuel s EV_POLLOUT rest in
            if negb (ev =? 0) then
              let! err := sys (sk_so_error s) in
              match err with
              | inl error =>
                  if error =? 0 then ret s
                  else put_errno error ;;; show (B " error") ;;; close_it
              | inr _ => put_errno (-1) ;;; show (B " error") ;;; close_it
              end
            else put_errno E_TIMEDOUT ;;; show (B " timeout") ;;; close_it
          else if e =? E_ISCONN then ret s
          else if e =? E_INTR then try_connect fuel' s addr port
          else show (B " error") ;;; close_it
      end
  end.

Definition create_socket (fuel : nat) : MP Z :=
  let! i := gets p_info in
  let! site := sys (sk_gethostbyname (i_domain i)) in
  match site with
  | None => php_show_error (B "Can not get host : " ++ i_domain i) ;;; ret (-1)
  | Some addr =>
      let! s := sys_int sk_socket in
      if s <? 0 then php_show_error (B "Create socket error") ;;; ret s
      else
        let! r := sys (sk_nonblock s) in
        match r with
        | Some e =>
            put_errno e ;;;
            php_show_error (B "Can not set socket " ++ sdec s ++ B " to non-blocking mode") ;;;
            close s ;;; ret (-1)
        | None => put_errno 0 ;;; try_connect fuel s addr (u16 (i_port i))
        end
  end.

Definition get_socket (fuel : nat) : MP Z :=
  let! i := gets p_info in
  let sec_now := i32 (ts_sec (i_start i)) in
  let! s := get_from_list fuel (i_mq_dest i) sec_now in
  if s <? 0 then
    let! s := create_socket fuel in
    if s <? 0 then php_show_error (B "Create socket error") ;;; ret (-1)
    else add_to_list s (i_mq_dest i) sec_now ;;; ret s
  else ret s.

(** ** Sending and receiving *)
Fixpoint send_loop (fuel : nat) (s : Z) (text : bytes) : MP Z :=
  match fuel with
  | O => fun _ => OutOfFuel
  | Datatypes.S fuel =>
      let! r := sys (sk_writev s text) in
      match r with
      | inl n => ret n
      | inr e =>
          put_errno e ;;;
          if (e =? E_INTR) || (e =? E_AGAIN) then send_loop fuel s text else ret (-1)
      end
  end.
Definition send_http_req (fuel : nat) (s : Z) : MP Z :=
  let! i := gets p_info in
  let text := http_req i in
  let! send_size := send_loop fuel s text in
  if negb (send_size =? strlen text) then
    php_show_error (B "send request error, need to send " ++ sdec (strlen text)
                    ++ B " bytes, but only send " ++ sdec send_size ++ B " bytes") ;;;
    ret (-1)
  else ret 0.

(** The result and the bytes stored; [is_finish] is asked after each part. *)
Fixpoint recv_part (fuel : nat) (fd count : Z) (is_finish : option (bytes -> Z)) (got : bytes)
    : MP (Z * bytes) :=
  match fuel with
  | O => fun _ => OutOfFuel
  | Datatypes.S fuel' =>
      let next (g : bytes) :=
        if (strlen g <? count) && match is_finish with None => true | Some f => f g <? 0 end
        then recv_part fuel' fd count is_finish g
        else ret (strlen g, g) in
      let! r := sys (sk_recv fd (count - strlen got)) in
      match r with
      | inl [] => ret (strlen got, got)
      | inl bs => next (got ++ bs)
      | inr e =>
          put_errno e ;;;
          if e =? E_AGAIN then
            let! rest := get_rest_time in
            let! ev := php_wait_fd fuel fd EV_POLLIN rest in
            if ev =? 0 then put_errno E_TIMEDOUT ;;; ret (strlen got, got)
            else next got
          else if e =? E_INTR then next got
          else ret (-1, got)
      end
  end.
Definition recv_n (fuel : nat) (fd count : Z) (is_finish : option (bytes -> Z)) : MP (Z * bytes) :=
  put_errno 0 ;;; recv_part fuel fd count is_finish [].

(** ** One request *)
(** [SET_RETURN_STR]: the entry is set once. *)
Definition set_return_data (y : bytes) : MP unit :=
  let! i := gets p_info in
  if return_data i =? -1 then
    upd_ret (fun a => add_assoc a (B "data") (ZString (cstr y))) ;;; upd_info (set_has_data 0)
  else ret tt.
Definition set_return_reason (y : bytes) : MP unit :=
  let! i := gets p_info in
  if return_reason i =? -1 then
    upd_ret (fun a => add_assoc a (B "reason") (ZString (cstr y))) ;;; upd_info (set_has_reason 0)
  else ret tt.

(** [sscanf] stores the code and the reason; the array for the reason has as many
    characters as the first line.  [None] is the array nothing has written to. *)
Definition scan_status (buffer : bytes) : MP (option bytes) :=
  let size := strcspn buffer CRLF in
  let '(code, word) := sscanf_status buffer in
  if size =? 0 then fault
  else
    match code with
    | Some v => upd_info (set_httpcode v)
    | None => ret tt
    end ;;;
    match word with
    | Some w => if strlen w <? size then ret (Some w) else fault
    | None => ret None
    end.

(** The body: what came with the headers, then the rest. *)
Definition read_body (fuel : nat) (s body_len : Z) (has : bytes) : MP (option bytes) :=
  if body_len <? strlen has then php_show_error (B "invalid body len") ;;; ret None
  else if strlen has <? body_len then
    let! r := recv_n fuel s (body_len - strlen has) None in
    if negb (r.1 =? body_len - strlen has)
    then php_show_error (B "recv body error") ;;; ret None
    else ret (Some (has ++ r.2))
  else ret (Some has).

(** The answer, from the first byte on. *)
Definition read_answer (fuel : nat) (s : Z) : MP Z :=
  let! r := recv_n fuel s 1023 (Some check_header_finish) in
  let total_recv := r.1 in
  let got := if total_recv <? 0 then [] else r.2 in
  let buffer := cstr got in
  match get_data buffer with
  | None => php_show_error (B "recv http header error") ;;; ret (-1)
  | Some data =>
      let! http_reason := scan_status buffer in
      upd_info (set_pos (get_header_info_int behind_text buffer (B "Pos"))) ;;;
      let body_len := get_header_info_int behind_text buffer (B "Content-Length") in
      if body_len <? 0 then
        php_show_error (B "data length is invalid : " ++ sdec body_len) ;;; ret (-1)
      else
        let timeout := get_header_info_int behind_text buffer (B "keep-alive") in
        (if 0 <? timeout then set_timeout_by_fd s timeout ;;; ret tt else ret tt) ;;;
        if body_len =? INT_MAX then fault
        else
          let! body := read_body fuel s body_len (drop (length buffer - length data) got) in
          match body with
          | None => ret (-1)
          | Some body =>
              set_return_data body ;;;
              match http_reason with
              | None => fault
              | Some t =>
                  set_return_reason t ;;;
                  upd_info (fun i => set_result (if return_httpcode i =? 200 then 0 else -1) i) ;;;
                  ret 0
              end
          end
  end.

(** The connection, and whether the request was answered. *)
Definition mq_op_body (fuel : nat) : MP (Z * Z) :=
  let! s := get_socket fuel in
  if s <? 0 then ret (s, -1)
  else
    let! r := send_http_req fuel s in
    if r <? 0 then ret (s, -1)
    else let! is_ok := read_answer fuel s in ret (s, is_ok).

Definition mq_op (fuel : nat) : MP Z :=
  let! i := gets p_info in
  (if i_timeout i =? 0 then upd_info (set_timeout 1000) else ret tt) ;;;
  let! tm := sys sk_clock in
  upd_info (set_start tm) ;;;
  set_reason [] ;;;
  let! r := mq_op_body fuel in
  (if r.2 =? -1 then del_from_list r.1 ;;; ret tt else ret tt) ;;;
  ret r.2.

(** ** The functions of the scripts *)
(** [MQ_SET_RETURN] *)
Definition mq_set_return : MP (option zarray) :=
  let! i := gets p_info in
  upd_ret (fun a => add_assoc a (B "pos") (ZLong (return_pos i))) ;;;
  upd_ret (fun a => add_assoc a (B "index") (ZLong (return_index i))) ;;;
  upd_ret (fun a => add_assoc a (B "result") (ZLong (return_result i))) ;;;
  upd_ret (fun a => add_assoc a (B "httpcode") (ZLong (return_httpcode i))) ;;;
  let! reason := gets p_reason in
  set_return_reason (match reason with [] => B "UNKNOWN ERROR" | _ => reason end) ;;;
  set_return_data [] ;;;
  let! a := gets p_ret in ret (Some a).

(** [MQ_TRY_ONE]: a server without a port is passed over. *)
Definition mq_try_one (fuel : nat) (x : bytes) (z : Z) : MP bool :=
  let addr := cstr x in
  let domain := span_not (B ":") addr in
  let! i := gets p_info in
  match drop (length domain) addr with
  | [] => upd_info (set_target (i_port i) addr (i_domain i)) ;;; ret false
  | _ :: port =>
      upd_info (set_target (atoi port) addr domain) ;;;
      let! r := mq_op fuel in
      if r =? 0 then upd_info (set_index z) ;;; ret true else ret false
  end.
(** The loop over the servers. *)
Fixpoint mq_try_all (fuel : nat) (l : list bytes) (i : Z) : MP unit :=
  match l with
  | [] => ret tt
  | x :: l =>
      let! r := mq_try_one fuel x i in
      if r : bool then ret tt else mq_try_all fuel l (i + 1)
  end.

(** [INIT_INFO]; with too few arguments the function returns nothing. *)
Definition init_info (least : nat) (argc : nat) (body : MP (option zarray)) : MP (option zarray) :=
  if (argc <? least)%nat then ret None
  else upd_info (fun _ => info_zero) ;;; upd_ret (fun _ => []) ;;; body.
Definition invalid_argument : MP (option zarray) :=
  php_show_error (B "invalid argument") ;;; mq_set_return.

Section Functions.
(** The values of the engine and their conversions. *)
Context {zv : Type} (to_string : zv -> bytes) (to_long : zv -> Z) (to_array : zv -> list zv).

Definition opt_arg (args : list zv) (n : nat) (f : zv -> mq_op_info -> mq_op_info) : MP unit :=
  match args !! n with
  | Some a => upd_info (f a)
  | None => ret tt
  end.
Definition arg_str (set : bytes -> mq_op_info -> mq_op_info) (a : zv) : mq_op_info -> mq_op_info := set (to_string a).
Definition arg_timeout (a : zv) : mq_op_info -> mq_op_info := set_timeout (i32 (to_long a)).
(** [sprintf] of a long with %d *)
Definition arg_number (name : bytes) (a : zv) : mq_op_info -> mq_op_info :=
  set_extra (name ++ sdec (i32 (to_long a))).

Definition zif_mq_put_msg (fuel : nat) (args : list zv) : MP (option zarray) :=
  init_info 3 (length args) (
    upd_info (set_opt (B "put")) ;;;
    if (5 <? length args)%nat then invalid_argument
    else
      opt_arg args 4 (arg_str set_charset) ;;;
      opt_arg args 3 arg_timeout ;;;
      opt_arg args 2 (arg_str set_data) ;;;
      opt_arg args 1 (arg_str set_name) ;;;
      mq_try_all fuel (match args with a :: _ => to_string <$> to_array a | [] => [] end) 0 ;;;
      mq_set_return).

Definition zif_mq_get_msg (fuel : nat) (args : list zv) : MP (option zarray) :=
  init_info 2 (length args) (
    upd_info (set_opt (B "get")) ;;;
    if (4 <? length args)%nat then invalid_argument
    else
      opt_arg args 3 (arg_str set_charset) ;;;
      opt_arg args 2 arg_timeout ;;;
      opt_arg args 1 (arg_str set_name) ;;;
      mq_try_all fuel (match args with a :: _ => to_string <$> to_array a | [] => [] end) 0 ;;;
      mq_set_return).

(** The two functions for options, with the name of their number. *)
Definition opt_function (number : bytes) (fuel : nat) (args : list zv) : MP (option zarray) :=
  init_info 3 (length args) (
    if (6 <? length args)%nat then invalid_argument
    else
      opt_arg args 5 (arg_str set_charset) ;;;
      opt_arg args 4 arg_timeout ;;;
      opt_arg args 3 (arg_number number) ;;;
      opt_arg args 2 (arg_str set_opt) ;;;
      opt_arg args 1 (arg_str set_name) ;;;
      match args with a :: _ => mq_try_one fuel (to_string a) 0 ;;; ret tt | [] => ret tt end ;;;
      mq_set_return).
Definition zif_mq_set_opt : nat -> list zv -> MP (option zarray) := opt_function (B "num=").
Definition zif_mq_get_opt : nat -> list zv -> MP (option zarray) := opt_function (B "pos=").
End Functions.

(** ** The module: its start, the end of a script, its end *)
Definition MQ_LIST_SIZE : nat := 10.
Definition zm_startup_ucmq : MP unit := set_list (replicate MQ_LIST_SIZE (SrvInfo None (-1) 0 0)).

(** The connections that are idle for too long, or closed by the server; the sum
    is one of [int]s. *)
Fixpoint expire (now : Z) (l : list mq_srv_info) : MP (list mq_srv_info) :=
  match l with
  | [] => ret []
  | v :: l =>
      let! gone :=
        (if v_fd v =? -1 then ret false
         else
           let idle := v_last_use v + v_timeout v in
           if INT_MAX <? idle then fault
           else if idle <? now then ret true
           else let! r := sys_int (sk_peek (v_fd v)) in ret (r =? 0)) in
      (if gone : bool then close (v_fd v) else ret tt) ;;;
      let! l := expire now l in
      ret ((if gone then SrvInfo None (-1) (v_last_use v) (v_timeout v) else v) :: l)
  end.
Definition zm_deactivate_ucmq : MP unit :=
  let! tm := sys sk_clock in
  let! l := gets p_list in
  let! l := expire (ts_sec tm) l in
  set_list l.

Fixpoint close_slots (l : list mq_srv_info) : MP unit :=
  match l with
  | [] => ret tt
  | v :: l => (if v_fd v =? -1 then ret tt else close (v_fd v)) ;;; close_slots l
  end.
Definition zm_shutdown_ucmq : MP unit := let! l := gets p_list in close_slots l.
End PhpClient.
