(* ===== verification/PhpFds.v ===== *)
(** * The pool of connections of the PHP extension

    Whatever the scripts call, the descriptors that the process has known are the
    ones of the pool, at most ten and one for each server, and the end of the
    module closes them.  The kernel is the class [SocketFds] of ClientFds, with the
    two calls that only this client makes. *)
From S2P Require Import Prelude.
From S2P Require Import CLib.
From S2P Require Import CStr.
From S2P Require Import ClientFds.
From S2P Require Import PhpClient.

Class PhpSocketFds (S : Type) `{PhpSockets S} (opened at_once : S -> gset Z) : Prop := {
  php_sf_host d s r s' : sk_gethostbyname d s = Ok (r, s') -> opened s' = opened s /\ at_once s' = at_once s;
  php_sf_peek fd s r s' : sk_peek fd s = Ok (r, s') -> opened s' = opened s /\ at_once s' = at_once s
}.
Class PhpKnownFds (S : Type) `{PhpSockets S} (known : S -> gset Z) : Prop := {
  php_fds_host d s r s' : sk_gethostbyname d s = Ok (r, s') -> known s' = known s;
  php_fds_peek fd s r s' : sk_peek fd s = Ok (r, s') -> known s' = known s
}.
#[export] Instance php_socket_known (S : Type) (opened at_once : S -> gset Z) `{PhpSocketFds S opened at_once} :
  PhpKnownFds S (less_at_once opened at_once).
Proof. split; intros; apply less_same; [by eapply php_sf_host|by eapply php_sf_peek]. Qed.

Implicit Types (v : mq_srv_info) (l : list mq_srv_info).

(** ** The slots *)
Definition live v : Prop := v_fd v <> -1.
(** What a statement that opens nothing may do to a slot. *)
Definition kept_slot v v' : Prop := v_fd v' = -1 \/ (v_fd v' = v_fd v /\ v_dest v' = v_dest v).
(** The connections are to different servers. *)
Definition single l : Prop := forall i j v w d,
  l !! i = Some v -> l !! j = Some w -> live v -> live w -> v_dest v = Some d -> v_dest w = Some d -> i = j.
Definition named l : Prop := forall v, v ∈ l -> live v -> is_Some (v_dest v).
Definition no_conn d l : Prop := forall v, v ∈ l -> live v -> v_dest v <> Some d.

Record pool (base o : gset Z) l : Prop := {
  po_size : length l = MQ_LIST_SIZE;
  po_owns : owns base o (v_fd <$> l);
  po_single : single l;
  po_named : named l
}.

Lemma kept_slots_single l l' : Forall2 kept_slot l l' -> single l -> single l'.
Proof.
  intros Hf Hs i j v w d Hi Hj Hv Hw Hd Hd'.
  destruct (Forall2_lookup_r _ _ _ _ _ Hf Hi) as (v0 & Hv0 & [?|[Efv Edv]]); [done|].
  destruct (Forall2_lookup_r _ _ _ _ _ Hf Hj) as (w0 & Hw0 & [?|[Efw Edw]]); [done|].
  eapply (Hs i j v0 w0 d); unfold live in *; congruence.
Qed.
Lemma kept_slots_named l l' : Forall2 kept_slot l l' -> named l -> named l'.
Proof.
  intros Hf Hn v [i Hi]%list_elem_of_lookup Hv.
  destruct (Forall2_lookup_r _ _ _ _ _ Hf Hi) as (v0 & Hv0 & [?|[Efv Edv]]); [done|].
  rewrite Edv. apply Hn; [by eapply list_elem_of_lookup_2|]. unfold live in *. congruence.
Qed.
Lemma kept_slots_refl l : Forall2 kept_slot l l.
Proof. induction l; constructor; [by right|done]. Qed.
Lemma kept_slots_pool base o o' l l' : pool base o l -> owns base o' (v_fd <$> l') -> Forall2 kept_slot l l' -> pool base o' l'.
Proof.
  intros [Hs Ho H1 H2] Ho' Hf. split; [|done|by eapply kept_slots_single|by eapply kept_slots_named].
  by rewrite <- (Forall2_length _ _ _ Hf).
Qed.

(** A new connection, to a server without one, in place of the slot [i]. *)
Lemma new_slot_pool base o l i v fd d t : pool base o l -> l !! i = Some v -> fd ∉ o -> 0 <= fd -> no_conn d l ->
  pool base ({[fd]} ∪ (if v_fd v =? -1 then o else o ∖ {[v_fd v]})) (<[i := SrvInfo (Some d) fd t 3600]> l).
Proof.
  intros [Hs Ho H1 H2] Hi Hfd H0 Hno. pose proof (lookup_lt_Some _ _ _ Hi) as Hlt.
  assert ((v_fd <$> l) !! i = Some (v_fd v)) as Hif by by rewrite list_lookup_fmap, Hi.
  split.
  - by rewrite length_insert.
  - rewrite list_fmap_insert. cbn [v_fd]. destruct (Z.eqb_spec (v_fd v) (-1)) as [E|E].
    + apply owns_fill; try done. by rewrite Hif, E.
    + rewrite <- (list_insert_insert_eq (v_fd <$> l) i fd (-1)). apply owns_fill; [by apply owns_empty| |set_solver|done].
      apply list_lookup_insert_eq. by rewrite length_fmap.
  - intros j k w x e Hj Hk Hw Hx Hdw Hdx.
    apply list_lookup_insert_Some in Hj as [(<- & <- & _)|[Hij Hj]];
    apply list_lookup_insert_Some in Hk as [(<- & <- & _)|[Hik Hk]]; try done.
    + exfalso. cbn in Hdw. injection Hdw as <-. apply (Hno x); [by eapply list_elem_of_lookup_2|done..].
    + exfalso. cbn in Hdx. injection Hdx as <-. apply (Hno w); [by eapply list_elem_of_lookup_2|done..].
    + by eapply H1.
  - intros w [j Hj]%list_elem_of_lookup Hw.
    apply list_lookup_insert_Some in Hj as [(<- & <- & _)|[Hij Hj]]; [by eexists|].
    apply H2; [by eapply list_elem_of_lookup_2|done].
Qed.

(** The slot that is used again: a free one when there is one, else the one that was
    used least recently. *)
Lemma choose_slot_free l : forall i oldest c, (exists v, v ∈ l /\ v_fd v = -1) ->
  exists j v, choose_slot l i oldest c = i + Z.of_nat j /\ l !! j = Some v /\ v_fd v = -1.
Proof.
  induction l as [|w l IH]; intros i oldest c (v & Hin & Hv); [by apply elem_of_nil in Hin|]. cbn [choose_slot].
  destruct (Z.eqb_spec (v_fd w) (-1)) as [E|E]; [exists 0%nat, w; split_and!; [lia|done..]|].
  assert (exists v, v ∈ l /\ v_fd v = -1) as Hex.
  { exists v. split; [|done]. apply elem_of_cons in Hin as [->|]; done. }
  destruct (v_last_use w <? oldest).
  - destruct (IH (i + 1) (v_last_use w) i Hex) as (j & u & -> & Hj & Hu). exists (Datatypes.S j), u. split_and!; [lia|done..].
  - destruct (IH (i + 1) oldest c Hex) as (j & u & -> & Hj & Hu). exists (Datatypes.S j), u. split_and!; [lia|done..].
Qed.
Lemma choose_slot_oldest l : forall i oldest c, (forall v, v ∈ l -> live v) ->
  (choose_slot l i oldest c = c /\ forall v, v ∈ l -> oldest <= v_last_use v) \/
  exists j v, choose_slot l i oldest c = i + Z.of_nat j /\ l !! j = Some v /\ v_last_use v < oldest /\
    forall w, w ∈ l -> v_last_use v <= v_last_use w.
Proof.
  induction l as [|w l IH]; intros i oldest c Hl.
  { left. split; [done|]. intros v Hv. by apply elem_of_nil in Hv. }
  cbn [choose_slot]. rewrite (proj2 (Z.eqb_neq _ _)) by (apply Hl; by left).
  assert (forall v, v ∈ l -> live v) as Hl' by (intros v Hv; apply Hl; by right).
  destruct (Z.ltb_spec (v_last_use w) oldest) as [Hw|Hw].
  - right. destruct (IH (i + 1) (v_last_use w) i Hl') as [[-> Hge]|(j & v & -> & Hj & Hlt & Hle)].
    + exists 0%nat, w. split_and!; [lia|done..|]. intros x [->|Hx]%elem_of_cons; [lia|by apply Hge].
    + exists (Datatypes.S j), v. split_and!; [lia|done|lia|]. intros x [->|Hx]%elem_of_cons; [lia|by apply Hle].
  - destruct (IH (i + 1) oldest c Hl') as [[-> Hge]|(j & v & -> & Hj & Hlt & Hle)].
    + left. split; [done|]. intros x [->|Hx]%elem_of_cons; [done|by apply Hge].
    + right. exists (Datatypes.S j), v. split_and!; [lia|done..|]. intros x [->|Hx]%elem_of_cons; [lia|by apply Hle].
Qed.

(** ** Statements that leave the pool and the descriptors *)
Section Keeps.
Context {S : Type} {known : S -> gset Z} `{PhpKnownFds S known, !KnownFds S known}.
Implicit Types (s : php S).

Definition php_view (s : php S) : gset Z * list mq_srv_info := (known (p_net s), p_list s).
Definition leaves {A} (m : M (php S) A) : Prop := forall s a s', m s = Ok (a, s') -> php_view s' = php_view s.

Lemma leaves_ret {A} (a : A) : leaves (ret a).
Proof using. intros s b s' E. by injection E as <- <-. Qed.
Lemma leaves_fault {A} : leaves (@fault _ A).
Proof using. done. Qed.
Lemma leaves_bind {A C} (m : M (php S) A) (f : A -> M (php S) C) : leaves m -> (forall a, leaves (f a)) -> leaves (bind m f).
Proof using.
  intros Hm Hf s b s' E. apply bind_inv in E as (a & s1 & E1 & E2). apply Hm in E1. apply Hf in E2. congruence.
Qed.
Lemma leaves_gets {A} (f : php S -> A) : leaves (gets f).
Proof using. intros s a s' E. by injection E as <- <-. Qed.
Lemma leaves_get : leaves get.
Proof using. intros s a s' E. by injection E as <- <-. Qed.
Lemma leaves_modify f : (forall s, php_view (f s) = php_view s) -> leaves (modify f).
Proof using. intros Hf s a s' E. injection E as <- <-. apply Hf. Qed.
Lemma leaves_sys {A} (m : M S A) : (forall n a n', m n = Ok (a, n') -> known n' = known n) -> leaves (sys m).
Proof using.
  intros Hm s a s' E. unfold sys in E. destruct (m (p_net s)) as [[b n]| |] eqn:En; simplify_eq.
  apply Hm in En. unfold php_view. simpl. by rewrite En.
Qed.
Lemma leaves_errno e : leaves (put_errno e).
Proof using. by apply leaves_modify. Qed.
Lemma leaves_reason r : leaves (set_reason r).
Proof using. by apply leaves_modify. Qed.
Lemma leaves_info f : leaves (upd_info f).
Proof using. by apply leaves_modify. Qed.
Lemma leaves_upd_ret f : leaves (upd_ret f).
Proof using. by apply leaves_modify. Qed.
End Keeps.

Create HintDb leaves.
#[export] Hint Resolve leaves_ret leaves_fault leaves_gets leaves_get leaves_errno leaves_reason leaves_info
  leaves_upd_ret : leaves.

(** Follows the structure of a statement. *)
Ltac leave_step :=
  match goal with
  | |- leaves (bind _ _) => apply leaves_bind; [|intros ?]
  | |- leaves (sys_int _) => unfold sys_int
  | |- leaves (sys _) =>
      apply leaves_sys; intros ? ? ?;
      first [apply fds_nonblock|apply fds_so_error|apply fds_poll|apply fds_writev|apply fds_recv
            |apply fds_clock|apply fds_malloc|apply php_fds_host|apply php_fds_peek]
  | |- leaves (match ?x with _ => _ end) => destruct x
  | |- leaves (let '(_, _) := ?x in _) => destruct x
  | |- leaves _ => solve [eauto with leaves]
  end.
Ltac leave := repeat leave_step.
(** The view behind the statement of [E]. *)
Ltac leaves_in E :=
  let Hl := fresh in
  revert E; match goal with |- ?m _ = _ -> _ => assert (leaves m) as Hl by leave end; apply Hl.

Section Functions.
Context {S : Type} {known : S -> gset Z} `{PhpKnownFds S known, !KnownFds S known}.
Implicit Types (s : php S).
Abbreviation leaves := (leaves (known := known)).

Lemma leaves_show t : leaves (php_show_error t).
Proof. unfold php_show_error. leave. Qed.
Hint Resolve leaves_show : leaves.
Lemma leaves_wait fuel fd ev t : leaves (php_wait_fd fuel fd ev t).
Proof. unfold php_wait_fd. leave. induction fuel as [|fuel IH]; [done|]. cbn [poll_loop]. leave. Qed.
Hint Resolve leaves_wait : leaves.
Lemma leaves_rest : leaves get_rest_time.
Proof. unfold get_rest_time. leave. Qed.
Hint Resolve leaves_rest : leaves.
Lemma leaves_alive fuel fd : leaves (conn_alive fuel fd).
Proof. unfold conn_alive. leave. Qed.
Lemma leaves_send fuel fd : leaves (send_http_req fuel fd).
Proof.
  assert (forall b, leaves (send_loop fuel fd b)) as Hl.
  { intros b. induction fuel as [|fuel IH]; [done|]. cbn [send_loop]. leave. }
  unfold send_http_req. leave.
Qed.
Lemma leaves_recv fuel fd n fin : leaves (recv_n fuel fd n fin).
Proof.
  unfold recv_n. leave. generalize (@nil Z) as got.
  induction fuel as [|fuel IH]; intros got; [done|]. cbn [recv_part]. leave.
Qed.
Hint Resolve leaves_alive leaves_send leaves_recv : leaves.
Lemma leaves_status b : leaves (scan_status b).
Proof. unfold scan_status. leave. Qed.
Lemma leaves_set_data y : leaves (set_return_data y).
Proof. unfold set_return_data. leave. Qed.
Lemma leaves_set_reason y : leaves (set_return_reason y).
Proof. unfold set_return_reason. leave. Qed.
Hint Resolve leaves_status leaves_set_data leaves_set_reason : leaves.
Lemma leaves_body fuel fd n has : leaves (read_body fuel fd n has).
Proof. unfold read_body. leave. Qed.
Lemma leaves_set_return : leaves mq_set_return.
Proof. unfold mq_set_return. leave. Qed.
End Functions.
#[export] Hint Resolve leaves_show leaves_wait leaves_rest leaves_alive leaves_send leaves_recv leaves_status
  leaves_set_data leaves_set_reason leaves_body leaves_set_return : leaves.

(** ** The loops over the pool *)
Lemma owns_close_here base o pre x rest : owns base o (pre ++ x :: rest) -> x <> -1 ->
  0 <= x /\ owns base (o ∖ {[x]}) ((pre ++ [-1]) ++ rest).
Proof.
  intros Ho Hx. assert ((pre ++ x :: rest) !! length pre = Some x) as Hi by by rewrite list_lookup_middle.
  pose proof (owns_range _ _ _ Ho x ltac:(by eapply list_elem_of_lookup_2)). split; [lia|].
  pose proof (owns_empty _ _ _ _ _ Ho Hi Hx) as He. rewrite <- app_assoc.
  by rewrite <- (Nat.add_0_r (length pre)), insert_app_r in He.
Qed.

Section Pool.
Context {S : Type} {known : S -> gset Z} `{PhpKnownFds S known, !KnownFds S known}.
Implicit Types (s : php S).
Abbreviation leaves := (leaves (known := known)).
Abbreviation php_view := (php_view (known := known)).

Lemma close_view fd s a s' : 0 <= fd -> close fd s = Ok (a, s') -> php_view s' = ((php_view s).1 ∖ {[fd]}, p_list s).
Proof.
  intros Hfd. unfold close. rewrite (proj2 (Z.ltb_ge _ _)) by done. unfold sys.
  destruct (sk_close fd (p_net s)) as [[b n]| |] eqn:E; [|done|done]. intros E'. injection E' as <- <-.
  apply fds_close in E. unfold PhpFds.php_view. simpl. by rewrite E.
Qed.

(** The slots [l] behind [pre], with what owns the descriptors before and after. *)
Definition shrinks base pre l l' s s' : Prop :=
  owns base (php_view s).1 (pre ++ (v_fd <$> l)) ->
  owns base (php_view s').1 (pre ++ (v_fd <$> l')) /\ Forall2 kept_slot l l' /\ (php_view s').2 = (php_view s).2.

Lemma shrinks_nil base pre s : shrinks base pre [] [] s s.
Proof. intros Ho. by split_and!. Qed.
Lemma shrinks_skip base pre v v' l l' s s' : v_fd v' = v_fd v -> v_dest v' = v_dest v ->
  shrinks base (pre ++ [v_fd v]) l l' s s' -> shrinks base pre (v :: l) (v' :: l') s s'.
Proof.
  intros Hf Hd Hs Ho. rewrite fmap_cons in *. destruct Hs as (Ho' & Hk & Hv); [by rewrite <- app_assoc|].
  rewrite <- app_assoc in Ho'. rewrite Hf. split_and!; [done| |done]. constructor; [by right|done].
Qed.
Lemma shrinks_drop base pre v v' l l' s s1 s' u : v_fd v <> -1 -> v_fd v' = -1 -> close (v_fd v) s = Ok (u, s1) ->
  shrinks base (pre ++ [-1]) l l' s1 s' -> shrinks base pre (v :: l) (v' :: l') s s'.
Proof.
  intros Hv Hv' Hc Hs Ho. rewrite fmap_cons in *. destruct (owns_close_here _ _ _ _ _ Ho Hv) as [H0' Ho1].
  apply close_view in Hc; [|done]. unfold shrinks in Hs. rewrite Hc in Hs. cbn [fst snd] in Hs.
  destruct (Hs Ho1) as (Ho' & Hk & Hvw). rewrite <- app_assoc in Ho'. rewrite Hv'. split_and!; [done| |done].
  constructor; [by left|done].
Qed.
Lemma shrinks_start base pre l l' s0 s s' : php_view s = php_view s0 -> shrinks base pre l l' s s' -> shrinks base pre l l' s0 s'.
Proof. unfold shrinks. by intros ->. Qed.

Lemma strcmp_dest (a b : bytes) : strcmp a b = 0 <-> a = b.
Proof.
  revert b. induction a as [|x a IH]; intros [|y b]; simpl; try done.
  destruct (Z.ltb_spec x y); [split; [done|intros [= -> ->]; lia]|].
  destruct (Z.ltb_spec y x); [split; [done|intros [= -> ->]; lia]|].
  rewrite IH. assert (x = y) as -> by lia. split; [by intros ->|by intros [= ->]].
Qed.

Lemma get_from_shrinks base fuel d t l : forall pre s r s', get_from fuel d t l s = Ok (r, s') ->
  shrinks base pre l r.2 s s' /\ (r.1 <> -1 -> exists v, v ∈ l /\ r.1 = v_fd v) /\ (r.1 = -1 -> no_conn (cstr d) r.2).
Proof.
  induction l as [|v l IH]; intros pre s r s' E; cbn [get_from] in E.
  { injection E as <- <-. split_and!; [apply shrinks_nil|done|]. intros _ v Hv. by apply elem_of_nil in Hv. }
  destruct (negb (v_fd v =? -1) && _) eqn:Hb.
  - apply andb_true_iff in Hb as [Hfd%negb_true_iff%Z.eqb_neq Hd].
    apply bind_inv in E as (alive & s1 & E1 & E). apply (leaves_alive (known := known)) in E1. destruct alive.
    + injection E as <- <-. cbn [fst snd]. split_and!.
      * eapply shrinks_start; [exact E1|]. intros Ho. rewrite fmap_cons in *. split_and!; [done| |done].
        constructor; [by right|]. apply kept_slots_refl.
      * intros _. exists v. split; [by left|done].
      * done.
    + apply bind_inv in E as (u & s2 & E2 & E). apply bind_inv in E as (r2 & s3 & E3 & E). injection E as <- <-. cbn [fst snd].
      destruct (IH (pre ++ [-1]) _ _ _ E3) as (Hs & Hin & Hno). split_and!.
      * eapply shrinks_start; [exact E1|]. by eapply shrinks_drop.
      * intros Hr. destruct (Hin Hr) as (w & Hw & ->). exists w. split; [by right|done].
      * intros Hr w [->|Hw]%elem_of_cons Hl; [done|]. by apply Hno.
  - apply bind_inv in E as (r2 & s1 & E1 & E). injection E as <- <-. cbn [fst snd].
    destruct (IH (pre ++ [v_fd v]) _ _ _ E1) as (Hs & Hin & Hno). split_and!.
    + by apply shrinks_skip.
    + intros Hr. destruct (Hin Hr) as (w & Hw & ->). exists w. split; [by right|done].
    + intros Hr w [->|Hw]%elem_of_cons Hl; [|by apply Hno]. intros Hd. rewrite Hd in Hb.
      apply andb_false_iff in Hb as [Hb|Hb]; [by apply negb_false_iff, Z.eqb_eq in Hb|].
      apply Z.eqb_neq in Hb. by apply Hb, strcmp_dest.
Qed.

Lemma del_slots_shrinks base fd l : forall pre s r s', del_slots fd l s = Ok (r, s') -> shrinks base pre l r.2 s s'.
Proof.
  induction l as [|v l IH]; intros pre s r s' E; cbn [del_slots] in E.
  { injection E as <- <-. apply shrinks_nil. }
  destruct (Z.eqb_spec (v_fd v) fd) as [Hfd|Hfd].
  - apply bind_inv in E as (u & s1 & E1 & E). apply bind_inv in E as (r2 & s2 & E2 & E). injection E as <- <-. cbn [snd].
    destruct (decide (v_fd v = -1)) as [Hm|Hm].
    + rewrite Hm in E1. apply (leaves_errno (known := known)) in E1. eapply shrinks_start; [exact E1|].
      apply shrinks_skip; [done|done|]. by eapply IH.
    + eapply shrinks_drop; [done|done|exact E1|]. by eapply IH.
  - apply bind_inv in E as (r2 & s2 & E2 & E). injection E as <- <-. cbn [snd]. apply shrinks_skip; [done..|]. by eapply IH.
Qed.

Lemma expire_shrinks base now l : forall pre s l' s', expire now l s = Ok (l', s') -> shrinks base pre l l' s s'.
Proof.
  induction l as [|v l IH]; intros pre s l' s' E; cbn [expire] in E.
  { injection E as <- <-. apply shrinks_nil. }
  apply bind_inv in E as (gone & s1 & E1 & E).
  assert (php_view s1 = php_view s /\ (gone = true -> v_fd v <> -1)) as [Hv Hg].
  { destruct (Z.eqb_spec (v_fd v) (-1)) as [Hm|Hm]; [by injection E1 as <- <-|]. split; [|done].
    leaves_in E1. }
  apply bind_inv in E as (u & s2 & E2 & E). apply bind_inv in E as (l2 & s3 & E3 & E). injection E as <- <-.
  eapply shrinks_start; [exact Hv|]. destruct gone.
  - eapply shrinks_drop; [by apply Hg|done|exact E2|]. by eapply IH.
  - injection E2 as _ <-. apply shrinks_skip; [done..|]. by eapply IH.
Qed.

(** Every connection is closed at the end. *)
Lemma close_slots_closes base l : forall pre s u s', (forall x, x ∈ pre -> x = -1) ->
  owns base (php_view s).1 (pre ++ (v_fd <$> l)) -> close_slots l s = Ok (u, s') -> (php_view s').1 = base.
Proof.
  induction l as [|v l IH]; intros pre s u s' Hpre Ho E; cbn [close_slots] in E.
  { injection E as <- <-. apply set_eq. intros x. rewrite (owns_open _ _ _ Ho), app_nil_r.
    split; [intros [?|[Hx Hin]]; [done|]; by apply Hpre in Hin|by left]. }
  rewrite fmap_cons in Ho. apply bind_inv in E as (w & s1 & E1 & E).
  assert (forall x, x ∈ pre ++ [-1] -> x = -1) as Hpre'.
  { intros x [?|Hx%list_elem_of_singleton]%elem_of_app; [by apply Hpre|done]. }
  destruct (Z.eqb_spec (v_fd v) (-1)) as [Hm|Hm].
  - injection E1 as <- <-. rewrite Hm in Ho. eapply (IH (pre ++ [-1])); [done| |exact E]. by rewrite <- app_assoc.
  - destruct (owns_close_here _ _ _ _ _ Ho Hm) as [H0' Ho1]. apply close_view in E1; [|done].
    eapply (IH (pre ++ [-1])); [done| |exact E]. by rewrite E1.
Qed.

(** ** Statements that keep the pool *)
Definition safe {A} base (m : M (php S) A) : Prop := forall s a s',
  pool base (php_view s).1 (php_view s).2 -> m s = Ok (a, s') -> pool base (php_view s').1 (php_view s').2.

Lemma safe_leaves {A} base (m : M (php S) A) : leaves m -> safe base m.
Proof using. intros Hm s a s' Hp E. apply Hm in E. by rewrite E. Qed.
Lemma safe_bind {A C} base (m : M (php S) A) (f : A -> M (php S) C) :
  safe base m -> (forall a, safe base (f a)) -> safe base (bind m f).
Proof using.
  intros Hm Hf s b s' Hp E. apply bind_inv in E as (a & s1 & E1 & E2). eapply Hf; [|exact E2]. by eapply Hm.
Qed.

(** A loop over the slots, and then the new slots. *)
Lemma shrinks_pool base l l' s s1 : pool base (php_view s).1 (php_view s).2 -> p_list s = l ->
  shrinks base [] l l' s s1 -> pool base (php_view s1).1 l' /\ (php_view s1).2 = (php_view s).2.
Proof.
  intros Hp <- Hs. destruct Hs as (Ho & Hk & Hv); [apply (po_owns _ _ _ Hp)|].
  split; [|done]. by eapply kept_slots_pool.
Qed.
Lemma set_list_view l s u s' : set_list l s = Ok (u, s') -> php_view s' = ((php_view s).1, l).
Proof. intros E. by injection E as <- <-. Qed.

Lemma get_from_list_pool base fuel d t s r s' : pool base (php_view s).1 (php_view s).2 ->
  get_from_list fuel d t s = Ok (r, s') ->
  pool base (php_view s').1 (php_view s').2 /\ -1 <= r /\ (r = -1 -> no_conn (cstr d) (php_view s').2).
Proof.
  intros Hp E. unfold get_from_list in E. apply bind_inv in E as (l & s1 & E1 & E). injection E1 as <- <-.
  apply bind_inv in E as (x & s1 & E1 & E). apply (get_from_shrinks base _ _ _ _ []) in E1 as (Hs & Hin & Hno).
  destruct (shrinks_pool _ _ _ _ _ Hp eq_refl Hs) as [Hp1 _].
  apply bind_inv in E as (u & s2 & E2 & E). apply set_list_view in E2. injection E as <- <-. rewrite E2. split_and!; [done| |done].
  destruct (decide (x.1 = -1)) as [->|Hx]; [lia|]. destruct (Hin Hx) as (v & Hv & ->).
  apply (owns_range _ _ _ (po_owns _ _ _ Hp)). apply list_elem_of_fmap. by exists v.
Qed.
Lemma del_from_list_safe base fd : safe base (del_from_list fd).
Proof.
  intros s r s' Hp E. unfold del_from_list in E. apply bind_inv in E as (l & s1 & E1 & E). injection E1 as <- <-.
  apply bind_inv in E as (x & s1 & E1 & E). apply (del_slots_shrinks base _ _ []) in E1.
  destruct (shrinks_pool _ _ _ _ _ Hp eq_refl E1) as [Hp1 _].
  apply bind_inv in E as (u & s2 & E2 & E). apply set_list_view in E2. injection E as <- <-. by rewrite E2.
Qed.
Lemma deactivate_safe base : safe base zm_deactivate_ucmq.
Proof.
  unfold zm_deactivate_ucmq. apply safe_bind; [apply safe_leaves; leave|]. intros tm s r s' Hp E.
  apply bind_inv in E as (l & s1 & E1 & E). injection E1 as <- <-.
  apply bind_inv in E as (x & s1 & E1 & E). apply (expire_shrinks base _ _ []) in E1.
  destruct (shrinks_pool _ _ _ _ _ Hp eq_refl E1) as [Hp1 _]. apply set_list_view in E. by rewrite E.
Qed.
Lemma set_idle_kept fd t l : v_fd <$> (set_idle fd t l).2 = v_fd <$> l /\ Forall2 kept_slot l (set_idle fd t l).2.
Proof.
  induction l as [|v l [IH1 IH2]]; [done|]. cbn [set_idle]. destruct (v_fd v =? fd).
  - split; [done|]. constructor; [by right|apply kept_slots_refl].
  - destruct (set_idle fd t l) as [r l']. cbn [snd] in *. rewrite !fmap_cons, IH1. split; [done|].
    constructor; [by right|done].
Qed.
Lemma set_timeout_by_fd_safe base fd t : safe base (set_timeout_by_fd fd t).
Proof.
  intros s r s' Hp E. unfold set_timeout_by_fd in E. apply bind_inv in E as (l & s1 & E1 & E). injection E1 as <- <-.
  destruct (set_idle_kept fd t (p_list s)) as [Hf Hk]. destruct (set_idle fd t (p_list s)) as [x l']. cbn [snd] in *.
  apply bind_inv in E as (u & s2 & E2 & E). apply set_list_view in E2. injection E as <- <-. rewrite E2.
  eapply kept_slots_pool; [exact Hp| |done]. cbn [fst snd]. rewrite Hf. apply (po_owns _ _ _ Hp).
Qed.
End Pool.
