(* ===== verification/PhpAnswer.v ===== *)
(** * The PHP extension reads the answers of a server as the client in C does

    The two clients have the functions that wait and receive in common, each with
    its own state; [like] is the simulation between them.  What ClientAnswer proves
    of an answer in parts of any size holds of [read_answer] by it. *)
From S2P Require Import Prelude.
From S2P Require Import CLib.
From S2P Require Import CStr.
From S2P Require Import MqClient.
From S2P Require Import ClientAnswer.
From S2P Require Import PhpClient.

Section Like.
Context {S : Type} `{PhpSockets S}.
Implicit Types (c : cst S) (p : php S).

(** The same kernel, and the same limit of time. *)
Record twin c p : Prop := {
  tw_net : c_net c = p_net p;
  tw_start : MqClient.i_start (c_info c) = i_start (p_info p);
  tw_timeout : exists m, c_mq c = pTo m /\ o_timeout m = i_timeout (p_info p)
}.
(** What a function that waits or receives leaves as it is. *)
Definition same_call p p' : Prop :=
  p_list p' = p_list p /\ p_info p' = p_info p /\ p_ret p' = p_ret p.

Definition like {A} (m : M (cst S) A) (n : M (php S) A) : Prop := forall c p, twin c p ->
  match m c with
  | Ok (a, c') => exists p', n p = Ok (a, p') /\ twin c' p' /\ same_call p p'
  | Fault => n p = Fault
  | OutOfFuel => n p = OutOfFuel
  end.

Lemma like_ret {A} (a : A) : like (ret a) (ret a).
Proof. intros c p Ht. by exists p. Qed.
Lemma like_bind {A B} (m : M (cst S) A) (n : M (php S) A) (f : A -> M (cst S) B) g :
  like m n -> (forall a, like (f a) (g a)) -> like (bind m f) (bind n g).
Proof.
  intros Hm Hf c p Ht. unfold bind. specialize (Hm c p Ht). destruct (m c) as [[a c1]| |]; [|by rewrite Hm..].
  destruct Hm as (p1 & -> & Ht1 & Hl1 & Hi1 & Hr1). specialize (Hf a c1 p1 Ht1).
  destruct (f a c1) as [[b c2]| |]; [|done..]. destruct Hf as (p2 & -> & Ht2 & Hl2 & Hi2 & Hr2).
  exists p2. split_and!; [done|done|]. unfold same_call. split_and!; congruence.
Qed.
Lemma like_sys {A} (m : M S A) : like (MqClient.sys m) (sys m).
Proof.
  intros c p [Hn Hs Hm]. unfold MqClient.sys, sys. rewrite Hn. destruct (m (p_net p)) as [[a n]| |]; [|done..].
  eexists. split; [done|]. by split.
Qed.
Lemma like_errno e : like (MqClient.put_errno e) (put_errno e).
Proof. intros c p [Hn Hs Hm]. eexists. split; [done|]. by split. Qed.
(** The texts of the errors are different. *)
Lemma like_show size t t' : like (SHOW_ERROR size t) (php_show_error t').
Proof.
  intros c p [Hn Hs Hm]. unfold SHOW_ERROR, php_show_error, bind, get.
  destruct (c_reason c), (p_reason p); (eexists; split; [done|]; by split).
Qed.
Hint Resolve like_ret like_sys like_errno like_show : core.

Ltac like_step :=
  match goal with
  | |- like (bind _ _) (bind _ _) => apply like_bind; [|intros ?]
  | |- like (match ?x with _ => _ end) (match ?x with _ => _ end) => destruct x
  | |- like _ _ => solve [eauto]
  end.
Ltac like := repeat like_step.

Lemma like_rest : like comm_get_rest_time get_rest_time.
Proof.
  intros c p Ht. unfold comm_get_rest_time, get_rest_time, bind. pose proof (like_sys sk_clock c p Ht) as Hc.
  destruct (MqClient.sys sk_clock c) as [[tm c1]| |]; [|by rewrite Hc..]. destruct Hc as (p1 & -> & Ht1 & Hs1).
  destruct (tw_timeout _ _ Ht1) as (m & Hm & Htm). unfold the_mq, gets, ret. rewrite Hm, Htm, (tw_start _ _ Ht1).
  by exists p1.
Qed.
Lemma like_wait fuel fd ev t : like (comm_wait_fd fuel fd ev t) (php_wait_fd fuel fd ev t).
Proof.
  unfold comm_wait_fd, php_wait_fd. like. induction fuel as [|fuel IH]; [done|]. cbn [wait_loop poll_loop]. like.
Qed.
Hint Resolve like_rest like_wait : core.
Lemma like_recv_loop fuel fd n fin : forall got, like (recv_loop fuel fd n fin got) (recv_part fuel fd n fin got).
Proof. induction fuel as [|fuel IH]; intros got; [done|]. cbn [recv_loop recv_part]. like. Qed.
(** [recv_n] sets [errno] first. *)
Lemma like_recv fuel fd n fin : like (comm_recv_n fuel fd n fin) (recv_n fuel fd n fin).
Proof.
  intros c p Ht. unfold comm_recv_n, recv_n. pose proof (like_errno 0 c p Ht) as (p1 & E1 & _). run E1.
  assert (twin c p1) as Ht1 by (unfold put_errno, modify in E1; simplify_eq; by destruct Ht).
  pose proof (like_recv_loop fuel fd n fin [] c p1 Ht1) as Hl.
  destruct (recv_loop _ _ _ _ _ c) as [[r c']| |]; [|done..]. destruct Hl as (p' & -> & Ht' & Hs).
  exists p'. split_and!; [done|done|]. unfold put_errno, modify in E1. by simplify_eq.
Qed.
Hint Resolve like_recv : core.
Lemma like_body fuel fd n has : like (recv_body fuel fd n has) (read_body fuel fd n has).
Proof. unfold recv_body, read_body. like. Qed.

(** Every state of the extension has a twin. *)
Definition twin_of p : cst S :=
  Cst (p_net p) (p_errno p) (pTo (MqObject 0 (i_timeout (p_info p)) 0 0 []))
    (MqOptInfo [] [] NumNull None [] (i_start (p_info p)) (MqConf None 0)) (MqReturn 0 0 [] None 0 0 0) [].
Lemma twin_of_twin p : twin (twin_of p) p.
Proof. split; [done|done|]. by eexists. Qed.
Lemma like_run {A} (m : M (cst S) A) n c p a c' : like m n -> twin c p -> m c = Ok (a, c') ->
  exists p', n p = Ok (a, p') /\ twin c' p' /\ same_call p p'.
Proof. intros Hl Ht E. specialize (Hl c p Ht). by rewrite E in Hl. Qed.
End Like.

Section Answer.
Context {S : Type} {pending : Z -> S -> bytes} {delay : S -> nat} `{PhpSockets S, !SocketStream S pending delay}.
Implicit Types (p : php S).
Context (code : Z) (reason : bytes) (hs : list (bytes * bytes)).
Hypothesis G : good_head code reason hs.
Let head := http_head code reason hs.

Lemma scan_status_ok b p : scan_status (head ++ b) p =
  Ok (Some reason, Php (p_net p) (p_errno p) (p_list p) (p_reason p) (set_httpcode code (p_info p)) (p_ret p)).
Proof using G.
  destruct (status_scanned code reason hs G b) as (E & H0' & Hlt). unfold scan_status, head.
  rewrite E, (proj2 (Z.eqb_neq _ 0)), (proj2 (Z.ltb_lt _ _) Hlt) by lia. done.
Qed.
Lemma set_idle_fds fd t (l : list mq_srv_info) : v_fd <$> (set_idle fd t l).2 = v_fd <$> l.
Proof using. 
  induction l as [|v l IH]; [done|]. cbn [set_idle]. destruct (v_fd v =? fd); [done|].
  destruct (set_idle fd t l) as [r l']. cbn [snd] in *. by rewrite !fmap_cons, IH.
Qed.
Lemma idle_ok fd t p : exists l, v_fd <$> l = v_fd <$> p_list p /\
  (if 0 <? t then set_timeout_by_fd fd t ;;; ret tt else ret tt) p
  = Ok (tt, Php (p_net p) (p_errno p) l (p_reason p) (p_info p) (p_ret p)).
Proof using.
  destruct (0 <? t); [|exists (p_list p); by destruct p]. exists (set_idle fd t (p_list p)).2. split; [apply set_idle_fds|].
  unfold set_timeout_by_fd, set_list, modify, bind, gets, ret. by destruct (set_idle fd t (p_list p)).
Qed.
(** The numbers of the headers are read by the same functions in the two clients. *)
Lemma php_header_int behind type v rest :
  type <> [] -> CR ∉ tolower <$> type -> LF ∉ tolower <$> type ->
  only_header type code reason hs -> header type hs = Some (dec v) -> 0 <= v <= INT_MAX ->
  get_header_info_int behind (head ++ rest) type = v.
Proof using. apply header_int. Qed.

(** C30: A script reads an answer with a complete head to its end, in whatever parts the
    connection delivers it: the array has the body and the reason, up to a NUL, the
    code and the position are those of the answer, the result is 0 for the code 200
    only, and the connection is kept. *)
Theorem read_answer_spec fuel fd p body :
  pending fd (p_net p) = head ++ body ->
  only_header (B "Content-Length") code reason hs ->
  header (B "Content-Length") hs = Some (dec (strlen body)) -> strlen body < INT_MAX ->
  return_data (p_info p) = -1 -> return_reason (p_info p) = -1 ->
  (length (head ++ body) + delay (p_net p) < fuel)%nat ->
  exists p', read_answer fuel fd p = Ok (0, p') /\
    p_ret p' = add_assoc (add_assoc (p_ret p) (B "data") (ZString (cstr body))) (B "reason") (ZString (cstr reason)) /\
    return_httpcode (p_info p') = code /\ return_result (p_info p') = (if code =? 200 then 0 else -1) /\
    (forall pos, only_header (B "Pos") code reason hs -> header (B "Pos") hs = Some (dec pos) -> 0 <= pos <= INT_MAX ->
      return_pos (p_info p') = pos) /\
    v_fd <$> p_list p' = v_fd <$> p_list p /\ pending fd (p_net p') = [].
Proof using G SocketStream0.
  intros Hst Hoc Hcl Hmax Hrd Hrr Hf. unfold read_answer.
  destruct (recv_head code reason hs G fuel fd (twin_of p) _ body eq_refl Hst Hf) as (b & c1 & E1 & Hb & Hd1 & Hs1).
  destruct (like_run _ _ _ p _ _ (like_recv fuel fd 1023 (Some check_header_finish)) (twin_of_twin p) E1)
    as (p1 & E1' & Ht1 & Hl1 & Hi1 & Hr1). fold head in E1'. run E1'. cbn [fst snd].
  rewrite (proj2 (Z.ltb_ge (strlen (head ++ b)) 0)) by (unfold strlen; lia).
  assert (get_data (cstr (head ++ b)) = Some (cstr b)) as -> by (by apply finish_head).
  assert (cstr (head ++ b) = head ++ cstr b) as -> by (apply cstr_app; by apply head_no_nul).
  run (scan_status_ok (cstr b) p1). erewrite bind_ok by reflexivity.
  assert (get_header_info_int behind_text (head ++ cstr b) (B "Content-Length") = strlen body) as ->.
  { apply php_header_int; [discriminate|decide_it|decide_it|assumption|assumption|]. unfold strlen in *; lia. }
  rewrite (proj2 (Z.ltb_ge (strlen body) 0)) by (unfold strlen; lia).
  rewrite (proj2 (Z.eqb_neq (strlen body) INT_MAX)) by lia.
  match goal with |- context [bind (if 0 <? ?t then _ else _) _ ?s2] =>
    destruct (idle_ok fd t s2) as (l & Hl & E2) end.
  run E2. clear E2. cbn [p_net p_errno p_list p_reason p_info p_ret] in *.
  rewrite length_app. replace (length head + length (cstr b) - length (cstr b))%nat with (length head) by lia.
  rewrite drop_app_length.
  match goal with |- context [bind (read_body _ _ _ _) _ ?s2] => set (p2 := s2) end.
  destruct (tw_timeout _ _ (twin_of_twin p2)) as (m2 & Hm2 & _).
  assert (still (pending := pending) fd (twin_of p2) = still (pending := pending) fd c1 /\
    delays (delay := delay) (twin_of p2) = delays (delay := delay) c1) as [Hst2 Hd2].
  { unfold still, delays. simpl. by rewrite (tw_net _ _ Ht1). }
  destruct (recv_body_ok fuel fd (twin_of p2) m2 b Hm2) as (c3 & E3 & Hp3 & _).
  { rewrite Hst2, Hd2. unfold head in Hf. change (delay (p_net p)) with (delays (delay := delay) (twin_of p)) in Hf.
    rewrite length_app, Hb, length_app in Hf. lia. }
  rewrite Hst2, <- Hb in E3.
  destruct (like_run _ _ _ p2 _ _ (like_body fuel fd (strlen body) b) (twin_of_twin p2) E3)
    as (p3 & E3' & Ht3 & Hl3 & Hi3 & Hr3). run E3'.
  assert (return_data (p_info p3) = -1 /\ return_reason (p_info p3) = -1) as [Hd3 Hrs3].
  { rewrite Hi3. simpl. by rewrite Hi1. }
  unfold set_return_data, set_return_reason, upd_ret, upd_info, bind, gets, ret, modify. rewrite Hd3. simpl. rewrite Hrs3. simpl.
  eexists. split; [reflexivity|]. simpl. rewrite Hr3, Hi3, Hl3. simpl. rewrite Hr1, Hl. simpl. rewrite Hl1.
  split_and!; try done.
  - intros pos Hop Hpos Hr. apply php_header_int; [discriminate|decide_it|decide_it|assumption..].
  - unfold still in Hp3. by rewrite (tw_net _ _ Ht3) in Hp3.
Qed.
End Answer.
