(* ===== verification/PhpSpec.v ===== *)
(** * The PHP extension keeps no connection beside its pool

    A request adds at most one connection, to a server that has none, in the slot
    that [choose_slot] gives; a request that fails closes its connection.  So the
    pool describes the descriptors of the process after any calls of the scripts,
    and the end of the module closes them all, but for the sockets that are
    connected at once, which are lost as in ClientFds. *)
From S2P Require Import Prelude.
From S2P Require Import CLib.
From S2P Require Import CStr.
From S2P Require Import ClientAnswer.
From S2P Require Import ClientFds.
From S2P Require Import ClientWire.
From S2P Require Import ClientSpec.
From S2P Require Import PhpClient.
From S2P Require Import PhpFds.
From S2P Require Import PhpAnswer.

Section Connect.
Context {S : Type} {known : S -> gset Z} `{PhpKnownFds S known, !KnownFds S known}.
Implicit Types (s : php S).
Abbreviation leaves := (leaves (known := known)).
Abbreviation php_view := (php_view (known := known)).
Abbreviation safe := (safe (known := known)).

(** ** A new connection *)
Definition connected fd r s s' : Prop :=
  (r = fd /\ php_view s' = php_view s) \/ (r = -1 /\ php_view s' = ((php_view s).1 ∖ {[fd]}, p_list s)).
(** What a statement does whose result is the descriptor [fd] or -1. *)
Definition connects fd (m : M (php S) Z) : Prop := forall s r s', m s = Ok (r, s') -> connected fd r s s'.

Lemma connects_fact {A} (P : A -> Prop) fd (m : M (php S) A) f :
  leaves m -> (forall s a s', m s = Ok (a, s') -> P a) -> (forall a, P a -> connects fd (f a)) -> connects fd (bind m f).
Proof using.
  intros Hm HP Hf s r s' E. apply bind_inv in E as (a & s1 & E1 & E2). pose proof (HP _ _ _ E1) as Ha.
  apply Hm in E1. injection E1 as Eo El. apply Hf in E2; [|done]. unfold connected, PhpFds.php_view in *.
  by rewrite Eo, El in E2.
Qed.
Lemma connects_bind {A} fd (m : M (php S) A) f : leaves m -> (forall a, connects fd (f a)) -> connects fd (bind m f).
Proof using. intros Hm Hf. by apply (connects_fact (fun _ => True)). Qed.
Lemma connects_close fd : 0 <= fd -> connects fd (close fd ;;; ret (-1)).
Proof.
  intros H0' s r s' E. apply bind_inv in E as (u & s1 & E1 & E). injection E as <- <-.
  right. split; [done|]. by eapply close_view.
Qed.
Lemma connects_ret fd : connects fd (ret fd).
Proof. intros s r s' E. injection E as <- <-. by left. Qed.

Ltac connect_step :=
  match goal with
  | |- connects _ (bind (close _) _) => apply connects_close; assumption
  | |- connects _ (bind _ _) => apply connects_bind; [solve [leave]|intros ?]
  | |- connects _ (match ?x with _ => _ end) => destruct x
  | |- connects _ (ret _) => apply connects_ret
  end.

Lemma php_connect_view fd a p s r s' : sys (sk_connect fd a p) s = Ok (r, s') ->
  php_view s' = match r with None => ((php_view s).1 ∖ {[fd]}, p_list s) | Some _ => php_view s end /\ p_list s' = p_list s.
Proof.
  unfold sys. destruct (sk_connect fd a p (p_net s)) as [[b n]| |] eqn:E; [|done|done].
  intros E'. injection E' as <- <-. apply fds_connect in E. unfold PhpFds.php_view. simpl. by destruct b; rewrite E.
Qed.
Lemma try_connect_connects fuel fd a p : 0 <= fd -> connects fd (try_connect fuel fd a p).
Proof.
  intros H0'. induction fuel as [|fuel IH]; [done|]. cbn [try_connect]. intros s r s' E.
  apply bind_inv in E as (c & s1 & E1 & E). apply php_connect_view in E1 as [E1 El]. destruct c as [e|].
  - unfold connected. rewrite <- E1, <- El. clear E1 El. revert s1 r s' E.
    match goal with |- forall s1 r s', ?m s1 = _ -> _ => assert (connects fd m) as Hm; [|intros s1 r s' E; exact (Hm _ _ _ E)] end.
    repeat first [apply IH|connect_step].
  - injection E as <- <-. by right.
Qed.

(** A new descriptor, or none. *)
Definition created r s s' : Prop :=
  (r = -1 /\ php_view s' = php_view s) \/
  (0 <= r /\ (r ∉ (php_view s).1) /\ php_view s' = ({[r]} ∪ (php_view s).1, p_list s)).

Lemma socket_created s r s' : sys_int sk_socket s = Ok (r, s') -> created r s s'.
Proof.
  unfold sys_int. intros E. apply bind_inv in E as (x & s1 & E1 & E). unfold sys in E1.
  destruct (sk_socket (p_net s)) as [[y n]| |] eqn:Es; [|done|done]. injection E1 as <- <-. apply fds_socket in Es.
  unfold created, PhpFds.php_view. destruct y as [fd|e]; injection E as <- <-; simpl.
  - right. destruct Es as (? & ? & ->). by split_and!.
  - left. by rewrite Es.
Qed.
Lemma create_socket_created fuel s r s' : create_socket fuel s = Ok (r, s') -> created r s s'.
Proof.
  unfold create_socket. intros E. apply bind_inv in E as (i & s1 & E1 & E). injection E1 as <- <-.
  apply bind_inv in E as (site & s1 & E1 & E).
  assert (php_view s1 = php_view s) as Hv1 by leaves_in E1.
  assert (p_list s1 = p_list s) as Hl1 by by injection Hv1.
  destruct site as [addr|].
  2: { apply bind_inv in E as (u & s2 & E2 & E). injection E as <- <-. apply (leaves_show (known := known)) in E2. left. by rewrite E2. }
  apply bind_inv in E as (fd & s2 & E2 & E). apply socket_created in E2. unfold created in E2. rewrite Hv1, Hl1 in E2.
  destruct E2 as [[-> E2]|(H0' & Hno & E2)].
  { cbn in E. apply bind_inv in E as (u & s3 & E3 & E). injection E as <- <-. apply (leaves_show (known := known)) in E3.
    left. by rewrite E3. }
  rewrite (proj2 (Z.ltb_ge fd 0) H0') in E.
  assert (connected fd r s2 s') as Hc.
  { revert E. match goal with |- ?m _ = _ -> _ => assert (connects fd m) as Hm end; [|apply Hm].
    repeat first [apply try_connect_connects; assumption|connect_step]. }
  unfold connected in Hc. assert (p_list s2 = p_list s) as Hl2 by by injection E2.
  rewrite Hl2, E2 in Hc. destruct Hc as [[-> Hc]|[-> Hc]]; [right; by rewrite Hc|left].
  rewrite Hc. split; [done|]. unfold PhpFds.php_view in *. simpl in *. f_equal. set_solver.
Qed.

(** ** The connection of a request *)
Lemma add_to_list_pool base fd d t s r s' o : php_view s = ({[fd]} ∪ o, p_list s) -> pool base o (p_list s) ->
  0 <= fd -> fd ∉ o -> no_conn (cstr d) (p_list s) -> add_to_list fd d t s = Ok (r, s') ->
  pool base (php_view s').1 (php_view s').2.
Proof.
  intros Hv Hp H0' Hno Hc E. unfold add_to_list in E. apply bind_inv in E as (l & s1 & E1 & E). injection E1 as <- <-.
  destruct (if choose_slot _ _ _ _ <? 0 then None else _) as [v|] eqn:Hi; [|done].
  destruct (_ <? 0); [done|]. set (i := Z.to_nat (choose_slot (p_list s) 0 INT_MAX (-1))) in *.
  apply bind_inv in E as (u & s1 & E1 & E). apply bind_inv in E as (ok & s2 & E2 & E).
  assert (php_view s2 = php_view s1) as H2 by leaves_in E2.
  destruct ok; [|done]. simpl in E. apply bind_inv in E as (w & s3 & E3 & E). apply (set_list_view (known := known)) in E3. injection E as <- <-.
  rewrite E3, H2. cbn [fst snd].
  replace (php_view s1).1 with ({[fd]} ∪ (if v_fd v =? -1 then o else o ∖ {[v_fd v]})); [by apply new_slot_pool|].
  destruct (Z.eqb_spec (v_fd v) (-1)) as [Hm|Hm].
  - injection E1 as <- <-. by rewrite Hv.
  - assert (v_fd v ∈ v_fd <$> p_list s) as Hin by (apply list_elem_of_fmap; exists v; split; [done|by eapply list_elem_of_lookup_2]).
    pose proof (owns_range _ _ _ (po_owns _ _ _ Hp) _ Hin).
    assert (v_fd v ∈ o) as Ho by (apply (owns_open _ _ _ (po_owns _ _ _ Hp)); by right).
    apply close_view in E1; [|lia]. rewrite E1, Hv. cbn [fst]. assert (fd <> v_fd v) by (intros ->; done). set_solver.
Qed.
Lemma php_get_socket_safe base fuel : safe base (get_socket fuel).
Proof.
  intros s r s' Hp E. unfold get_socket in E. apply bind_inv in E as (i & s1 & E1 & E). injection E1 as <- <-.
  apply bind_inv in E as (fd & s1 & E1 & E). apply (get_from_list_pool base) in E1 as (Hp1 & Hr & Hno); [|done].
  destruct (Z.ltb_spec fd 0) as [Hfd|Hfd]; [|by injection E as <- <-]. specialize (Hno ltac:(lia)).
  apply bind_inv in E as (x & s2 & E2 & E). apply create_socket_created in E2.
  destruct E2 as [[-> E2]|(H0' & Hx & E2)].
  - cbn in E. apply bind_inv in E as (u & s3 & E3 & E). injection E as <- <-. apply (leaves_show (known := known)) in E3.
    by rewrite E3, E2.
  - rewrite (proj2 (Z.ltb_ge x 0) H0') in E. apply bind_inv in E as (u & s3 & E3 & E). injection E as <- <-.
    assert (p_list s2 = p_list s1) as Hl by by injection E2.
    eapply add_to_list_pool; [|..|exact E3]; [rewrite E2; by rewrite Hl|by rewrite Hl|done|done|by rewrite Hl].
Qed.
End Connect.

(** ** A request and the functions of the scripts *)
Section Scripts.
Context {S : Type} {known : S -> gset Z} `{PhpKnownFds S known, !KnownFds S known}.
Implicit Types (s : php S).
Abbreviation safe := (safe (known := known)).
Context (base : gset Z).

Create HintDb safes.
Hint Resolve php_get_socket_safe del_from_list_safe set_timeout_by_fd_safe deactivate_safe : safes.
Ltac safe_step :=
  match goal with
  | |- safe _ (bind _ _) => apply safe_bind; [|intros ?]
  | |- safe _ (match ?x with _ => _ end) => destruct x
  | |- safe _ (let '(_, _) := ?x in _) => destruct x
  | |- safe _ _ => first [solve [eauto with safes] | solve [apply safe_leaves; leave]]
  end.
Ltac safe := repeat safe_step.

Lemma read_answer_safe fuel fd : safe base (read_answer fuel fd).
Proof. unfold read_answer. safe. Qed.
Hint Resolve read_answer_safe : safes.
Lemma mq_op_safe fuel : safe base (mq_op fuel).
Proof. unfold mq_op, mq_op_body. safe. Qed.
Hint Resolve mq_op_safe : safes.
Lemma mq_try_one_safe fuel x z : safe base (mq_try_one fuel x z).
Proof. unfold mq_try_one. safe. Qed.
Hint Resolve mq_try_one_safe : safes.
Lemma mq_try_all_safe fuel l : forall i, safe base (mq_try_all fuel l i).
Proof. induction l as [|x l IH]; intros i; cbn [mq_try_all]; safe. Qed.
Hint Resolve mq_try_all_safe : safes.

Context {zv : Type} (to_string : zv -> bytes) (to_long : zv -> Z) (to_array : zv -> list zv).

(** What the engine calls: a function, with its arguments, or the end of a script. *)
Inductive engine_call :=
  | CallPut (args : list zv) | CallGet (args : list zv)
  | CallSetOpt (args : list zv) | CallGetOpt (args : list zv) | ScriptEnd.

Definition run_call (fuel : nat) (c : engine_call) : M (php S) (option zarray) :=
  match c with
  | CallPut args => zif_mq_put_msg to_string to_long to_array fuel args
  | CallGet args => zif_mq_get_msg to_string to_long to_array fuel args
  | CallSetOpt args => zif_mq_set_opt to_string to_long fuel args
  | CallGetOpt args => zif_mq_get_opt to_string to_long fuel args
  | ScriptEnd => zm_deactivate_ucmq ;;; ret None
  end.
Fixpoint run_calls (fuel : nat) (cs : list engine_call) : M (php S) (list (option zarray)) :=
  match cs with
  | [] => ret []
  | c :: cs => let! r := run_call fuel c in let! rs := run_calls fuel cs in ret (r :: rs)
  end.

Lemma run_call_safe fuel c : safe base (run_call fuel c).
Proof.
  destruct c; cbn [run_call]; unfold zif_mq_put_msg, zif_mq_get_msg, zif_mq_set_opt, zif_mq_get_opt, opt_function,
    init_info, invalid_argument, opt_arg; safe.
Qed.
Lemma run_calls_safe fuel cs : safe base (run_calls fuel cs).
Proof. pose proof run_call_safe as Hc. induction cs as [|c cs IH]; cbn [run_calls]; safe. Qed.
End Scripts.

Lemma startup_pool base : pool base base (replicate MQ_LIST_SIZE (SrvInfo None (-1) 0 0)).
Proof.
  assert (forall v, v ∈ replicate MQ_LIST_SIZE (SrvInfo None (-1) 0 0) -> v_fd v = -1) as Hv.
  { by intros v [-> _]%elem_of_replicate. }
  split.
  - by rewrite length_replicate.
  - rewrite fmap_replicate. assert (forall x, x ∈ replicate MQ_LIST_SIZE (-1) -> x = -1) as Hx by by intros x [-> _]%elem_of_replicate.
    split.
    + intros x. split; [by left|]. intros [?|[? Hi%Hx]]; done.
    + intros i j x Hi%list_elem_of_lookup_2%Hx. done.
    + intros x Hi%Hx. done.
    + intros x Hi%Hx. lia.
  - intros i j v w d Hi%list_elem_of_lookup_2%Hv. done.
  - intros v Hi%Hv. done.
Qed.

(** ** A session on the network of ClientWire *)
#[export] Instance wire_php : PhpSockets wire := {
  sk_gethostbyname d := ret (Some 16777343);
  sk_peek fd w := Ok (match wi_events w with Part _ _ :: _ => inl 1 | _ => inr E_AGAIN end, w)
}.
#[export] Instance wire_php_fds : PhpSocketFds wire wi_opened wi_at_once.
Proof. by split; intros ???? [= _ <-]. Qed.

Inductive demo_value := DStr (s : bytes) | DLong (n : Z) | DArray (l : list demo_value).
Definition demo_string (v : demo_value) : bytes := match v with DStr s => s | DLong n => sdec n | DArray _ => B "Array" end.
Definition demo_long (v : demo_value) : Z := match v with DStr s => atoi s | DLong n => n | DArray l => Z.of_nat (length l) end.
Definition demo_array (v : demo_value) : list demo_value := match v with DArray l => l | _ => [v] end.

(** A put whose first server is connected at once and whose second one answers;
    a get on the connection of that server, which breaks off its answer; an option
    with a new connection, and too few arguments. *)
Definition demo_servers : demo_value := DArray [DStr (B "10.0.0.1:8803"); DStr (B "10.0.0.2:8803")].
Definition demo_calls : list (@engine_call demo_value) :=
  [CallPut [demo_servers; DStr (B "q"); DStr (B "hello")]; ScriptEnd;
   CallGet [DArray [DStr (B "10.0.0.2:8803")]; DStr (B "q")];
   CallSetOpt [DStr (B "10.0.0.2:8803"); DStr (B "q"); DStr (B "maxqueue"); DLong 5]; CallGet [DLong 1]].
Definition demo_state : php wire :=
  Php (Wire [7] [0] [] [whole (found "hello"); whole (take 60 (found "hello")); whole (found "12345")] [] [] [])
    0 [] [] info_zero [].

(** The end of the module closes the connections of the pool. *)
Lemma shutdown_closes {S : Type} {known : S -> gset Z} `{PhpKnownFds S known, !KnownFds S known} base (s s' : php S) u :
  pool base (known (p_net s)) (p_list s) -> zm_shutdown_ucmq s = Ok (u, s') -> known (p_net s') = base.
Proof.
  intros Hp E. unfold zm_shutdown_ucmq in E. apply bind_inv in E as (l & s4 & E3 & E). injection E3 as <- <-.
  eapply (close_slots_closes (known := known) base _ []) in E; [exact E| |apply (po_owns _ _ _ Hp)].
  intros x Hx. by apply elem_of_nil in Hx.
Qed.
(** More descriptors beside those of the pool. *)
Lemma pool_more base o more l : pool base o l -> more ## o -> pool (base ∪ more) (o ∪ more) l.
Proof.
  intros [Hs [Ho Hon Ha Hr] H1 H2] Hd. split; [done| |done|done]. split; [|done| |done].
  - intros x. rewrite !elem_of_union, Ho. tauto.
  - intros x Hx Hne [Hb|Hm]%elem_of_union; [by apply (Ha x)|]. apply (Hd x Hm), Ho. by right.
Qed.

(** C32: From the start of the extension on, after any calls of its functions and
    ends of scripts, the process has the descriptors it had, those of the connections
    of the pool - ten slots, each connection once, to different servers - and the
    sockets that were connected at once, which it has given up.  The end of the
    module closes the connections of the pool: what is left are the descriptors of
    its start and these sockets. *)
Theorem pool_holds_connections {S : Type} {opened at_once : S -> gset Z}
    `{PhpSocketFds S opened at_once, !SocketFds S opened at_once}
    {zv : Type} (to_string : zv -> bytes) (to_long : zv -> Z) (to_array : zv -> list zv)
    fuel (cs : list engine_call) (s0 s1 s2 : php S) u rs :
  at_once (p_net s0) = ∅ -> zm_startup_ucmq s0 = Ok (u, s1) ->
  run_calls to_string to_long to_array fuel cs s1 = Ok (rs, s2) ->
  pool (opened (p_net s0) ∪ at_once (p_net s2)) (opened (p_net s2)) (p_list s2) /\
  forall w s3, zm_shutdown_ucmq s2 = Ok (w, s3) ->
    opened (p_net s3) = opened (p_net s0) ∪ at_once (p_net s3) /\ opened (p_net s0) ## at_once (p_net s3).
Proof.
  intros Ha E1 E2. injection E1 as <- <-. set (known := less_at_once opened at_once).
  apply (run_calls_safe (known := known) (known (p_net s0))) in E2; [|apply startup_pool]. split.
  - pose proof (sf_at_once (p_net s2)). apply (pool_more _ _ (at_once (p_net s2))) in E2.
    + unfold known, less_at_once in E2. cbn [php_view fst snd] in E2. rewrite Ha, difference_empty_L in E2.
      rewrite difference_union_L in E2.
      assert (opened (p_net s2) ∪ at_once (p_net s2) = opened (p_net s2)) as Ho by set_solver.
      by rewrite Ho in E2.
    + cbn [php_view fst]. unfold known, less_at_once. set_solver.
  - intros w s3 E. apply (less_back opened at_once); [done|]. exact (shutdown_closes (known := known) _ _ _ _ E2 E).
Qed.

Lemma pool_holds_connections_witness :
  exists rs s1 s2, run_calls demo_string demo_long demo_array 100 demo_calls s1 = Ok (rs, s2) /\
    v_fd <$> take 2 (p_list s2) = [9; -1] /\ wi_opened (p_net s2) = {[7; 8; 9]} /\ wi_at_once (p_net s2) = {[8]} /\
    pool {[7; 8]} (wi_opened (p_net s2)) (p_list s2) /\
    forall w s3, zm_shutdown_ucmq s2 = Ok (w, s3) -> wi_opened (p_net s3) = {[7]} ∪ wi_at_once (p_net s3).
Proof.
  assert (exists s1 rs s2, zm_startup_ucmq demo_state = Ok (tt, s1) /\
    run_calls demo_string demo_long demo_array 100 demo_calls s1 = Ok (rs, s2) /\
    v_fd <$> take 2 (p_list s2) = [9; -1] /\ wi_opened (p_net s2) = {[7; 8; 9]} /\ wi_at_once (p_net s2) = {[8]}) as (s1 & rs & s2 & E1 & E2 & Hl & Ho & Hw).
  { do 3 eexists. split; [reflexivity|]. split; [vm_compute; reflexivity|]. split; [reflexivity|]. split; vm_compute; reflexivity. }
  exists rs, s1, s2. split; [exact E2|]. split; [exact Hl|]. split; [exact Ho|]. split; [exact Hw|].
  destruct (pool_holds_connections (opened := wi_opened) (at_once := wi_at_once) demo_string demo_long demo_array
    100 demo_calls demo_state s1 s2 tt rs) as [Hp Hs]; [vm_compute; reflexivity|exact E1|exact E2|].
  rewrite Hw in Hp. split; [exact Hp|]. intros w s3 E. by destruct (Hs w s3 E).
Defined.

(** An answer in two parts, with a call that comes too early and an interrupted one. *)
Definition php_answer : php wire :=
  Php (Wire [3] [] (whole (take 40 (found "hello")) ++ [Late false; Late true] ++ whole (drop 40 (found "hello"))) [] [] [] [])
    0 (replicate MQ_LIST_SIZE (SrvInfo None (-1) 0 0)) [] info_zero [].
Lemma read_answer_spec_witness :
  exists p', read_answer 100 3 php_answer = Ok (0, p') /\
    p_ret p' = [(B "data", ZString (B "hello")); (B "reason", ZString (B "UCMQ_HTTP_OK"))] /\
    return_pos (p_info p') = 7 /\ return_result (p_info p') = 0.
Proof.
  destruct (read_answer_spec 200 (B "UCMQ_HTTP_OK") demo_headers demo_head 100 3 php_answer (B "hello"))
    as (p' & E & Ha & _ & Hr & Hp & _);
    [vm_compute; reflexivity|decide_it|vm_compute; reflexivity|vm_compute; reflexivity|reflexivity|reflexivity
    |vm_compute; repeat constructor|].
  exists p'. split; [exact E|]. split; [exact Ha|]. split; [|exact Hr].
  apply Hp; [decide_it|vm_compute; reflexivity|split; discriminate].
Defined.

(** ** Where the extension does not do what it means to *)

(** A connection that is made at once is taken for a failure, and its descriptor is
    lost. *)
Theorem php_connect_at_once {S} {opened at_once : S -> gset Z}
    `{PhpSocketFds S opened at_once, !SocketFds S opened at_once}
    fuel (s : php S) addr fd n1 n2 n3 n4 :
  sk_gethostbyname (i_domain (p_info s)) (p_net s) = Ok (Some addr, n1) -> sk_socket n1 = Ok (inl fd, n2) ->
  sk_nonblock fd n2 = Ok (None, n3) -> sk_connect fd addr (u16 (i_port (p_info s))) n3 = Ok (None, n4) ->
  exists s', create_socket (Datatypes.S fuel) s = Ok (-1, s') /\
    opened (p_net s') = {[fd]} ∪ opened (p_net s) /\ p_list s' = p_list s.
Proof.
  intros E1 E2 E3 E4. pose proof (php_sf_host _ _ _ _ E1) as [Ho1 _]. pose proof (sf_socket _ _ _ E2) as (_ & Hfd & _ & Ho2).
  pose proof (sf_nonblock _ _ _ _ E3) as [Ho3 _]. pose proof (sf_connect _ _ _ _ _ _ E4) as [Ho4 _].
  unfold create_socket, sys_int, sys, bind, gets, ret. rewrite E1. cbn [p_net]. rewrite E2.
  rewrite (proj2 (Z.ltb_ge fd 0) Hfd). cbn [p_net]. rewrite E3. cbn [try_connect p_net put_errno modify].
  unfold sys, bind, ret. cbn [p_net]. rewrite E4. eexists. split; [reflexivity|]. simpl. split; [congruence|done].
Qed.

(** The arrays that the functions return, and the times for which the first
    connections are kept. *)
Definition php_report (n : nat) (cs : list (@engine_call demo_value)) (answers : list (list wev)) (connects : list Z) :=
  match (zm_startup_ucmq ;;; run_calls demo_string demo_long demo_array 100 cs)
          (Php (Wire [] connects [] answers [] [] []) 0 [] [] info_zero []) with
  | Ok (rs, s) => Some (rs, v_timeout <$> take n (p_list s))
  | _ => None
  end.
Definition get_entry (k : string) (r : option zarray) : option zval :=
  match r with Some a => snd <$> head (filter (fun x => x.1 = B k) a) | None => None end.
Definition get_call : @engine_call demo_value := CallGet [demo_servers; DStr (B "q")].

(** The time that a server keeps a connection is not found: the text "keep-alive" is
    looked for, and the line before it has that text as its value. *)
Definition kept_60 : bytes :=
  answer_of ["HTTP/1.1 200 UCMQ_HTTP_OK"; "Connection: keep-alive"; "keep-alive: 60"; "Content-Length: 5"] "hello".
Theorem idle_time_not_read :
  (exists rs, php_report 1 [get_call] [whole kept_60] [] = Some (rs, [3600])) /\
  get_header_info_int [] kept_60 (B "keep-alive") = 0 /\ get_header_info_int [] kept_60 (LF :: B "keep-alive") = 60.
Proof. split; [eexists; vm_compute; reflexivity|split; vm_compute; reflexivity]. Qed.

(** When no server can be reached the index is the one of the first server. *)
Theorem failure_has_index_0 :
  exists r l, php_report 0 [get_call] [] [111; 111] = Some ([r], l) /\
    get_entry "index" r = Some (ZLong 0) /\ get_entry "result" r = Some (ZLong (-1)).
Proof. do 2 eexists. split; [vm_compute; reflexivity|split; vm_compute; reflexivity]. Qed.

(** With too many arguments the reason is the one of the call before. *)
Theorem stale_reason :
  exists r1 r2 t l, php_report 0 [get_call; CallGet (replicate 5 (DLong 0))] [] [111; 111] = Some ([r1; r2], l) /\
    get_entry "reason" r1 = Some (ZString t) /\ get_entry "reason" r2 = Some (ZString t).
Proof. do 4 eexists. split; [vm_compute; reflexivity|split; vm_compute; reflexivity]. Qed.
