(* ===== verification/Frame.v ===== *)
(** * What an operation on one queue leaves alone

    A region is what belongs to the rest of the server: inodes, descriptors and
    mappings.  [outside] says that the world differs from an earlier one only
    outside the region and below one directory; every system call and every
    function of the store on the queue of that directory maintains it, whatever
    its result and its branch. *)
From S2P Require Import Prelude.
From S2P Require Import CLib.
From S2P Require Import World.
From S2P Require Import MqTypes.
From S2P Require Import MqUtil.
From S2P Require Import FileIo.
From S2P Require Import MsgFormat.
From S2P Require Import StorePath.
From S2P Require Import StoreRtag.
From S2P Require Import StoreFile.
From S2P Require Import StoreManage.
From S2P Require Import QueueManage.
From S2P Require Import StoreInv.

(** ** Paths below a directory *)
Definition inside (dir p : bytes) : Prop := exists s, p = dir ++ slash :: s.
Definition below (dir p : bytes) : Prop := p = dir \/ inside dir p.

Lemma inside_below dir p : inside dir p -> below dir p.
Proof. by right. Qed.
Lemma inside_not_dir dir : ~ inside dir dir.
Proof. intros [s E%(f_equal length)]. rewrite length_app in E. simpl in E. lia. Qed.


Lemma file_path_inside dir p name : last dir <> Some slash -> below dir p ->
  inside dir (get_file_path p name).
Proof.
  unfold get_file_path. intros Hd [->|[s ->]].
  - rewrite bool_decide_false by done. exists name. by rewrite <- app_assoc.
  - case_bool_decide; [exists (s ++ name)|exists (s ++ slash :: name)]; rewrite <- !app_assoc; done.
Qed.

(** A name that is cut is still inside. *)
Lemma snprintf_inside n dir name : (length dir + 1 < n)%nat -> inside dir (snprintf n (dir ++ slash :: name)).
Proof.
  intros Hl. unfold snprintf. rewrite take_app_ge by lia.
  destruct (n - 1 - length dir)%nat as [|k] eqn:E; [lia|]. by exists (take k name).
Qed.

(** ** The region *)

(** The directory in which there are changes, and what the changes spare: inodes,
    descriptors and addresses, all below the number that is given out next. *)
Record region := Region {
  rg_dir : bytes;
  rg_ino : Z -> Prop;
  rg_fd : Z -> Prop;
  rg_map : Z -> Prop;
  rg_next : Z;
  rg_dir_ok : last rg_dir <> Some slash;
  rg_ino_old i : rg_ino i -> i < rg_next;
  rg_fd_old k : rg_fd k -> 0 < k < rg_next;
  rg_map_old k : rg_map k -> 0 < k < rg_next
}.

Section Frame.
Context (r : region) (w0 : world).
#[local] Abbreviation dir := (rg_dir r).
#[local] Abbreviation I := (rg_ino r).
#[local] Abbreviation F := (rg_fd r).
#[local] Abbreviation A := (rg_map r).
#[local] Abbreviation N := (rg_next r).

Record outside (w : world) : Prop := {
  os_wf : world_wf w;
  os_faults : w_faults w = [];
  os_next : N <= w_next w;
  os_rest : w_free w = w_free w0 /\ w_clock w = w_clock w0;
  (* the region is as it was *)
  os_inodes i : I i -> w_inodes w !! i = w_inodes w0 !! i;
  os_fds k : F k -> w_fds w !! k = w_fds w0 !! k;
  os_maps k : A k -> w_maps w !! k = w_maps w0 !! k;
  (* so is what is not below the directory *)
  os_dirs p : ~ below dir p -> (p ∈ w_dirs w <-> p ∈ w_dirs w0);
  os_names p : ~ below dir p -> w_names w !! p = w_names w0 !! p;
  (* nothing else leads into the region *)
  os_names_out p i : inside dir p -> w_names w !! p = Some i -> ~ I i;
  os_fds_out k o : w_fds w !! k = Some o -> I (o_ino o) -> F k;
  os_maps_out k m : w_maps w !! k = Some m -> I (m_ino m) -> A k;
  os_names_new p i : inside dir p -> w_names w !! p = Some i -> w_names w0 !! p = Some i \/ N <= i;
  os_fds_known k o : w_fds w !! k = Some o -> o_ino o < w_next w;
  os_maps_known k m : w_maps w !! k = Some m -> m_ino m < w_next w;
  (* the directory holds no directory that is new, and stays a directory *)
  os_flat p : inside dir p -> p ∈ w_dirs w -> p ∈ w_dirs w0;
  os_no_file : w_names w !! dir = None \/ w_names w0 !! dir <> None
}.

#[local] Abbreviation local := (maintains outside).

(** ** Changes of the world *)
Lemma out_fd w k o o1 : outside w -> w_fds w !! k = Some o1 -> ~ F k -> o_ino o = o_ino o1 ->
  outside (set_fds (<[k := o]> (w_fds w)) w).
Proof using.
  intros [] Hk Hf Eo. split; cbn; try done; [by eapply wf_set_fd|..].
  - intros j Hj. rewrite lookup_insert_ne; [auto|congruence].
  - intros j o2. rewrite lookup_insert_Some. intros [[<- <-]|[_ H]]; [rewrite Eo|]; eauto.
  - intros j o2. rewrite lookup_insert_Some. intros [[<- <-]|[_ H]]; [rewrite Eo|]; eauto.
Qed.
Lemma out_inode w i f : outside w -> is_Some (w_inodes w !! i) -> ~ I i ->
  outside (set_inodes (<[i := f]> (w_inodes w)) w).
Proof using.
  intros [] [g Hg] Hi. split; cbn; try done; [by eapply wf_set_inodes|].
  intros j Hj. rewrite lookup_insert_ne; [auto|congruence].
Qed.
Lemma out_close w k : outside w -> ~ F k -> outside (set_fds (delete k (w_fds w)) w).
Proof using.
  intros [] Hf. split; cbn; try done; [by eapply (wf_close w k)|..].
  - intros j Hj. rewrite lookup_delete_ne; [auto|congruence].
  - intros j o [_ H]%lookup_delete_Some. eauto.
  - intros j o [_ H]%lookup_delete_Some. eauto.
Qed.
Lemma out_munmap w k : outside w -> ~ A k -> outside (set_maps (delete k (w_maps w)) w).
Proof using.
  intros [] Hf. split; cbn; try done; [by eapply (wf_munmap w k)|..].
  - intros j Hj. rewrite lookup_delete_ne; [auto|congruence].
  - intros j o [_ H]%lookup_delete_Some. eauto.
  - intros j o [_ H]%lookup_delete_Some. eauto.
Qed.
Lemma out_unlink w p : outside w -> below dir p -> outside (set_names (delete p (w_names w)) w).
Proof using.
  intros [] Hp. split; cbn; try done; [by eapply (wf_unlink w p)|..].
  - intros q Hq. rewrite lookup_delete_ne; [auto|congruence].
  - intros q i Hq [_ H]%lookup_delete_Some. eauto.
  - intros q i Hq [_ H]%lookup_delete_Some. eauto.
  - destruct os_no_file0; [|by right]. left. by rewrite lookup_delete_None; right.
Qed.
Lemma out_mkdir w : outside w -> outside (set_dirs ({[dir]} ∪ w_dirs w) w).
Proof using.
  intros []. split; cbn; try done; [by destruct os_wf0; split|..].
  - intros p Hp. rewrite <- os_dirs0 by done. rewrite elem_of_union, elem_of_singleton.
    split; [intros [->|?]; [by destruct Hp; left|done]|by right].
  - intros p Hp. rewrite elem_of_union, elem_of_singleton.
    intros [->|?]; [by apply inside_not_dir in Hp|auto].
Qed.
Lemma out_rmdir w p : outside w -> below dir p -> outside (set_dirs (w_dirs w ∖ {[p]}) w).
Proof using.
  intros [] Hp. split; cbn; try done; [by destruct os_wf0; split|..].
  - intros q Hq. rewrite <- os_dirs0 by done. rewrite elem_of_difference, elem_of_singleton.
    split; [by intros []|]. intros ?. split; [done|]. intros ->. done.
  - intros q Hq [? _]%elem_of_difference. auto.
Qed.
Lemma out_map w m : outside w -> ~ I (m_ino m) -> m_ino m < w_next w ->
  outside (set_next (w_next w + 1) (set_maps (<[w_next w := m]> (w_maps w)) w)).
Proof using.
  intros [] Hi Hk. destruct m as [ino len]. cbn in *. split; cbn; try done; [by apply wf_mmap|lia|..].
  - intros j Hj. pose proof (rg_map_old r _ Hj). rewrite lookup_insert_ne; [auto|lia].
  - intros j m. rewrite lookup_insert_Some. intros [[<- <-]|[_ H]]; [done|eauto].
  - intros j o H. specialize (os_fds_known0 j o H). lia.
  - intros j m. rewrite lookup_insert_Some. intros [[<- <-]|[_ H]]; cbn; [lia|].
    specialize (os_maps_known0 j m H). lia.
Qed.
Lemma out_open w ino ap nb : outside w -> ~ I ino -> ino < w_next w ->
  outside (set_next (w_next w + 1) (set_fds (<[w_next w := Ofd ino 0 ap nb]> (w_fds w)) w)).
Proof using.
  intros [] Hi Hk. split; cbn; try done; [|lia|..].
  - destruct os_wf0. split; cbn; eauto; try lia.
    + intros k o. rewrite lookup_insert_Some. intros [[<- _]|[_ H]]; [lia|]. apply wf_fds in H. lia.
    + intros k m H. apply wf_maps in H. lia.
    + intros k f H. apply wf_inodes in H. lia.
  - intros j Hj. pose proof (rg_fd_old r _ Hj). rewrite lookup_insert_ne; [auto|lia].
  - intros j o. rewrite lookup_insert_Some. intros [[<- <-]|[_ H]]; [done|eauto].
  - intros j o. rewrite lookup_insert_Some. intros [[<- <-]|[_ H]]; cbn; [lia|].
    specialize (os_fds_known0 j o H). lia.
  - intros j m H. specialize (os_maps_known0 j m H). lia.
Qed.
Lemma out_created w p ap nb : outside w -> inside dir p -> w_names w !! p = None ->
  outside (created w p ap nb).
Proof using.
  intros [] Hp Hn. assert (forall i, I i -> i <> w_next w + 1) as Hne.
  { intros i Hi ->. apply rg_ino_old in Hi. lia. }
  split; cbn; try done; [by apply wf_created|lia|..].
  - intros i Hi. rewrite lookup_insert_ne; [auto|]. specialize (Hne i Hi). congruence.
  - intros j Hj. pose proof (rg_fd_old r _ Hj). rewrite lookup_insert_ne; [auto|lia].
  - intros q Hq. rewrite lookup_insert_ne; [auto|]. intros ->. by apply Hq, inside_below.
  - intros q i Hq. rewrite lookup_insert_Some. intros [[<- <-]|[_ H]]; [|eauto].
    intros Hi. by apply (Hne _ Hi).
  - intros j o. rewrite lookup_insert_Some. intros [[<- <-]|[_ H]]; [|eauto].
    cbn. intros Hi. by destruct (Hne _ Hi).
  - intros q i Hq. rewrite lookup_insert_Some. intros [[<- <-]|[_ H]]; [right; lia|eauto].
  - intros j o. rewrite lookup_insert_Some. intros [[<- <-]|[_ H]]; cbn; [lia|].
    specialize (os_fds_known0 j o H). lia.
  - intros j m H. specialize (os_maps_known0 j m H). lia.
  - destruct os_no_file0; [|by right]. left. rewrite lookup_insert_ne; [done|].
    intros ->. by apply inside_not_dir in Hp.
Qed.

(** ** System calls *)
Definition free_fd (k : Z) : Prop := ~ F k.
Definition free_map (k : Z) : Prop := ~ A k.

Lemma free_neg k : k <= 0 -> free_fd k /\ free_map k.
Proof using. intros Hk. split; [intros H%rg_fd_old|intros H%rg_map_old]; lia. Qed.
Lemma free_next w : outside w -> free_fd (w_next w) /\ free_map (w_next w).
Proof using. intros []. split; [intros H%rg_fd_old|intros H%rg_map_old]; lia. Qed.
Lemma free_fd_neg : free_fd (-1).
Proof using. by apply free_neg. Qed.
Lemma free_map_zero : free_map 0.
Proof using. by apply free_neg. Qed.

Lemma loc_fault : local pick_fault (fun b => b = false).
Proof using. intros w b w' Ho E. unfold pick_fault in E. rewrite (os_faults _ Ho) in E. by injection E as <- <-. Qed.

(** A call that can fail does not. *)
Lemma loc_call {X} (e : M world X) (k : M world X) Q :
  local k Q -> local (let! bad := pick_fault in if bad then e else k) Q.
Proof using. intros Hk. eapply mt_bind; [apply loc_fault|]. intros b ->. done. Qed.

Lemma loc_open p creat ap nb : inside dir p -> local (sys_open p creat ap nb) free_fd.
Proof using.
  intros Hp. apply loc_call. intros w k w' Ho E.
  destruct (bool_decide (p ∈ w_dirs w)); [injection E as <- <-; split; [done|apply free_fd_neg]|].
  destruct (w_names w !! p) as [ino|] eqn:En.
  - injection E as <- <-. split; [|by apply free_next].
    apply out_open; [done|by apply (os_names_out _ Ho p)|].
    destruct (wf_names _ (os_wf _ Ho) _ _ En) as [f Hf]. by apply (wf_inodes _ (os_wf _ Ho) _ f).
  - destruct (creat && _).
    + injection E as <- <-. split; [by apply out_created|by apply free_next].
    + injection E as <- <-. split; [done|apply free_fd_neg].
Qed.

Lemma loc_close k : free_fd k -> local (sys_close k) anything.
Proof using. intros Hk. apply mt_modify. intros w Ho. by apply out_close. Qed.
Lemma loc_unlink p : below dir p -> local (sys_unlink p) anything.
Proof using. intros Hp. apply mt_modify. intros w Ho. by apply out_unlink. Qed.
Lemma loc_munmap k : free_map k -> local (sys_munmap k) anything.
Proof using. intros Hk. apply mt_modify. intros w Ho. by apply out_munmap. Qed.
Lemma loc_rmdir p : below dir p -> local (sys_rmdir p) anything.
Proof using. intros Hp. apply mt_modify. intros w Ho. destruct (dir_empty w p); [by apply out_rmdir|done]. Qed.
Lemma loc_mkdir : local (sys_mkdir dir) anything.
Proof using.
  apply loc_call. intros w x w' Ho E. repeat case_match; simplify_eq; split; try done. by apply out_mkdir.
Qed.

(** An open file behind a descriptor outside the region. *)
Lemma out_file w k o f : outside w -> free_fd k -> fd_file w k = Some (o, f) ->
  w_fds w !! k = Some o /\ is_Some (w_inodes w !! o_ino o) /\ ~ I (o_ino o).
Proof using.
  intros Ho Hk [H1 H2]%fd_file_fds. split_and!; [done|eauto|]. intros Hi. by apply Hk, (os_fds_out _ Ho k o).
Qed.

Lemma loc_ftruncate k n : free_fd k -> local (sys_ftruncate k n) anything.
Proof using.
  intros Hk. apply loc_call. intros w x w' Ho E. destruct (fd_file w k) as [[o f]|] eqn:Ef; simplify_eq; [|done].
  destruct (out_file _ _ _ _ Ho Hk Ef) as (? & ? & ?). split; [|done]. by apply out_inode.
Qed.
Lemma loc_lseek k n wh : free_fd k -> local (sys_lseek k n wh) anything.
Proof using.
  intros Hk w x w' Ho E. unfold sys_lseek in E. destruct (fd_file w k) as [[o f]|] eqn:Ef; simplify_eq; [|done].
  destruct (out_file _ _ _ _ Ho Hk Ef) as (? & ? & ?). destruct (_ <? 0); simplify_eq; [done|].
  split; [|done]. by eapply out_fd.
Qed.
Lemma loc_write k bs : free_fd k -> local (sys_write k bs) anything.
Proof using.
  intros Hk. apply loc_call. intros w x w' Ho E. destruct (fd_file w k) as [[o f]|] eqn:Ef; [|by simplify_eq].
  injection E as <- <-. destruct (out_file _ _ _ _ Ho Hk Ef) as (? & ? & ?). split; [|done].
  apply (out_inode (set_fds _ w)); [by eapply out_fd|done|done].
Qed.
Lemma loc_read k n : free_fd k -> local (sys_read k n) anything.
Proof using.
  intros Hk. apply loc_call. intros w x w' Ho E. destruct (fd_file w k) as [[o f]|] eqn:Ef; [|by simplify_eq].
  injection E as <- <-. destruct (out_file _ _ _ _ Ho Hk Ef) as (? & ? & ?). split; [|done]. by eapply out_fd.
Qed.
Lemma loc_mmap len k : free_fd k -> local (sys_mmap len k) (fun r => match r with Some a => free_map a | None => True end).
Proof using.
  intros Hk. apply loc_call. intros w x w' Ho E. destruct (w_fds w !! k) as [o|] eqn:Eo; [|by simplify_eq].
  injection E as <- <-. split; [|by apply free_next]. apply out_map; [done|intros Hi; by apply Hk, (os_fds_out _ Ho k o)|by apply (os_fds_known _ Ho k)].
Qed.
Lemma loc_store a off bs : free_map a -> local (mem_store a off bs) anything.
Proof using.
  intros Ha w x w' Ho E. unfold mem_store, map_file in E.
  destruct (w_maps w !! a) as [m|] eqn:Em; [|done]. destruct (w_inodes w !! m_ino m) as [f|] eqn:Ef; [|done].
  destruct (in_map m f off _); [|done]. simplify_eq. split; [|done].
  apply out_inode; [done|eauto|intros Hi; by apply Ha, (os_maps_out _ Ho a m)].
Qed.
Lemma loc_load a off n : local (mem_load a off n) anything.
Proof using.
  intros w x w' Ho E. unfold mem_load in E. destruct (map_file w a) as [[m f]|]; [|done].
  destruct (in_map m f off n); [|done]. by injection E as <- <-.
Qed.
Lemma loc_gets {X} (f : world -> X) : local (gets f) anything.
Proof using. by apply mt_gets. Qed.

#[local] Hint Resolve free_fd_neg free_map_zero loc_open loc_close loc_unlink loc_munmap loc_rmdir
  loc_mkdir loc_ftruncate loc_lseek loc_write loc_read loc_mmap loc_store loc_load loc_gets
  inside_below : maintain.

(** ** Functions on files *)
Lemma loc_rel_time t : local (get_rel_time t) anything.
Proof. unfold get_rel_time, get_time_tick, px_clock, world_posix. maintain. Qed.
Lemma loc_abs_time t : local (get_abs_time t) anything.
Proof. unfold get_abs_time, get_time_tick, px_clock, world_posix. maintain. Qed.
Lemma loc_wait fuel k ev t : local (wait_fd fuel k ev t) anything.
Proof. induction fuel as [|fuel IH]; cbn [wait_fd px_poll world_posix]; maintain. Qed.
#[local] Hint Resolve loc_rel_time loc_abs_time loc_wait : maintain.

Lemma loc_px_write k bs : free_fd k -> local (px_write k bs) anything.
Proof. intros Hk. unfold px_write, world_posix. maintain. Qed.
#[local] Hint Resolve loc_px_write : maintain.
Lemma loc_write_retry fuel k bs : free_fd k -> local (write_retry fuel k bs) anything.
Proof. intros Hk. induction fuel as [|fuel IH]; cbn [write_retry]; maintain. Qed.
#[local] Hint Resolve loc_write_retry : maintain.
Lemma loc_nonblock_write fuel k buf size t abs total : free_fd k ->
  local (nonblock_write_loop fuel k buf size t abs total) anything.
Proof.
  intros Hk. revert total. induction fuel as [|fuel IH]; intros total; cbn [nonblock_write_loop]; maintain.
Qed.
Lemma loc_block_write fuel k buf size t abs total : free_fd k ->
  local (block_write_loop fuel k buf size t abs total) anything.
Proof.
  intros Hk. revert total. induction fuel as [|fuel IH]; intros total; cbn [block_write_loop]; maintain.
Qed.
#[local] Hint Resolve loc_nonblock_write loc_block_write : maintain.
Lemma loc_write_n fuel k b buf size t : free_fd k -> local (write_n fuel k b buf size t) anything.
Proof.
  intros Hk. unfold write_n, is_nonblock, nonblock_write_n, block_write_n, px_getfl, world_posix, sys_getfl.
  maintain.
Qed.

Lemma loc_free_space : local get_storage_free anything.
Proof. unfold get_storage_free, sys_statfs_free. maintain. Qed.
Lemma loc_time : local get_cur_timestamp anything.
Proof. unfold get_cur_timestamp, sys_time. maintain. Qed.
Lemma loc_size p : local (get_file_size p) anything.
Proof. unfold get_file_size, sys_stat_size. maintain. Qed.
Lemma loc_extend k n : free_fd k -> local (extend_file_size k n) anything.
Proof. intros Hk. unfold extend_file_size. maintain. Qed.
#[local] Hint Resolve loc_write_n loc_free_space loc_time loc_size loc_extend : maintain.

Lemma loc_delete_each del p l : (forall q, below dir q -> local (del q) anything) -> below dir p ->
  local (delete_each del p l) anything.
Proof.
  intros Hd Hp. assert (forall name, below dir (get_file_path p name)) as Hq
    by (intros; apply inside_below, file_path_inside; [apply rg_dir_ok|done]).
  induction l as [|e l IH]; cbn [delete_each]; maintain.
Qed.
Lemma loc_delete_rec fuel p : below dir p -> local (delete_file_rec fuel p) anything.
Proof.
  revert p. induction fuel as [|fuel IH]; intros p Hp; cbn [delete_file_rec]; [apply mt_fuel|].
  assert (forall l, local (delete_each (delete_file_rec fuel) p l) anything)
    by (intros l; by apply loc_delete_each).
  unfold sys_is_file, sys_is_dir, sys_opendir. maintain.
Qed.
Lemma loc_delete p : below dir p -> local (delete_file p) anything.
Proof. intros Hp w x w' Ho E. by eapply loc_delete_rec. Qed.
#[local] Hint Resolve loc_delete : maintain.

Lemma loc_load_ptr p n : local (load_ptr p n) anything.
Proof. unfold load_ptr. maintain. Qed.
#[local] Hint Resolve loc_load_ptr : maintain.
Lemma loc_crc p n : local (mq_sm_db_build_msg_crc16 p n) anything.
Proof. unfold mq_sm_db_build_msg_crc16. maintain. Qed.
Lemma loc_parse conf a p item : local (mq_sm_db_parse_msg conf a p item) anything.
Proof.
  pose proof loc_crc. unfold mq_sm_db_parse_msg, mq_sm_db_parse_msg_head. maintain.
Qed.
Lemma loc_open_db conf p flag : inside dir p ->
  local (mq_sm_open_db_file conf p flag) (fun r => free_fd r.1 /\ free_map r.2).
Proof.
  intros Hp. unfold mq_sm_open_db_file. maintain.
Qed.
Lemma loc_open_tag p : inside dir p -> local (mq_sm_rtag_open_next_file p) free_fd.
Proof. intros Hp. unfold mq_sm_rtag_open_next_file. maintain. Qed.
Lemma loc_close_db conf a k : free_map a -> free_fd k -> local (mq_sm_close_db_file conf a k) anything.
Proof. intros Ha Hk. unfold mq_sm_close_db_file, sys_msync, sys_fsync. maintain. Qed.
Lemma loc_copy a p bs : free_map a -> local (copy_to a p bs) anything.
Proof. intros Ha. unfold copy_to. maintain. Qed.
#[local] Hint Resolve loc_crc loc_parse loc_open_db loc_open_tag loc_close_db loc_copy : maintain.

(** ** The queue of the directory *)
Section Queue.
Context (conf : ucmq_conf) (name : bytes) (Hname : queue_dir conf name = dir) (Hfit : path_fits conf name).

Record own_queue (q : mq_queue) : Prop := {
  oq_name : qname q = name;
  oq_tag : free_fd (rtag_fd q);
  oq_rfd : free_fd (fd (cur_rdb q));
  oq_wfd : free_fd (fd (cur_wdb q));
  oq_rmap : free_map (map_mem (cur_rdb q));
  oq_wmap : free_map (map_mem (cur_wdb q))
}.
Definition own (s : qstate) : Prop := outside (qs_w s) /\ own_queue (qs_q s).
#[local] Abbreviation owned := (maintains own).

Lemma own_sys {X} (m : M world X) Q : local m Q -> owned (sys m) Q.
Proof.
  intros Hm [w q] x s' [Ho Hq] E. unfold sys in E. cbn in *. destruct (m w) as [[x1 w1]| |] eqn:E1; [|done..].
  injection E as <- <-. by destruct (Hm _ _ _ Ho E1).
Qed.
Lemma own_the_queue : owned queue own_queue.
Proof. apply mt_gets. by intros s []. Qed.
Lemma own_update f : (forall q, own_queue q -> own_queue (f q)) -> owned (update f) anything.
Proof. intros Hf. apply mt_modify. intros s [Ho Hq]. split; [done|by apply Hf]. Qed.

Lemma full_dir : (length dir + 1 < MAX_FULL_FILE_NAME_LEN)%nat.
Proof.
  rewrite <- Hname. unfold path_fits, queue_dir, MAX_FULL_FILE_NAME_LEN in *. rewrite !length_app. simpl. lia.
Qed.
Lemma data_inside qn i : qn = name -> inside dir (GEN_DATA_FULL_PATH_BY_QNAME_INDEX conf qn i).
Proof.
  intros ->. unfold GEN_DATA_FULL_PATH_BY_QNAME_INDEX.
  replace (data_file_path conf ++ B "/" ++ name ++ B "/db_" ++ pad 12 i) with (dir ++ slash :: B "db_" ++ pad 12 i)
    by (rewrite <- Hname; unfold queue_dir; by rewrite <- !app_assoc).
  apply snprintf_inside, full_dir.
Qed.
Lemma tag_inside qn i : qn = name -> inside dir (GEN_RTAG_FULL_PATH_BY_QNAME_INDEX conf qn i).
Proof.
  intros ->. unfold GEN_RTAG_FULL_PATH_BY_QNAME_INDEX.
  replace (data_file_path conf ++ B "/" ++ name ++ B "/rtag_" ++ pad 12 i)
    with (dir ++ slash :: B "rtag_" ++ pad 12 i)
    by (rewrite <- Hname; unfold queue_dir; by rewrite <- !app_assoc).
  apply snprintf_inside, full_dir.
Qed.
Lemma queue_path_dir qn : qn = name -> GEN_QUEUE_PATH_BY_QNAME conf qn = dir.
Proof. intros ->. rewrite <- Hname. by apply queue_path_eq. Qed.

#[local] Hint Resolve own_sys own_the_queue oq_name oq_tag oq_rfd oq_wfd oq_rmap oq_wmap
  data_inside tag_inside : maintain.

Ltac own_field := apply own_update; intros ? []; split; cbn; try done; eauto with maintain.
#[local] Hint Extern 1 (maintains _ (update _) _) => own_field : maintain.
#[local] Hint Extern 1 (maintains _ (update_rdb _) _) => own_field : maintain.
#[local] Hint Extern 1 (maintains _ (update_wdb _) _) => own_field : maintain.

Lemma own_write_tag : owned mq_sm_rtag_write_item anything.
Proof. unfold mq_sm_rtag_write_item. maintain. Qed.
Lemma own_write_head : owned mq_sm_db_write_file_head anything.
Proof. unfold mq_sm_db_write_file_head, sys_msync. maintain. Qed.
#[local] Hint Resolve own_write_tag own_write_head : maintain.
Lemma own_next_read : owned (get_next_read_file conf) anything.
Proof. unfold get_next_read_file, sys_msync. maintain. Qed.
Lemma own_next_write : owned (get_next_write_file conf) anything.
Proof. unfold get_next_write_file, sys_msync. maintain. Qed.
#[local] Hint Resolve own_next_read own_next_write : maintain.
Lemma own_write_msg item : owned (mq_sm_db_write_msg conf item) anything.
Proof. unfold mq_sm_db_write_msg. maintain. Qed.
#[local] Hint Resolve own_write_msg : maintain.
Lemma own_put_data item : owned (mq_sm_put_data conf item) anything.
Proof. unfold mq_sm_put_data. maintain. Qed.
Lemma own_get_data item : owned (mq_sm_get_data conf item) anything.
Proof.
  unfold mq_sm_get_data. apply (mt_loop_from own (fun _ => True)); [done|]. intros l _.
  eapply mt_weaken; [|by intros []]. instantiate (1 := anything).
  unfold get_data_round, next_file_or_end, advance. maintain.
Qed.
#[local] Hint Resolve own_put_data own_get_data : maintain.

Lemma own_sync : owned (sync_step conf) anything.
Proof. unfold sync_step, mq_qm_db_sync, sys_msync. maintain. Qed.
#[local] Hint Resolve own_sync : maintain.
Lemma own_push item : owned (mq_qm_push_item conf item) anything.
Proof. unfold mq_qm_push_item. maintain. Qed.
Lemma own_pop item : owned (mq_qm_pop_item conf item) anything.
Proof. unfold mq_qm_pop_item. maintain. Qed.
Lemma own_maxqueue n : owned (mq_qm_set_maxqueue n) anything.
Proof. unfold mq_qm_set_maxqueue. maintain. Qed.
Lemma own_delay n : owned (mq_qm_set_delay n) anything.
Proof. unfold mq_qm_set_delay. maintain. Qed.
Lemma own_wlock n : owned (mq_qm_set_wlock n) anything.
Proof. unfold mq_qm_set_wlock. maintain. Qed.
Lemma own_init : owned (init_queue conf) anything.
Proof. unfold init_queue. maintain. Qed.
Lemma own_close : owned (mq_sm_close_db conf) anything.
Proof. unfold mq_sm_close_db. maintain. Qed.
Lemma own_remove : owned (mq_sm_remove_db conf) anything.
Proof.
  unfold mq_sm_remove_db, sys_access. eapply mt_bind; [apply own_the_queue|]. intros q Hq.
  rewrite (queue_path_dir _ (oq_name _ Hq)). assert (below dir dir) by by left. maintain.
Qed.
Lemma own_creat : owned (mq_sm_creat_db conf) anything.
Proof.
  unfold mq_sm_creat_db, sys_access. eapply mt_bind; [apply own_the_queue|]. intros q Hq.
  rewrite (queue_path_dir _ (oq_name _ Hq)). assert (below dir dir) by by left. maintain.
Qed.
End Queue.

(** ** The store *)
Section Store.
(** The queue [name] lives in the directory. *)
Record lives (data name : bytes) : Prop := {
  lv_dir : data ++ B "/" ++ name = dir;
  lv_fit : (length data + 1 + length name <= 127)%nat;
  lv_len : (length name <= MAX_QUEUE_NAME_LEN)%nat
}.
Context (data name : bytes) (Hlive : lives data name) (l0 : qlist).

(** Every node of that name is a queue of that directory, and the others are as
    they were. *)
Record own_store (s : store) : Prop := {
  ow_world : outside (st_w s);
  ow_conf : data_file_path (g_mq_conf s) = data;
  ow_nodes q : (name, q) ∈ g_mq_qlist s -> own_queue name q;
  ow_others k : k <> name -> find_kv (g_mq_qlist s) k = find_kv l0 k
}.
#[local] Abbreviation stored := (maintains own_store).

Lemma own_conf s : own_store s ->
  queue_dir (g_mq_conf s) name = dir /\ path_fits (g_mq_conf s) name.
Proof. intros Hs. destruct Hlive. unfold queue_dir, path_fits. by rewrite (ow_conf _ Hs). Qed.

Lemma sto_os {X} (m : M world X) Q : local m Q -> stored (os m) Q.
Proof.
  intros Hm s x s' [] E. unfold os in E. destruct (m (st_w s)) as [[x1 w1]| |] eqn:E1; [|done..].
  injection E as <- <-. by destruct (Hm _ _ _ ow_world0 E1).
Qed.
Lemma sto_on_queue {X} (m : ucmq_conf -> M qstate X) :
  (forall conf, queue_dir conf name = dir -> path_fits conf name -> maintains (own name) (m conf) anything) ->
  stored (on_queue name m) anything.
Proof.
  intros Hm s x s' Hs E. destruct (own_conf s Hs) as [Hd Hf]. destruct Hs. unfold on_queue in E.
  destruct (find_kv (g_mq_qlist s) name) as [q|] eqn:Eq; [|done].
  destruct (m (g_mq_conf s) _) as [[x1 [w1 q1]]| |] eqn:E1; [|done..]. injection E as <- <-.
  destruct (Hm _ Hd Hf (QState (st_w s) q) _ _ (conj ow_world0 (ow_nodes0 _ (find_kv_in _ _ _ Eq))) E1) as [[Ho Hq] _].
  cbn in *. split; [|done]. split; cbn; try done.
  - intros q2 [[= ->]|Hin]%set_kv_in; [done|auto].
  - intros k Hk. rewrite find_set_ne by done. auto.
Qed.
Lemma sto_on_local {X} q (m : ucmq_conf -> M qstate X) : own_queue name q ->
  (forall conf, queue_dir conf name = dir -> path_fits conf name -> maintains (own name) (m conf) anything) ->
  stored (on_local q m) (fun r => own_queue name r.2).
Proof.
  intros Hq Hm s x s' Hs E. destruct (own_conf s Hs) as [Hd Hf]. destruct Hs. unfold on_local in E.
  destruct (m (g_mq_conf s) _) as [[x1 [w1 q1]]| |] eqn:E1; [|done..]. injection E as <- <-.
  destruct (Hm _ Hd Hf (QState (st_w s) q) _ _ (conj ow_world0 Hq) E1) as [[Ho Hq1] _]. by split.
Qed.
Definition named (k : option bytes) : Prop := match k with Some k => k = name | None => True end.
Lemma named_none : named None.
Proof. done. Qed.
Lemma named_some k : k = name -> named (Some k).
Proof. done. Qed.
#[local] Hint Resolve named_none named_some : maintain.

Lemma sto_node q : own_queue name q -> stored (hash_add_node name q) (fun k => k = name).
Proof.
  intros Hq. unfold hash_add_node. destruct (_ <=? _)%nat; [|apply mt_fault].
  apply mt_then; [|intros; by apply mt_ret]. apply mt_modify. intros s []. split; cbn; try done.
  - intros q1. rewrite elem_of_app, list_elem_of_singleton. intros [?|[= ->]]; auto.
  - intros k Hk. rewrite find_app, bool_decide_false by congruence. rewrite ow_others0 by done.
    by destruct (find_kv l0 k).
Qed.
Lemma sto_add q : own_queue name q -> stored (hash_add_queue_kv name q) named.
Proof.
  intros Hq. unfold hash_add_queue_kv. apply mt_then.
  { apply sto_os. unfold sys_malloc. eapply mt_bind; [apply loc_fault|intros; by apply mt_ret]. }
  intros node. destruct (negb node); [by apply mt_ret|].
  eapply mt_bind; [by apply sto_node|]. intros k ->. by apply mt_ret.
Qed.
Lemma sto_del : stored (hash_del_queue name) anything.
Proof.
  apply mt_modify. intros s []. split; cbn; try done; [by intros q Hin%del_kv_in; auto|].
  intros k Hk. rewrite find_del_ne by done. auto.
Qed.

Lemma own_zero : own_queue name (with_qname (take MAX_QUEUE_NAME_LEN name) mq_queue_zero).
Proof.
  destruct (free_neg 0 ltac:(lia)) as [H0 H1]. split; try done. cbn [qname with_qname]. by apply take_ge, Hlive.
Qed.
#[local] Hint Resolve sto_os sto_on_queue sto_on_local sto_add sto_del own_zero own_close own_remove own_creat
  own_init : maintain.

Lemma sto_add_queue : stored (mq_qm_add_queue name) named.
Proof.
  unfold mq_qm_add_queue, hash_get_queue_num.
  apply mt_then; [by apply mt_gets|intros num]. apply mt_then; [by apply mt_gets|intros conf]. maintain.
Qed.
Lemma sto_del_queue : stored (mq_qm_del_queue name) anything.
Proof. unfold mq_qm_del_queue. maintain. Qed.
Lemma sto_synctime n : stored (mq_qm_set_synctime n) anything.
Proof.
  unfold mq_qm_set_synctime. destruct (_ <=? _); [|by apply mt_ret].
  apply mt_then; [|intros; by apply mt_ret]. apply mt_modify. by intros s []; split.
Qed.
Lemma sto_find : stored (mq_qm_find_queue name) named.
Proof. apply mt_gets. intros s Hs. by destruct (find_kv _ name). Qed.
End Store.
End Frame.
