(* ===== verification/Isolation.v ===== *)
(** * A request touches no queue but the one it names

    Every handler maintains the invariant of [Frame] for the queue the request
    names; so a request leaves the files, the descriptors, the mappings and the
    node of every other queue as they were. *)
From S2P Require Import Prelude.
From S2P Require Import CLib.
From S2P Require Import World.
From S2P Require Import MqTypes.
From S2P Require Import MqUtil.
From S2P Require Import FileIo.
From S2P Require Import MsgFormat.
From S2P Require Import StorePath.
From S2P Require Import StoreRtag.
From S2P Require Import StoreFile.
From S2P Require Import StoreManage.
From S2P Require Import QueueManage.
From S2P Require Import StoreInv.
From S2P Require Import StoreWrite.
From S2P Require Import Fifo.
From S2P Require Import StoreRemove.
From S2P Require Import EvHttp.
From S2P Require Import HttpOpt.
From S2P Require Import HttpSpec.
From S2P Require Import Frame.

(** ** Handlers *)
Section Handlers.
Context {KV : Type} `{Evhttp KV} (r : region) (w0 : world).
Context (data name : bytes) (Hlive : lives r data name) (l0 : qlist).

(** The store of the server is the queue's own, and the variables of the request
    name it. *)
Definition own_handler (s : hstate KV) : Prop :=
  own_store r w0 data name l0 (sv_store (h_server s)) /\
  forall kv, h_vars s = Some kv -> evhttp_find_header kv (B "name") = Some name.
#[local] Abbreviation handled := (maintains own_handler).

Lemma hd_on_store {A} (m : M store A) Q :
  maintains (own_store r w0 data name l0) m Q -> handled (on_store m) Q.
Proof.
  intros Hm s a s' [Hs Hv] E. unfold on_store in E. destruct (m _) as [[a1 st]| |] eqn:E1; [|done..].
  injection E as <- <-. by destruct (Hm _ _ _ Hs E1).
Qed.
Lemma hd_gets {A} (f : hstate KV -> A) : handled (gets f) anything.
Proof. by apply mt_gets. Qed.
Lemma hd_update_info f : handled (update_info f) anything.
Proof. by apply mt_modify. Qed.
Lemma hd_add_header k v : handled (evhttp_add_header k v) anything.
Proof. by apply mt_modify. Qed.
Lemma hd_find_header n : handled (find_header n) anything.
Proof. intros s a s' Hs E. unfold find_header in E. destruct (h_vars s); [by injection E as <- <-|done]. Qed.
Lemma hd_find_name : handled (find_header (B "name")) (fun a => a = Some name).
Proof.
  intros s a s' Hs E. unfold find_header in E. destruct (h_vars s) as [kv|] eqn:Ev; [|done].
  injection E as <- <-. split; [done|by apply Hs].
Qed.
Lemma hd_read_var p : handled (read_var p) anything.
Proof. intros s a s' Hs E. unfold read_var in E. destruct p, (h_vars s); by simplify_eq. Qed.
Lemma hd_print t : handled (print t) anything.
Proof. intros s a s' Hs E. unfold print in E. destruct (h_out s); by simplify_eq. Qed.
Lemma hd_send c t : handled (mq_evhttp_ret_send c t) anything.
Proof.
  unfold mq_evhttp_ret_send. apply mt_then; [|intros _; apply mt_then; [|intros _]].
  - intros s a s' Hs E. unfold evhttp_send_reply in E. destruct (h_out s); by simplify_eq.
  - apply mt_modify. intros s [Hs _]. by split.
  - by apply mt_modify.
Qed.
#[local] Hint Resolve hd_on_store hd_gets hd_update_info hd_add_header hd_find_header hd_read_var hd_print
  hd_send : maintain.

Lemma hd_reply hc hr v1 v2 ver : handled (MQ_DO_REPLY hc hr v1 v2 ver) anything.
Proof. unfold MQ_DO_REPLY. maintain. Qed.
#[local] Hint Resolve hd_reply : maintain.
Lemma hd_and_reply m m1 m2 hc hr v1 v2 ver : handled m anything ->
  handled (MQ_DO_AND_REPLY m m1 m2 hc hr v1 v2 ver) anything.
Proof. intros Hm. unfold MQ_DO_AND_REPLY. maintain. Qed.
Lemma hd_set_headers inh type cs force : handled (mq_evhttp_set_headers inh type cs force) anything.
Proof. unfold mq_evhttp_set_headers. maintain. Qed.

Lemma hd_find : handled (find_queue_by_qname name) (named name).
Proof.
  unfold find_queue_by_qname. apply mt_then; [apply hd_read_var|intros _]. apply hd_on_store, sto_find.
Qed.
Lemma hd_touch : handled (touch_queue_by_qname name) (named name).
Proof.
  unfold touch_queue_by_qname. eapply mt_bind; [apply hd_find|]. intros [k|] Hk; [by apply mt_ret|].
  apply hd_on_store. by apply sto_add_queue.
Qed.
#[local] Hint Resolve hd_and_reply hd_set_headers : maintain.

(** An operation on the queue, from its own. *)
Lemma hd_queue {A} k (m : ucmq_conf -> M qstate A) : k = name ->
  (forall conf, queue_dir conf name = rg_dir r -> path_fits conf name -> maintains (own r w0 name) (m conf) anything) ->
  handled (on_store (on_queue k m)) anything.
Proof. intros -> Hm. by apply hd_on_store, sto_on_queue. Qed.
Lemma hd_queue_of k : k = name -> handled (queue_of k) anything.
Proof. intros Hk. apply hd_queue; [done|]. intros conf _ _. by apply mt_gets. Qed.
Lemma hd_load p n : handled (on_store (os (load_ptr p n))) anything.
Proof. apply hd_on_store, sto_os, loc_load_ptr. Qed.
Lemma hd_checked qn v1 ver k : qn = Some name -> handled (k name) anything ->
  handled (qname_checked qn v1 ver k) anything.
Proof. intros -> Hk. unfold qname_checked. maintain. Qed.
#[local] Hint Resolve hd_queue hd_queue_of hd_load own_push own_pop own_maxqueue own_delay own_wlock : maintain.

Lemma hd_put_message ver d msg n : handled (put_message ver d name msg n) anything.
Proof.
  unfold put_message. eapply mt_bind; [apply hd_touch|]. intros [k|] Hk; [cbn in Hk; subst k|apply hd_reply].
  apply mt_then; [apply hd_read_var|intros _]. apply mt_then; [by apply hd_queue; eauto with maintain|].
  intros [[] item]; try apply hd_reply.
  apply mt_then; [|intros _; maintain]. apply hd_queue; [done|].
  intros conf _ _. apply own_update. by intros q []; split.
Qed.
#[local] Hint Resolve hd_put_message : maintain.

Ltac named_handler :=
  apply mt_then; [apply hd_find_header|intros ver];
  eapply mt_bind; [apply hd_find_name|intros qn Hqn].

Lemma hd_opt_put request : handled (http_opt_put request) anything.
Proof.
  unfold http_opt_put. cbv zeta. apply mt_then; [apply hd_find_header|intros ver].
  apply mt_then; [apply hd_find_header|intros d]. eapply mt_bind; [apply hd_find_name|intros qn Hqn].
  apply hd_checked; [done|]. maintain.
Qed.
Lemma hd_opt_get : handled http_opt_get anything.
Proof.
  unfold http_opt_get. named_handler. apply hd_checked; [done|].
  eapply mt_bind; [apply hd_find|]. intros [k|] Hk; [cbn in Hk; subst k|]; maintain.
Qed.
Lemma hd_opt_status : handled http_opt_status anything.
Proof.
  unfold http_opt_status. named_handler. apply hd_checked; [done|].
  eapply mt_bind; [apply hd_find|]. intros [k|] Hk; [cbn in Hk; subst k|]; maintain.
Qed.
Lemma hd_opt_status_json : handled http_opt_status_json anything.
Proof.
  unfold http_opt_status_json. named_handler. apply hd_checked; [done|].
  eapply mt_bind; [apply hd_find|]. intros [k|] Hk; [cbn in Hk; subst k|]; maintain.
Qed.
Lemma hd_opt_maxqueue : handled http_opt_maxqueue anything.
Proof.
  unfold http_opt_maxqueue. named_handler. apply mt_then; [apply hd_find_header|intros num].
  apply hd_checked; [done|]. destruct (_ || _); [maintain|].
  eapply mt_bind; [apply hd_touch|]. intros [k|] Hk; [cbn in Hk; subst k|]; maintain.
Qed.
Lemma hd_opt_delay : handled http_opt_delay anything.
Proof.
  unfold http_opt_delay. named_handler. apply mt_then; [apply hd_find_header|intros num].
  apply hd_checked; [done|]. apply mt_then; [maintain|intros _].
  eapply mt_bind; [apply hd_touch|]. intros [k|] Hk; [cbn in Hk; subst k|]; maintain.
Qed.
Lemma hd_opt_wlock : handled http_opt_wlock anything.
Proof.
  unfold http_opt_wlock. named_handler. apply mt_then; [apply hd_find_header|intros num].
  apply hd_checked; [done|]. apply mt_then; [maintain|intros _].
  eapply mt_bind; [apply hd_find|]. intros [k|] Hk; [cbn in Hk; subst k|]; maintain.
Qed.
Lemma hd_opt_remove : handled http_opt_remove anything.
Proof.
  unfold http_opt_remove. named_handler. apply hd_checked; [done|].
  eapply mt_bind; [apply hd_find|]. intros [k|] Hk; [|maintain].
  apply hd_and_reply, hd_on_store. by apply sto_del_queue.
Qed.
Lemma hd_opt_reset : handled http_opt_reset anything.
Proof.
  unfold http_opt_reset. named_handler. apply hd_checked; [done|].
  eapply mt_bind; [apply hd_find|]. intros [k|] Hk; [|maintain].
  apply mt_then; [by apply hd_on_store, sto_del_queue|intros _]. apply hd_and_reply, hd_on_store.
  apply mt_then; [|by intros; apply mt_ret]. eapply mt_any. by apply sto_add_queue.
Qed.
Lemma hd_opt_synctime : handled http_opt_synctime anything.
Proof.
  unfold http_opt_synctime. apply mt_then; [apply hd_find_header|intros ver].
  apply mt_then; [apply hd_find_header|intros num]. cbv zeta. apply mt_then; [maintain|intros _].
  apply hd_and_reply, hd_on_store, sto_synctime.
Qed.
Lemma hd_unknown : handled http_unknown_opt anything.
Proof. unfold http_unknown_opt. maintain. Qed.

Lemma hd_do_opt request opt : handled (do_opt request opt) anything.
Proof.
  unfold do_opt. destruct opt as [opt|]; [|apply hd_unknown].
  repeat match goal with |- maintains _ (if ?b then _ else _) _ => destruct b end;
    first [apply hd_opt_put | apply hd_opt_get | apply hd_opt_status | apply hd_opt_status_json
      | apply hd_opt_maxqueue | apply hd_opt_delay | apply hd_opt_wlock | apply hd_opt_remove
      | apply hd_opt_reset | apply hd_opt_synctime | apply hd_unknown].
Qed.

Lemma hd_entry request t0 t1 :
  (forall uri, rq_uri request = Some uri ->
     evhttp_find_header (evhttp_parse_query uri).1 (B "name") = Some name) ->
  handled (mq_evhttp_cb_do_opt_entry request t0 t1) anything.
Proof.
  intros Hreq. unfold mq_evhttp_cb_do_opt_entry. apply mt_then; [by apply mt_modify|intros _]. cbv zeta.
  set (k := bind (find_header (B "charset")) _).
  assert (handled k anything) as Hk.
  { unfold k. apply mt_then; [apply hd_find_header|intros cs].
    apply mt_then; [apply hd_set_headers|intros _]. apply mt_then; [apply hd_find_header|intros opt].
    apply mt_then; [apply hd_read_var|intros _]. apply mt_then; [apply hd_do_opt|intros _].
    apply hd_update_info. }
  destruct (rq_uri request) as [uri|]; [|done]. specialize (Hreq uri eq_refl).
  destruct (evhttp_parse_query uri) as [kv parsed]. apply mt_then.
  - apply mt_modify. intros s [Hs _]. split; [done|]. cbn. intros kv' [= <-]. exact Hreq.
  - intros _. destruct parsed; [exact Hk|]. cbn [negb]. unfold http_unparse_req. maintain.
Qed.
End Handlers.

(** ** What belongs to a queue *)
Section Regions.
Context (conf : ucmq_conf).
#[local] Abbreviation dir := (queue_dir conf).

(** An inode with a name in the directory of the queue [k]. *)
Definition file_of (w : world) (k : bytes) (i : Z) : Prop :=
  exists name, (slash ∉ name) /\ w_names w !! in_queue conf k name = Some i.
(** The descriptors and addresses the structure of a queue holds. *)
Definition fd_of (q : mq_queue) (k : Z) : Prop :=
  k = rtag_fd q \/ k = fd (cur_rdb q) \/ k = fd (cur_wdb q).
Definition map_of (q : mq_queue) (a : Z) : Prop := a = map_mem (cur_rdb q) \/ a = map_mem (cur_wdb q).

(** The queue [k] with the structure [oq], when there is one: its descriptors and
    those on its files. *)
Definition fd_near (w : world) (k : bytes) (oq : option mq_queue) (n : Z) : Prop :=
  0 < n < w_next w /\
  ((exists q, oq = Some q /\ fd_of q n) \/
   exists o, w_fds w !! n = Some o /\ file_of w k (o_ino o)).
Definition map_near (w : world) (k : bytes) (oq : option mq_queue) (a : Z) : Prop :=
  0 < a < w_next w /\
  ((exists q, oq = Some q /\ map_of q a) \/
   exists m, w_maps w !! a = Some m /\ file_of w k (m_ino m)).

(** Inodes that are in use are known. *)
Record known (w : world) : Prop := {
  kn_fds k o : w_fds w !! k = Some o -> o_ino o < w_next w;
  kn_maps k m : w_maps w !! k = Some m -> m_ino m < w_next w
}.

Lemma file_of_old w k i : world_wf w -> file_of w k i -> i < w_next w.
Proof.
  intros Hwf (p & _ & Hp). destruct (wf_names _ Hwf _ _ Hp) as [f Hf]. by apply (wf_inodes _ Hwf _ f).
Qed.
Lemma last_dir k : k <> [] -> (slash ∉ k) -> last (dir k) <> Some slash.
Proof.
  intros Hne Hk Hl. unfold queue_dir in Hl. rewrite last_app in Hl. destruct k as [|c k]; [done|].
  change (last (B "/" ++ c :: k)) with (last (c :: k)) in Hl.
  destruct (last (c :: k)) as [x|] eqn:E; [|by apply last_None in E].
  simplify_eq. apply Hk. apply last_Some in E as [l' ->]. apply elem_of_app. right. by apply list_elem_of_singleton.
Qed.

(** Changes in the directory [a] that spare the queue [b]. *)
Definition spare (w : world) (a b : bytes) (ob : option mq_queue) (Hne : a <> []) (Hs : slash ∉ a)
    (Hwf : world_wf w) : region :=
  Region (dir a) (file_of w b) (fd_near w b ob) (map_near w b ob) (w_next w)
    (last_dir a Hne Hs) (fun i => file_of_old w b i Hwf) (fun n Hn => proj1 Hn) (fun n Hn => proj1 Hn).

(** The directories of different queues are apart. *)
Lemma dirs_apart a b p : (slash ∉ a) -> (slash ∉ b) -> a <> b -> below (dir b) p -> ~ below (dir a) p.
Proof.
  intros Ha Hb Hne Hp Hq. assert (forall c, below (dir c) p -> (slash ∉ c) ->
    exists s, p = data_file_path conf ++ B "/" ++ c ++ s /\ (s = [] \/ head s = Some slash)) as Hsplit.
  { intros c Hc _. unfold queue_dir in Hc. destruct Hc as [->|[s ->]].
    - exists []. rewrite app_nil_r. auto.
    - exists (slash :: s). rewrite <- !app_assoc. auto. }
  destruct (Hsplit a Hq Ha) as (s & -> & Hs). destruct (Hsplit b Hp Hb) as (t & E & Ht).
  apply app_inv_head, app_inv_head in E. clear Hsplit Hp Hq.
  apply Hne. clear Hne. revert b Hb E. induction a as [|c a IH]; intros [|d b] Hb E; simpl in E.
  - done.
  - exfalso. destruct Hs as [->|Hs]; [done|]. destruct s as [|e s]; [done|]. injection Hs as ->.
    injection E as <- _. apply Hb. left.
  - exfalso. destruct Ht as [->|Ht]; [done|]. destruct t as [|e t]; [done|]. injection Ht as ->.
    injection E as -> _. apply Ha. left.
  - injection E as -> E. f_equal. rewrite not_elem_of_cons in Ha, Hb. apply IH; tauto.
Qed.
Lemma data_apart a p : p = data_file_path conf -> ~ below (dir a) p.
Proof.
  intros -> [E|[s E]]; apply (f_equal length) in E; unfold queue_dir in E; rewrite !length_app in E; simpl in E; lia.
Qed.

Section Spare.
Context (w : world) (a b : bytes) (ob : option mq_queue).
Context (Hne : a <> []) (Ha : slash ∉ a) (Hb : slash ∉ b) (Hab : a <> b).
Context (Hwf : world_wf w) (Hnf : w_faults w = []) (Hkn : known w).
#[local] Abbreviation r := (spare w a b ob Hne Ha Hwf).

Lemma in_queue_inside k name : inside (dir k) (in_queue conf k name).
Proof using. by exists name. Qed.

Lemma names_apart p i : inside (dir a) p -> w_names w !! p = Some i -> ~ file_of w b i.
Proof using Hwf Ha Hb Hab.
  intros Hp Hi (name & _ & Hi'). pose proof (wf_inj _ Hwf _ _ _ Hi Hi') as ->.
  eapply (dirs_apart a b); [done..| |by right]. right. apply in_queue_inside.
Qed.

(** Nothing has changed yet. *)
Lemma spare_start : outside r w w.
Proof using Hb Hab Hnf Hkn.
  split; cbn; try done.
  - intros p i Hp Hi. by apply (names_apart p).
  - intros k o Ho Hf. split; [by eapply (wf_fds _ Hwf)|]. right. eauto.
  - intros k m Hm Hf. split; [by eapply (wf_maps _ Hwf)|]. right. eauto.
  - intros p i _ ?. by left.
  - apply kn_fds, Hkn.
  - apply kn_maps, Hkn.
  - destruct (w_names w !! dir a); [by right|by left].
Qed.

Context (w' : world) (Ho : outside r w w').

(** What is in the directory of [b] is as it was. *)
Lemma spared_name p : below (dir b) p -> w_names w' !! p = w_names w !! p.
Proof using Ho Ha Hb Hab. intros Hp. apply (os_names _ _ _ Ho). cbn. by apply (dirs_apart a b). Qed.
Lemma spared_dir p : below (dir b) p -> (p ∈ w_dirs w' <-> p ∈ w_dirs w).
Proof using Ho Ha Hb Hab. intros Hp. apply (os_dirs _ _ _ Ho). cbn. by apply (dirs_apart a b). Qed.
Lemma spared_file_of i : file_of w' b i <-> file_of w b i.
Proof using Ho Ha Hb Hab.
  split; intros (name & Hs & Hi); exists name; (split; [done|]);
    [rewrite <- spared_name|rewrite spared_name]; done || (right; apply in_queue_inside).
Qed.
Lemma spared_file name i : slash ∉ name -> w_names w !! in_queue conf b name = Some i ->
  w_inodes w' !! i = w_inodes w !! i.
Proof using Ho. intros Hp Hi. apply (os_inodes _ _ _ Ho). cbn. by exists name. Qed.

(** Near [b] there is nothing new. *)
Lemma spared_fds n : fd_near w b ob n -> w_fds w' !! n = w_fds w !! n.
Proof using Ho. apply (os_fds _ _ _ Ho). Qed.
Lemma spared_maps n : map_near w b ob n -> w_maps w' !! n = w_maps w !! n.
Proof using Ho. apply (os_maps _ _ _ Ho). Qed.
Lemma near_back n : fd_near w' b ob n -> (forall q, ob = Some q -> fd_of q n -> n < w_next w) -> fd_near w b ob n.
Proof using Ho Ha Hb Hab.
  intros [[H0 _] [(q & Eq & Hq)|(o & Hn & Hf)]] Hold.
  - split; [split; eauto|]. left. eauto.
  - apply (os_fds_out _ _ _ Ho n o Hn). cbn. by apply spared_file_of.
Qed.
Lemma map_back n : map_near w' b ob n -> (forall q, ob = Some q -> map_of q n -> n < w_next w) -> map_near w b ob n.
Proof using Ho Ha Hb Hab.
  intros [[H0 _] [(q & Eq & Hq)|(o & Hn & Hf)]] Hold.
  - split; [split; eauto|]. left. eauto.
  - apply (os_maps_out _ _ _ Ho n o Hn). cbn. by apply spared_file_of.
Qed.

Lemma spared_wf : world_wf w' /\ w_faults w' = [] /\ known w'.
Proof using Ho. destruct Ho. by split_and!; [..|split]. Qed.
Lemma spared_data : dir_exists w (data_file_path conf) = true -> dir_exists w' (data_file_path conf) = true.
Proof using Ho.
  unfold dir_exists. rewrite !bool_decide_eq_true. intros [?|Hin]; [by left|right].
  apply (os_dirs _ _ _ Ho); [by apply data_apart|done].
Qed.

Lemma spared_fresh : fresh_queue conf w b -> fresh_queue conf w' b.
Proof using Ho Ha Hb Hab.
  intros [_ _ ? [Hd Hn] Hp Hf]. destruct spared_wf as (? & ? & _). split; try done.
  - rewrite spared_dir, spared_name by by left. done.
  - by apply spared_data.
  - intros name Hs. rewrite spared_dir, spared_name by (right; apply in_queue_inside). by apply Hf.
Qed.

Context (q0 q : mq_queue) (ms : list smsg) (Hob : ob = Some q0).
Context (Hfds : forall x, fd_of q x -> fd_of q0 x) (Hmaps : forall x, map_of q x -> map_of q0 x).
Context (Hinv : queue_inv conf w q ms) (Hq : qname q = b).

Lemma own_path name : inside (dir b) (in_queue conf (qname q) name).
Proof using Hq. rewrite Hq. apply in_queue_inside. Qed.

Lemma spared_db_file i ino d : db_file conf w q i ino d -> db_file conf w' q i ino d.
Proof using Ho Ha Hb Hab Hq.
  intros (Hn & Hi & Hd). split_and!; cycle 1.
  { rewrite (spared_file (db_name i)); [done|apply slash_not_db|]. unfold db_path in Hn. by rewrite Hq in Hn. }
  { done. }
  unfold db_path in *. by rewrite spared_name by (right; apply own_path).
Qed.
Lemma spared_handle h ino d : h = cur_rdb q \/ h = cur_wdb q ->
  db_handle conf w q h ino d -> db_handle conf w' q h ino d.
Proof using Ho Ha Hb Hab Hq Hob Hmaps.
  intros Hh (Hf & Hm & Hlt & Hr). split_and!; [by apply spared_db_file| |by destruct Ho; cbn in *; lia|done].
  rewrite spared_maps; [done|]. split; [by eapply (wf_maps _ Hwf)|]. left. exists q0.
  split; [done|]. apply Hmaps. destruct Hh as [-> | ->]; [by left|by right].
Qed.
Lemma tag_near : fd_near w b ob (rtag_fd q).
Proof using Hinv Hwf Hob Hfds.
  destruct (inv_rtag _ _ _ _ Hinv) as (o & f & [Hf _] & _). apply fd_file_fds in Hf as [Hf _].
  split; [by eapply (wf_fds _ Hwf)|]. left. exists q0. split; [done|]. apply Hfds. by left.
Qed.
Lemma spared_tag : fd_file w' (rtag_fd q) = fd_file w (rtag_fd q).
Proof using Ho Hinv Hob Hq Hfds.
  destruct (inv_rtag _ _ _ _ Hinv) as (o & f & [Hf _] & Hn). unfold fd_file.
  rewrite spared_fds by apply tag_near. apply fd_file_fds in Hf as [-> Hi].
  rewrite (spared_file (rtag_name (cur_index (cur_rdb q)))); [done|apply slash_not_rtag|].
  unfold rtag_path in Hn. by rewrite Hq in Hn.
Qed.

Lemma spared_inv : queue_inv conf w' q ms.
Proof using Ho Ha Hb Hab Hinv Hq Hob Hfds Hmaps.
  pose proof Hinv as [_ _ Hfit (Hf1 & Hf2 & Hf3 & Hf4) (o & f & [Hfd Hnb] & Htn) Hidx Hpos
    (wino & dw & Hw & Hcl & Hc) [Honly Happ]]. destruct spared_wf as (Hwf' & Hnf' & _).
  split; try done.
  - split_and!.
    + rewrite Hq in *. by rewrite spared_dir by by left.
    + intros i Hi. unfold db_path, rtag_path. rewrite !spared_dir by (right; apply own_path). by apply Hf2.
    + intros i Hi. unfold db_path. rewrite spared_name by (right; apply own_path). by apply Hf3.
    + intros i Hi. unfold rtag_path. rewrite spared_name by (right; apply own_path). by apply Hf4.
  - exists o, f. split; [split; [by rewrite spared_tag|done]|].
    unfold rtag_path in *. by rewrite spared_name by (right; apply own_path).
  - exists wino, dw. split_and!; [apply spared_handle; [by right|done]|done|].
    destruct Hc as [Hc|(Hlt & Hmm & rino & dr & msr & mids & msw & Hr & Hs & Hch & Hc)]; [by left|right].
    split_and!; [done..|]. exists rino, dr, msr, mids, msw. split_and!; [|done| |apply Hc..].
    + apply spared_handle; [by left|done].
    + intros k x Hk. destruct (Hch k x Hk) as (ino & d & Hfile & ?). exists ino, d.
      split; [by apply spared_db_file|done].
  - split.
    + intros name ino Hs. rewrite spared_name by (right; apply own_path). by apply Honly.
    + intros o1 f1. rewrite spared_tag. apply Happ.
Qed.
End Spare.

Section SpareQueue.
Context (w : world) (a b : bytes) (ob : option mq_queue).
Context (Hne : a <> []) (Ha : slash ∉ a) (Hb : slash ∉ b) (Hab : a <> b) (Hwf : world_wf w).
Context (w' : world) (Ho : outside (spare w a b ob Hne Ha Hwf) w w').
Context (q : mq_queue) (ms : list smsg) (Hob : ob = Some q).
Context (Hinv : queue_inv conf w q ms) (Hq : qname q = b).

Lemma spared_own : queue_inv conf w' q ms.
Proof using Ho Hb Hab Hinv Hq Hob. by eapply (spared_inv w a b ob Hne Ha Hb Hab Hwf w' Ho q q). Qed.

Lemma spared_tag_file : tag_file conf w' q = tag_file conf w q.
Proof using Ho Hb Hab Hinv Hq Hob.
  destruct (inv_rtag _ _ _ _ Hinv) as (o & f & _ & Hn). unfold tag_file.
  pose proof Hn as Hn'. unfold rtag_path in Hn'. rewrite Hq in Hn'.
  rewrite (spared_name w a b ob Hne Ha Hb Hab Hwf w' Ho)
    by (right; unfold rtag_path; rewrite Hq; apply in_queue_inside).
  rewrite Hn. by rewrite (spared_file w a b ob Hne Ha Hwf w' Ho _ _ (slash_not_rtag _) Hn').
Qed.

Lemma spared_saved ms' : saved conf w q ms' -> saved conf w' q ms'.
Proof using Ho Hb Hab Hinv Hq Hob.
  intros (t & Ht & (f & Hf & Hrest) & Hi & Hset). exists t. split_and!; [done| | |apply Hset..].
  - exists f. by rewrite spared_tag_file.
  - by eapply (spared_inv w a b ob Hne Ha Hb Hab Hwf w' Ho q (restore t q)).
Qed.

Lemma spared_lasting aq d n : lasting conf w q aq d n -> lasting conf w' q aq d n.
Proof using Ho Hb Hab Hinv Hq Hob.
  intros [(? & ? & ? & ? & ?) Hs]. split; [|intros Hd; by apply spared_saved, Hs].
  unfold ready, tag_size in *. rewrite spared_tag_file. by split_and!.
Qed.
End SpareQueue.

(** A queue holds nothing that belongs to the queue [b]. *)
Definition handles_apart (w : world) (q : mq_queue) (b : bytes) (ob : option mq_queue) : Prop :=
  (forall n, fd_of q n -> ~ fd_near w b ob n) /\ (forall n, map_of q n -> ~ map_near w b ob n).

Lemma apart_own w a b ob Hne Ha Hwf q : qname q = a ->
  handles_apart w q b ob <-> own_queue (spare w a b ob Hne Ha Hwf) a q.
Proof.
  intros Hq. split.
  - intros [Hf Hm]. split; [done|apply Hf|apply Hf|apply Hf|apply Hm|apply Hm]; unfold fd_of, map_of; auto.
  - intros [_ ? ? ? ? ?]. split; intros n; [intros [-> | [-> | ->]]|intros [-> | ->]]; done.
Qed.
End Regions.

(** The request names the queue [a]. *)
Definition names {KV} `{Evhttp KV} (request : request KV) (a : bytes) : Prop :=
  forall uri, rq_uri request = Some uri -> evhttp_find_header (evhttp_parse_query uri).1 (B "name") = Some a.

(** The result of a request, for any region that it leaves alone. *)
Lemma serve_own KV (EV : Evhttp KV) conf (request : request KV) t0 t1 w l i sv (r : region) a hs rs sv' :
  outside r w w -> rg_dir r = queue_dir conf a -> req_qname_check (Some a) = true -> path_fits conf a ->
  names request a -> (forall q, (a, q) ∈ l -> own_queue r a q) ->
  serve request t0 t1 (server_of w conf l i sv) = Ok (hs, rs, sv') ->
  own_store r w (data_file_path conf) a l (sv_store sv').
Proof.
  intros Ho Hdir Hchk Hfit Hreq Hl E. unfold serve in E.
  destruct (mq_evhttp_cb_do_opt_entry _ _ _ _) as [[[] s]| |] eqn:E1; [|done..]. simplify_eq.
  destruct (checked_name a Hchk) as (Hlen & _). assert (lives r (data_file_path conf) a) as Hlv by by split.
  by refine (proj1 (proj1 (hd_entry r w _ a Hlv l request t0 t1 Hreq _ _ _ (conj _ _) E1))).
Qed.

Lemma serve_outside KV (EV : Evhttp KV) conf (request : request KV) t0 t1 w l i sv a b ob hs rs sv' Hne Ha Hwf :
  (slash ∉ b) -> a <> b -> w_faults w = [] -> known w ->
  req_qname_check (Some a) = true -> path_fits conf a -> names request a ->
  (forall q, (a, q) ∈ l -> qname q = a /\ handles_apart conf w q b ob) ->
  serve request t0 t1 (server_of w conf l i sv) = Ok (hs, rs, sv') ->
  own_store (spare conf w a b ob Hne Ha Hwf) w (data_file_path conf) a l (sv_store sv').
Proof.
  intros Hb Hab Hnf Hkn Hchk Hfit Hreq Hl E. eapply serve_own; try done; [by apply spare_start|].
  intros q Hin. destruct (Hl q Hin) as [Hq Hap]. by apply apart_own.
Qed.

(** ** The properties *)

(** C5: a request touches no queue but the one it names.  A request for the queue
    [a], of any option and with any parameters, that runs to its end while no system
    call fails, and that starts when no handle of [a] belongs to another queue [b],
    leaves [b] its node, the names and directories below its directory, the contents
    of its files and its descriptors and mappings; and what stood for an abstract
    queue still does. *)
Theorem serve_isolated KV (EV : Evhttp KV) conf (request : request KV) t0 t1 w l i sv a b hs rs sv' :
  req_qname_check (Some a) = true -> path_fits conf a -> names request a -> (slash ∉ b) -> a <> b ->
  world_wf w -> w_faults w = [] -> known w ->
  (forall q, (a, q) ∈ l -> qname q = a /\ handles_apart conf w q b (find_kv l b)) ->
  serve request t0 t1 (server_of w conf l i sv) = Ok (hs, rs, sv') ->
  let w' := st_w (sv_store sv') in
  find_kv (g_mq_qlist (sv_store sv')) b = find_kv l b /\
  (forall p, below (queue_dir conf b) p ->
     w_names w' !! p = w_names w !! p /\ (p ∈ w_dirs w' <-> p ∈ w_dirs w)) /\
  (forall ino, file_of conf w b ino -> w_inodes w' !! ino = w_inodes w !! ino) /\
  (forall n, fd_near conf w b (find_kv l b) n -> w_fds w' !! n = w_fds w !! n) /\
  (forall n, map_near conf w b (find_kv l b) n -> w_maps w' !! n = w_maps w !! n) /\
  (forall q aq, find_kv l b = Some q -> qname q = b -> refines conf w q aq -> refines conf w' q aq).
Proof.
  intros Hchk Hfit Hreq Hb Hab Hwf Hnf Hkn Hl E. destruct (checked_name a Hchk) as (_ & Hne & Ha).
  pose proof (serve_outside KV EV conf request t0 t1 w l i sv a b (find_kv l b) hs rs sv' Hne Ha Hwf
    Hb Hab Hnf Hkn Hchk Hfit Hreq Hl E) as [Ho _ _ Hoth]. split_and!.
  - apply Hoth. congruence.
  - intros p Hp. split;
      [exact (spared_name _ _ _ _ _ _ _ Hb Hab _ _ Ho p Hp)|exact (spared_dir _ _ _ _ _ _ _ Hb Hab _ _ Ho p Hp)].
  - intros ino (p & Hp & Hi). exact (spared_file _ _ _ _ _ _ _ _ _ Ho p ino Hp Hi).
  - intros n Hn. exact (spared_fds _ _ _ _ _ _ _ _ _ Ho n Hn).
  - intros n Hn. exact (spared_maps _ _ _ _ _ _ _ _ _ Ho n Hn).
  - intros q aq Hq Hn [Hinv Hu Hm Hd Hlk]. split; try done.
    exact (spared_own _ _ _ _ _ _ _ Hb Hab _ _ Ho q _ Hq Hinv Hn).
Qed.

(** ** Witness: the queue ["q"], and a put that makes the queue ["p"] *)
#[local] Existing Instance sample_evhttp.

Lemma sample_known : known sample_qworld.
Proof.
  split; intros k x; vm_compute w_next.
  - intros H. assert (map_Forall (fun _ o => o_ino o < 6) (w_fds sample_qworld)) as Hall by decide_it.
    exact (Hall k x H).
  - intros H. assert (map_Forall (fun _ m => m_ino m < 6) (w_maps sample_qworld)) as Hall by decide_it.
    exact (Hall k x H).
Qed.

Lemma serve_isolated_witness : exists hs rs sv',
  serve (sample_request "/?opt=put&name=p&data=hi") 0 5
    (server_of sample_qworld sample_conf [(B "q", sample_queue)] app_info_zero
       (Server sample_store app_info_zero app_info_zero 0 0)) = Ok (hs, rs, sv') /\
  find_kv (g_mq_qlist (sv_store sv')) (B "q") = Some sample_queue /\
  refines sample_conf (st_w (sv_store sv')) sample_queue (AQueue [] 10000 0 0).
Proof.
  destruct (serve (sample_request "/?opt=put&name=p&data=hi") 0 5
    (server_of sample_qworld sample_conf [(B "q", sample_queue)] app_info_zero
       (Server sample_store app_info_zero app_info_zero 0 0))) as [[[hs rs] sv']| |] eqn:E.
  2,3: exfalso; revert E; vm_compute; discriminate.
  exists hs, rs, sv'. split; [done|].
  pose proof (serve_isolated _ _ sample_conf (sample_request "/?opt=put&name=p&data=hi") 0 5 sample_qworld
    [(B "q", sample_queue)] app_info_zero (Server sample_store app_info_zero app_info_zero 0 0)
    (B "p") (B "q") hs rs sv') as H.
  destruct H as (H1 & _ & _ & _ & _ & H2).
  - vm_compute. reflexivity.
  - decide_it.
  - intros uri [= <-]. vm_compute. reflexivity.
  - decide_it.
  - decide_it.
  - exact (inv_wf _ _ _ _ sample_inv).
  - reflexivity.
  - exact sample_known.
  - intros q Hin%list_elem_of_singleton. discriminate.
  - exact E.
  - split; [exact H1|]. apply H2; [reflexivity|reflexivity|exact sample_refines].
Defined.
