(* ===== verification/ServerSpec.v ===== *)
(** * The server is a table of queues

    The abstract server: a clock and a finite map from names to abstract queues.
    Every sequence of requests and of passing time is answered as the abstract
    server answers it, and leaves the server standing for its state: each queue
    of the table for its abstract queue, each other name for nothing. *)
From S2P Require Import Prelude.
From S2P Require Import CLib.
From S2P Require Import World.
From S2P Require Import MqTypes.
From S2P Require Import MqUtil.
From S2P Require Import FileIo.
From S2P Require Import MsgFormat.
From S2P Require Import StorePath.
From S2P Require Import StoreRtag.
From S2P Require Import StoreFile.
From S2P Require Import StoreManage.
From S2P Require Import QueueManage.
From S2P Require Import StoreInv.
From S2P Require Import StoreWrite.
From S2P Require Import Fifo.
From S2P Require Import StoreRemove.
From S2P Require Import EvHttp.
From S2P Require Import HttpOpt.
From S2P Require Import HttpSpec.
From S2P Require Import Frame.
From S2P Require Import Isolation.

(** ** The abstract server *)
Inductive areq :=
| RPut (name body : bytes)
| RGet (name : bytes)
| RMaxqueue (name : bytes) (n : Z)
| RDelay (name : bytes) (n : Z)
| RWlock (name : bytes) (n : Z)
| RRemove (name : bytes)
| RReset (name : bytes).

Definition req_name (r : areq) : bytes :=
  match r with
  | RPut k _ | RGet k | RMaxqueue k _ | RDelay k _ | RWlock k _ | RRemove k | RReset k => k
  end.

Definition ok_reply (v1 : string) (ver : option bytes) : reply :=
  answer_of ver HTTP_OK (B "OK") (B v1) (B "UCMQ_HTTP_OK") [].
Definition missing_reply (v1 : string) (ver : option bytes) : reply :=
  answer_of ver HTTP_BADREQUEST MQ_HTTP_REASON_QUE_NO_EXIST (B v1) (B "UCMQ_HTTP_ERR_QUE_NO_EXIST") [].
Definition add_error_reply (v1 : string) (ver : option bytes) : reply :=
  answer_of ver HTTP_BADREQUEST MQ_HTTP_REASON_ADD_QUE_ERR (B v1) (B "UCMQ_HTTP_ERR_QUE_ADD_ERR") [].

Section Abstract.
Context (conf : ucmq_conf).

Definition new_aqueue : aqueue := AQueue [] (def_max_queue conf) (def_delay conf) 0.

(** A queue that a request may make: it is there, or there is room for one more. *)
Definition touched (full : bool) (oa : option aqueue) : option aqueue :=
  match oa with Some a => Some a | None => if full then None else Some new_aqueue end.

(** The answer of one queue at time [t]; [full]: the table has no room. *)
Definition a_answer (full : bool) (t : Z) (ver : option bytes) (r : areq) (oa : option aqueue)
    : reply * option aqueue :=
  let now := u32 (i32 t) in
  match r with
  | RPut _ body =>
      match touched full oa with
      | Some a => let '(res, a') := a_push now body a in (put_reply res ver, Some a')
      | None => (add_error_reply "HTTPSQS_PUT_ERROR" ver, oa)
      end
  | RGet _ =>
      match oa with
      | Some a => let '(res, a') := a_pop now a in (get_reply res ver, Some a')
      | None => (missing_reply "HTTPSQS_GET_ERROR" ver, oa)
      end
  | RMaxqueue _ n =>
      match touched full oa with
      | Some a => (ok_reply "HTTPSQS_MAXQUEUE_OK" ver, Some (a_op (OpMaxqueue n) (t, a)).2.2)
      | None => (add_error_reply "HTTPSQS_MAXQUEUE_CANCEL" ver, oa)
      end
  | RDelay _ n =>
      match touched full oa with
      | Some a => (ok_reply "HTTPSQS_DELAY_OK" ver, Some (a_op (OpDelay n) (t, a)).2.2)
      | None => (add_error_reply "HTTPSQS_DELAY_CANCEL" ver, oa)
      end
  | RWlock _ n =>
      match oa with
      | Some a => (ok_reply "HTTPSQS_READONLY_OK" ver, Some (a_op (OpWlock (u32 n)) (t, a)).2.2)
      | None => (add_error_reply "HTTPSQS_READONLY_CANCEL" ver, oa)
      end
  | RRemove _ =>
      match oa with
      | Some _ => (ok_reply "HTTPSQS_REMOVE_OK" ver, None)
      | None => (missing_reply "HTTPSQS_REMOVE_ERROR" ver, None)
      end
  | RReset _ =>
      match oa with
      | Some _ => (ok_reply "HTTPSQS_RESET_OK" ver, Some new_aqueue)
      | None => (missing_reply "HTTPSQS_RESET_ERROR" ver, None)
      end
  end.

Definition there_before (oa : option aqueue) : bool := bool_decide (is_Some oa).
(** The tag of the queue has been written since the queue was made, when [b] says
    so of the time before the request. *)
Definition a_settled (full : bool) (t : Z) (r : areq) (oa : option aqueue) : bool -> bool :=
  let now := u32 (i32 t) in
  match r with
  | RPut _ body =>
      match touched full oa with
      | Some a => fun b => (there_before oa && b) || bool_decide ((a_push now body a).1 = QUEUE_PUT_OK)
      | None => fun b => b
      end
  | RGet _ =>
      match oa with Some a => fun b => b || bool_decide (is_Some (a_pop now a).1) | None => fun b => b end
  | RMaxqueue _ _ | RDelay _ _ => match touched full oa with Some _ => fun _ => true | None => fun b => b end
  | RWlock _ _ => match oa with Some _ => fun _ => true | None => fun b => b end
  | RRemove _ | RReset _ => fun _ => false
  end.

(** The whole server: requests and seconds that pass. *)
Definition astate : Type := Z * gmap bytes aqueue.
Inductive aevent := ATick (seconds : Z) | AAsk (ver : option bytes) (r : areq).

Definition a_full_table (m : gmap bytes aqueue) : bool := max_qlist_itmes conf <=? Z.of_nat (size m).
Definition a_event (e : aevent) (s : astate) : list reply * astate :=
  let '(t, m) := s in
  match e with
  | ATick n => ([], (t + n, m))
  | AAsk ver r =>
      let '(rep, oa) := a_answer (a_full_table m) t ver r (m !! req_name r) in
      ([rep], (t, partial_alter (fun _ => oa) (req_name r) m))
  end.
Fixpoint a_serve (es : list aevent) (s : astate) : list reply * astate :=
  match es with
  | [] => ([], s)
  | e :: es => let '(rs, s) := a_event e s in let '(rs', s) := a_serve es s in (rs ++ rs', s)
  end.

(** The queues of the map that are settled after the events. *)
Definition a_settle (e : aevent) (s : astate) (ks : gset bytes) : gset bytes :=
  match e with
  | ATick _ => ks
  | AAsk _ r =>
      let k := req_name r in
      if a_settled (a_full_table s.2) s.1 r (s.2 !! k) (bool_decide (k ∈ ks)) then {[k]} ∪ ks else ks ∖ {[k]}
  end.
Fixpoint a_settle_all (es : list aevent) (s : astate) (ks : gset bytes) : gset bytes :=
  match es with
  | [] => ks
  | e :: es => a_settle_all es (a_event e s).2 (a_settle e s ks)
  end.
End Abstract.

(** ** The requests that stand for them *)
Section Concrete.
Context {KV : Type} `{Evhttp KV}.

Inductive input := Tick (seconds : Z) | Ask (rq : request KV) (t0 t1 : Z).

Definition tick (n : Z) (sv : server) : server :=
  with_store (Store (set_clock (w_clock (st_w (sv_store sv)) + n) (st_w (sv_store sv)))
                (g_mq_conf (sv_store sv)) (g_mq_qlist (sv_store sv))) sv.

(** The replies of a run, in order. *)
Fixpoint serve_all (es : list input) (sv : server) : outcome (list reply * server) :=
  match es with
  | [] => Ok ([], sv)
  | Tick n :: es => serve_all es (tick n sv)
  | Ask rq t0 t1 :: es =>
      match serve rq t0 t1 sv with
      | Ok (_, rs, sv) =>
          match serve_all es sv with
          | Ok (rs', sv) => Ok (rs ++ rs', sv)
          | Fault => Fault
          | OutOfFuel => OutOfFuel
          end
      | Fault => Fault
      | OutOfFuel => OutOfFuel
      end
  end.

(** The variables of a request that make it an abstract one. *)
Inductive asked (conf : ucmq_conf) (rq : request KV) (kv : KV) : string -> areq -> Prop :=
| asked_put name body : sent_body rq kv = Some body -> body_ok conf body ->
    asked conf rq kv "put" (RPut name body)
| asked_get name : asked conf rq kv "get" (RGet name)
| asked_maxqueue name n : dest_num_of (evhttp_find_header kv (B "num")) = n -> 0 <= n <= QUEUE_MAX_SIZE ->
    asked conf rq kv "maxqueue" (RMaxqueue name n)
| asked_delay name n : dest_num_of (evhttp_find_header kv (B "num")) = n -> 0 <= n <= INT_MAX ->
    asked conf rq kv "delay" (RDelay name n)
| asked_wlock name n opt : dest_num_of (evhttp_find_header kv (B "num")) = n -> -1 <= n <= INT_MAX ->
    opt = "wlock"%string \/ opt = "readonly"%string -> asked conf rq kv opt (RWlock name n)
| asked_remove name : asked conf rq kv "remove" (RRemove name)
| asked_reset name : asked conf rq kv "reset" (RReset name).

Definition matches (conf : ucmq_conf) (e : input) (a : aevent) : Prop :=
  match e, a with
  | Tick n, ATick n' => n = n'
  | Ask rq _ _, AAsk ver r => exists opt kv,
      asks rq opt kv /\ asked conf rq kv opt r /\ ver = evhttp_find_header kv (B "ver") /\
      evhttp_find_header kv (B "name") = Some (req_name r) /\ req_qname_check (Some (req_name r)) = true
  | _, _ => False
  end.
End Concrete.

(** ** One request on one queue *)
Section Answers.
Context {KV : Type} `{Evhttp KV} (conf : ucmq_conf) (Hconf : conf_wf conf).
Implicit Types (request : request KV).

(** What the table and the files hold of the queue [name]. *)
Definition stands (w : world) (l : qlist) (name : bytes) (oa : option aqueue) (n : Z) : Prop :=
  match oa with
  | Some a => exists q, find_kv l name = Some q /\ qname q = name /\ refines conf w q a /\ in_bounds q a n
  | None => find_kv l name = None /\ fresh_queue conf w name
  end.

(** A restart finds it; [b]: with its messages. *)
Definition lasts (w : world) (l : qlist) (name : bytes) (oa : option aqueue) (b : bool) (n : Z) : Prop :=
  match oa with
  | Some a => exists q, find_kv l name = Some q /\ lasting conf w q a b n
  | None => True
  end.

Context (kv : KV) (name : bytes) (w : world) (l : qlist) (i : app_info) (sv : server).
Context (hs : list (bytes * bytes)) (n : Z).
#[local] Abbreviation ver := (evhttp_find_header kv (B "ver")).
#[local] Abbreviation start := (HState (server_of w conf l i sv) (Some kv) (Some []) hs []).
#[local] Abbreviation full := (max_qlist_itmes conf <=? Z.of_nat (length l)).

Context (Hname : evhttp_find_header kv (B "name") = Some name) (Hchk : req_qname_check (Some name) = true).
Context (Hst : storage_ok conf w) (Hkeys : NoDup l.*1) (Hroom : Z.of_nat (length l) <= max_qlist_itmes conf).
Context (Hn : 0 <= n /\ n + 2 < LLONG_MAX).

(** A handler answers [rep] and leaves [oa] for the queue that was [oa0]; what a
    restart finds changes as [f] says. *)
Definition answers (oa0 : option aqueue) (h : M (hstate KV) unit) (rep : reply) (oa : option aqueue)
    (f : bool -> bool) : Prop :=
  exists hs' w' l' i', h start = Ok (tt, HState (server_of w' conf l' i' sv) None None hs' [rep]) /\
    stands w' l' name oa n /\ NoDup l'.*1 /\ Z.of_nat (length l') <= max_qlist_itmes conf /\
    forall b, defaults_ok conf -> room_ok (n + 1) -> lasts w l name oa0 b (n + 1) ->
      lasts w' l' name oa (f b) n.

Lemma stands_weaken w1 l1 oa : stands w1 l1 name oa (n + 1) -> stands w1 l1 name oa n.
Proof.
  destruct oa as [a|]; [|done]. intros (q & ? & ? & ? & Hb). exists q. split_and!; try done.
  unfold in_bounds in *. lia.
Qed.

(** The handler answers at once. *)
Lemma answers_same h rep oa f : stands w l name oa (n + 1) -> (oa <> None -> forall b, f b = b) ->
  h start = Ok (tt, HState (server_of w conf l i sv) None None hs [rep]) -> answers oa h rep oa f.
Proof.
  intros Hs Hf E. exists hs, w, l, i. split_and!; try done; [by apply stands_weaken|].
  intros b _ _ Hl. destruct oa as [a|]; [|done]. rewrite Hf by done. destruct Hl as (q & Hq & Hl).
  exists q. split; [done|]. by apply (lasting_weaken conf w q a b b n).
Qed.

(** A queue that is made starts unsettled. *)
Lemma lasts_there oa a b : touched conf full oa = Some a -> stands w l name oa (n + 1) ->
  defaults_ok conf -> room_ok (n + 1) -> lasts w l name oa b (n + 1) ->
  lasting_there conf w l name a (there_before oa && b) (n + 1).
Proof.
  unfold lasting_there. destruct oa as [a0|]; simpl.
  - intros [= ->] _ _ _ (q & -> & Hl). exact Hl.
  - intros _ [-> _] ? ? _. by split_and!.
Qed.

(** The queue keeps its node, or gets one. *)
Lemma answers_node oa0 h rep a f w' l' i' hs' q' :
  h start = Ok (tt, HState (server_of w' conf l' i' sv) None None hs' [rep]) ->
  refines conf w' q' a -> find_kv l' name = Some q' -> in_bounds q' a n -> qname q' = name ->
  (l'.*1 = l.*1 \/ find_kv l name = None /\ l'.*1 = l.*1 ++ [name] /\ Z.of_nat (length l) < max_qlist_itmes conf) ->
  (forall b, defaults_ok conf -> room_ok (n + 1) -> lasts w l name oa0 b (n + 1) -> lasting conf w' q' a (f b) n) ->
  answers oa0 h rep (Some a) f.
Proof.
  intros E Hr Hf Hb Hq Hk Hl. exists hs', w', l', i'. split_and!; [done|by exists q'|..];
    [| |intros b Hd Hro Hlb; exists q'; split; [done|by apply Hl]].
  - destruct Hk as [-> | (Hnew & -> & _)]; [done|]. apply NoDup_app.
    split_and!; [done| |apply NoDup_singleton]. intros k Hk ->%list_elem_of_singleton. by apply find_none in Hnew.
  - rewrite <- (length_fmap fst l'). destruct Hk as [-> | (_ & -> & Hlt)]; rewrite ?length_app, length_fmap; simpl; lia.
Qed.

Lemma there oa a : stands w l name oa (n + 1) -> touched conf full oa = Some a ->
  queue_there conf w l name a (n + 1) /\ (forall q, find_kv l name = Some q -> qname q = name).
Proof.
  unfold queue_there. destruct oa as [a0|]; simpl.
  - intros (q & -> & Hq & Hr & Hb) [= ->]. split; [done|]. by intros q' [= <-].
  - intros [-> Hfr]. destruct (Z.leb_spec (max_qlist_itmes conf) (Z.of_nat (length l))); [done|]. intros [= <-].
    split; [|done]. split_and!; [done|done|done|lia].
Qed.
Lemma not_there oa : stands w l name oa (n + 1) -> touched conf full oa = None ->
  find_kv l name = None /\ max_qlist_itmes conf <= Z.of_nat (length l) /\ oa = None.
Proof.
  destruct oa as [a0|]; simpl; [done|]. intros [Hf _].
  destruct (Z.leb_spec (max_qlist_itmes conf) (Z.of_nat (length l))); done.
Qed.

(** No node is made in a full table. *)
Lemma touch_full {A} (k : option bytes -> M (hstate KV) A) oo hs0 rs :
  find_kv l name = None -> max_qlist_itmes conf <= Z.of_nat (length l) ->
  bind (touch_queue_by_qname name) k (HState (server_of w conf l i sv) (Some kv) oo hs0 rs)
  = k None (HState (server_of w conf l i sv) (Some kv) oo hs0 rs).
Proof.
  intros Hf Hmax. unfold touch_queue_by_qname. rewrite bind_assoc, run_find_none by done. cbv beta iota.
  erewrite bind_ok; [reflexivity|]. apply run_on_store. unfold mq_qm_add_queue, hash_get_queue_num.
  erewrite bind_ok by reflexivity. erewrite bind_ok by reflexivity. cbn [g_mq_qlist g_mq_conf].
  by rewrite (proj2 (Z.leb_le _ _)).
Qed.

Lemma put_answered request body oa :
  stands w l name oa (n + 1) -> sent_body request kv = Some body -> body_ok conf body ->
  let '(rep, oa') := a_answer conf full (w_clock w) ver (RPut name body) oa in
  answers oa (http_opt_put request) rep oa' (a_settled conf full (w_clock w) (RPut name body) oa).
Proof.
  intros Hs Hbody Hok. cbn [a_answer a_settled]. fold (now_of w). destruct (touched conf full oa) as [a|] eqn:Et.
  - destruct (there oa a Hs Et) as [Hth Hqn]. pose proof (lasts_there oa a) as Hlt.
    pose proof (put_run conf Hconf request name body kv w l i sv a hs [] n Hname Hchk Hbody Hok Hth
      ltac:(lia) Hst) as Hp.
    destruct (a_push (now_of w) body a) as [res a']. destruct Hp as (w' & q' & l' & hs' & E & Hr & [Hf _] & Hb & Hq & Hk & Hlast).
    eapply answers_node; [exact E|done..|by apply Hq| |intros b ? ? ?; apply Hlast; by apply Hlt].
    rewrite Hk. unfold queue_there in Hth. destruct (find_kv l name); [by left|right]. by destruct Hth as (_ & ? & _).
  - destruct (not_there oa Hs Et) as (Hf & Hmax & ->). apply answers_same; [done|done|].
    erewrite put_enters by done. unfold put_message. rewrite touch_full by done. apply do_reply.
Qed.

Lemma get_answered oa : stands w l name oa (n + 1) ->
  let '(rep, oa') := a_answer conf full (w_clock w) ver (RGet name) oa in
  answers oa http_opt_get rep oa' (a_settled conf full (w_clock w) (RGet name) oa).
Proof.
  intros Hs. cbn [a_answer a_settled]. fold (now_of w). apply stands_weaken in Hs as Hs'. destruct oa as [a|].
  - destruct Hs' as (q & Hf & Hq & Hr & Hb).
    pose proof (get_answers conf Hconf name kv w l i sv q a hs [] n Hname Hchk Hf Hr Hb ltac:(lia)) as Hp.
    destruct (a_pop (now_of w) a) as [res a']. destruct Hp as (w' & q' & hs' & E & Hr' & Hb' & Hq' & Hlast).
    eapply answers_node; [exact E|done| |done|congruence|left; by rewrite keys_set|].
    { by erewrite find_set, bool_decide_true by done. }
    intros b _ _ (q0 & Hf0 & Hl). rewrite Hf in Hf0. injection Hf0 as <-. by apply Hlast.
  - apply answers_same; [done|done|]. destruct Hs as [Hf _]. unfold http_opt_get.
    rewrite !run_find_header, Hname, run_checked, run_find_none by done. apply do_reply.
Qed.

(** A setting of a queue that is there. *)
Lemma setting_answered request opt num o text a :
  dest_num_of (evhttp_find_header kv (B "num")) = num -> is_setting opt num o text ->
  stands w l name (Some a) (n + 1) ->
  answers (Some a) (do_opt request (Some (B opt))) (ok_reply text ver) (Some (a_op o (w_clock w, a)).2.2)
    (fun _ => true).
Proof.
  intros Hnum Hset (q & Hf & Hq & Hr & Hb).
  destruct (setting_ok conf opt num o text w q a n Hconf Hset Hr Hst Hb ltac:(lia)) as (w' & q' & E & Hr' & Hb' & Hq' & Hlast).
  eapply answers_node; [by apply (setting_answers request kv name conf opt num o text w l q w' q' i sv hs [])|done| |done|congruence|left; by rewrite keys_set|].
  { by erewrite find_set, bool_decide_true by done. }
  intros b _ _ (q0 & Hf0 & Hl). rewrite Hf in Hf0. injection Hf0 as <-. by apply (Hlast b).
Qed.

(** A handler that touches the queue first. *)
Lemma setting_touched request opt num o text a :
  (opt = "maxqueue" \/ opt = "delay")%string ->
  dest_num_of (evhttp_find_header kv (B "num")) = num -> is_setting opt num o text ->
  find_kv l name = None -> queue_there conf w l name a (n + 1) ->
  answers None (do_opt request (Some (B opt))) (ok_reply text ver) (Some (a_op o (w_clock w, a)).2.2)
    (fun _ => true).
Proof.
  intros Hopt Hnum Hset Hf Hth. pose proof Hth as Hroom'. unfold queue_there in Hroom'. rewrite Hf in Hroom'.
  destruct (touch_new conf Hconf name kv w l i sv a (Some []) hs [] (n + 1) Hf Hth Hst)
    as (w1 & q1 & Et & Hr & Hb & Hc & Hst1 & Hq1 & Hlast1).
  assert (find_kv (l ++ [(name, q1)]) name = Some q1) as Hf1 by (by rewrite find_app, Hf, bool_decide_true).
  destruct (setting_ok conf opt num o text w1 q1 a n Hconf Hset Hr Hst1 Hb ltac:(lia)) as (w' & q' & E & Hr' & Hb' & Hq' & Hlast).
  rewrite Hc in Hr', Hb', Hlast. eapply answers_node; [|exact Hr'| |done|congruence|right|].
  - pose proof (setting_answers request kv name conf opt num o text w1 (l ++ [(name, q1)]) q1 w' q' i sv hs []
      Hname Hchk Hnum Hset Hf1 E) as Ea.
    etransitivity; [|exact Ea].
    assert (0 <= num <= INT_MAX /\ (opt = "maxqueue"%string -> num <= QUEUE_MAX_SIZE)) as [Hlo Hhi].
    { destruct Hopt as [-> | ->]; inversion Hset as [? Hb0|? Hb0|? Hb0|? Hb0]; unfold QUEUE_MAX_SIZE, INT_MAX in *;
        (split; [lia|intros; lia || done]). }
    destruct Hopt as [-> | ->].
    + change (do_opt request (Some (B "maxqueue"))) with (http_opt_maxqueue (KV := KV)).
      unfold http_opt_maxqueue. rewrite !run_find_header, Hname, !run_checked, Hnum by done.
      specialize (Hhi eq_refl). unfold QUEUE_MAX_SIZE in *.
      rewrite (proj2 (Z.ltb_ge num 0)), (proj2 (Z.ltb_ge 1000000000 num)) by lia.
      cbn [orb]. rewrite Et. by erewrite run_touch by done.
    + change (do_opt request (Some (B "delay"))) with (http_opt_delay (KV := KV)).
      unfold http_opt_delay. rewrite !run_find_header, Hname, !run_checked, Hnum by done.
      rewrite (proj2 (Z.ltb_ge num 0)) by lia. rewrite !(bind_ok (ret tt) _ _ tt _ eq_refl), Et.
      by erewrite run_touch by done.
  - by erewrite find_set, bool_decide_true by done.
  - rewrite keys_set, fmap_app. split_and!; [done|done|apply Hroom'].
  - intros b ? ? _. apply (Hlast false), Hlast1. unfold lasting_there. by rewrite Hf.
Qed.

(** The same where no queue can be made. *)
Lemma maxqueue_answered request num oa :
  stands w l name oa (n + 1) -> dest_num_of (evhttp_find_header kv (B "num")) = num -> 0 <= num <= QUEUE_MAX_SIZE ->
  let '(rep, oa') := a_answer conf full (w_clock w) ver (RMaxqueue name num) oa in
  answers oa (do_opt request (Some (B "maxqueue"))) rep oa' (a_settled conf full (w_clock w) (RMaxqueue name num) oa).
Proof.
  intros Hs Hnum Hr. cbn [a_answer a_settled]. pose proof (set_maxqueue num Hr) as Hset.
  destruct (touched conf full oa) as [a|] eqn:Et.
  - destruct (there oa a Hs Et) as [Hth _]. destruct oa as [a0|].
    + injection Et as <-. by apply (setting_answered request "maxqueue" num).
    + destruct Hs as [Hf _]. apply (setting_touched request "maxqueue" num); auto.
  - destruct (not_there oa Hs Et) as (Hf & Hmax & ->). apply answers_same; [done|done|].
    change (do_opt request (Some (B "maxqueue"))) with (http_opt_maxqueue (KV := KV)).
    unfold http_opt_maxqueue. rewrite !run_find_header, Hname, !run_checked, Hnum by done.
    unfold QUEUE_MAX_SIZE in *. rewrite (proj2 (Z.ltb_ge _ 0)), (proj2 (Z.ltb_ge 1000000000 _)) by lia.
    cbn [orb]. rewrite touch_full by done. apply do_reply.
Qed.
Lemma delay_answered request num oa :
  stands w l name oa (n + 1) -> dest_num_of (evhttp_find_header kv (B "num")) = num -> 0 <= num <= INT_MAX ->
  let '(rep, oa') := a_answer conf full (w_clock w) ver (RDelay name num) oa in
  answers oa (do_opt request (Some (B "delay"))) rep oa' (a_settled conf full (w_clock w) (RDelay name num) oa).
Proof.
  intros Hs Hnum Hr. cbn [a_answer a_settled]. pose proof (set_delay num Hr) as Hset.
  destruct (touched conf full oa) as [a|] eqn:Et.
  - destruct (there oa a Hs Et) as [Hth _]. destruct oa as [a0|].
    + injection Et as <-. by apply (setting_answered request "delay" num).
    + destruct Hs as [Hf _]. apply (setting_touched request "delay" num); auto.
  - destruct (not_there oa Hs Et) as (Hf & Hmax & ->). apply answers_same; [done|done|].
    change (do_opt request (Some (B "delay"))) with (http_opt_delay (KV := KV)).
    unfold http_opt_delay. rewrite !run_find_header, Hname, !run_checked, Hnum by done.
    rewrite (proj2 (Z.ltb_ge _ 0)) by lia. erewrite bind_ok by reflexivity.
    rewrite touch_full by done. apply do_reply.
Qed.
Lemma wlock_answered request num opt oa :
  stands w l name oa (n + 1) -> dest_num_of (evhttp_find_header kv (B "num")) = num -> -1 <= num <= INT_MAX ->
  opt = "wlock"%string \/ opt = "readonly"%string ->
  let '(rep, oa') := a_answer conf full (w_clock w) ver (RWlock name num) oa in
  answers oa (do_opt request (Some (B opt))) rep oa' (a_settled conf full (w_clock w) (RWlock name num) oa).
Proof.
  intros Hs Hnum Hr Hopt. cbn [a_answer a_settled].
  assert (is_setting opt num (OpWlock (u32 num)) "HTTPSQS_READONLY_OK") as Hset by (destruct Hopt as [-> | ->]; by constructor).
  destruct oa as [a|]; [by apply (setting_answered request opt num)|].
  apply answers_same; [done|done|]. destruct Hs as [Hf _].
  assert (do_opt request (Some (B opt)) = http_opt_wlock (KV := KV)) as -> by (by destruct Hopt as [-> | ->]).
  unfold http_opt_wlock. rewrite !run_find_header, Hname, !run_checked, Hnum by done.
  assert ((num <? 0) && negb (num =? -1) = false) as -> by lia.
  erewrite bind_ok by reflexivity. rewrite run_find_none by done. apply do_reply.
Qed.

(** Removing; the directory holds the files of the queue and nothing else. *)
Context (Hwf : world_wf w) (Hnf : w_faults w = []) (Hdata : dir_exists w (data_file_path conf) = true).
Context (Hfit : path_fits conf name).
Context (Hfo : forall q, find_kv l name = Some q -> files_only w (queue_dir conf name)).

Lemma deleted q : find_kv l name = Some q -> qname q = name ->
  exists w1, mq_qm_del_queue name (Store w conf l) = Ok (true, Store w1 conf (del_kv l name)) /\
    find_kv (del_kv l name) name = None /\ fresh_queue conf w1 name /\ storage_ok conf w1 /\
    NoDup (del_kv l name).*1 /\ Z.of_nat (length (del_kv l name)) < max_qlist_itmes conf.
Proof.
  intros Hf Hq. destruct (checked_name name Hchk) as (Hlen & Hne & Hsl).
  destruct (del_queue_run conf w l name q Hf Hq Hfit (Hfo q Hf)) as (w1 & Hs & E).
  exists (dir_removed w1 (queue_dir conf name)). split_and!; [exact E|..].
  - by apply (del_table l name q).
  - apply removed_fresh; try done; [by apply (sf_wf _ _ Hs)|by rewrite (sf_faults _ _ Hs)| |
      by eapply files_only_same, Hfo]. unfold dir_exists in *. by rewrite (sf_dirs _ _ Hs).
  - unfold storage_ok in *. by rewrite removed_free, (sf_free _ _ Hs).
  - by apply keys_del_nodup.
  - pose proof (length_del l name q Hf). lia.
Qed.

Lemma remove_answered request oa : stands w l name oa (n + 1) ->
  let '(rep, oa') := a_answer conf full (w_clock w) ver (RRemove name) oa in
  answers oa (do_opt request (Some (B "remove"))) rep oa' (a_settled conf full (w_clock w) (RRemove name) oa).
Proof.
  intros Hs. cbn [a_answer a_settled]. change (do_opt request (Some (B "remove"))) with (http_opt_remove (KV := KV)).
  destruct oa as [a|].
  - destruct Hs as (q & Hf & Hq & _). destruct (deleted q Hf Hq) as (w1 & E & Hf' & Hfr & _ & Hk & Hlt).
    exists hs, w1, (del_kv l name), i.
    split; [by apply (remove_answers conf kv name w l q w1 (del_kv l name) i sv hs [])|].
    split; [by split|]. split; [done|]. by split; [lia|].
  - apply answers_same; [done|done|]. destruct Hs as [Hf _]. unfold http_opt_remove.
    rewrite !run_find_header, Hname, run_checked, run_find_none by done. apply do_reply.
Qed.
Lemma reset_answered request oa : stands w l name oa (n + 1) ->
  let '(rep, oa') := a_answer conf full (w_clock w) ver (RReset name) oa in
  answers oa (do_opt request (Some (B "reset"))) rep oa' (a_settled conf full (w_clock w) (RReset name) oa).
Proof.
  intros Hs. cbn [a_answer a_settled]. change (do_opt request (Some (B "reset"))) with (http_opt_reset (KV := KV)).
  destruct oa as [a|].
  - destruct Hs as (q & Hf & Hq & _). destruct (deleted q Hf Hq) as (w1 & E & Hf' & Hfr & Hst1 & Hk & Hlt).
    destruct (add_queue_run (Store w1 conf (del_kv l name)) name Hconf Hfr Hst1 Hlt)
      as (w2 & q2 & E2 & Hr & _ & _ & Hi & Hq2 & Hlast). cbn [g_mq_qlist g_mq_conf] in *.
    exists hs, w2, (del_kv l name ++ [(name, q2)]), i. split_and!.
    + by apply (reset_answers conf kv name w l q true w1 (del_kv l name) w2 _ i sv hs []).
    + exists q2. split_and!; [by rewrite find_app, Hf', bool_decide_true|done|done|].
      unfold in_bounds. rewrite Hi. simpl. lia.
    + by apply keys_snoc.
    + rewrite length_app. simpl. lia.
    + intros b Hd [Hr1 Hr2] _. exists q2. split; [by rewrite find_app, Hf', bool_decide_true|].
      apply Hlast; [done|]. unfold room_ok. lia.
  - apply answers_same; [done|done|]. destruct Hs as [Hf _]. unfold http_opt_reset.
    rewrite !run_find_header, Hname, run_checked, run_find_none by done. apply do_reply.
Qed.

(** Every request. *)
Lemma asked_answered request opt r oa : req_name r = name ->
  stands w l name oa (n + 1) -> asked conf request kv opt r ->
  let '(rep, oa') := a_answer conf full (w_clock w) ver r oa in
  answers oa (do_opt request (Some (B opt))) rep oa' (a_settled conf full (w_clock w) r oa).
Proof.
  intros Hr Hs Ha. destruct Ha; cbn [req_name] in Hr; subst.
  - by apply put_answered.
  - by apply get_answered.
  - by apply maxqueue_answered.
  - by apply delay_answered.
  - by apply wlock_answered.
  - by apply remove_answered.
  - by apply reset_answered.
Qed.
End Answers.

(** ** The whole server *)
Section Served.
Context {KV : Type} `{Evhttp KV} (conf : ucmq_conf) (Hconf : conf_wf conf).
(** There is a data path, and the paths of all queues fit their buffers. *)
Definition data_fits : Prop :=
  data_file_path conf <> [] /\ (length (data_file_path conf) + 1 + MAX_QUEUE_NAME_LEN <= 127)%nat.
Context (Hshort : data_fits).
#[local] Abbreviation valid k := (req_qname_check (Some k) = true).

(** The table and the disk stand for the map [m], and every queue can take [n]
    more messages. *)
Record served (w : world) (l : qlist) (m : gmap bytes aqueue) (n : Z) : Prop := {
  sv_world : world_wf w /\ w_faults w = [] /\ known w;
  sv_disk : storage_ok conf w /\ dir_exists w (data_file_path conf) = true;
  sv_keys : NoDup l.*1;
  sv_room : Z.of_nat (length l) <= max_qlist_itmes conf;
  sv_bound : 0 <= n /\ n + 1 < LLONG_MAX;
  sv_names k q : find_kv l k = Some q -> valid k;
  sv_stands k : valid k -> stands conf w l k (m !! k) n;
  sv_dom k a : m !! k = Some a -> is_Some (find_kv l k);
  (* the directories of the queues hold no directory, and no file has their names *)
  sv_flat k : valid k -> w_names w !! queue_dir conf k = None /\
    forall p, inside (queue_dir conf k) p -> p ∉ w_dirs w;
  (* no other directory of the data path is visible *)
  sv_dirs d : d ∈ w_dirs w -> dirname d = data_file_path conf -> strncmp (basename d) (B ".") 1 <> 0 ->
    is_Some (find_kv l (basename d));
  (* no queue holds what belongs to another *)
  sv_apart k q k' q' : find_kv l k = Some q -> find_kv l k' = Some q' -> k <> k' ->
    handles_apart conf w q k' (Some q')
}.

(** What a restart finds of the table; the queues of [ks] with their messages. *)
Definition settled (w : world) (l : qlist) (m : gmap bytes aqueue) (ks : gset bytes) (n : Z) : Prop :=
  forall k a, m !! k = Some a -> lasts conf w l k (Some a) (bool_decide (k ∈ ks)) n.

Lemma valid_fits k : valid k -> path_fits conf k.
Proof using Hshort.
  intros (Hl & _)%checked_name. unfold data_fits, path_fits, MAX_QUEUE_NAME_LEN in *. lia.
Qed.

(** The table has a node for each queue of the map. *)
Lemma served_size w l m n : served w l m n -> size m = length l.
Proof using.
  intros Hs. rewrite <- (size_dom (D := gset bytes) m), <- (length_fmap fst l).
  rewrite <- (size_list_to_set (C := gset bytes)) by apply Hs. f_equal. apply set_eq. intros k.
  rewrite elem_of_dom, elem_of_list_to_set. split.
  - intros [a Ha]. destruct (sv_dom _ _ _ _ Hs _ _ Ha) as [q Hq].
    apply list_elem_of_fmap. exists (k, q). split; [done|by apply find_kv_in].
  - intros Hk. destruct (find_kv l k) as [q|] eqn:Eq; [|by apply find_none in Eq].
    pose proof (sv_stands _ _ _ _ Hs k (sv_names _ _ _ _ Hs _ _ Eq)) as Hst. destruct (m !! k); [by eexists|].
    destruct Hst as [? _]. congruence.
Qed.

(** The handles of a queue are not newer than the world. *)
Lemma handles_old w q ms : queue_inv conf w q ms ->
  (forall k, fd_of q k -> k < w_next w) /\ (forall k, map_of q k -> k < w_next w).
Proof using.
  intros Hinv. pose proof (inv_wf _ _ _ _ Hinv) as Hwf.
  assert (rtag_fd q < w_next w) as Ht.
  { destruct (inv_rtag _ _ _ _ Hinv) as (o & f & [[Hf _]%fd_file_fds _] & _). apply (wf_fds _ Hwf _ _ Hf). }
  destruct (inv_contents _ _ _ _ Hinv) as (wino & dw & (_ & Hwm & Hwf1 & _) & _ & Hc).
  apply (wf_maps _ Hwf) in Hwm.
  assert (fd (cur_rdb q) < w_next w /\ map_mem (cur_rdb q) < w_next w) as [Hf Hm].
  { destruct Hc as [(_ & -> & -> & _)|(_ & _ & rino & dr & ? & ? & ? & (_ & Hrm & Hrf & _) & _)]; [lia|].
    apply (wf_maps _ Hwf) in Hrm. lia. }
  split; intros k; [intros [-> | [-> | ->]]|intros [-> | ->]]; lia.
Qed.

Lemma files_only_served w l m n k q : served w l m n -> find_kv l k = Some q ->
  files_only w (queue_dir conf k).
Proof using.
  intros Hs Hq. pose proof (sv_names _ _ _ _ Hs _ _ Hq) as Hk. destruct (checked_name k Hk) as (_ & Hne & Hsl).
  pose proof (sv_stands _ _ _ _ Hs k Hk) as Hst. destruct (m !! k) as [a|]; [|destruct Hst; congruence].
  destruct Hst as (q' & Hq' & Hn & [Hinv _ _ _ _] & _).
  destruct (sv_flat _ _ _ _ Hs k Hk) as [Hfile Hflat].
  assert (queue_dir conf k <> []) as Hdne.
  { unfold queue_dir. intros E%(f_equal length). rewrite !length_app in E. simpl in E. lia. }
  split.
  - split; [done|by apply last_dir].
  - split; [|done]. rewrite <- Hn. apply (inv_free _ _ _ _ Hinv).
  - apply Forall_forall. intros d Hd%elem_of_elements E. destruct (path_split d _ E Hdne) as [_ Ed].
    apply (Hflat d); [|done]. by exists (basename d).
  - apply Forall_forall. intros [p ino] Hin%elem_of_map_to_list E. cbn in *.
    destruct (path_split p _ E Hdne) as [Hb Ep].
    assert (forall (s : bytes) c, head s = Some c -> c <> 46 -> is_special_dir s = false) as Hhead.
    { intros s c Hs1 Hc. unfold is_special_dir, streq. destruct s as [|d s]; [done|]. injection Hs1 as ->.
      change (B ".") with [46]. change (B "..") with [46; 46]. rewrite !bool_decide_false by congruence. done. }
    destruct (inv_disk _ _ _ _ Hinv) as [Honly _].
    assert (w_names w !! in_queue conf (qname q') (basename p) = Some ino) as Hp
      by (unfold in_queue; by rewrite Hn, <- Ep).
    change (is_special_dir (basename p) = false).
    destruct (Honly (basename p) ino Hb Hp) as [-> | (j & _ & ->)].
    + by apply (Hhead _ 114).
    + by apply (Hhead _ 100).
Qed.

(** Nothing is near a queue that does not exist. *)
Lemma none_near w k n : fresh_queue conf w k -> ~ fd_near conf w k None n /\ ~ map_near conf w k None n.
Proof using.
  intros Hfr. assert (forall i, ~ file_of conf w k i) as Hno.
  { intros i (name & Hs & Hi). apply (fr_files _ _ _ Hfr) in Hs as [_ Hn]. congruence. }
  split; intros [_ [(? & [=] & _)|(? & _ & Hf)]]; by apply Hno in Hf.
Qed.

Lemma stands_name w l k oa n q : stands conf w l k oa n -> find_kv l k = Some q ->
  qname q = k /\ exists a, oa = Some a /\ refines conf w q a /\ in_bounds q a n.
Proof using.
  destruct oa as [a|]; simpl; [|intros [? _]; congruence].
  intros (q' & Hq' & Hn & Hr & Hb) Hq. rewrite Hq in Hq'. injection Hq' as <-. eauto.
Qed.

Section Step.
Context (request : request KV) (t0 t1 : Z) (a : bytes) (w : world) (l : qlist) (i : app_info) (sv : server).
Context (m : gmap bytes aqueue) (n : Z) (hs : list (bytes * bytes)) (rs : list reply).
Context (w' : world) (l' : qlist) (i' : app_info) (oa : option aqueue).
Context (Hs : served w l m (n + 1)) (Hn : 0 <= n) (Hva : valid a) (Hreq : names request a).
Context (Erun : serve request t0 t1 (server_of w conf l i sv) = Ok (hs, rs, server_of w' conf l' i' sv)).
Context (Hst : stands conf w' l' a oa n) (Hkeys : NoDup l'.*1) (Hroom : Z.of_nat (length l') <= max_qlist_itmes conf).

Lemma old_refines k q : find_kv l k = Some q -> qname q = k /\ exists ak, refines conf w q ak.
Proof using Hs.
  intros Hq. destruct (stands_name w l k (m !! k) (n + 1) q) as (Hk & ak & _ & Hr & _); [|done|by eauto].
  apply (sv_stands _ _ _ _ Hs), (sv_names _ _ _ _ Hs _ _ Hq).
Qed.

Lemma apart_all k q b : find_kv l k = Some q -> valid b -> k <> b -> handles_apart conf w q b (find_kv l b).
Proof using Hs.
  intros Hq Hvb Hkb. destruct (find_kv l b) as [qb|] eqn:Eb; [by apply (sv_apart _ _ _ _ Hs k q b qb)|].
  pose proof (sv_stands _ _ _ _ Hs b Hvb) as Hb. destruct (m !! b); [destruct Hb as (? & ? & _); congruence|].
  destruct Hb as [_ Hfr]. split; intros x _; by apply none_near.
Qed.

Lemma old_nodes q : (a, q) ∈ l -> find_kv l a = Some q /\ qname q = a.
Proof using Hs.
  intros Hin. apply in_find_kv in Hin; [|apply Hs]. split; [done|]. by apply old_refines.
Qed.

(** What the run says of each other queue. *)
Definition region_of (b : bytes) : region :=
  spare conf w a b (find_kv l b) (proj1 (proj2 (checked_name a Hva))) (proj2 (proj2 (checked_name a Hva)))
    (proj1 (sv_world _ _ _ _ Hs)).

Lemma other_store b : valid b -> a <> b ->
  own_store (region_of b) w (data_file_path conf) a l (Store w' conf l').
Proof using Erun Hreq Hshort.
  intros Hvb Hab. destruct (checked_name b Hvb) as (_ & _ & Hb). pose proof (sv_world _ _ _ _ Hs) as (? & ? & ?).
  apply (serve_outside KV _ conf request t0 t1 w l i sv a b (find_kv l b) hs rs
    (server_of w' conf l' i' sv)); try done.
  - by apply valid_fits.
  - intros q Hin. destruct (old_nodes q Hin) as [Hq Hqn]. split; [done|by apply (apart_all a)].
Qed.

(** What it says of the world as a whole. *)
Lemma quiet_store : exists r, rg_dir r = queue_dir conf a /\
  own_store r w (data_file_path conf) a l (Store w' conf l').
Proof using Erun Hreq Hshort Hs Hva.
  destruct (checked_name a Hva) as (_ & Hne & Ha). pose proof (sv_world _ _ _ _ Hs) as (Hwf & Hnf & [Hkf Hkm]).
  exists (Region (queue_dir conf a) (fun _ => False) (fun _ => False) (fun _ => False) (w_next w)
    (last_dir conf a Hne Ha) (fun _ H => match H with end) (fun _ H => match H with end) (fun _ H => match H with end)).
  split; [done|].
  apply (serve_own KV _ conf request t0 t1 w l i sv _ a hs rs (server_of w' conf l' i' sv)); try done;
    [|by apply valid_fits|].
  - split; cbn; try done.
    + by intros ? ? _ _ [].
    + intros * _ ?. by left.
    + destruct (w_names w !! queue_dir conf a); [by right|by left].
  - intros q Hin. destruct (old_nodes q Hin) as [_ Hq]. split; try done; intros [].
Qed.

Lemma others_same k : k <> a -> find_kv l' k = find_kv l k.
Proof using Erun Hreq Hshort Hs Hva.
  intros Hk. destruct quiet_store as (r & _ & Hw). apply (ow_others _ _ _ _ _ _ Hw k Hk).
Qed.

(** A name that is not [a] stands for what it stood for. *)
Lemma stands_other k : valid k -> k <> a -> stands conf w' l' k (m !! k) n.
Proof using Erun Hreq Hshort Hs Hva.
  intros Hvk Hk. pose proof (sv_stands _ _ _ _ Hs k Hvk) as Hold.
  destruct (checked_name k Hvk) as (_ & _ & Hsl). pose proof (ow_world _ _ _ _ _ _ (other_store k Hvk (not_eq_sym Hk))) as Ho.
  unfold region_of in Ho. cbn in Ho. pose proof (others_same k Hk) as Hf. destruct (m !! k) as [ak|].
  - destruct Hold as (q & Hq & Hqn & [Hinv Hu Hm Hd Hl] & Hb). exists q. split_and!; [congruence|done| |].
    + split; try done. exact (spared_own _ _ _ _ _ _ _ Hsl (not_eq_sym Hk) _ _ Ho q _ Hq Hinv Hqn).
    + unfold in_bounds in *. lia.
  - destruct Hold as [Hq Hfr]. split; [congruence|].
    exact (spared_fresh _ _ _ _ _ _ _ Hsl (not_eq_sym Hk) _ _ Ho Hfr).
Qed.

(** Handles of other queues are still apart. *)
Lemma still_apart k q b : find_kv l' k = Some q -> k <> a -> valid b -> b <> a -> k <> b ->
  handles_apart conf w' q b (find_kv l' b).
Proof using Erun Hreq Hshort Hs Hva.
  intros Hq Hka Hvb Hba Hkb. rewrite others_same in Hq |- * by done.
  destruct (checked_name b Hvb) as (_ & _ & Hsl). pose proof (ow_world _ _ _ _ _ _ (other_store b Hvb (not_eq_sym Hba))) as Ho.
  unfold region_of in Ho. cbn in Ho. destruct (apart_all k q b Hq Hvb Hkb) as [Hf Hm].
  assert (forall qb, find_kv l b = Some qb -> (forall x, fd_of qb x -> x < w_next w) /\
            (forall x, map_of qb x -> x < w_next w)) as Hold.
  { intros qb Hqb. destruct (old_refines b qb Hqb) as (_ & ak & [Hinv _ _ _ _]). by eapply handles_old. }
  split; intros x Hx Hnear.
  - apply (Hf x Hx). apply (near_back _ _ _ _ _ _ _ Hsl (not_eq_sym Hba) _ _ Ho x Hnear).
    intros qb Hqb. by apply (Hold qb Hqb).
  - apply (Hm x Hx). apply (map_back _ _ _ _ _ _ _ Hsl (not_eq_sym Hba) _ _ Ho x Hnear).
    intros qb Hqb. by apply (Hold qb Hqb).
Qed.

(** The queue of the request holds nothing of the others. *)
Lemma new_apart q b : find_kv l' a = Some q -> valid b -> a <> b -> handles_apart conf w' q b (find_kv l' b).
Proof using Erun Hreq Hshort Hs Hva Hst.
  intros Hq Hvb Hab. rewrite others_same by done.
  destruct (checked_name b Hvb) as (_ & _ & Hsl). pose proof (other_store b Hvb Hab) as [Ho _ Hown _].
  destruct (stands_name _ _ _ _ _ _ Hst Hq) as (Hqn & _).
  specialize (Hown q (find_kv_in _ _ _ Hq)). unfold region_of in Ho, Hown. apply apart_own in Hown as [Hf Hm]; [|done].
  assert (forall qb, find_kv l b = Some qb -> (forall x, fd_of qb x -> x < w_next w) /\
            (forall x, map_of qb x -> x < w_next w)) as Hold.
  { intros qb Hqb. destruct (old_refines b qb Hqb) as (_ & ak & [Hinv _ _ _ _]). by eapply handles_old. }
  split; intros x Hx Hnear.
  - apply (Hf x Hx). apply (near_back _ _ _ _ _ _ _ Hsl Hab _ _ Ho x Hnear).
    intros qb Hqb. by apply (Hold qb Hqb).
  - apply (Hm x Hx). apply (map_back _ _ _ _ _ _ _ Hsl Hab _ _ Ho x Hnear).
    intros qb Hqb. by apply (Hold qb Hqb).
Qed.

(** The other queues hold nothing of it. *)
Lemma apart_new k q q' : find_kv l k = Some q -> k <> a -> find_kv l' a = Some q' ->
  handles_apart conf w' q a (Some q').
Proof using Erun Hreq Hshort Hs Hva Hst.
  intros Hq Hka Hq'. pose proof (sv_names _ _ _ _ Hs _ _ Hq) as Hvk.
  pose proof (sv_world _ _ _ _ Hs) as (Hwf & _ & Hkn).
  pose proof (other_store k Hvk (not_eq_sym Hka)) as [Ho _ Hown _].
  destruct (stands_name _ _ _ _ _ _ Hst Hq') as (Hqn & _).
  specialize (Hown q' (find_kv_in _ _ _ Hq')). unfold region_of in Ho, Hown.
  apply apart_own in Hown as [Hf Hm]; [|done]. rewrite Hq in *.
  destruct (old_refines k q Hq) as (_ & ak & [Hinv _ _ _ _]). destruct (handles_old w q _ Hinv) as [Hof Hom].
  destruct (apart_all k q a Hq Hva Hka) as [Haf Ham].
  assert (forall x, x < w_next w -> file_of conf w' a x -> file_of conf w a x) as Hfile.
  { intros x Hx (name & Hsl & Hi). exists name. split; [done|].
    destruct (os_names_new _ _ _ Ho _ x (in_queue_inside conf a name) Hi) as [?|HN]; [done|]. cbn in HN. lia. }
  split; intros x Hx [[H0 _] Hnear].
  - assert (fd_near conf w k (Some q) x) as Hown by (split; [by split; [|apply Hof]|left; eauto]).
    destruct Hnear as [(q1 & [= <-] & Hx1)|(o & Ho1 & Hfo)]; [by apply (Hf x Hx1)|].
    pose proof (os_fds _ _ _ Ho x Hown) as E. cbn in E. rewrite E in Ho1. apply (Haf x Hx).
    split; [by split; [|apply Hof]|]. right. exists o. split; [done|]. by apply Hfile, Hfo; apply (kn_fds _ Hkn x).
  - assert (map_near conf w k (Some q) x) as Hown by (split; [by split; [|apply Hom]|left; eauto]).
    destruct Hnear as [(q1 & [= <-] & Hx1)|(o & Ho1 & Hfo)]; [by apply (Hm x Hx1)|].
    pose proof (os_maps _ _ _ Ho x Hown) as E. cbn in E. rewrite E in Ho1. apply (Ham x Hx).
    split; [by split; [|apply Hom]|]. right. exists o. split; [done|]. by apply Hfile, Hfo; apply (kn_maps _ Hkn x).
Qed.

(** The directories that are visible after the request. *)
Lemma step_dirs d : d ∈ w_dirs w' -> dirname d = data_file_path conf ->
  strncmp (basename d) (B ".") 1 <> 0 -> is_Some (find_kv l' (basename d)).
Proof using Erun Hreq Hshort Hs Hva Hst.
  intros Hd Ed Hv. destruct quiet_store as (r & Er & Hw). pose proof (ow_world _ _ _ _ _ _ Hw) as Ho. cbn in Ho.
  destruct (decide (d = queue_dir conf a)) as [->|Hne].
  - destruct (checked_name a Hva) as (_ & _ & Hsl).
    assert (basename (queue_dir conf a) = a) as -> by by apply (basename_child (data_file_path conf)).
    destruct oa as [x|]; [destruct Hst as (q & -> & _); by eexists|].
    destruct Hst as [_ Hfr]. by destruct (fr_dir _ _ _ Hfr).
  - destruct (path_split d _ Ed (proj1 Hshort)) as [Hb Ep].
    assert (~ below (rg_dir r) d) as Hout.
    { rewrite Er. intros [->|[s E]]; [done|]. apply Hb. rewrite E in Ep at 1.
      unfold queue_dir in Ep. rewrite <- !app_assoc in Ep. apply app_inv_head in Ep. injection Ep as <-.
      apply elem_of_app. right. by left. }
    assert (basename d <> a) as Hba by (intros E; apply Hne; by rewrite Ep, E).
    rewrite others_same by done. apply (sv_dirs _ _ _ _ Hs d); [|done|done]. by apply (os_dirs _ _ _ Ho).
Qed.

Lemma step_served : served w' l' (partial_alter (fun _ => oa) a m) n /\ w_clock w' = w_clock w.
Proof using Erun Hreq Hshort Hs Hva Hst Hn Hkeys Hroom.
  destruct quiet_store as (r & Er & Hw). pose proof (ow_world _ _ _ _ _ _ Hw) as Ho. cbn in Ho.
  split; [|apply (os_rest _ _ _ Ho)]. pose proof (sv_bound _ _ _ _ Hs) as Hb.
  assert (forall k q, find_kv l' k = Some q -> valid k) as Hnames.
  { intros k q Hq. destruct (decide (k = a)) as [->|Hka]; [done|]. rewrite others_same in Hq by done.
    by apply (sv_names _ _ _ _ Hs k q). }
  split.
  - destruct Ho. by split_and!; [..|split].
  - destruct (sv_disk _ _ _ _ Hs) as [Hfree Hdata]. split.
    + unfold storage_ok in *. by rewrite (proj1 (os_rest _ _ _ Ho)).
    + unfold dir_exists in *. rewrite bool_decide_eq_true in Hdata |- *. destruct Hdata as [?|Hin]; [by left|right].
      apply (os_dirs _ _ _ Ho); [|done]. rewrite Er. by apply data_apart.
  - done.
  - done.
  - lia.
  - exact Hnames.
  - intros k Hvk. destruct (decide (k = a)) as [->|Hka]; [by rewrite lookup_partial_alter_eq|].
    rewrite lookup_partial_alter_ne by done. by apply stands_other.
  - intros k ak. destruct (decide (k = a)) as [->|Hka].
    + rewrite lookup_partial_alter_eq. intros ->. destruct Hst as (q & -> & _). by eexists.
    + rewrite lookup_partial_alter_ne, others_same by done. apply (sv_dom _ _ _ _ Hs).
  - intros k Hvk. destruct (sv_flat _ _ _ _ Hs k Hvk) as [Hfile Hflat]. destruct (decide (k = a)) as [->|Hka].
    + split.
      * destruct (os_no_file _ _ _ Ho) as [HN|HN]; rewrite Er in HN; [done|congruence].
      * intros p Hp Hin. apply (Hflat p Hp), (os_flat _ _ _ Ho); [by rewrite Er|done].
    + destruct (checked_name k Hvk) as (_ & _ & Hsl). destruct (checked_name a Hva) as (_ & _ & Hsa).
      assert (forall p, below (queue_dir conf k) p -> ~ below (rg_dir r) p) as Hb2
        by (intros p; rewrite Er; by apply dirs_apart).
      split; [rewrite (os_names _ _ _ Ho) by (apply Hb2; by left); done|].
      intros p Hp Hin. apply (Hflat p Hp), (os_dirs _ _ _ Ho); [apply Hb2; by right|done].
  - exact step_dirs.
  - intros k q k' q' Hq Hq' Hkk. pose proof (Hnames _ _ Hq') as Hvk'. rewrite <- Hq'.
    destruct (decide (k = a)) as [->|Hka]; [by apply new_apart|]. destruct (decide (k' = a)) as [->|Hka'].
    + rewrite Hq'. apply (apart_new k); [|done|done]. by rewrite <- others_same.
    + by apply (still_apart k).
Qed.

(** What a restart finds changes for the queue of the request only. *)
Lemma step_settled f ks : settled w l m ks (n + 1) -> defaults_ok conf -> room_ok (n + 1) ->
  (forall b, defaults_ok conf -> room_ok (n + 1) -> lasts conf w l a (m !! a) b (n + 1) -> lasts conf w' l' a oa (f b) n) ->
  settled w' l' (partial_alter (fun _ => oa) a m)
    (if f (bool_decide (a ∈ ks)) then {[a]} ∪ ks else ks ∖ {[a]}) n.
Proof using Erun Hreq Hshort Hs Hva.
  clear Hst Hkeys Hroom Hn Hconf.
  intros Hset Hd Hr Hl k ak Hk. destruct (decide (k = a)) as [->|Hka].
  - rewrite lookup_partial_alter_eq in Hk. subst oa.
    assert (lasts conf w l a (m !! a) (bool_decide (a ∈ ks)) (n + 1)) as H0.
    { destruct (m !! a) eqn:E; [by apply Hset|done]. }
    specialize (Hl _ Hd Hr H0). destruct (f (bool_decide (a ∈ ks))).
    + by rewrite bool_decide_true by set_solver.
    + by rewrite bool_decide_false by set_solver.
  - rewrite lookup_partial_alter_ne in Hk by done.
    destruct (Hset k ak Hk) as (q & Hq & Hlast). pose proof (sv_names _ _ _ _ Hs _ _ Hq) as Hvk.
    destruct (old_refines k q Hq) as (Hqn & ak' & [Hinv _ _ _ _]).
    destruct (checked_name k Hvk) as (_ & _ & Hsl). pose proof (ow_world _ _ _ _ _ _ (other_store k Hvk (not_eq_sym Hka))) as Ho.
    unfold region_of in Ho. cbn in Ho. exists q. split; [by rewrite others_same|].
    assert (bool_decide (k ∈ (if f (bool_decide (a ∈ ks)) then {[a]} ∪ ks else ks ∖ {[a]})) = bool_decide (k ∈ ks)) as ->
      by (apply bool_decide_ext; destruct (f _); set_solver).
    apply (lasting_weaken conf w' q ak (bool_decide (k ∈ ks))); [done|].
    exact (spared_lasting _ _ _ _ _ _ _ Hsl (not_eq_sym Hka) _ _ Ho q _ Hq Hinv Hqn ak _ _ Hlast).
Qed.
End Step.

(** Time passes. *)
Lemma served_tick w l m n t : served w l m n -> served (set_clock t w) l m n.
Proof using.
  intros Hs. pose proof (sv_world _ _ _ _ Hs) as ([] & Hnf & [Hkf Hkm]). destruct Hs as [_ [Hd1 Hd2] ? ? ? ? Hst ? Hfl Hdi Hap].
  split; try done.
  intros k Hk. specialize (Hst k Hk). destruct (m !! k) as [a|].
  - destruct Hst as (q & ? & ? & [Hinv ? ? ? ?] & ?). exists q. split_and!; try done. split; try done. by apply inv_clock.
  - destruct Hst as [? [? ? ? ? ? ?]]. split; [done|]. by split.
Qed.

Lemma settled_tick w l m ks n t : settled w l m ks (n + 1) -> settled (set_clock t w) l m ks n.
Proof using.
  intros Hs k a Hk. destruct (Hs k a Hk) as (q & Hq & Hr & Hsv). exists q. split; [done|].
  split; [by apply (ready_weaken conf w q)|]. intros Hb. by apply saved_clock, Hsv.
Qed.

Lemma run_all es aes w l i sv m n :
  served w l m (n + Z.of_nat (length es)) -> 0 <= n -> Forall2 (matches conf) es aes ->
  exists w' l' i' m' rs,
    serve_all es (server_of w conf l i sv) = Ok (rs, server_of w' conf l' i' sv) /\
    a_serve conf aes (w_clock w, m) = (rs, (w_clock w', m')) /\ served w' l' m' n /\
    forall ks, defaults_ok conf -> room_ok (n + Z.of_nat (length es)) ->
      settled w l m ks (n + Z.of_nat (length es)) ->
      settled w' l' m' (a_settle_all conf aes (w_clock w, m) ks) n.
Proof using Hconf Hshort.
  intros Hs Hn Hes. revert w l i m Hs. induction Hes as [|e ae es aes He _ IH]; intros w l i m Hs.
  { exists w, l, i, m, []. rewrite Z.add_0_r in *. by split_and!. }
  replace (n + Z.of_nat (length (e :: es))) with (n + Z.of_nat (length es) + 1) in * by (simpl; lia).
  assert (room_ok (n + Z.of_nat (length es) + 1) -> room_ok (n + Z.of_nat (length es))) as Hroom
    by (unfold room_ok; lia).
  destruct e as [t|rq t0 t1], ae as [t'|ver r]; simpl in He; try done.
  - subst t'. destruct (IH (set_clock (w_clock w + t) w) l i m) as (w' & l' & i' & m' & rs & E & Ea & Hs' & Hset).
    { apply served_tick. destruct Hs. split; try done; [lia|].
      intros k Hk. by apply stands_weaken, sv_stands0. }
    exists w', l', i', m', rs. split_and!; [exact E| |done|].
    + cbn [a_serve a_event]. change (w_clock w + t) with (w_clock (set_clock (w_clock w + t) w)). by rewrite Ea.
    + intros ks Hd Hr Hk. cbn [a_settle_all a_settle a_event snd]. apply Hset; [done|by apply Hroom|]. by apply settled_tick.
  - destruct He as (opt & kv & Hasks & Hasked & -> & Hname & Hva).
    destruct (serve_opt rq t0 t1 (server_of w conf l i sv) opt kv Hasks) as (hs0 & Eserve).
    pose proof (sv_world _ _ _ _ Hs) as (Hwf & Hnf & Hkn). destruct (sv_disk _ _ _ _ Hs) as [Hst Hdata].
    pose proof (sv_bound _ _ _ _ Hs) as Hb.
    pose proof (asked_answered conf Hconf kv (req_name r) w l i sv hs0 (n + Z.of_nat (length es)) Hname Hva Hst
      (sv_keys _ _ _ _ Hs) (sv_room _ _ _ _ Hs) ltac:(lia) Hwf Hnf Hdata (valid_fits _ Hva)
      (fun q Hq => files_only_served _ _ _ _ _ _ Hs Hq) rq opt r (m !! req_name r) eq_refl
      (sv_stands _ _ _ _ Hs _ Hva) Hasked) as Hans.
    cbn [a_serve a_event]. unfold a_full_table. rewrite (served_size _ _ _ _ Hs).
    destruct (a_answer conf _ (w_clock w) _ r (m !! req_name r)) as [rep oa] eqn:Eans.
    destruct Hans as (hs1 & w1 & l1 & i1 & E1 & Hst1 & Hk1 & Hr1 & Hlast).
    erewrite bind_ok in Eserve by exact E1.
    assert (serve rq t0 t1 (server_of w conf l i sv)
      = Ok (hs1, [rep], server_of w1 conf l1 (count_time (i32 (t1 - t0)) i1) sv)) as Er by exact Eserve.
    assert (names rq (req_name r)) as Hreq.
    { intros uri Hu. destruct Hasks as [(uri' & Hu' & Ep) _]. rewrite Hu in Hu'. injection Hu' as <-. by rewrite Ep. }
    destruct (step_served rq t0 t1 (req_name r) w l i sv m (n + Z.of_nat (length es)) hs1 [rep] w1 l1
      (count_time (i32 (t1 - t0)) i1) oa Hs ltac:(lia) Hva) as [Hs1 Hclk]; [done|exact Er|done..|].
    destruct (IH w1 l1 (count_time (i32 (t1 - t0)) i1) _ Hs1) as (w' & l' & i' & m' & rs & E & Ea & Hs' & Hset).
    rewrite Hclk in Ea, Hset. rewrite Ea. exists w', l', i', m', (rep :: rs). split_and!; [|done|done|].
    + cbn [serve_all]. by rewrite Er, E.
    + intros ks Hd Hr Hk. cbn [a_settle_all a_settle a_event snd fst]. unfold a_full_table.
      rewrite (served_size _ _ _ _ Hs), Eans. apply Hset; [done|by apply Hroom|].
      by apply (step_settled rq t0 t1 (req_name r) w l i sv m (n + Z.of_nat (length es)) hs1 [rep] w1 l1
        (count_time (i32 (t1 - t0)) i1) oa Hs Hva Hreq Er).
Qed.
End Served.

(** ** The property *)


(** ** An empty data directory stands for the empty server *)
Lemma served_empty conf w n :
  data_fits conf -> world_wf w -> w_faults w = [] -> known w -> storage_ok conf w ->
  dir_exists w (data_file_path conf) = true -> w_names w = ∅ -> 0 <= max_qlist_itmes conf ->
  (forall k p, below (queue_dir conf k) p -> p ∉ w_dirs w) ->
  0 <= n -> n + 1 < LLONG_MAX -> served conf w [] ∅ n.
Proof.
  intros Hfit Hwf Hnf Hkn Hst Hdata Hnames Hmax Hdirs Hn Hb. split; try done.
  - constructor.
  - intros k Hk. destruct (checked_name k Hk) as (Hlen & Hne & Hsl). split; [done|]. split; try done.
    + split_and!; [by apply valid_fits|done|done].
    + rewrite Hnames. split; [apply (Hdirs k); by left|done].
    + intros name Hs. rewrite Hnames. split; [|done]. apply (Hdirs k). right. apply in_queue_inside.
  - intros k Hk. rewrite Hnames. split; [done|]. intros p Hp. apply (Hdirs k). by right.
  - intros d Hd Ed _. destruct (path_split d _ Ed (proj1 Hfit)) as [_ Ep]. destruct (Hdirs (basename d) d); [by left|done].
Qed.

(** ** Witness: two queues, made, filled, read and removed *)
#[local] Existing Instance sample_evhttp.

Lemma sample_served : served sample_conf empty_world [] ∅ 5.
Proof.
  apply served_empty.
  - split; [discriminate|vm_compute; lia].
  - exact empty_world_wf.
  - reflexivity.
  - split; intros k x H; cbn in H; by rewrite lookup_empty in H.
  - exact sample_storage.
  - decide_it.
  - reflexivity.
  - vm_compute. discriminate.
  - intros k p Hp Hin. cbn in Hin. apply elem_of_singleton in Hin as ->.
    by apply (data_apart sample_conf k (B "data")) in Hp.
  - lia.
  - reflexivity.
Qed.

#[local] Abbreviation ask s := (Ask (sample_request s) 0 5).
Lemma sample_asked s opt kv r : evhttp_parse_query (B s) = (kv, true) ->
  evhttp_find_header kv (B "opt") = Some (B opt) -> asked sample_conf (sample_request s) kv opt r ->
  None = evhttp_find_header kv (B "ver") -> evhttp_find_header kv (B "name") = Some (req_name r) ->
  req_qname_check (Some (req_name r)) = true -> matches sample_conf (ask s) (AAsk None r).
Proof.
  intros Hp Ho Ha Hv Hname Hchk. exists opt, kv. split_and!; try done. split; [by exists (B s)|done].
Qed.
Lemma sample_matches : Forall2 (matches sample_conf)
  [ask "/?opt=put&name=p&data=hi"; ask "/?opt=put&name=q&data=ho"; Tick 7; ask "/?opt=get&name=q"]
  [AAsk None (RPut (B "p") (B "hi")); AAsk None (RPut (B "q") (B "ho")); ATick 7; AAsk None (RGet (B "q"))].
Proof.
  assert (forall b : bytes, b = B "hi" \/ b = B "ho" -> body_ok sample_conf b) as Hbody.
  { intros b [-> | ->]; (split; [decide_it|vm_compute; split; [reflexivity|discriminate]]). }
  constructor; [|constructor; [|constructor; [reflexivity|constructor; [|constructor]]]].
  - eapply (sample_asked _ "put"); try (vm_compute; reflexivity). constructor; [vm_compute; reflexivity|auto].
  - eapply (sample_asked _ "put"); try (vm_compute; reflexivity). constructor; [vm_compute; reflexivity|auto].
  - eapply (sample_asked _ "get"); try (vm_compute; reflexivity). constructor.
Qed.

