(* ===== verification/Recovery.v ===== *)
(** * Nothing settled is lost when the server stops

    After any requests, and however the processes end, starting again gives every
    queue of the table back.  A queue is settled when its tag has been written
    since it was made: by a message put or taken, or by a setting; a queue that
    was reset, or made by a put that was refused, is not, until the next of them. *)
From S2P Require Import Prelude.
From S2P Require Import CLib.
From S2P Require Import World.
From S2P Require Import MqTypes.
From S2P Require Import MqUtil.
From S2P Require Import MsgFormat.
From S2P Require Import StorePath.
From S2P Require Import StoreRtag.
From S2P Require Import StoreManage.
From S2P Require Import QueueManage.
From S2P Require Import StoreInv.
From S2P Require Import StoreWrite.
From S2P Require Import Fifo.
From S2P Require Import StoreRemove.
From S2P Require Import Restart.
From S2P Require Import EvHttp.
From S2P Require Import HttpOpt.
From S2P Require Import HttpSpec.
From S2P Require Import Frame.
From S2P Require Import Isolation.
From S2P Require Import ServerSpec.

(** The name of a queue is no hidden entry of the data path. *)
Lemma checked_visible k : req_qname_check (Some k) = true -> strncmp k (B ".") 1 <> 0.
Proof.
  intros Hk. destruct (checked_name k Hk) as (_ & Hne & _). destruct k as [|c k]; [done|].
  assert (c <> 46) as Hc.
  { revert Hk. unfold req_qname_check, strlen. destruct (_ || _) eqn:E; [done|].
    intros [Hall _]%qname_chars_ok_spec; [|by apply orb_false_iff in E as [E%Z.leb_gt _]; lia].
    apply Forall_cons in Hall as [[(_ & _ & ?)%name_char_ok_not|Hc] _]; [done|by subst c]. }
  unfold strncmp. change (take 1 (c :: k)) with [c]. change (take 1 (B ".")) with [46].
  cbn. destruct (Z.ltb_spec c 46); [done|]. by destruct (Z.ltb_spec 46 c); [|lia].
Qed.

Section Recovery.
Context (conf : ucmq_conf) (Hconf : conf_wf conf) (Hfits : data_fits conf).

Definition contents (m : gmap bytes aqueue) (k : bytes) : list smsg :=
  match m !! k with Some a => a_msgs a | None => [] end.

(** A table whose queues are all settled can be opened again. *)
Lemma served_stopped w l m ks : served conf w l m 0 -> settled conf w l m ks 0 ->
  (forall k, is_Some (m !! k) -> k ∈ ks) -> server_stopped conf w l (contents m).
Proof using Hfits.
  intros Hs Hset Hall.
  assert (forall k q, (k, q) ∈ l -> find_kv l k = Some q /\ req_qname_check (Some k) = true) as Hnode.
  { intros k q Hin. apply in_find_kv in Hin; [|apply Hs]. split; [done|]. by eapply (sv_names _ _ _ _ _ Hs). }
  split.
  - apply Hs.
  - intros k q Hin. destruct (Hnode k q Hin) as [Hq Hk].
    destruct (stands_name conf w l k (m !! k) 0 q (sv_stands _ _ _ _ _ Hs k Hk) Hq) as (Hqn & a & Ha & _).
    split; [done|]. destruct (Hset k a Ha) as (q' & Hq' & [(_ & _ & Hts & Hix & Hlen) Hsv]).
    rewrite Hq in Hq'. injection Hq' as <-. unfold contents. rewrite Ha.
    split; [apply Hsv, bool_decide_true, Hall; by eexists|done|lia|lia].
  - intros k q Hin. by apply checked_visible, (Hnode k q).
  - destruct Hfits as [Hne _]. split; [done|]. destruct (sv_disk _ _ _ _ _ Hs) as [_ Hd].
    unfold dir_exists in Hd. by apply bool_decide_eq_true in Hd as [?|?].
  - intros d Hd Ed Hv. destruct (sv_dirs _ _ _ _ _ Hs d Hd Ed Hv) as [q Hq].
    apply list_elem_of_fmap. exists (basename d, q). split; [done|by apply find_kv_in].
Qed.

(** The messages and the settings of the abstract queue. *)
Definition holds_queue (w : world) (q : mq_queue) (a : aqueue) : Prop :=
  queue_inv conf w q (a_msgs a) /\ maxque q = a_max a /\ delay q = a_delay a /\ wlock q = a_lock a.

Lemma served_opens w l m ks w1 : served conf w l m 0 -> settled conf w l m ks 0 ->
  (forall k, is_Some (m !! k) -> k ∈ ks) -> restarted w w1 ->
  exists w2 l2, mq_qm_open_store (Store w1 conf []) = Ok (true, Store w2 conf l2) /\
    forall k, match m !! k with
              | Some a => exists q2, find_kv l2 k = Some q2 /\ qname q2 = k /\ holds_queue w2 q2 a
              | None => find_kv l2 k = None
              end.
Proof using Hconf Hfits.
  intros Hs Hset Hall Hrs. pose proof (served_stopped w l m ks Hs Hset Hall) as Hstop.
  destruct (open_store_run conf Hconf w l _ Hstop w1 Hrs) as (w2 & l2 & E & _ & Hp & Hb).
  exists w2, l2. split; [exact E|]. intros k. destruct (m !! k) as [a|] eqn:Ea.
  - destruct (sv_dom _ _ _ _ _ Hs k a Ea) as [q Hq].
    assert (k ∈ l2.*1) as Hk.
    { rewrite Hp. apply list_elem_of_fmap. exists (k, q). split; [done|by apply find_kv_in]. }
    destruct (find_some l2 k Hk) as [q2 Hq2]. exists q2. split; [done|].
    rewrite Forall_forall in Hb. destruct (Hb _ (find_kv_in _ _ _ Hq2)) as (q' & Hin & [Hinv Hn (Hm & Hd & Hl) _]).
    cbn in *. apply in_find_kv in Hin; [|apply Hs]. rewrite Hq in Hin. injection Hin as <-.
    pose proof (sv_names _ _ _ _ _ Hs k q Hq) as Hv.
    destruct (stands_name conf w l k (m !! k) 0 q (sv_stands _ _ _ _ _ Hs k Hv) Hq) as (Hqn & a' & Ea' & [_ _ Hm' Hd' Hl'] & _).
    rewrite Ea in Ea'. injection Ea' as <-. unfold contents in Hinv. rewrite Ea in Hinv.
    split; [congruence|]. split; [done|]. split_and!; congruence.
  - destruct (find_kv l2 k) as [q2|] eqn:Eq; [|done].
    assert (k ∈ l2.*1) as Hk.
    { apply list_elem_of_fmap. exists (k, q2). split; [done|by apply find_kv_in]. }
    rewrite Hp in Hk. destruct (find_some l k Hk) as [q Hq].
    pose proof (sv_stands _ _ _ _ _ Hs k (sv_names _ _ _ _ _ Hs k q Hq)) as Hst. rewrite Ea in Hst. destruct Hst as [Hn _]. congruence.
Qed.
End Recovery.

(** ** The property *)

(** C4: what the server acknowledged survives its end.  After any sequence of
    requests on any queues, when each queue has had a put, a get or a setting
    since it was made, the store can be started again from the disk alone,
    whether the processes were killed or closed the store before: the table then
    has exactly the queues of the abstract server, each with its messages in
    order, its limit, its delay and its lock. *)
Theorem server_survives KV (EV : Evhttp KV) conf es aes w l i sv m ks :
  conf_wf conf -> data_fits conf -> defaults_ok conf -> room_ok (Z.of_nat (length es)) ->
  served conf w l m (Z.of_nat (length es)) -> settled conf w l m ks (Z.of_nat (length es)) ->
  Forall2 (matches conf) es aes ->
  exists w' l' i' m' rs,
    serve_all es (server_of w conf l i sv) = Ok (rs, server_of w' conf l' i' sv) /\
    a_serve conf aes (w_clock w, m) = (rs, (w_clock w', m')) /\
    ((forall k, is_Some (m' !! k) -> k ∈ a_settle_all conf aes (w_clock w, m) ks) ->
     restarted w' (killed w') /\
     (exists wc, mq_qm_close_store (Store w' conf l') = Ok (true, Store wc conf []) /\ restarted w' wc) /\
     forall w1, restarted w' w1 -> exists w2 l2,
       mq_qm_open_store (Store w1 conf []) = Ok (true, Store w2 conf l2) /\
       forall k, match m' !! k with
                 | Some a => exists q2, find_kv l2 k = Some q2 /\ qname q2 = k /\ holds_queue conf w2 q2 a
                 | None => find_kv l2 k = None
                 end).
Proof.
  intros Hc Hf Hd Hr Hs Hset He.
  destruct (run_all (KV := KV) conf Hc Hf es aes w l i sv m 0)
    as (w' & l' & i' & m' & rs & E & Ea & Hs' & Hlast); try done.
  exists w', l', i', m', rs. split_and!; [done|done|]. intros Hall.
  specialize (Hlast ks Hd Hr Hset). pose proof (sv_world _ _ _ _ _ Hs') as (Hwf & Hnf & _).
  split; [by apply killed_restarted|]. split.
  - destruct (close_store_run w' conf l') as (wc & Ec & Hsame). exists wc.
    split; [done|by apply same_files_restarted].
  - intros w1 Hrs. by eapply served_opens.
Qed.

(** ** Witness: a message waits in the queue ["p"] while the server is killed *)
#[local] Existing Instance sample_evhttp.
#[local] Abbreviation ask s := (Ask (sample_request s) 0 5).
#[local] Abbreviation sample_asks := [ask "/?opt=put&name=p&data=hi"; ask "/?opt=put&name=q&data=ho"; Tick 7; ask "/?opt=get&name=q"].
#[local] Abbreviation sample_areqs := [AAsk None (RPut (B "p") (B "hi")); AAsk None (RPut (B "q") (B "ho")); ATick 7; AAsk None (RGet (B "q"))].

Lemma server_survives_witness : exists w' l' i' w2 l2 p,
  serve_all sample_asks
    (server_of empty_world sample_conf [] app_info_zero (Server sample_store app_info_zero app_info_zero 0 0))
  = Ok ([put_reply QUEUE_PUT_OK None; put_reply QUEUE_PUT_OK None; get_reply (Some (B "ho")) None],
        server_of w' sample_conf l' i' (Server sample_store app_info_zero app_info_zero 0 0)) /\
  mq_qm_open_store (Store (killed w') sample_conf []) = Ok (true, Store w2 sample_conf l2) /\
  find_kv l2 (B "p") = Some p /\ holds_queue sample_conf w2 p (AQueue [(1000, B "hi")] 10000 0 0).
Proof.
  assert (served sample_conf empty_world [] ∅ (Z.of_nat (length sample_asks))) as Hs.
  { pose proof sample_served as [H1 H2 H3 H4 _ H6 H7 H8 H9 H10 H11]. by split. }
  pose proof (server_survives _ sample_evhttp sample_conf sample_asks sample_areqs empty_world []
    app_info_zero (Server sample_store app_info_zero app_info_zero 0 0) ∅ ∅ sample_conf_wf) as H.
  destruct H as (w' & l' & i' & m' & rs & E & Ea & H).
  - split; [discriminate|vm_compute; lia].
  - split; split; vm_compute; discriminate || lia.
  - split; vm_compute; reflexivity.
  - exact Hs.
  - intros k a Ha. by rewrite lookup_empty in Ha.
  - exact sample_matches.
  - assert (rs = [put_reply QUEUE_PUT_OK None; put_reply QUEUE_PUT_OK None; get_reply (Some (B "ho")) None]) as Ers.
    { revert Ea. vm_compute. by intros [= <-]. }
    assert (m' !! B "p" = Some (AQueue [(1000, B "hi")] 10000 0 0)) as Ep.
    { revert Ea. vm_compute. by intros [= _ _ <-]. }
    destruct H as (Hk & _ & Hr).
    { intros k Hk. apply elem_of_dom in Hk. revert k Hk.
      change (dom m' ⊆ a_settle_all sample_conf sample_areqs (w_clock empty_world, ∅) ∅).
      replace m' with (a_serve sample_conf sample_areqs (w_clock empty_world, ∅)).2.2 by by rewrite Ea.
      decide_it. }
    destruct (Hr _ Hk) as (w2 & l2 & E2 & Hq). specialize (Hq (B "p")). rewrite Ep in Hq.
    destruct Hq as (p & Hf & _ & Hh). exists w', l', i', w2, l2, p. rewrite <- Ers. by split_and!.
Defined.
