(* ===== verification/Threads.v ===== *)
(** * Threads that share memory, and a logic for them

    A program of a thread is a tree of actions, each one atomic access to the
    shared state or one system call, with an unbounded loop as a construct of
    its own.  A pool of programs runs under a schedule, a list that says which
    thread makes its next step and how the system answers it.  [ok] is a
    rely-guarantee logic for one thread: an invariant over the shared state and
    the ghost states of all threads is kept by every step, and every step is in
    the guarantee.  [run_ok] puts the threads together; [must] is the total
    correctness of a thread that runs alone. *)
From S2P Require Import Prelude.
From stdpp Require Import base functions list relations.

(** ** Programs *)
Section Programs.
Context {act : Type -> Type}.

(** [Iter body i k] runs [body i]; [inl i'] is the next round, [inr x] leaves
    the loop.  [Crash] is undefined behaviour. *)
Inductive prog (R : Type) : Type :=
| Ret (r : R)
| Crash
| Act {X : Type} (a : act X) (k : X -> prog R)
| Iter {I X : Type} (body : I -> prog (I + X)) (i : I) (k : X -> prog R).
#[global] Arguments Ret {R} r.
#[global] Arguments Crash {R}.
#[global] Arguments Act {R X} a k.
#[global] Arguments Iter {R I X} body i k.

Fixpoint pbind {R S} (p : prog R) (f : R -> prog S) : prog S :=
  match p with
  | Ret r => f r
  | Crash => Crash
  | Act a k => Act a (fun x => pbind (k x) f)
  | Iter body i k => Iter body i (fun x => pbind (k x) f)
  end.

(** One action, and a loop, as programs. *)
Definition do_act {X} (a : act X) : prog X := Act a Ret.
Definition loop {I X} (body : I -> prog (I + X)) (i : I) : prog X := Iter body i Ret.

(** One round of a loop, followed by the rest of it. *)
Definition round {R I X} (body : I -> prog (I + X)) (k : X -> prog R) (i : I) : prog R :=
  pbind (body i) (fun r => match r with inl i' => Iter body i' k | inr x => k x end).

(** Programs that are equal but for the continuations' being equal as functions. *)
Inductive peq {R} : prog R -> prog R -> Prop :=
| peq_ret r : peq (Ret r) (Ret r)
| peq_crash : peq Crash Crash
| peq_act {X} (a : act X) k k' : (forall x, peq (k x) (k' x)) -> peq (Act a k) (Act a k')
| peq_iter {I X} (body : I -> prog (I + X)) i k k' :
    (forall x, peq (k x) (k' x)) -> peq (Iter body i k) (Iter body i k').

#[global] Instance peq_refl R : Reflexive (@peq R).
Proof. intros p. induction p; by constructor. Qed.

Lemma pbind_pbind {R S T} (p : prog R) (f : R -> prog S) (g : S -> prog T) (h : R -> prog T) :
  (forall x, peq (pbind (f x) g) (h x)) -> peq (pbind (pbind p f) g) (pbind p h).
Proof. induction p; intros Hfg; cbn; [apply Hfg|done|constructor; auto|constructor; auto]. Qed.

Lemma pbind_peq {R S} (p : prog R) (f g : R -> prog S) :
  (forall x, peq (f x) (g x)) -> peq (pbind p f) (pbind p g).
Proof. induction p; intros Hfg; cbn; [apply Hfg|done|constructor; auto|constructor; auto]. Qed.

Lemma round_peq {R I X} (body : I -> prog (I + X)) (k k' : X -> prog R) i :
  (forall x, peq (k x) (k' x)) -> peq (round body k i) (round body k' i).
Proof. intros H. apply pbind_peq. intros [i'|x]; [by constructor|done]. Qed.

Lemma round_pbind {R S I X} (body : I -> prog (I + X)) (k : X -> prog R) (f : R -> prog S) i :
  peq (pbind (round body k i) f) (round body (fun x => pbind (k x) f) i).
Proof. apply pbind_pbind. by intros [i'|x]. Qed.
End Programs.
#[global] Arguments prog : clear implicits.

(** A scope of its own: the notations of the state monad have the same shape. *)
Declare Scope prog_scope.
Delimit Scope prog_scope with prog.
Notation "'let!' x := m 'in' k" := (pbind m (fun x => k))
  (at level 10, x binder, m at level 100, k at level 200,
   format "'[v' 'let!'  x  :=  m  'in' '/' k ']'") : prog_scope.
Notation "m ;;; k" := (pbind m (fun _ => k))
  (at level 100, k at level 200, right associativity) : prog_scope.

(** ** Steps and schedules *)
Section Steps.
Context {act : Type -> Type} {S C E : Type}.
(** What an action of thread [t] does, for the answer [c] of the system, and what
    the environment does on its own. *)
Context (perform : nat -> C -> forall X, act X -> S -> X * S) (env : E -> S -> S).

Definition forward {R} (t : nat) (c : C) (p : prog act R) (s : S) : prog act R * S :=
  match p with
  | Ret r => (Ret r, s)
  | Crash => (Crash, s)
  | Act a k => let '(x, s') := perform t c _ a s in (k x, s')
  | Iter body i k => (round body k i, s)
  end.

Inductive tick := Run (t : nat) (c : C) | Env (e : E).

Definition turn {R} (ev : tick) (ps : list (prog act R)) (s : S) : list (prog act R) * S :=
  match ev with
  | Run t c =>
      match ps !! t with
      | Some p => let '(p', s') := forward t c p s in (<[t := p']> ps, s')
      | None => (ps, s)
      end
  | Env e => (ps, env e s)
  end.

Fixpoint run {R} (evs : list tick) (ps : list (prog act R)) (s : S) : list (prog act R) * S :=
  match evs with
  | [] => (ps, s)
  | ev :: evs' => let '(ps', s') := turn ev ps s in run evs' ps' s'
  end.

Lemma run_app {R} evs evs' (ps : list (prog act R)) s :
  run (evs ++ evs') ps s = let '(ps', s') := run evs ps s in run evs' ps' s'.
Proof.
  revert ps s. induction evs as [|ev evs IH]; intros ps s; [done|]. cbn.
  destruct (turn ev ps s) as [ps' s']. apply IH.
Qed.

(** ** Rely and guarantee *)
Section Logic.
Context {L : Type} (Inv : (nat -> L) -> S -> Prop) (G : S -> S -> Prop).

(** The next [n] steps of thread [t] keep the invariant, each with some change of
    its ghost state; a thread that ends does so with [Q]. *)
Fixpoint ok {R} (n : nat) (t : nat) (l : L) (p : prog act R) (Q : R -> L -> Prop) : Prop :=
  match n with
  | O => True
  | Datatypes.S n' =>
      match p with
      | Ret r => Q r l
      | Crash => False
      | Act a k => forall gs s c, gs t = l -> Inv gs s -> exists l',
          Inv (<[t := l']> gs) (perform t c _ a s).2 /\ G s (perform t c _ a s).2 /\
          ok n' t l' (k (perform t c _ a s).1) Q
      | Iter body i k => ok n' t l (round body k i) Q
      end
  end.

Lemma ok_le {R} n m t l (p : prog act R) Q : (m <= n)%nat -> ok n t l p Q -> ok m t l p Q.
Proof.
  revert m t l p. induction n as [|n IH]; intros m t l p Hle H; destruct m as [|m]; try done; [lia|].
  destruct p as [r| |X a k|I X body i k]; cbn in *; try done.
  - intros gs s c Hl Hi. destruct (H gs s c Hl Hi) as (l' & Hi' & Hg & Ho).
    exists l'. split_and!; [done|done|apply IH; [lia|done]].
  - apply IH; [lia|done].
Qed.

Lemma ok_peq {R} n t l (p q : prog act R) Q : peq p q -> ok n t l p Q -> ok n t l q Q.
Proof.
  revert l p q. induction n as [|n IH]; intros l p q Hpq; [done|].
  destruct Hpq as [r| |X a k k' Hk|I X body i k k' Hk]; cbn; [done|done| |].
  - intros H gs s c Hl Hi. destruct (H gs s c Hl Hi) as (l' & Hi' & Hg & Ho).
    exists l'. split_and!; [done|done|]. by eapply IH; [apply Hk|].
  - apply IH. by apply round_peq.
Qed.

Lemma ok_mono {R} n t l (p : prog act R) (Q Q' : R -> L -> Prop) :
  ok n t l p Q -> (forall r l', Q r l' -> Q' r l') -> ok n t l p Q'.
Proof.
  intros H HQ. revert l p H. induction n as [|n IH]; intros l p; [done|].
  destruct p as [r| |X a k|I X body i k]; cbn; [auto|done| |by apply IH].
  intros H gs s c Hl Hi. destruct (H gs s c Hl Hi) as (l' & Hi' & Hg & Ho).
  exists l'. split_and!; [done|done|by apply IH].
Qed.

#[global] Instance ok_proper R n t l :
  Proper (peq ==> pointwise_relation R (pointwise_relation L impl) ==> impl) (ok n t l).
Proof.
  intros p q Hpq Q Q' HQ H. eapply ok_mono; [by eapply ok_peq|]. intros r l'. apply HQ.
Qed.

Lemma ok_ret {R} n t l (r : R) (Q : R -> L -> Prop) : Q r l -> ok n t l (Ret r) Q.
Proof. by destruct n. Qed.

Lemma ok_pbind {R T} n t l (p : prog act R) (f : R -> prog act T) Q Q' :
  ok n t l p Q' -> (forall m r l', (m <= n)%nat -> Q' r l' -> ok m t l' (f r) Q) -> ok n t l (pbind p f) Q.
Proof.
  revert l p. induction n as [|n IH]; intros l p Hp Hf; [done|].
  destruct p as [r| |X a k|I X body i k]; cbn [pbind].
  - by apply Hf.
  - done.
  - intros gs s c Hl Hi. destruct (Hp gs s c Hl Hi) as (l' & Hi' & Hg & Ho).
    exists l'. split_and!; [done|done|]. apply IH; [done|]. intros m r l0 Hm. apply Hf. lia.
  - cbn. eapply ok_peq; [apply round_pbind|]. apply IH; [done|]. intros m r l0 Hm. apply Hf. lia.
Qed.

Lemma ok_do {X} n t l (a : act X) (Q : X -> L -> Prop) :
  (forall gs s c, gs t = l -> Inv gs s -> exists l',
     Inv (<[t := l']> gs) (perform t c _ a s).2 /\ G s (perform t c _ a s).2 /\
     Q (perform t c _ a s).1 l') ->
  ok n t l (do_act a) Q.
Proof.
  intros H. destruct n as [|n]; [done|]. cbn. intros gs s c Hl Hi.
  destruct (H gs s c Hl Hi) as (l' & Hi' & Hg & HQ). exists l'. split_and!; [done|done|by apply ok_ret].
Qed.

(** A loop, by an invariant of its rounds. *)
Lemma ok_iter {I X} n t (J : I -> L -> Prop) (body : I -> prog act (I + X)) (Q : X -> L -> Prop) i l :
  (forall m i l, (m <= n)%nat -> J i l ->
     ok m t l (body i) (fun r l' => match r with inl i' => J i' l' | inr x => Q x l' end)) ->
  J i l -> ok n t l (loop body i) Q.
Proof.
  revert i l. induction n as [|n IH]; intros i l Hb HJ; [done|]. cbn.
  eapply ok_pbind; [apply Hb; [lia|done]|]. intros m [i'|x] l' Hm H; cbn in H.
  - eapply ok_le; [exact Hm|]. apply IH; [|done]. intros m' i0 l0 Hm' HJ0. apply Hb; [lia|done].
  - by apply ok_ret.
Qed.

(** The threads together. *)
Context (env_ok : forall e gs s, Inv gs s -> Inv gs (env e s) /\ G s (env e s)).

Definition all_ok {R} (n : nat) (gs : nat -> L) (ps : list (prog act R)) (Q : nat -> R -> L -> Prop) : Prop :=
  forall t p, ps !! t = Some p -> ok n t (gs t) p (Q t).

Lemma turn_ok {R} n ev gs (ps : list (prog act R)) s Q ps' s' :
  all_ok (Datatypes.S n) gs ps Q -> Inv gs s -> turn ev ps s = (ps', s') ->
  exists gs', Inv gs' s' /\ rtc G s s' /\ all_ok n gs' ps' Q /\ length ps' = length ps /\
    forall t, ps !! t = None -> gs' t = gs t.
Proof.
  intros Hok Hi E0. destruct ev as [t c|e]; cbn in E0.
  - destruct (ps !! t) as [p|] eqn:Et.
    2:{ injection E0 as <- <-. exists gs. split_and!; [done|done| |done|done].
        intros t' p' Hp. eapply ok_le; [|by apply Hok]. lia. }
    pose proof (Hok t p Et) as Hp.
    assert (exists gs' p1, ps' = <[t := p1]> ps /\ (forall t', t' <> t -> gs' t' = gs t') /\
              Inv gs' s' /\ rtc G s s' /\ ok n t (gs' t) p1 (Q t)) as (gs' & p1 & -> & Hne & Hi' & Hg & Hp').
    { destruct p as [r| |X a k|I X body i k]; cbn in E0, Hp.
      - injection E0 as <- <-. exists gs, (Ret r). split_and!; try done. by apply ok_ret.
      - done.
      - destruct (perform t c X a s) as [x s1] eqn:Ep. injection E0 as <- <-.
        destruct (Hp gs s c eq_refl Hi) as (l' & Hi' & Hg & Ho). rewrite Ep in Hi', Hg, Ho.
        exists (<[t := l']> gs), (k x). split_and!; [done| |done|by apply rtc_once|].
        + intros t' Ht. by rewrite fn_lookup_insert_ne.
        + by rewrite fn_lookup_insert.
      - injection E0 as <- <-. by exists gs, (round body k i). }
    exists gs'. split_and!; [done|done| |by rewrite length_insert|].
    2:{ intros t' Ht'. apply Hne. congruence. }
    intros t' p' H'. destruct (decide (t' = t)) as [->|Hn].
    + rewrite list_lookup_insert_eq in H' by by eapply lookup_lt_Some. by injection H' as <-.
    + rewrite list_lookup_insert_ne in H' by done. rewrite Hne by done.
      eapply ok_le; [|by apply Hok]. lia.
  - injection E0 as <- <-. destruct (env_ok e gs s Hi) as [Hi' Hg].
    exists gs. split_and!; [done|by apply rtc_once| |done|done]. intros t p Hp. eapply ok_le; [|by apply Hok]. lia.
Qed.

Theorem run_ok {R} evs n gs (ps : list (prog act R)) s Q ps' s' :
  all_ok (length evs + n) gs ps Q -> Inv gs s -> run evs ps s = (ps', s') ->
  exists gs', Inv gs' s' /\ rtc G s s' /\ all_ok n gs' ps' Q /\ length ps' = length ps /\
    forall t, ps !! t = None -> gs' t = gs t.
Proof.
  revert gs ps s. induction evs as [|ev evs IH]; intros gs ps s Hok Hi E0; cbn in E0.
  - injection E0 as <- <-. by exists gs.
  - destruct (turn ev ps s) as [ps1 s1] eqn:E1.
    destruct (turn_ok _ ev gs ps s Q ps1 s1 Hok Hi E1) as (gs1 & Hi1 & Hg1 & Hok1 & Hl1 & Hn1).
    destruct (IH gs1 ps1 s1 Hok1 Hi1 E0) as (gs2 & Hi2 & Hg2 & Hok2 & Hl2 & Hn2).
    exists gs2. split_and!; [done|by etrans|done|congruence|].
    intros t Ht. rewrite Hn2, Hn1; [done|done|]. apply lookup_ge_None in Ht. apply lookup_ge_None. lia.
Qed.
End Logic.

(** ** A thread that runs alone *)
Section Alone.
Context (kind : C -> Prop).

(** Thread 0 alone ends with [Q], whichever of the answers that are [kind] the
    system gives. *)
Inductive must {R} (Q : R -> S -> Prop) : prog act R -> S -> Prop :=
| must_ret r s : Q r s -> must Q (Ret r) s
| must_act {X} (a : act X) k s :
    (forall c, kind c -> must Q (k (perform 0 c _ a s).1) (perform 0 c _ a s).2) -> must Q (Act a k) s
| must_iter {I X} (body : I -> prog act (I + X)) i k s :
    must Q (round body k i) s -> must Q (Iter body i k) s
| must_peq p q s : peq p q -> must Q p s -> must Q q s.

Lemma must_bind {R T} (Q' : R -> S -> Prop) (Q : T -> S -> Prop) p f s :
  must Q' p s -> (forall r s', Q' r s' -> must Q (f r) s') -> must Q (pbind p f) s.
Proof.
  intros H Hf. induction H as [r s H|X a k s H IH|I X body i k s H IH|p q s Hpq H IH]; cbn.
  - by apply Hf.
  - apply must_act. intros c Hc. by apply IH.
  - apply must_iter. eapply must_peq; [apply round_pbind|exact IH].
  - eapply must_peq; [|exact IH]. clear -Hpq. induction Hpq; cbn; [done|done|by constructor|by constructor].
Qed.

Lemma must_do {X} (a : act X) (Q : X -> S -> Prop) s :
  (forall c, kind c -> Q (perform 0 c _ a s).1 (perform 0 c _ a s).2) -> must Q (do_act a) s.
Proof. intros H. apply must_act. intros c Hc. apply must_ret. by apply H. Qed.

Lemma must_mono {R} (Q Q' : R -> S -> Prop) p s :
  must Q p s -> (forall r s', Q r s' -> Q' r s') -> must Q' p s.
Proof.
  intros H HQ. induction H as [r s H|X a k s H IH|I X body i k s H IH|p q s Hpq H IH];
    [by apply must_ret, HQ|by apply must_act|by apply must_iter|by eapply must_peq].
Qed.

(** A loop that ends in its first round. *)
Lemma must_once {I X} (body : I -> prog act (I + X)) i (Q : X -> S -> Prop) s :
  must (fun r s' => exists x, r = inr x /\ Q x s') (body i) s -> must Q (loop body i) s.
Proof.
  intros H. apply must_iter. eapply must_bind; [exact H|]. intros r s' (x & -> & HQ). by apply must_ret.
Qed.

Lemma forward_peq {R} (p q : prog act R) c s : peq p q ->
  peq (forward 0 c p s).1 (forward 0 c q s).1 /\ (forward 0 c p s).2 = (forward 0 c q s).2.
Proof.
  intros [r| |X a k k' H|I X body i k k' H]; cbn; [by split; constructor|by split; constructor| |].
  - destruct (perform 0 c X a s) as [x s']. split; [apply H|done].
  - split; [by apply round_peq|done].
Qed.

Fixpoint alone {R} (cs : nat -> C) (n : nat) (p : prog act R) (s : S) : prog act R * S :=
  match n with
  | O => (p, s)
  | Datatypes.S n' => let '(p', s') := forward 0 (cs O) p s in alone (fun i => cs (Datatypes.S i)) n' p' s'
  end.

Lemma alone_peq {R} cs n (p q : prog act R) s : peq p q ->
  peq (alone cs n p s).1 (alone cs n q s).1 /\ (alone cs n p s).2 = (alone cs n q s).2.
Proof.
  revert cs p q s. induction n as [|n IH]; intros cs p q s H; [done|]. cbn.
  destruct (forward_peq p q (cs 0%nat) s H) as [H1 H2].
  destruct (forward 0 (cs 0%nat) p s) as [p' s1], (forward 0 (cs 0%nat) q s) as [q' s2]. cbn in *. subst.
  by apply IH.
Qed.

(** In a number of steps that depends on the answers, the thread has ended. *)
Lemma must_alone {R} (Q : R -> S -> Prop) p s : must Q p s ->
  forall cs, (forall i, kind (cs i)) -> exists n r, (alone cs n p s).1 = Ret r /\ Q r (alone cs n p s).2.
Proof.
  induction 1 as [r s H|X a k s H IH|I X body i k s H IH|p q s Hpq H IH]; intros cs Hcs.
  - by exists 0%nat, r.
  - destruct (IH (cs 0%nat) (Hcs 0%nat) (fun i => cs (Datatypes.S i))) as (n & r & Er & HQ); [done|].
    exists (Datatypes.S n), r. cbn in Er, HQ |- *.
    destruct (perform 0 (cs 0%nat) X a s) as [x s']. by split.
  - destruct (IH (fun i => cs (Datatypes.S i))) as (n & r & Er & HQ); [done|].
    exists (Datatypes.S n), r. cbn. by split.
  - destruct (IH cs Hcs) as (n & r & Er & HQ). exists n, r. destruct (alone_peq cs n p q s Hpq) as [H1 H2].
    split; [|by rewrite <- H2]. rewrite Er in H1. by inversion H1.
Qed.

Lemma alone_run {R} cs n (p : prog act R) s :
  run ((fun i => Run 0%nat (cs i)) <$> seq 0 n) [p] s = ([(alone cs n p s).1], (alone cs n p s).2).
Proof.
  revert cs p s. induction n as [|n IH]; intros cs p s; [done|]. cbn.
  destruct (forward 0 (cs 0%nat) p s) as [p' s']. rewrite <- (IH (fun i => cs (Datatypes.S i))).
  f_equal. rewrite <- seq_shift, <- list_fmap_compose. done.
Qed.

Theorem must_run {R} (Q : R -> S -> Prop) p s cs : must Q p s -> (forall i, kind (cs i)) ->
  exists n r s', run ((fun i => Run 0%nat (cs i)) <$> seq 0 n) [p] s = ([Ret r], s') /\ Q r s'.
Proof.
  intros H Hcs. destruct (must_alone Q p s H cs Hcs) as (n & r & Er & HQ).
  exists n, r, (alone cs n p s).2. split; [|done]. by rewrite alone_run, Er.
Qed.
End Alone.
End Steps.
