(* ===== verification/Log.v ===== *)
(** * source/log.c, source/log.h, source/atomic.h, and do_mkdir, do_sleep of source/util.c

    The log is the part of the server that is written for many threads: its
    state is shared and each access to it is a step of its own here, so that
    [Threads.run] interleaves the threads in every order.  The actions [Read],
    [Write], [Swap] and [Cas] are the macros ATOMIC_GET, ATOMIC_SET and
    ATOMIC_CLEAR, ATOMIC_SWAP and ATOMIC_CAS; accesses are taken to be
    sequentially consistent.  The 64 bits of [time_info] and the structure
    [g_config] are read and written as a whole.  A message comes as the text that
    vsnprintf makes of it. *)
From S2P Require Import Prelude.
From S2P Require Import CLib.
From S2P Require Import Threads.
From stdpp Require Import base functions list gmap.

#[local] Open Scope Z_scope.
#[local] Open Scope prog_scope.

(** ** Data *)
Record log_config := LogConfig { log_path : bytes; log_file : bytes; log_level : Z; time_zone : Z }.

Record time_info := TimeInfo { ti_day : Z; ti_msec : Z; ti_hour : Z; ti_min : Z; ti_sec : Z }.

Definition LOG_NEED_INIT : Z := 0.
Definition LOG_INIT_ING : Z := 1.
Definition LOG_HAS_INIT : Z := 2.

Definition LOG_TRACE : Z := 0.
Definition LOG_DEBUG : Z := 10.
Definition LOG_INFO : Z := 100.
Definition LOG_WARN : Z := 1000.
Definition LOG_ERROR : Z := 10000.
Definition LOG_FATAL : Z := 65535.

Definition LOG_EINTR : Z := 4.
Definition LOG_EEXIST : Z := 17.
Definition LOG_EBADF : Z := 9.
Definition MQ_ENOENT : Z := -2.
Definition MQ_EINVAL : Z := -22.
Definition STDERR_FILENO : Z := 2.
Definition LOG_BUF : Z := 4096.

(** The static variables that are numbers. *)
Inductive gvar := HAS_INIT | HAS_FORK | PID | LAST_DAY | LOG_FD | CURRENT_TID | SEC.

#[export] Instance gvar_eq_dec : EqDecision gvar.
Proof. solve_decision. Defined.

(** The shared state: the variables, the thread local [t_tid] of each thread, and
    the part of the system the log uses: the clock in nanoseconds, directories,
    open descriptors with their paths, files, and what went to stderr. *)
Record shared := Shared {
  s_var : gvar -> Z; s_info : time_info; s_config : log_config; t_tid : nat -> Z;
  k_now : Z; k_dirs : list bytes; k_fds : gmap Z bytes; k_files : gmap bytes bytes; k_stderr : list bytes
}.

Definition put_var (x : gvar) (v : Z) (s : shared) : shared :=
  Shared (<[x := v]> (s_var s)) (s_info s) (s_config s) (t_tid s) (k_now s) (k_dirs s) (k_fds s) (k_files s)
    (k_stderr s).
Definition put_info (ti : time_info) (s : shared) : shared :=
  Shared (s_var s) ti (s_config s) (t_tid s) (k_now s) (k_dirs s) (k_fds s) (k_files s) (k_stderr s).
Definition put_config (c : log_config) (s : shared) : shared :=
  Shared (s_var s) (s_info s) c (t_tid s) (k_now s) (k_dirs s) (k_fds s) (k_files s) (k_stderr s).
Definition put_tid (t : nat) (v : Z) (s : shared) : shared :=
  Shared (s_var s) (s_info s) (s_config s) (<[t := v]> (t_tid s)) (k_now s) (k_dirs s) (k_fds s) (k_files s)
    (k_stderr s).
Definition put_now (n : Z) (s : shared) : shared :=
  Shared (s_var s) (s_info s) (s_config s) (t_tid s) n (k_dirs s) (k_fds s) (k_files s) (k_stderr s).
Definition put_dirs (d : list bytes) (s : shared) : shared :=
  Shared (s_var s) (s_info s) (s_config s) (t_tid s) (k_now s) d (k_fds s) (k_files s) (k_stderr s).
Definition put_fds (fds : gmap Z bytes) (s : shared) : shared :=
  Shared (s_var s) (s_info s) (s_config s) (t_tid s) (k_now s) (k_dirs s) fds (k_files s) (k_stderr s).
Definition put_files (fs : gmap bytes bytes) (s : shared) : shared :=
  Shared (s_var s) (s_info s) (s_config s) (t_tid s) (k_now s) (k_dirs s) (k_fds s) fs (k_stderr s).
Definition put_stderr (e : list bytes) (s : shared) : shared :=
  Shared (s_var s) (s_info s) (s_config s) (t_tid s) (k_now s) (k_dirs s) (k_fds s) (k_files s) e.

(** ** Actions *)
Inductive act : Type -> Type :=
| Read (x : gvar) : act Z
| Write (x : gvar) (v : Z) : act unit
| Swap (x : gvar) (v : Z) : act Z
| Cas (x : gvar) (comp value : Z) : act Z
| ReadInfo : act time_info
| WriteInfo (ti : time_info) : act unit
| ReadConfig : act log_config
| WriteConfig (c : log_config) : act unit
| ReadTid : act Z
| WriteTid (v : Z) : act unit
| Gettid : act Z
| Getpid : act Z
| Clock : act (Z * Z)
| Time : act Z
| Sys_mkdir (path : bytes) : act (Z * Z)
| Sys_open (path : bytes) : act (Z * Z)
| Sys_close (fd : Z) : act (Z * Z)
| Sys_write (fd : Z) (bs : bytes) : act (Z * Z)
| Sys_nanosleep (ns : Z) : act (Z * Z * Z)
| Eprintf (msg : bytes) : act unit.

(** How the system answers a call: the error, or 0; a number (the descriptor of a
    file that is opened, the bytes that are written, the rest of a sleep); and
    whether a write is short, or a close that is interrupted has closed.  A close
    that fails in another way has closed the descriptor, as on Linux. *)
Record sys_answer := SysAnswer { c_errno : Z; c_num : Z; c_part : bool }.

(** The descriptor the system gives: the number of the answer when it is free,
    else one above all. *)
Definition free_fd (fds : gmap Z bytes) (n : Z) : Z :=
  if bool_decide (2 < n /\ fds !! n = None) then n else map_fold (fun k _ m => Z.max (k + 1) m) 3 fds.

(** close: the result, the error and the descriptors that are left. *)
Definition closed (c : sys_answer) (fd : Z) (fds : gmap Z bytes) : (Z * Z) * gmap Z bytes :=
  match fds !! fd with
  | None => ((-1, LOG_EBADF), fds)
  | Some _ =>
      if c_errno c =? 0 then ((0, 0), delete fd fds)
      else ((-1, c_errno c), if negb (c_errno c =? LOG_EINTR) || c_part c then delete fd fds else fds)
  end.

Definition SECOND : Z := 1000000000.

Abbreviation line_buf := (list (option Z)).

Section Log.
(** The number of the process and of its threads; localtime_r, as the fields
    tm_year, tm_mon and tm_mday of a time. *)
Context (pid : Z) (tid : nat -> Z) (localtime : Z -> Z * Z * Z).

Definition append_to (path bs : bytes) (files : gmap bytes bytes) : gmap bytes bytes :=
  <[path := default [] (files !! path) ++ bs]> files.

Definition perform (t : nat) (c : sys_answer) X (a : act X) (s : shared) : X * shared :=
  match a in act X return X * shared with
  | Read x => (s_var s x, s)
  | Write x v => (tt, put_var x v s)
  | Swap x v => (s_var s x, put_var x v s)
  | Cas x comp value => (s_var s x, if s_var s x =? comp then put_var x value s else s)
  | ReadInfo => (s_info s, s)
  | WriteInfo ti => (tt, put_info ti s)
  | ReadConfig => (s_config s, s)
  | WriteConfig conf => (tt, put_config conf s)
  | ReadTid => (t_tid s t, s)
  | WriteTid v => (tt, put_tid t v s)
  | Gettid => (tid t, s)
  | Getpid => (pid, s)
  | Clock => ((k_now s / SECOND, k_now s mod SECOND), s)
  | Time => (k_now s / SECOND, s)
  | Sys_mkdir path =>
      if decide (path ∈ k_dirs s) then ((-1, LOG_EEXIST), s)
      else if c_errno c =? 0 then ((0, 0), put_dirs (path :: k_dirs s) s) else ((-1, c_errno c), s)
  | Sys_open path =>
      if c_errno c =? 0 then
        let fd := free_fd (k_fds s) (c_num c) in
        ((fd, 0), put_files (append_to path [] (k_files s)) (put_fds (<[fd := path]> (k_fds s)) s))
      else ((-1, c_errno c), s)
  | Sys_close fd => let r := closed c fd (k_fds s) in (r.1, put_fds r.2 s)
  | Sys_write fd bs =>
      let done := if c_part c then take (Z.to_nat (c_num c)) bs else bs in
      if negb (c_errno c =? 0) then ((-1, c_errno c), s)
      else if fd =? STDERR_FILENO then ((strlen done, 0), put_stderr (k_stderr s ++ [done]) s)
      else match k_fds s !! fd with
      | None => ((-1, LOG_EBADF), s)
      | Some path => ((strlen done, 0), put_files (append_to path done (k_files s)) s)
      end
  | Sys_nanosleep ns =>
      if c_errno c =? 0 then (0, 0, 0, put_now (k_now s + ns) s) else (-1, c_errno c, c_num c, s)
  | Eprintf msg => (tt, put_stderr (k_stderr s ++ [msg]) s)
  end.

(** Time passes on its own, in either direction: the clock can be set. *)
Definition env (ns : Z) (s : shared) : shared := put_now (k_now s + ns) s.

Abbreviation program := (prog act).

(** ** source/util.c *)
Definition mq_errno_of (e : Z) : Z := if e <=? 0 then e else - e.

Definition mkdir_one (path : bytes) : program Z :=
  let! r := do_act (Sys_mkdir path) in
  Ret (if (r.1 <? 0) && negb (r.2 =? LOG_EEXIST) then mq_errno_of r.2 else 0).

(** The loop over the slashes of the path: [done] is the part before [rest]. *)
Fixpoint mkdir_from (done rest : bytes) : program (option Z) :=
  match rest with
  | [] => Ret None
  | c :: rest' =>
      if (c =? 47) && (0 <? strlen done) then
        let! r := mkdir_one done in
        if r =? 0 then mkdir_from (done ++ [c]) rest' else Ret (Some r)
      else mkdir_from (done ++ [c]) rest'
  end.

Definition do_mkdir (dir : bytes) : program Z :=
  let! r := mkdir_from [] dir in
  match r with
  | Some e => Ret e
  | None => mkdir_one dir
  end.

Definition do_sleep (timeout : Z) : program Z :=
  if timeout <? 0 then Ret MQ_EINVAL
  else
    let! r := loop (fun ns : Z =>
      let! r := do_act (Sys_nanosleep ns) in
      Ret (if negb (r.1.1 =? 0) && (r.1.2 =? LOG_EINTR) then inl r.2 else inr (r.1 : Z * Z)))
      (timeout / 1000 * SECOND + timeout mod 1000 * 1000000) in
    Ret (if r.1 =? 0 then 0 else mq_errno_of r.2).

(** ** get_time *)

(** The hour in the time zone, and the day before or after. *)
Definition hour_day (config : log_config) (sec : Z) : Z * Z :=
  let t := Z.rem sec 86400 in
  let hour := i32 (Z.quot t 3600 + time_zone config) in
  let '(hour, day) := if 24 <=? hour then (hour - 24, 1) else (hour, 0) in
  if hour <? 0 then (hour + 24, -1) else (hour, day).

Definition get_time : program time_info :=
  let! cur := do_act Clock in
  let! info := do_act ReadInfo in
  let ti := TimeInfo (ti_day info) (u16 (cur.2 / 1000000)) (ti_hour info) (ti_min info) (ti_sec info) in
  let! g_sec := do_act (Read SEC) in
  if g_sec =? cur.1 then Ret ti
  else
    let! config := do_act ReadConfig in
    let hd := hour_day config cur.1 in
    let! info' := do_act ReadInfo in
    let same_hour := hd.1 =? ti_hour info' in
    let t := Z.rem (Z.rem cur.1 86400) 3600 in
    let ti := TimeInfo (if same_hour then ti_day ti else u16 (hd.2 + Z.quot cur.1 86400)) (ti_msec ti)
                (if same_hour then ti_hour ti else u8 hd.1) (u8 (Z.quot t 60)) (u8 (Z.rem t 60)) in
    do_act (WriteInfo ti) ;;;
    do_act (Write SEC cur.1) ;;;
    Ret ti.

(** ** open_log, write_2_file *)
Definition log_name (config : log_config) (date : Z * Z * Z) : bytes :=
  let '(year, mon, mday) := date in
  snprintf (4096 - 1) (log_path config ++ B "/" ++ log_file config ++ B "_" ++ pad 4 (year + 1900)
    ++ pad 2 (mon + 1) ++ pad 2 mday ++ B ".log").

Definition close_retry (fd : Z) : program unit :=
  loop (fun _ : unit =>
    let! r := do_act (Sys_close fd) in
    Ret (if (r.1 <? 0) && (r.2 =? LOG_EINTR) then inl tt else inr tt)) tt.

Definition open_log : program Z :=
  let! now := do_act Time in
  let! config := do_act ReadConfig in
  let! r := do_act (Sys_open (log_name config (localtime now))) in
  if r.1 <? 0 then do_act (Eprintf (B "open new log file error")) ;;; Ret (-1)
  else
    let! old_fd := do_act (Swap LOG_FD r.1) in
    (if old_fd =? -1 then Ret tt else close_retry old_fd) ;;;
    Ret 0.

Definition write_2_file (fd : Z) (buf : bytes) : program unit :=
  loop (fun _ : unit =>
    let! r := do_act (Sys_write fd buf) in
    Ret (if (r.1 <? 0) && (r.2 =? LOG_EINTR) then inl tt else inr tt)) tt.

(** ** log_write *)

(** The format %5d. *)
Definition blank_pad (n : nat) (v : Z) : bytes :=
  replicate (n - length (sdec v)) 32 ++ sdec v.

Definition line_head (level_str : bytes) (id : Z) (ti : time_info) (file : bytes) (line : Z) : bytes :=
  B "[ " ++ level_str ++ B " " ++ blank_pad 5 id ++ B " " ++ pad 2 (ti_hour ti) ++ B ":" ++ pad 2 (ti_min ti)
    ++ B ":" ++ pad 2 (ti_sec ti) ++ B "." ++ pad 3 (ti_msec ti) ++ B " " ++ file ++ B ":" ++ sdec line
    ++ B " ] ".

(** The array [buf], with [None] for a character that nothing has written.  An
    access outside of it, or to such a character, has no result. *)
Definition LOG_BUF_LEN : nat := Z.to_nat LOG_BUF.
Definition put_text (i : Z) (bs : bytes) (buf : line_buf) : option line_buf :=
  if (0 <=? i) && (i + strlen bs <=? LOG_BUF)
  then Some (take (Z.to_nat i) buf ++ (Some <$> bs) ++ drop (Z.to_nat i + length bs) buf)
  else None.
Definition get_char (i : Z) (buf : line_buf) : option Z :=
  if 0 <=? i then buf !! Z.to_nat i ≫= id else None.
Definition get_text (count : Z) (buf : line_buf) : option bytes :=
  if (0 <=? count) && (count <=? LOG_BUF) then mapM id (take (Z.to_nat count) buf) else None.

(** vsnprintf writes [size] characters at most, the NUL included. *)
Definition put_cut (i size : Z) (bs : bytes) (buf : line_buf) : option line_buf :=
  if size <=? 0 then Some buf else put_text i (take (Z.to_nat (size - 1)) bs ++ [0]) buf.

(** The text with a newline at its end, and its length. *)
Definition end_line (count : Z) (buf : line_buf) : option (line_buf * Z) :=
  get_char (count - 1) buf ≫= fun c =>
  if c =? 10 then put_text count [0] buf ≫= fun buf => Some (buf, count)
  else put_text count [10] buf ≫= fun buf => put_text (count + 1) [0] buf ≫= fun buf => Some (buf, count + 1).

(** What is to be written, if anything. *)
Definition line_text (head msg : bytes) : option (option bytes) :=
  put_text 0 (head ++ [0]) (replicate LOG_BUF_LEN None) ≫= fun buf =>
  let count := strlen head in
  put_cut count (LOG_BUF - count - 1) msg buf ≫= fun buf =>
  let count := count + strlen msg in
  if (0 <? count) && (count <? LOG_BUF - 2) then
    end_line count buf ≫= fun r => get_text r.2 r.1 ≫= fun text => Some (Some text)
  else Some None.

Definition put_line (head msg : bytes) : program unit :=
  match line_text head msg with
  | None => Crash
  | Some None => Ret tt
  | Some (Some buf) =>
      let! init := do_act (Read HAS_INIT) in
      if init =? LOG_HAS_INIT then
        let! fd := do_act (Read LOG_FD) in write_2_file fd buf
      else write_2_file STDERR_FILENO buf
  end.

(** The lock [current_tid]: true when it is taken. *)
Definition take_lock (id : Z) : program bool :=
  loop (fun left_ =>
    let! old := do_act (Cas CURRENT_TID 0 id) in
    if old =? 0 then Ret (inr true)
    else if old =? id then do_act (Eprintf (B "uc_log_v has reentry")) ;;; Ret (inr false)
    else Ret (if left_ - 1 <=? 0 then inr false else inl (left_ - 1))) (1000 * 1000).

(** A new file for a new day: false when the message is given up. *)
Definition new_day (ti : time_info) (id : Z) : program bool :=
  let! locked := take_lock id in
  if locked then
    let! last_day := do_act (Read LAST_DAY) in
    (if ti_day ti =? last_day then Ret tt
     else let! r := open_log in
          if r =? 0 then do_act (Write LAST_DAY (ti_day ti)) else Ret tt) ;;;
    do_act (Write CURRENT_TID 0) ;;;
    Ret true
  else Ret false.

Definition log_write_impl (file : bytes) (line level : Z) (level_str msg : bytes) : program unit :=
  let! config := do_act ReadConfig in
  if level <? log_level config then Ret tt
  else
    let! ti := get_time in
    let! t := do_act ReadTid in
    (if t =? -1 then let! t' := do_act Gettid in do_act (WriteTid t') else Ret tt) ;;;
    let! fork := do_act (Read HAS_FORK) in
    let! id := (if fork =? 1 then do_act (Read PID) else do_act ReadTid) in
    let! init := do_act (Read HAS_INIT) in
    let! go :=
      (if init =? LOG_HAS_INIT then
         let! last_day := do_act (Read LAST_DAY) in
         if ti_day ti =? last_day then Ret true else new_day ti id
       else Ret true) in
    if (go : bool) then put_line (line_head level_str id ti file line) msg else Ret tt.

Definition level_str (level : Z) : bytes :=
  if level =? LOG_TRACE then B "TRACE"
  else if level =? LOG_DEBUG then B "DEBUG"
  else if level =? LOG_INFO then B "INFO "
  else if level =? LOG_WARN then B "WARN "
  else if level =? LOG_ERROR then B "ERROR"
  else if level =? LOG_FATAL then B "FATAL"
  else pad 5 level.

Definition log_writev (file : bytes) (line level : Z) (msg : bytes) : program unit :=
  log_write_impl file line level (level_str level) msg.

Definition log_write (file : bytes) (line level : Z) (msg : bytes) : program unit :=
  log_writev file line level msg.

(** ** log_init *)

(** [timezone] is what gettimeofday says, or nothing when it fails. *)
Definition log_init_config (tz_minuteswest : option Z) : log_config :=
  LogConfig (B "./") (B "log") LOG_TRACE
    (match tz_minuteswest with Some w => u32 (Z.quot (- w) 60) | None => 0 end).

Definition wait_init : program unit :=
  loop (fun _ : unit =>
    let! init := do_act (Read HAS_INIT) in
    if init =? LOG_HAS_INIT then Ret (inr tt) else do_sleep 1 ;;; Ret (inl tt)) tt.

Definition note_pid : program Z :=
  let! last := do_act (Read PID) in
  let! cur := do_act Getpid in
  (if negb (last =? -1) && negb (last =? cur) then
     do_act (Write PID cur) ;;; do_act (Write HAS_FORK 1)
   else Ret tt) ;;;
  Ret 0.

Definition log_init (config : log_config) : program Z :=
  let! state := do_act (Cas HAS_INIT LOG_NEED_INIT LOG_INIT_ING) in
  if state =? LOG_NEED_INIT then
    do_act (WriteConfig config) ;;;
    let! g_config := do_act ReadConfig in
    let! r := do_mkdir (log_path g_config) in
    if r <? 0 then
      do_act (Eprintf (B "create log path error")) ;;;
      do_act (Write HAS_INIT LOG_NEED_INIT) ;;;
      Ret MQ_ENOENT
    else do_act (Write HAS_INIT LOG_HAS_INIT) ;;; wait_init ;;; note_pid
  else if state =? LOG_INIT_ING then wait_init ;;; note_pid
  else if state =? LOG_HAS_INIT then note_pid
  else do_act (Eprintf (B "find unknown state")) ;;; Ret (-1).

(** ** A thread *)
Inductive log_call :=
| Init (config : log_config)
| Log (file : bytes) (line level : Z) (msg : bytes)
| Pause (ms : Z).

(** The calls of a thread, one after the other with some sleep in between, with
    the results of [log_init]. *)
Fixpoint thread (calls : list log_call) : program (list Z) :=
  match calls with
  | [] => Ret []
  | Init config :: rest => let! r := log_init config in let! rs := thread rest in Ret (r :: rs)
  | Log file line level msg :: rest => log_write file line level msg ;;; thread rest
  | Pause ms :: rest => do_sleep ms ;;; thread rest
  end.
End Log.

(** The state at the start of the process. *)
Definition log_start (now : Z) : shared :=
  Shared (fun x => match x with LAST_DAY | LOG_FD => -1 | _ => 0 end) (TimeInfo 0 0 0 0 0)
    (LogConfig [] [] 0 0) (fun _ => -1) now [] ∅ ∅ [].

(** ** The line in the buffer *)
Definition buf_holds (buf : line_buf) (text : bytes) : Prop :=
  length buf = LOG_BUF_LEN /\ take (length text) buf = Some <$> text.

Lemma buf_holds_prefix buf a b : buf_holds buf (a ++ b) -> buf_holds buf a.
Proof.
  intros [Hl Ht]. split; [done|]. apply (f_equal (take (length a))) in Ht.
  rewrite take_take, length_app, Nat.min_l, fmap_app, take_app_le in Ht by (rewrite ?length_fmap; lia).
  by rewrite Ht, take_ge by by rewrite length_fmap.
Qed.
Lemma put_text_run buf a bs i : buf_holds buf a -> i = strlen a -> strlen a + strlen bs <= LOG_BUF ->
  exists buf', put_text i bs buf = Some buf' /\ buf_holds buf' (a ++ bs).
Proof.
  intros [Hl Ht] -> Hf. unfold put_text, strlen in *.
  rewrite (proj2 (Z.leb_le 0 _)), (proj2 (Z.leb_le _ LOG_BUF)) by lia. cbn [andb]. eexists. split; [done|].
  rewrite Nat2Z.id, Ht. split.
  - rewrite !length_app, !length_fmap, length_drop, Hl. unfold LOG_BUF_LEN. lia.
  - rewrite app_assoc, <- fmap_app. rewrite take_app_le by (rewrite length_fmap; lia).
    apply take_ge. by rewrite length_fmap.
Qed.
Lemma get_char_run buf a c i : buf_holds buf (a ++ [c]) -> i = strlen a -> get_char i buf = Some c.
Proof.
  intros [Hl Ht] ->. unfold get_char, strlen. rewrite (proj2 (Z.leb_le _ _)), Nat2Z.id by lia.
  apply (f_equal (fun l => l !! length a)) in Ht. rewrite lookup_take_lt in Ht by (rewrite length_app; cbn; lia).
  rewrite Ht, list_lookup_fmap, list_lookup_middle; done.
Qed.
Lemma get_text_run buf a i : buf_holds buf a -> i = strlen a -> strlen a <= LOG_BUF -> get_text i buf = Some a.
Proof.
  intros [Hl Ht] -> Hf. unfold get_text, strlen in *. rewrite !(proj2 (Z.leb_le _ _)) by lia. cbn [andb].
  rewrite Nat2Z.id, Ht. clear. induction a as [|c a IH]; [done|]. cbn. by rewrite IH.
Qed.

(** A text with a newline at its end. *)
Definition with_newline (text : bytes) : bytes :=
  match last text with
  | Some c => if c =? 10 then text else text ++ [10]
  | None => text ++ [10]
  end.

Lemma end_line_run buf text : buf_holds buf text -> text <> [] -> strlen text < LOG_BUF - 2 ->
  exists buf', end_line (strlen text) buf = Some (buf', strlen (with_newline text)) /\ buf_holds buf' (with_newline text).
Proof.
  intros Hb Hne Hlt. destruct (exists_last Hne) as (a & c & ->). unfold end_line, with_newline. rewrite last_snoc.
  rewrite (get_char_run buf a c) by (done || (unfold strlen; rewrite length_app; cbn; lia)). cbn [mbind option_bind].
  assert (strlen [0] = 1 /\ strlen [10] = 1) as [H0 H1] by done.
  destruct (Z.eqb_spec c 10) as [->|Hc].
  - destruct (put_text_run buf (a ++ [10]) [0] (strlen (a ++ [10]))) as (b & -> & Hb'); [done..|lia|].
    exists b. split; [done|]. by eapply buf_holds_prefix.
  - destruct (put_text_run buf (a ++ [c]) [10] (strlen (a ++ [c]))) as (b & -> & Hb'); [done..|lia|]. cbn [mbind option_bind].
    assert (strlen ((a ++ [c]) ++ [10]) = strlen (a ++ [c]) + 1) as El by (unfold strlen; rewrite (length_app (a ++ [c])); cbn; lia).
    destruct (put_text_run b ((a ++ [c]) ++ [10]) [0] (strlen (a ++ [c]) + 1)) as (b' & -> & Hb''); [done..|lia|].
    exists b'. rewrite El. split; [done|]. by eapply buf_holds_prefix.
Qed.

(** The head fits; whatever the length of the message, no access is outside. *)
Lemma line_text_run head msg : 0 < strlen head < LOG_BUF ->
  line_text head msg =
  Some (if strlen head + strlen msg <? LOG_BUF - 2 then Some (with_newline (head ++ msg)) else None).
Proof.
  intros Hh. unfold line_text. assert (0 <= strlen msg) by (unfold strlen; lia).
  destruct (put_text_run (replicate LOG_BUF_LEN None) [] (head ++ [0]) 0) as (b & -> & Hb); [|done| |].
  { split; [by rewrite length_replicate|done]. }
  { unfold strlen in *. rewrite length_app. cbn [length]. lia. }
  cbn [mbind option_bind]. apply (buf_holds_prefix b head [0]) in Hb. rewrite (proj2 (Z.ltb_lt 0 _)) by lia. cbn [andb].
  unfold put_cut. destruct (Z.leb_spec (LOG_BUF - strlen head - 1) 0) as [Hn|Hp].
  { cbn [mbind option_bind]. by rewrite (proj2 (Z.ltb_ge _ _)) by lia. }
  set (cut := take (Z.to_nat (LOG_BUF - strlen head - 1 - 1)) msg).
  assert (strlen cut <= LOG_BUF - strlen head - 1 - 1) by (unfold cut, strlen in *; rewrite length_take; lia).
  destruct (put_text_run b head (cut ++ [0]) (strlen head)) as (b' & -> & Hb'); [done..| |].
  { unfold strlen in *. rewrite length_app. cbn [length]. lia. }
  cbn [mbind option_bind]. destruct (Z.ltb_spec (strlen head + strlen msg) (LOG_BUF - 2)) as [Hlt|Hge]; [|done].
  assert (cut = msg) as -> by (unfold cut; rewrite take_ge; [done|unfold strlen in *; lia]).
  rewrite app_assoc in Hb'. apply buf_holds_prefix in Hb'.
  assert (strlen (head ++ msg) = strlen head + strlen msg) as El by (unfold strlen; rewrite length_app; lia).
  destruct (end_line_run b' (head ++ msg)) as (b2 & E2 & Hb2); [done| |lia|].
  { intros E. rewrite E in El. unfold strlen in *. cbn in El. lia. }
  rewrite El in E2. rewrite E2. cbn [mbind option_bind fst snd].
  rewrite (get_text_run b2 (with_newline (head ++ msg))); [done..|].
  unfold with_newline. assert (strlen ((head ++ msg) ++ [10]) = strlen (head ++ msg) + 1) by (unfold strlen; rewrite (length_app (head ++ msg)); cbn; lia).
  destruct (last _) as [c|]; [destruct (c =? 10)|]; lia.
Qed.
