(* ===== verification/LogThreads.v ===== *)
(** * The log under concurrency

    The threads of [Log] in any number, with any calls, interleaved in any order
    and with any answers of the system.  The ghost state of a thread says where
    it is in the change of the file and in the initialisation; [log_inv] relates
    it to the shared state, and every step keeps it. *)
From S2P Require Import Prelude.
From S2P Require Import CLib.
From S2P Require Import Threads.
From S2P Require Import Log.
From stdpp Require Import base functions list gmap fin_maps fin_map_dom relations.

#[local] Open Scope Z_scope.
#[local] Open Scope prog_scope.

Abbreviation program := (prog act).

(** ** Ghost states *)

(** The change of the file: outside; with the lock; with the new file open; with
    the old one to be closed. *)
Inductive rotation := Idle | Inside | Opened (new_fd : Z) | Closing (old_fd : Z).
(** The initialisation: not by this thread; claimed; with the configuration copied. *)
Inductive starting := NotStarting | Claimed | Copied.

Record ghost := Ghost { g_rot : rotation; g_start : starting; g_seen : bool; g_forked : bool }.

Definition set_rot (r : rotation) (l : ghost) := Ghost r (g_start l) (g_seen l) (g_forked l).
Definition set_start (st : starting) (l : ghost) := Ghost (g_rot l) st (g_seen l) (g_forked l).
Definition set_seen (l : ghost) := Ghost (g_rot l) (g_start l) true (g_forked l).
Definition set_forked (l : ghost) := Ghost (g_rot l) (g_start l) (g_seen l) true.

(** The descriptor the log is known to have. *)
Definition log_fds (s : shared) : gset Z :=
  if s_var s LOG_FD =? -1 then ∅ else {[s_var s LOG_FD]}.

Section Inv.
Context (pid : Z) (tid : nat -> Z) (localtime : Z -> Z * Z * Z) (configs : list log_config).
Context (Hpid : pid <> 0) (Htid : forall t, 0 < tid t).

(** *** The lock and the descriptors *)
Definition rot_fds (s : shared) (r : rotation) : Prop :=
  match r with
  | Idle => True
  | Inside => dom (k_fds s) = log_fds s
  | Opened n => dom (k_fds s) = log_fds s ∪ {[n]} /\ (n ∉ log_fds s) /\ 2 < n
  | Closing o => dom (k_fds s) ⊆ log_fds s ∪ {[o]} /\ log_fds s ⊆ dom (k_fds s) /\ (o ∉ log_fds s)
  end.

Record lock_inv (gs : nat -> ghost) (s : shared) : Prop := {
  li_fd : s_var s LOG_FD = -1 \/ 2 < s_var s LOG_FD;
  li_free : s_var s CURRENT_TID = 0 -> forall t, g_rot (gs t) = Idle;
  li_held : s_var s CURRENT_TID <> 0 -> exists t, g_rot (gs t) <> Idle;
  li_one : forall t t', g_rot (gs t) <> Idle -> g_rot (gs t') <> Idle -> t = t';
  li_idle : (forall t, g_rot (gs t) = Idle) -> dom (k_fds s) = log_fds s;
  li_rot : forall t, rot_fds s (g_rot (gs t))
}.

(** *** The initialisation *)
Record init_inv (gs : nat -> ghost) (s : shared) : Prop := {
  ii_state : s_var s HAS_INIT = 0 \/ s_var s HAS_INIT = 1 \/ s_var s HAS_INIT = 2;
  ii_start : s_var s HAS_INIT <> 1 -> forall t, g_start (gs t) = NotStarting;
  ii_one : forall t t', g_start (gs t) <> NotStarting -> g_start (gs t') <> NotStarting -> t = t';
  ii_copied : forall t, g_start (gs t) = Copied -> s_config s ∈ configs;
  ii_config : s_var s HAS_INIT = 2 -> s_config s ∈ configs;
  ii_seen : forall t, g_seen (gs t) = true -> s_var s HAS_INIT = 2
}.

(** *** The numbers of the process and the threads *)
Record id_inv (gs : nat -> ghost) (s : shared) : Prop := {
  di_forked : forall t, g_forked (gs t) = true -> s_var s PID = pid;
  di_fork : s_var s HAS_FORK = 1 -> s_var s PID = pid;
  di_tid : forall t, t_tid s t = -1 \/ t_tid s t = tid t
}.

Definition log_inv (gs : nat -> ghost) (s : shared) : Prop := lock_inv gs s /\ init_inv gs s /\ id_inv gs s.

(** What no step undoes: a log that is initialised, and its configuration. *)
Definition kept (s s' : shared) : Prop :=
  s_var s HAS_INIT = 2 -> s_var s' HAS_INIT = 2 /\ s_config s' = s_config s.

#[global] Instance kept_preorder : PreOrder kept.
Proof.
  split; [by intros s H|]. intros s1 s2 s3 H12 H23 H. destruct (H12 H) as [H2 E2].
  destruct (H23 H2) as [H3 E3]. split; [done|by rewrite E3].
Qed.

Lemma kept_rtc s s' : rtc kept s s' -> kept s s'.
Proof. induction 1; [done|by etrans]. Qed.

(** *** Framing *)

(** Only the ghost state of one thread, or none, and other parts of the state change. *)
Lemma lock_same gs gs' s s' :
  (forall t, g_rot (gs' t) = g_rot (gs t)) -> s_var s' LOG_FD = s_var s LOG_FD ->
  s_var s' CURRENT_TID = s_var s CURRENT_TID -> dom (k_fds s') = dom (k_fds s) ->
  lock_inv gs s -> lock_inv gs' s'.
Proof.
  intros Hg Hf Hc Hk []. assert (log_fds s' = log_fds s) as Hl by (unfold log_fds; by rewrite Hf).
  split; rewrite ?Hf, ?Hc, ?Hk, ?Hl; [done| | | | |].
  - intros H t. rewrite Hg. apply li_free0. apply H.
  - intros H. destruct (li_held0 H) as [t Ht]. exists t. by rewrite Hg.
  - intros t t'. rewrite !Hg. auto.
  - intros H. apply li_idle0. intros t. by rewrite <- Hg.
  - intros t. rewrite Hg. specialize (li_rot0 t).
    destruct (g_rot (gs t)); cbn in *; rewrite ?Hk, ?Hl; done.
Qed.

Lemma init_same gs gs' s s' :
  (forall t, g_start (gs' t) = g_start (gs t)) -> (forall t, g_seen (gs' t) = g_seen (gs t)) ->
  s_var s' HAS_INIT = s_var s HAS_INIT -> s_config s' = s_config s -> init_inv gs s -> init_inv gs' s'.
Proof.
  intros Hg Hs Hi Hc []. split; rewrite ?Hi, ?Hc; [done| | | |done|].
  - intros H t. rewrite Hg. auto.
  - intros t t'. rewrite !Hg. auto.
  - intros t. rewrite Hg. apply ii_copied0.
  - intros t. rewrite Hs. apply ii_seen0.
Qed.

Lemma id_same gs gs' s s' :
  (forall t, g_forked (gs' t) = g_forked (gs t)) -> s_var s' PID = s_var s PID ->
  s_var s' HAS_FORK = s_var s HAS_FORK -> (forall t, t_tid s' t = t_tid s t) -> id_inv gs s -> id_inv gs' s'.
Proof.
  intros Hg Hp Hf Ht []. split; rewrite ?Hp, ?Hf; [|done|].
  - intros t. rewrite Hg. apply di_forked0.
  - intros t. rewrite Ht. apply di_tid0.
Qed.

(** The ghost state of thread [t] is put back, with [f] unchanged. *)
Lemma insert_field {A} (f : ghost -> A) (gs : nat -> ghost) t l :
  f l = f (gs t) -> forall t', f (<[t := l]> gs t') = f (gs t').
Proof.
  intros E t'. destruct (decide (t' = t)) as [->|Hne]; [by rewrite fn_lookup_insert|].
  by rewrite fn_lookup_insert_ne.
Qed.

(** *** Rules for the actions *)
Abbreviation ok := (Threads.ok (perform pid tid) log_inv kept).

(** A step that leaves alone what the invariant is about. *)
Definition quiet (s s' : shared) : Prop :=
  (forall x, x <> SEC -> x <> LAST_DAY -> s_var s' x = s_var s x) /\ dom (k_fds s') = dom (k_fds s) /\
  s_config s' = s_config s /\ (forall t, t_tid s' t = t_tid s t).

Lemma quiet_inv gs gs' s s' :
  quiet s s' -> (forall t, g_rot (gs' t) = g_rot (gs t)) -> (forall t, g_start (gs' t) = g_start (gs t)) ->
  (forall t, g_seen (gs' t) = g_seen (gs t)) -> (forall t, g_forked (gs' t) = g_forked (gs t)) ->
  log_inv gs s -> log_inv gs' s'.
Proof.
  intros (Hv & Hk & Hc & Ht) Hr Hs Hn Hf (H1 & H2 & H3). split_and!.
  - eapply lock_same; [exact Hr|by apply Hv|by apply Hv|exact Hk|exact H1].
  - eapply init_same; [exact Hs|exact Hn|by apply Hv|exact Hc|exact H2].
  - eapply id_same; [exact Hf|by apply Hv|by apply Hv|exact Ht|exact H3].
Qed.

Lemma quiet_kept s s' : quiet s s' -> kept s s'.
Proof. intros (Hv & _ & Hc & _) H. by rewrite (Hv HAS_INIT). Qed.

Lemma quiet_refl s : quiet s s.
Proof. done. Qed.

Lemma ok_quiet {X} n t l (a : act X) (Q : X -> ghost -> Prop) :
  (forall gs s c, gs t = l -> log_inv gs s ->
     quiet s (perform pid tid t c X a s).2 /\ Q (perform pid tid t c X a s).1 l) ->
  ok n t l (do_act a) Q.
Proof.
  intros H. apply ok_do. intros gs s c Hl Hi. destruct (H gs s c Hl Hi) as [Hq HQ].
  exists l. split_and!; [|by apply quiet_kept|done].
  eapply quiet_inv; [exact Hq| | | | |exact Hi]; apply insert_field; by rewrite Hl.
Qed.

(** The actions that need nothing more. *)
Definition harmless {X} (a : act X) : Prop :=
  forall t c s, quiet s (perform pid tid t c X a s).2.

Lemma ok_harmless {X} n t l (a : act X) : harmless a -> ok n t l (do_act a) (fun _ l' => l' = l).
Proof. intros H. apply ok_quiet. intros gs s c _ _. split; [apply H|done]. Qed.

Lemma harmless_read x : harmless (Read x).
Proof. intros t c s. done. Qed.
Lemma harmless_info : harmless ReadInfo.
Proof. intros t c s. done. Qed.
Lemma harmless_write_info ti : harmless (WriteInfo ti).
Proof. intros t c s. done. Qed.
Lemma harmless_config : harmless ReadConfig.
Proof. intros t c s. done. Qed.
Lemma harmless_clock : harmless Clock.
Proof. intros t c s. done. Qed.
Lemma harmless_time : harmless Time.
Proof. intros t c s. done. Qed.
Lemma harmless_getpid : harmless Getpid.
Proof. intros t c s. done. Qed.
Lemma harmless_eprintf m : harmless (Eprintf m).
Proof. intros t c s. done. Qed.
Lemma harmless_sleep ns : harmless (Sys_nanosleep ns).
Proof. intros t c s. cbn. by destruct (c_errno c =? 0). Qed.
Lemma harmless_mkdir p : harmless (Sys_mkdir p).
Proof. intros t c s. cbn. destruct (decide (p ∈ k_dirs s)); [done|]. by destruct (c_errno c =? 0). Qed.
Lemma harmless_write fd bs : harmless (Sys_write fd bs).
Proof.
  intros t c s. cbn. destruct (negb (c_errno c =? 0)); [done|]. destruct (fd =? STDERR_FILENO); [done|].
  by destruct (k_fds s !! fd).
Qed.
Lemma harmless_var x v : x = SEC \/ x = LAST_DAY -> harmless (Write x v).
Proof.
  intros Hx t c s. split_and!; try done. intros y H1 H2. cbn. rewrite fn_lookup_insert_ne; [done|].
  intros <-. destruct Hx; congruence.
Qed.

(** *** Programs that keep the ghost state *)
Create HintDb harmless.
#[local] Hint Resolve harmless_read harmless_info harmless_write_info harmless_config harmless_clock harmless_time
  harmless_getpid harmless_eprintf harmless_sleep harmless_mkdir harmless_write : harmless.
#[local] Hint Extern 2 (harmless (Write _ _)) => apply harmless_var; tauto : harmless.

(** The program does nothing that the invariant is about. *)
Definition idle {R} (p : program R) : Prop :=
  forall n t l, ok n t l p (fun _ l' => l' = l).

Lemma idle_ret {R} (r : R) : idle (Ret r).
Proof. intros n t l. by apply ok_ret. Qed.
Lemma idle_act {X} (a : act X) : harmless a -> idle (do_act a).
Proof. intros H n t l. by apply ok_harmless. Qed.
Lemma idle_pbind {R S} (p : program R) (f : R -> program S) : idle p -> (forall r, idle (f r)) -> idle (pbind p f).
Proof.
  intros Hp Hf n t l. eapply ok_pbind; [apply Hp|]. intros m r l' _ ->. apply Hf.
Qed.
Lemma idle_loop {I X} (body : I -> program (I + X)) i : (forall i, idle (body i)) -> idle (loop body i).
Proof.
  intros H n t l. apply (ok_iter _ _ _ _ _ (fun _ l' => l' = l)); [|done].
  intros m i' l' _ ->. eapply ok_mono; [apply H|]. by intros [?|?] ? ->.
Qed.
#[local] Hint Resolve idle_ret idle_act idle_pbind idle_loop : harmless.

Ltac idle_step :=
  lazymatch goal with
  | |- idle (pbind _ _) => apply idle_pbind
  | |- idle (loop _ _) => apply idle_loop
  | |- idle (Ret _) => apply idle_ret
  | |- idle (do_act _) => apply idle_act; auto with harmless
  | |- idle (if ?b then _ else _) => destruct b
  | |- idle (match ?b with _ => _ end) => destruct b
  | |- forall _, _ => intros
  end.
Ltac idle_tac := repeat idle_step.

Lemma idle_get_time : idle get_time.
Proof. unfold get_time. idle_tac. Qed.
Lemma idle_write_2_file fd buf : idle (write_2_file fd buf).
Proof. unfold write_2_file. idle_tac. Qed.
Lemma idle_put_line head msg : 0 < strlen head < LOG_BUF -> idle (put_line head msg).
Proof.
  intros H. unfold put_line. rewrite line_text_run by done. destruct (_ <? _); [|idle_tac].
  idle_tac; apply idle_write_2_file.
Qed.
Lemma idle_do_sleep ms : idle (do_sleep ms).
Proof. unfold do_sleep. idle_tac. Qed.
Lemma idle_mkdir_one p : idle (mkdir_one p).
Proof. unfold mkdir_one. idle_tac. Qed.
Lemma idle_mkdir_from done rest : idle (mkdir_from done rest).
Proof.
  revert done. induction rest as [|c rest IH]; intros done; cbn [mkdir_from]; [idle_tac|].
  idle_tac; [apply idle_mkdir_one|apply IH|apply IH].
Qed.
Lemma idle_do_mkdir dir : idle (do_mkdir dir).
Proof. unfold do_mkdir. idle_tac; [apply idle_mkdir_from|apply idle_mkdir_one]. Qed.

(** *** The change of the file *)
Lemma free_fd_fresh fds n : 2 < free_fd fds n /\ fds !! free_fd fds n = None.
Proof.
  unfold free_fd. case_bool_decide as H; [done|].
  assert (3 <= map_fold (fun k _ m => Z.max (k + 1) m) 3 fds /\
          forall k v, fds !! k = Some v -> k < map_fold (fun k _ m => Z.max (k + 1) m) 3 fds) as [H1 H2].
  { apply (map_fold_weak_ind (fun r m => 3 <= r /\ forall k v, m !! k = Some v -> k < r)).
    - split; [lia|]. intros k v Hk. by rewrite lookup_empty in Hk.
    - intros k v m r Hm [IH1 IH2]. split; [lia|]. intros k' v' [[-> _]|[_ Hk]]%lookup_insert_Some; [lia|].
      specialize (IH2 k' v' Hk). lia. }
  split; [lia|]. apply eq_None_not_Some. intros [v Hv]. apply H2 in Hv. lia.
Qed.

Lemma rot_insert (gs : nat -> ghost) (t : nat) l t' : g_rot (<[t := l]> gs t') = if decide (t' = t) then g_rot l else g_rot (gs t').
Proof. case_decide as H; [subst; by rewrite fn_lookup_insert|]. by rewrite fn_lookup_insert_ne by done. Qed.

Lemma others_idle gs s t t' : lock_inv gs s -> g_rot (gs t) <> Idle -> t' <> t -> g_rot (gs t') = Idle.
Proof.
  intros Hi Ht Hne. destruct (g_rot (gs t')) eqn:E; [done| | |]; exfalso; apply Hne;
    apply (li_one _ _ Hi); congruence.
Qed.

(** The thread that holds the lock makes a step, or gives the lock back. *)
Lemma lock_step gs s (t : nat) l s' :
  lock_inv gs s -> g_rot (gs t) <> Idle ->
  (s_var s' LOG_FD = -1 \/ 2 < s_var s' LOG_FD) -> rot_fds s' (g_rot l) ->
  match g_rot l with
  | Idle => s_var s' CURRENT_TID = 0 /\ dom (k_fds s') = log_fds s'
  | _ => s_var s' CURRENT_TID = s_var s CURRENT_TID
  end -> lock_inv (<[t := l]> gs) s'.
Proof.
  intros Hi Ht Hf Hr Hc. pose proof (fun t' => others_idle gs s t t' Hi Ht) as Ho.
  assert (s_var s CURRENT_TID <> 0) as Hh.
  { intros H. by pose proof (li_free _ _ Hi H t). }
  split; [done| | | | |].
  - intros H t'. rewrite rot_insert. case_decide as Hd; [|auto].
    destruct (g_rot l); [done| | |]; destruct Hc; lia.
  - intros H. exists t. rewrite rot_insert, decide_True by done. destruct (g_rot l); [|done|done|done].
    by destruct Hc.
  - intros a b. rewrite !rot_insert. do 2 case_decide; subst; intros Ha Hb; [done| | |].
    + by rewrite Ho in Hb.
    + by rewrite Ho in Ha.
    + by rewrite Ho in Ha.
  - intros H. specialize (H t). rewrite rot_insert, decide_True in H by done. rewrite H in Hc. apply Hc.
  - intros t'. rewrite rot_insert. case_decide as Hd; [done|]. by rewrite Ho.
Qed.

Lemma lock_take gs s (t : nat) l s' :
  lock_inv gs s -> s_var s CURRENT_TID = 0 -> s_var s' CURRENT_TID <> 0 -> s_var s' LOG_FD = s_var s LOG_FD ->
  k_fds s' = k_fds s -> g_rot l = Inside -> lock_inv (<[t := l]> gs) s'.
Proof.
  intros Hi H0 Hc Hf Hk Hl. pose proof (li_free _ _ Hi H0) as Ho.
  assert (dom (k_fds s') = log_fds s') as Hd.
  { unfold log_fds. rewrite Hk, Hf. by apply (li_idle _ _ Hi). }
  split.
  - rewrite Hf. apply Hi.
  - done.
  - intros _. exists t. by rewrite rot_insert, decide_True, Hl.
  - intros a b. rewrite !rot_insert. do 2 case_decide; subst; [done| | |]; by rewrite !Ho.
  - intros H. specialize (H t). rewrite rot_insert, decide_True in H by done. congruence.
  - intros t'. rewrite rot_insert. case_decide as Hd'; [by rewrite Hl|]. by rewrite Ho.
Qed.

(** A step with the lock; the other parts of the invariant do not see it. *)
Lemma ok_rot {X} n t l (a : act X) (Q : X -> ghost -> Prop) :
  (forall gs s c, gs t = l -> lock_inv gs s -> exists r,
     let s' := (perform pid tid t c X a s).2 in
     lock_inv (<[t := set_rot r l]> gs) s' /\
     (forall x, x <> LOG_FD -> x <> CURRENT_TID -> s_var s' x = s_var s x) /\
     s_config s' = s_config s /\ (forall t, t_tid s' t = t_tid s t) /\
     Q (perform pid tid t c X a s).1 (set_rot r l)) ->
  ok n t l (do_act a) Q.
Proof.
  intros H. apply ok_do. intros gs s c Hl (H1 & H2 & H3).
  destruct (H gs s c Hl H1) as (r & Hr & Hv & Hc & Ht & HQ). exists (set_rot r l).
  split_and!; [|intros Hk; split; [by rewrite Hv|done]|done]. split_and!; [done| |].
  - eapply init_same; [| |by apply Hv|exact Hc|exact H2]; apply insert_field; by rewrite Hl.
  - eapply id_same; [|by apply Hv|by apply Hv|exact Ht|exact H3]. apply insert_field. by rewrite Hl.
Qed.

Lemma ok_cas_lock n t l id : id <> 0 -> g_rot l = Idle ->
  ok n t l (do_act (Cas CURRENT_TID 0 id)) (fun old l' => l' = if old =? 0 then set_rot Inside l else l).
Proof.
  intros Hid Hl. apply ok_rot. intros gs s c Hg Hi. cbn.
  destruct (Z.eqb_spec (s_var s CURRENT_TID) 0) as [H0|H0].
  - exists Inside. split_and!; [|by intros x H1 H2; cbn; rewrite fn_lookup_insert_ne|done|done|done].
    eapply lock_take; [exact Hi|done|cbn; by rewrite fn_lookup_insert|cbn; by rewrite fn_lookup_insert_ne|done|done].
  - exists (g_rot l). assert (set_rot (g_rot l) l = l) as -> by by destruct l.
    split_and!; try done. eapply lock_same; [|done|done|done|exact Hi]. apply insert_field. by rewrite Hg.
Qed.

Lemma ok_unlock n t l : g_rot l = Inside ->
  ok n t l (do_act (Write CURRENT_TID 0)) (fun _ l' => l' = set_rot Idle l).
Proof.
  intros Hl. apply ok_rot. intros gs s c Hg Hi. exists Idle. cbn.
  split_and!; [|by intros x H1 H2; rewrite fn_lookup_insert_ne|done|done|done].
  eapply lock_step; [exact Hi|rewrite Hg, Hl; done| |done|]; cbn.
  - rewrite fn_lookup_insert_ne by done. apply Hi.
  - rewrite fn_lookup_insert. split; [done|]. pose proof (li_rot _ _ Hi t) as H. rewrite Hg, Hl in H.
    unfold log_fds in *. cbn. by rewrite fn_lookup_insert_ne.
Qed.

Lemma ok_open n t l path : g_rot l = Inside ->
  ok n t l (do_act (Sys_open path))
    (fun r l' => l' = if r.1 <? 0 then l else set_rot (Opened r.1) l).
Proof.
  intros Hl. apply ok_rot. intros gs s c Hg Hi. cbn. destruct (c_errno c =? 0); cbn.
  - destruct (free_fd_fresh (k_fds s) (c_num c)) as [Hn Hf]. exists (Opened (free_fd (k_fds s) (c_num c))).
    split_and!; try done; [|by destruct (Z.ltb_spec (free_fd (k_fds s) (c_num c)) 0); [lia|]].
    pose proof (li_rot _ _ Hi t) as H. rewrite Hg, Hl in H. cbn in H.
    eapply lock_step; [exact Hi|rewrite Hg, Hl; done|apply Hi| |done].
    cbn. change (log_fds _) with (log_fds s). rewrite dom_insert_L, H, <- H. split_and!; [set_solver| |done].
    by rewrite not_elem_of_dom.
  - exists (g_rot l). assert (set_rot (g_rot l) l = l) as -> by by destruct l.
    split_and!; try done. eapply lock_same; [|done|done|done|exact Hi]. apply insert_field. by rewrite Hg.
Qed.

Lemma ok_swap n t l fd : g_rot l = Opened fd ->
  ok n t l (do_act (Swap LOG_FD fd))
    (fun old l' => l' = set_rot (if old =? -1 then Inside else Closing old) l).
Proof.
  intros Hl. apply ok_rot. intros gs s c Hg Hi. cbn. exists (if s_var s LOG_FD =? -1 then Inside else Closing (s_var s LOG_FD)).
  split_and!; [|by intros x H1 H2; rewrite fn_lookup_insert_ne|done|done|done].
  pose proof (li_rot _ _ Hi t) as H. rewrite Hg, Hl in H. cbn in H. destruct H as (Hd & Hn & H2).
  assert (log_fds (put_var LOG_FD fd s) = {[fd]}) as Hf.
  { unfold log_fds. cbn. rewrite fn_lookup_insert. by rewrite (proj2 (Z.eqb_neq _ _)) by lia. }
  eapply lock_step; [exact Hi|rewrite Hg, Hl; done|right; cbn; by rewrite fn_lookup_insert| |]; cbn [g_rot set_rot].
  - revert Hd Hn. unfold log_fds at 1 2. destruct (Z.eqb_spec (s_var s LOG_FD) (-1)) as [E|E]; intros Hd Hn; cbn;
      rewrite Hf, Hd; set_solver.
  - cbn. by destruct (s_var s LOG_FD =? -1); rewrite fn_lookup_insert_ne.
Qed.

Lemma ok_close n t l o : g_rot l = Closing o ->
  ok n t l (do_act (Sys_close o))
    (fun r l' => l' = set_rot (if (r.1 <? 0) && (r.2 =? LOG_EINTR) then Closing o else Inside) l).
Proof.
  intros Hl. apply ok_rot. intros gs s c Hg Hi.
  pose proof (li_rot _ _ Hi t) as H. rewrite Hg, Hl in H. cbn in H. destruct H as (Hd & Hs & Hn).
  cbn. set (r := closed c o (k_fds s)).
  exists (if (r.1.1 <? 0) && (r.1.2 =? LOG_EINTR) then Closing o else Inside). split_and!; try done.
  assert (r.2 = k_fds s /\ (if (r.1.1 <? 0) && (r.1.2 =? LOG_EINTR) then True else o ∉ dom (k_fds s)) \/
          r.2 = delete o (k_fds s)) as Hk.
  { unfold r, closed. destruct (k_fds s !! o) eqn:E; cbn.
    - destruct (c_errno c =? 0); cbn; [by right|]. destruct (c_errno c =? LOG_EINTR); cbn; [|by right].
      destruct (c_part c); [by right|by left].
    - left. split; [done|]. by apply not_elem_of_dom. }
  eapply lock_step; [exact Hi|rewrite Hg, Hl; done|apply Hi| |by destruct (_ && _)]; cbn.
  destruct (_ && _); cbn; change (log_fds _) with (log_fds s);
    (destruct Hk as [[-> Ho]| ->]; [|rewrite dom_delete_L]); set_solver.
Qed.

Lemma set_rot_rot r r' l : set_rot r (set_rot r' l) = set_rot r l.
Proof. done. Qed.
Lemma set_rot_id l : set_rot (g_rot l) l = l.
Proof. by destruct l. Qed.

(** The rule for a program that is followed by others, with an equation for the
    ghost state after it. *)
Ltac bind_with H r := eapply ok_pbind; [apply H; auto with harmless|]; cbv beta; intros ? r ? _ ->.

Lemma ok_close_retry n t l o : g_rot l = Closing o ->
  ok n t l (close_retry o) (fun _ l' => l' = set_rot Inside l).
Proof.
  intros Hl. apply (ok_iter _ _ _ _ _ (fun _ l' => l' = l)); [|done]. intros m _ l' _ ->.
  bind_with ok_close r. apply ok_ret. destruct (_ && _); [|done]. by rewrite <- Hl, set_rot_id.
Qed.

Lemma ok_open_log n t l : g_rot l = Inside -> ok n t l (open_log localtime) (fun _ l' => l' = l).
Proof.
  intros Hl. unfold open_log. bind_with (ok_harmless (X := Z)) now.
  bind_with (ok_harmless (X := log_config)) config. bind_with ok_open r.
  destruct (r.1 <? 0).
  - bind_with (ok_harmless (X := unit)) u. by apply ok_ret.
  - bind_with ok_swap old. rewrite set_rot_rot.
    eapply (ok_pbind _ _ _ _ _ _ _ _ _ (fun _ l' => l' = l)).
    + destruct (_ =? -1).
      * apply ok_ret. by rewrite <- Hl, set_rot_id.
      * eapply ok_mono; [by apply ok_close_retry|]. cbv beta. intros _ ? ->. by rewrite set_rot_rot, <- Hl, set_rot_id.
    + cbv beta. intros ? r' ? _ ->. by apply ok_ret.
Qed.

Lemma ok_take_lock n t l id : id <> 0 -> g_rot l = Idle ->
  ok n t l (take_lock id) (fun b l' => l' = if (b : bool) then set_rot Inside l else l).
Proof.
  intros Hid Hl. apply (ok_iter _ _ _ _ _ (fun _ l' => l' = l)); [|done]. intros m k l' _ ->.
  bind_with ok_cas_lock r. destruct (r =? 0); [by apply ok_ret|]. destruct (r =? id).
  - bind_with (ok_harmless (X := unit)) u. by apply ok_ret.
  - apply ok_ret. by destruct (k - 1 <=? 0).
Qed.

Lemma ok_new_day n t l ti id : id <> 0 -> g_rot l = Idle ->
  ok n t l (new_day localtime ti id) (fun _ l' => l' = l).
Proof.
  intros Hid Hl. unfold new_day. bind_with ok_take_lock r. destruct r; [|by apply ok_ret].
  bind_with (ok_harmless (X := Z)) last_day.
  eapply (ok_pbind _ _ _ _ _ _ _ _ _ (fun _ l' => l' = set_rot Inside l)).
  - destruct (ti_day ti =? _); [by apply ok_ret|]. bind_with ok_open_log r.
    destruct (_ =? 0); [|by apply ok_ret]. apply ok_harmless. apply harmless_var. by right.
  - cbv beta. intros ? r' ? _ ->. bind_with ok_unlock u. apply ok_ret. by rewrite set_rot_rot, <- Hl, set_rot_id.
Qed.

(** *** Writing a message *)

(** What a thread knows is kept: [l'] is [l], with more seen. *)
Definition same (l l' : ghost) : Prop :=
  g_rot l' = g_rot l /\ g_start l' = g_start l /\ (g_seen l = true -> g_seen l' = true).

#[global] Instance same_preorder : PreOrder same.
Proof.
  split; [done|]. intros l1 l2 l3 (H1 & H2 & H3) (H4 & H5 & H6). split_and!; [congruence|congruence|auto].
Qed.

(** Between calls a thread has no lock and does not initialise. *)
Definition calm (l : ghost) : Prop := g_rot l = Idle /\ g_start l = NotStarting.

Lemma calm_same l l' : calm l -> same l l' -> calm l'.
Proof. intros [H1 H2] (H3 & H4 & _). split; congruence. Qed.

(** The steps that add to what a thread knows. *)
Lemma ok_know {X} n t l (a : act X) (Q : X -> ghost -> Prop) :
  (forall t c s, quiet s (perform pid tid t c X a s).2) ->
  (forall gs s c, gs t = l -> log_inv gs s -> exists l',
     Q (perform pid tid t c X a s).1 l' /\ g_rot l' = g_rot l /\ g_start l' = g_start l /\
     (g_seen l' = g_seen l \/ s_var s HAS_INIT = 2) /\ (g_forked l' = g_forked l \/ s_var s PID = pid)) ->
  ok n t l (do_act a) Q.
Proof.
  intros Hq H. apply ok_do. intros gs s c Hl Hi. destruct (H gs s c Hl Hi) as (l' & HQ & Hr & Hst & Hs & Hf).
  exists l'. split_and!; [|by apply quiet_kept|done].
  eapply quiet_inv in Hi as (H1 & H2 & H3); [|apply (Hq t c s)|reflexivity..]. split_and!.
  - eapply lock_same; [|done|done|done|exact H1]. apply insert_field. by rewrite Hl.
  - destruct (Hq t c s) as (Hv & _). rewrite <- (Hv HAS_INIT) in Hs by done.
    split; try apply H2.
    + intros Hn t'. rewrite insert_field; [by apply H2|by rewrite Hl].
    + intros a' b'. rewrite !(insert_field g_start) by by rewrite Hl. apply H2.
    + intros t'. rewrite (insert_field g_start) by by rewrite Hl. apply H2.
    + intros t'. destruct Hs as [Hs|Hs]; [|done].
      rewrite (insert_field g_seen) by by rewrite Hl. apply H2.
  - destruct (Hq t c s) as (Hv & _). rewrite <- (Hv PID) in Hf by done. split; try apply H3.
    intros t'. destruct Hf as [Hf|Hf]; [|done]. rewrite (insert_field g_forked) by by rewrite Hl. apply H3.
Qed.

Lemma ok_read_fork n t l :
  ok n t l (do_act (Read HAS_FORK)) (fun f l' => l' = if f =? 1 then set_forked l else l).
Proof.
  apply ok_know; [done|]. intros gs s c Hl (_ & _ & Hi). cbn.
  destruct (Z.eqb_spec (s_var s HAS_FORK) 1) as [H|H].
  - exists (set_forked l). split_and!; try done; [by left|]. right. by apply (di_fork _ _ Hi).
  - exists l. split_and!; try done; by left.
Qed.

Lemma ok_read_pid n t l : g_forked l = true -> ok n t l (do_act (Read PID)) (fun x l' => x = pid /\ l' = l).
Proof.
  intros Hf. apply ok_quiet. intros gs s c Hl (_ & _ & Hi). cbn. split_and!; try done.
  apply (di_forked _ _ Hi t). by rewrite Hl.
Qed.

Lemma ok_read_tid n t l : ok n t l (do_act ReadTid) (fun x l' => (x = -1 \/ x = tid t) /\ l' = l).
Proof. apply ok_quiet. intros gs s c Hl (_ & _ & Hi). split; [done|]. split; [apply (di_tid _ _ Hi)|done]. Qed.

Lemma ok_gettid n t l : ok n t l (do_act Gettid) (fun x l' => x = tid t /\ l' = l).
Proof. by apply ok_quiet. Qed.

Lemma ok_write_tid n t l : ok n t l (do_act (WriteTid (tid t))) (fun _ l' => l' = l).
Proof.
  apply ok_do. intros gs s c Hl (H1 & H2 & H3). exists l. split_and!; [|done|done]. split_and!.
  - apply (lock_same gs _ s); [|done..]. apply insert_field. by rewrite Hl.
  - apply (init_same gs _ s); [| |done..]; apply insert_field; by rewrite Hl.
  - split; try apply H3; cbn.
    + intros t'. rewrite (insert_field g_forked) by by rewrite Hl. apply H3.
    + intros t'. destruct (decide (t' = t)) as [->|Hne]; [right; by rewrite fn_lookup_insert|].
      rewrite fn_lookup_insert_ne by done. apply H3.
Qed.

(** The number in the line, and for the lock, is not 0. *)
Definition line_id (fork : Z) : program Z := if fork =? 1 then do_act (Read PID) else do_act ReadTid.

Lemma ok_line_id n t l fork :
  (fork = 1 -> g_forked l = true) -> ok n t l (line_id fork) (fun id l' => id <> 0 /\ l' = l).
Proof using Hpid Htid.
  intros Hf. unfold line_id. destruct (Z.eqb_spec fork 1) as [E|E].
  - eapply ok_mono; [apply ok_read_pid; auto|]. intros x l' [-> ->]. done.
  - eapply ok_mono; [apply ok_read_tid|]. intros x l' [[-> | ->] ->]; [done|]. specialize (Htid t). split; [lia|done].
Qed.

Lemma ok_own_tid n t l (x : Z) :
  ok n t l (if x =? -1 then let! t' := do_act Gettid in do_act (WriteTid t') else Ret tt) (fun _ l' => l' = l).
Proof.
  destruct (x =? -1); [|by apply ok_ret]. eapply ok_pbind; [apply ok_gettid|]. cbv beta.
  intros m r l' _ [-> ->]. apply ok_write_tid.
Qed.

(** The head of a line fits the buffer when the name of the file does. *)
Lemma count_digits_fuel (fuel : nat) v : (count_digits fuel v <= S fuel)%nat.
Proof. revert v. induction fuel as [|f IH]; intros v; cbn; [lia|]. case_match; [lia|]. specialize (IH (v / 10)). lia. Qed.
Lemma ndigits_20 v : (ndigits v <= 20)%nat.
Proof. apply count_digits_fuel. Qed.
Lemma length_sdec v : (length (sdec v) <= 21)%nat.
Proof.
  assert (forall x, (length (dec x) <= 20)%nat) as H.
  { intros x. unfold dec. rewrite length_fixed. apply ndigits_20. }
  unfold sdec. destruct (v <? 0); cbn [length]; [specialize (H (- v))|specialize (H v)]; lia.
Qed.
Lemma length_blank_pad v : (length (blank_pad 5 v) <= 26)%nat.
Proof. unfold blank_pad. rewrite length_app, length_replicate. pose proof (length_sdec v). lia. Qed.
Lemma length_level_str level : (length (level_str level) <= 20)%nat.
Proof.
  unfold level_str. repeat (case_match; [cbn; lia|]). rewrite pad_length. pose proof (ndigits_20 level). lia.
Qed.

Lemma header_fits ls id ti file line :
  (length ls <= 20)%nat -> (length file <= 3800)%nat -> 0 < strlen (line_head ls id ti file line) < LOG_BUF.
Proof.
  intros Hls Hfile. unfold strlen, line_head, LOG_BUF. rewrite !length_app, !pad_length.
  pose proof (ndigits_20 (ti_hour ti)). pose proof (ndigits_20 (ti_min ti)). pose proof (ndigits_20 (ti_sec ti)).
  pose proof (ndigits_20 (ti_msec ti)). pose proof (length_sdec line). pose proof (length_blank_pad id).
  change (length (B "[ ")) with 2%nat. change (length (B " ")) with 1%nat. change (length (B ":")) with 1%nat.
  change (length (B ".")) with 1%nat. change (length (B " ] ")) with 3%nat. lia.
Qed.

Lemma ok_log_write n t l file line level msg :
  (length file <= 3800)%nat -> calm l ->
  ok n t l (log_write localtime file line level msg) (fun _ l' => same l l').
Proof using Hpid Htid.
  intros Hfile [Hl Hst]. unfold log_write, log_writev, log_write_impl.
  bind_with (ok_harmless (X := log_config)) config. destruct (level <? _); [by apply ok_ret|].
  bind_with idle_get_time ti. eapply ok_pbind; [apply ok_read_tid|]. cbv beta. intros ? x ? _ [_ ->].
  bind_with ok_own_tid u. bind_with ok_read_fork fork.
  set (l' := if fork =? 1 then set_forked l else l).
  assert (same l l' /\ g_rot l' = Idle) as [Hs Hl'] by (unfold l'; by destruct (fork =? 1)).
  change (if fork =? 1 then do_act (Read PID) else do_act ReadTid) with (line_id fork).
  eapply ok_pbind; [apply ok_line_id; unfold l'; by intros ->|]. cbv beta. intros ? id ? _ [Hid ->].
  bind_with (ok_harmless (X := Z)) init.
  eapply (ok_pbind _ _ _ _ _ _ _ _ _ (fun _ l0 => l0 = l')).
  - destruct (init =? LOG_HAS_INIT); [|by apply ok_ret]. bind_with (ok_harmless (X := Z)) last_day.
    destruct (ti_day ti =? last_day); [by apply ok_ret|by apply ok_new_day].
  - cbv beta. intros ? go ? _ ->. destruct go; [|by apply ok_ret].
    eapply ok_mono; [apply idle_put_line|]; [|by intros ? ? ->].
    by apply header_fits; [apply length_level_str|].
Qed.

(** *** The initialisation *)
Lemma start_insert (gs : nat -> ghost) (t : nat) l t' :
  g_start (<[t := l]> gs t') = if decide (t' = t) then g_start l else g_start (gs t').
Proof. case_decide as H; [subst; by rewrite fn_lookup_insert|]. by rewrite fn_lookup_insert_ne by done. Qed.

(** A step of the thread that initialises, or that claims to. *)
Lemma init_step gs s (t : nat) l s' :
  init_inv gs s -> s_var s HAS_INIT <> 2 -> (forall t', t' <> t -> g_start (gs t') = NotStarting) ->
  (s_var s' HAS_INIT = 0 \/ s_var s' HAS_INIT = 1 \/ s_var s' HAS_INIT = 2) ->
  (s_var s' HAS_INIT <> 1 -> g_start l = NotStarting) -> (g_start l = Copied -> s_config s' ∈ configs) ->
  (s_var s' HAS_INIT = 2 -> s_config s' ∈ configs) -> (g_seen l = true -> s_var s' HAS_INIT = 2) ->
  init_inv (<[t := l]> gs) s'.
Proof.
  intros Hi Hn Ho Hv Hs Hc Hc2 Hseen. split; [done| | | |done|].
  - intros H t'. rewrite start_insert. case_decide; auto.
  - intros a b. rewrite !start_insert. do 2 case_decide; subst; intros Ha Hb; [done| | |].
    + by rewrite Ho in Hb.
    + by rewrite Ho in Ha.
    + by rewrite Ho in Ha.
  - intros t'. rewrite start_insert. case_decide; [done|]. by rewrite Ho.
  - intros t'. destruct (decide (t' = t)) as [->|Hne]; [by rewrite fn_lookup_insert|].
    rewrite fn_lookup_insert_ne by done. intros H. exfalso. apply Hn. by eapply ii_seen.
Qed.

Lemma others_not_starting gs s t : init_inv gs s -> g_start (gs t) <> NotStarting ->
  s_var s HAS_INIT = 1 /\ forall t', t' <> t -> g_start (gs t') = NotStarting.
Proof.
  intros Hi Ht. split.
  - destruct (decide (s_var s HAS_INIT = 1)) as [|Hn]; [done|]. by pose proof (ii_start _ _ Hi Hn t).
  - intros t' Hne. destruct (g_start (gs t')) eqn:E; [done| |]; exfalso; apply Hne; apply (ii_one _ _ Hi); congruence.
Qed.

Lemma ok_cas_init n t l : calm l ->
  ok n t l (do_act (Cas HAS_INIT LOG_NEED_INIT LOG_INIT_ING)) (fun old l' =>
    (old = 0 /\ g_seen l = false /\ l' = Ghost Idle Claimed false (g_forked l)) \/ (old = 1 /\ l' = l) \/ (old = 2 /\ l' = set_seen l)).
Proof.
  intros [Hr Hst]. apply ok_do. intros gs s c Hl (H1 & H2 & H3). cbn.
  destruct (Z.eqb_spec (s_var s HAS_INIT) LOG_NEED_INIT) as [H0|H0]; unfold LOG_NEED_INIT in H0; cbn.
  - assert (g_seen l = false) as Hn.
    { apply not_true_is_false. intros H. rewrite <- Hl in H. apply (ii_seen _ _ H2) in H. lia. }
    exists (Ghost Idle Claimed false (g_forked l)). split_and!; [split_and!| |by left].
    + apply (lock_same gs _ s); [apply insert_field; by rewrite Hl|done..].
    + assert (s_var (put_var HAS_INIT LOG_INIT_ING s) HAS_INIT = 1) as E by reflexivity.
      apply (init_step gs s); rewrite ?E; try done; [lia| |by right; left].
      intros t' _. apply (ii_start _ _ H2). lia.
    + apply (id_same gs _ s); [apply insert_field; by rewrite Hl|done..].
    + intros H. lia.
  - destruct (Z.eqb_spec (s_var s HAS_INIT) 1) as [Ho|Ho].
    + exists l. split_and!; [|done|by right; left].
      eapply quiet_inv; [apply (quiet_refl s)| | | | |by split_and!]; apply insert_field; by rewrite Hl.
    + assert (s_var s HAS_INIT = 2) as E by by destruct (ii_state _ _ H2) as [|[|]].
      exists (set_seen l). split_and!; [split_and!|done|by right; right].
      * apply (lock_same gs _ s); [|done..]. apply insert_field. by rewrite Hl.
      * split; try apply H2.
        -- intros Hn t'. rewrite (insert_field g_start) by by rewrite Hl. by apply H2.
        -- intros a b. rewrite !(insert_field g_start) by by rewrite Hl. apply H2.
        -- intros t'. rewrite (insert_field g_start) by by rewrite Hl. apply H2.
        -- done.
      * apply (id_same gs _ s); [|done..]. apply insert_field. by rewrite Hl.
Qed.

(** The thread that initialises copies the configuration, and ends with success or not. *)
Lemma ok_starting {X} n t l (a : act X) (Q : X -> ghost -> Prop) l' :
  g_start l <> NotStarting -> g_rot l' = g_rot l -> g_forked l' = g_forked l ->
  (forall c s, s_var s HAS_INIT = 1 -> (g_start l = Copied -> s_config s ∈ configs) ->
     let s' := (perform pid tid t c X a s).2 in
     (forall x, x <> HAS_INIT -> s_var s' x = s_var s x) /\ k_fds s' = k_fds s /\
     (forall t, t_tid s' t = t_tid s t) /\
     (s_var s' HAS_INIT = 0 \/ s_var s' HAS_INIT = 1 \/ s_var s' HAS_INIT = 2) /\
     (s_var s' HAS_INIT <> 1 -> g_start l' = NotStarting) /\ (g_start l' = Copied -> s_config s' ∈ configs) /\
     (s_var s' HAS_INIT = 2 -> s_config s' ∈ configs) /\ (g_seen l' = true -> s_var s' HAS_INIT = 2) /\
     Q (perform pid tid t c X a s).1 l') ->
  ok n t l (do_act a) Q.
Proof.
  intros Hst Hr Hf H. apply ok_do. intros gs s c Hl (H1 & H2 & H3). rewrite <- Hl in Hst.
  destruct (others_not_starting gs s t H2 Hst) as [E1 Ho]. rewrite Hl in Hst.
  destruct (H c s E1) as (Hv & Hk & Ht & Hi & Hs & Hc & Hc2 & Hn & HQ).
  { rewrite <- Hl. apply H2. }
  exists l'. split_and!; [split_and!|intros E; lia|done].
  - apply (lock_same gs _ s); [apply insert_field; by rewrite Hl|by apply Hv..|by rewrite Hk|done].
  - apply (init_step gs s); try done. lia.
  - apply (id_same gs _ s); [apply insert_field; by rewrite Hl|by apply Hv..|done|done].
Qed.

Lemma ok_wait_init n t l : ok n t l wait_init (fun _ l' => l' = set_seen l).
Proof.
  apply (ok_iter _ _ _ _ _ (fun _ l' => l' = l)); [|done]. intros m _ l' _ ->.
  eapply (ok_pbind _ _ _ _ _ _ _ _ _ (fun x l' => l' = if x =? LOG_HAS_INIT then set_seen l else l)).
  - apply ok_know; [done|]. intros gs s c _ _. cbn. destruct (Z.eqb_spec (s_var s HAS_INIT) LOG_HAS_INIT) as [E|E].
    + exists (set_seen l). split_and!; try done; [by right|by left].
    + exists l. split_and!; try done; by left.
  - cbv beta. intros ? x ? _ ->. destruct (x =? LOG_HAS_INIT); [by apply ok_ret|].
    bind_with idle_do_sleep u. by apply ok_ret.
Qed.

Lemma ok_note_pid n t l : ok n t l (note_pid) (fun r l' => r = 0 /\ same l l').
Proof.
  unfold note_pid. bind_with (ok_harmless (X := Z)) lastp.
  eapply (ok_pbind _ _ _ _ _ _ _ _ _ (fun x l' => x = pid /\ l' = l)); [by apply ok_quiet|].
  cbv beta. intros ? cur ? _ [-> ->]. eapply (ok_pbind _ _ _ _ _ _ _ _ _ (fun _ l' => same l l')).
  - destruct (_ && _); [|by apply ok_ret].
    eapply (ok_pbind _ _ _ _ _ _ _ _ _ (fun _ l' => l' = set_forked l)).
    + apply ok_do. intros gs s c Hl (H1 & H2 & H3). exists (set_forked l). split_and!; [split_and!|done|done].
      * apply (lock_same gs _ s); [apply insert_field; by rewrite Hl|done..].
      * apply (init_same gs _ s); [apply insert_field; by rewrite Hl|apply insert_field; by rewrite Hl|done..].
      * split; [by intros|by intros|apply H3].
    + cbv beta. intros ? u ? _ ->. apply ok_do. intros gs s c Hl (H1 & H2 & H3).
      exists (set_forked l). split_and!; [split_and!|done|done].
      * apply (lock_same gs _ s); [apply insert_field; by rewrite Hl|done..].
      * apply (init_same gs _ s); [apply insert_field; by rewrite Hl|apply insert_field; by rewrite Hl|done..].
      * assert (s_var s PID = pid) as Hp by (apply (di_forked _ _ H3 t); by rewrite Hl).
        split; [by intros|by intros|apply H3].
  - cbv beta. intros ? u ? _ H. by apply ok_ret.
Qed.

(** After the thread that initialises, or that waited for it. *)
Definition inited (l : ghost) (r : Z) (l' : ghost) : Prop :=
  calm l' /\ (r = 0 -> g_seen l' = true) /\ (g_seen l = true -> g_seen l' = true).

Lemma ok_inited n t l l0 : calm l -> g_seen l = true -> ok n t l note_pid (inited l0).
Proof.
  intros Hc Hs. eapply ok_mono; [apply ok_note_pid|]. intros r l' [-> Hl']. split_and!; [by eapply calm_same| |].
  - intros _. by apply Hl'.
  - intros _. by apply Hl'.
Qed.

Lemma ok_wait n t l l0 : calm l -> ok n t l (wait_init ;;; note_pid) (inited l0).
Proof. intros Hc. bind_with ok_wait_init u. by apply ok_inited. Qed.

Lemma ok_log_init n t l config :
  config ∈ configs -> calm l -> ok n t l (log_init config) (inited l).
Proof.
  intros Hin Hc. unfold log_init. eapply ok_pbind; [by apply ok_cas_init|]. cbv beta.
  intros ? old ? _ [(-> & Hn & ->)|[(-> & ->)|(-> & ->)]];
    cbv [Z.eqb Pos.eqb LOG_NEED_INIT LOG_INIT_ING LOG_HAS_INIT]; [|by apply ok_wait|by apply ok_inited].
  set (f := g_forked l).
  eapply (ok_pbind _ _ _ _ _ _ _ _ _ (fun _ l' => l' = Ghost Idle Copied false f)).
  { eapply (ok_starting _ _ _ _ _ (Ghost Idle Copied false f)); [done..|].
    intros c s E _. cbn. rewrite E. split_and!; try done; lia. }
  cbv beta. intros ? u ? _ ->. bind_with (ok_harmless (X := log_config)) g_config.
  bind_with idle_do_mkdir r. destruct (r <? 0).
  - bind_with (ok_harmless (X := unit)) u'.
    eapply (ok_pbind _ _ _ _ _ _ _ _ _ (fun _ l' => l' = Ghost Idle NotStarting false f)).
    + eapply (ok_starting _ _ _ _ _ (Ghost Idle NotStarting false f)); [done..|].
      intros c s E _ s'. split_and!; [|done|done|by left|done|done|done|done|done].
      intros x Hx. unfold s'. cbn. by rewrite fn_lookup_insert_ne.
    + cbv beta. intros ? u2 ? _ ->. apply ok_ret. split_and!; [done|done|by rewrite Hn].
  - eapply (ok_pbind _ _ _ _ _ _ _ _ _ (fun _ l' => l' = Ghost Idle NotStarting true f)).
    + eapply (ok_starting _ _ _ _ _ (Ghost Idle NotStarting true f)); [done..|].
      intros c s E Hcp s'. split_and!; [|done|done|by right; right|done|done|by intros _; apply Hcp|done|done].
      intros x Hx. unfold s'. cbn. by rewrite fn_lookup_insert_ne.
    + cbv beta. intros ? u2 ? _ ->. by apply ok_wait.
Qed.

(** *** The threads *)
Definition call_ok (c : log_call) : Prop :=
  match c with
  | Init config => config ∈ configs
  | Log file _ _ _ => (length file <= 3800)%nat
  | Pause _ => True
  end.

Lemma ok_thread n t l calls : Forall call_ok calls -> calm l ->
  ok n t l (thread localtime calls) (fun rs l' => calm l' /\ (0 ∈ rs \/ g_seen l = true -> g_seen l' = true)).
Proof using Hpid Htid.
  intros Hf. revert n l. induction Hf as [|c calls Hc Hf IH]; intros n l Hl; cbn [thread].
  - apply ok_ret. split; [done|]. intros [H|H]; [by apply elem_of_nil in H|done].
  - destruct c as [config|file line level msg|ms]; cbn in Hc.
    + eapply ok_pbind; [by apply ok_log_init|]. cbv beta. intros m r l' _ (Hl' & Hr & Hs).
      eapply ok_pbind; [by apply IH|]. cbv beta. intros m' rs l2 _ (Hl2 & Hrs). apply ok_ret.
      split; [done|]. intros [[H|H]%elem_of_cons|H]; apply Hrs; auto.
    + eapply ok_pbind; [by apply ok_log_write|]. cbv beta. intros m r l' _ Hs.
      eapply ok_mono; [apply IH; by eapply calm_same|]. cbv beta. intros rs l2 [Hl2 Hrs].
      split; [done|]. intros H. apply Hrs. destruct H as [H|H]; [by left|right]. by apply Hs.
    + bind_with idle_do_sleep u. by apply IH.
Qed.

Lemma log_env (ns : Z) gs s : log_inv gs s -> log_inv gs (env ns s) /\ kept s (env ns s).
Proof.
  intros H. split; [|done]. eapply quiet_inv; [| | | | |exact H]; done.
Qed.

Definition start_ghost : ghost := Ghost Idle NotStarting false false.

Lemma log_start_inv now : log_inv (fun _ => start_ghost) (log_start now).
Proof.
  split_and!; split; cbn; try done; auto.
Qed.

(** Any state of a run from the start of the process. *)
Lemma log_run evs evs' now (calls : list (list log_call)) ps s ps' s' :
  Forall (Forall call_ok) calls ->
  run (perform pid tid) env evs (thread localtime <$> calls) (log_start now) = (ps, s) ->
  run (perform pid tid) env evs' ps s = (ps', s') ->
  exists gs, log_inv gs s /\ kept s s' /\ (forall t p n, ps !! t = Some p -> (n <= 1)%nat ->
    ok n t (gs t) p (fun rs l' => calm l' /\ (0 ∈ rs -> g_seen l' = true))) /\
    forall t, ps !! t = None -> calm (gs t).
Proof using Hpid Htid.
  intros Hc E E'. set (Q := fun (_ : nat) (rs : list Z) l' => calm l' /\ (0 ∈ rs -> g_seen l' = true)).
  destruct (run_ok (perform pid tid) env log_inv kept log_env evs (length evs' + 1) (fun _ => start_ghost)
              (thread localtime <$> calls) (log_start now) Q ps s) as (gs & Hi & _ & Hok & Hlen & Hn);
    [|apply log_start_inv|exact E|].
  { intros t p [cs [-> Hcs]]%list_lookup_fmap_Some.
    eapply ok_mono; [apply ok_thread; [by eapply Forall_lookup_1|done]|].
    intros rs l' [Hl' Hrs]. split; [done|]. intros H. apply Hrs. by left. }
  destruct (run_ok (perform pid tid) env log_inv kept log_env evs' 1 gs ps s Q ps' s' Hok Hi E')
    as (gs' & _ & Hk & _).
  exists gs. split_and!; [done|by apply kept_rtc| |].
  - intros t p n Hp Hn1. eapply ok_le; [|by apply Hok]. lia.
  - intros t Ht. rewrite Hn; [done|]. apply lookup_ge_None in Ht. apply lookup_ge_None. lia.
Qed.
End Inv.

(** ** The properties *)

(** The configurations that the threads give to [log_init]. *)
Definition given (calls : list (list log_call)) : list log_config :=
  omap (fun c => match c with Init config => Some config | _ => None end) (mjoin calls).

(** The names of source files are short: __FILE__. *)
Definition short_names (calls : list (list log_call)) : Prop :=
  Forall (fun c => match c with Log file _ _ _ => (length file <= 3800)%nat | _ => True end) (mjoin calls).

Lemma calls_are_ok calls : short_names calls -> Forall (Forall (call_ok (given calls))) calls.
Proof.
  intros H. apply Forall_forall. intros cs Hcs. apply Forall_forall. intros c Hc.
  assert (c ∈ mjoin calls) as Hin by (apply list_elem_of_join; by exists cs).
  destruct c as [config|file line level msg|ms]; cbn.
  - apply list_elem_of_omap. by exists (Init config).
  - unfold short_names in H. rewrite Forall_forall in H. by apply H in Hin.
  - done.
Qed.

Section Properties.
Context (pid : Z) (tid : nat -> Z) (localtime : Z -> Z * Z * Z).

Abbreviation threads := (fmap (M := list) (thread localtime)).
Abbreviation run := (Threads.run (perform pid tid) env).

Lemma lock_size configs gs s : log_inv pid tid configs gs s -> (size (dom (k_fds s)) <= 2)%nat.
Proof.
  intros (Hi & _). assert (size (log_fds s) <= 1)%nat as H1.
  { unfold log_fds. destruct (_ =? -1); [rewrite size_empty; lia|by rewrite size_singleton]. }
  assert (forall x, dom (k_fds s) ⊆ log_fds s ∪ {[x]} -> size (dom (k_fds s)) <= 2)%nat as H2.
  { intros x Hx. apply subseteq_size in Hx. pose proof (size_union_alt (log_fds s) {[x]}) as Hs.
    assert (size ({[x]} ∖ log_fds s) <= 1)%nat.
    { rewrite <- (size_singleton (C := gset Z) x). apply subseteq_size. set_solver. }
    lia. }
  destruct (decide (s_var s CURRENT_TID = 0)) as [E|E].
  - rewrite (li_idle _ _ Hi) by by apply (li_free _ _ Hi). lia.
  - destruct (li_held _ _ Hi E) as [t Ht]. pose proof (li_rot _ _ Hi t) as Hr.
    destruct (g_rot (gs t)) as [| |n|o]; cbn in Hr; [done|rewrite Hr; lia| |].
    + apply (H2 n). destruct Hr as (-> & _). done.
    + apply (H2 o). apply Hr.
Qed.

(** C13: the file of the log is changed by one thread at a time.  Any number of
    threads with any calls, in any order of their steps, whatever the system
    answers and however the clock goes: no step overruns the buffer; the log
    never has more than two descriptors open; while the lock is free it has
    exactly [log_fd], so no descriptor is lost; and when all threads have ended
    the lock is free. *)
Theorem rotation_safe calls evs now ps s :
  pid <> 0 -> (forall t, 0 < tid t) -> short_names calls ->
  run evs (threads calls) (log_start now) = (ps, s) ->
  (forall t, ps !! t <> Some Crash) /\
  (size (dom (k_fds s)) <= 2)%nat /\
  (s_var s CURRENT_TID = 0 -> dom (k_fds s) = log_fds s) /\
  ((forall t p, ps !! t = Some p -> exists rs, p = Ret rs) -> s_var s CURRENT_TID = 0).
Proof.
  intros Hpid Htid Hs E.
  destruct (log_run pid tid localtime (given calls) Hpid Htid evs [] now calls ps s ps s) as (gs & Hi & _ & Hok & Hn);
    [by apply calls_are_ok|exact E|done|].
  split_and!.
  - intros t Ht. by specialize (Hok t Crash 1%nat Ht (le_n 1)).
  - by eapply lock_size.
  - intros H. apply (li_idle _ _ (proj1 Hi)). by apply (li_free _ _ (proj1 Hi)).
  - intros Hend. destruct (decide (s_var s CURRENT_TID = 0)) as [|Hne]; [done|exfalso].
    destruct (li_held _ _ (proj1 Hi) Hne) as [t Ht]. apply Ht.
    destruct (ps !! t) as [p|] eqn:Et; [|by apply Hn].
    destruct (Hend t p Et) as [rs ->]. by destruct (Hok t _ 1%nat Et (le_n 1)) as [[H _] _].
Qed.

(** C14: the log is initialised once.  Once a thread has got the result 0 from
    [log_init] the log is initialised; and an initialised log has the
    configuration of one of the callers, which no later step of any thread
    changes, further calls of [log_init] included. *)
Theorem init_once calls evs now ps s :
  pid <> 0 -> (forall t, 0 < tid t) -> short_names calls ->
  run evs (threads calls) (log_start now) = (ps, s) ->
  ((exists t rs, ps !! t = Some (Ret rs) /\ 0 ∈ rs) -> s_var s HAS_INIT = LOG_HAS_INIT) /\
  (s_var s HAS_INIT = LOG_HAS_INIT -> s_config s ∈ given calls /\
     forall evs' ps' s', run evs' ps s = (ps', s') ->
       s_var s' HAS_INIT = LOG_HAS_INIT /\ s_config s' = s_config s).
Proof.
  intros Hpid Htid Hs E. split.
  - intros (t & rs & Et & H0).
    destruct (log_run pid tid localtime (given calls) Hpid Htid evs [] now calls ps s ps s) as (gs & Hi & _ & Hok & _);
      [by apply calls_are_ok|exact E|done|].
    destruct (Hok t _ 1%nat Et (le_n 1)) as [_ Hseen]. apply (ii_seen _ _ _ (proj1 (proj2 Hi)) t). by apply Hseen.
  - intros H2. split.
    + destruct (log_run pid tid localtime (given calls) Hpid Htid evs [] now calls ps s ps s) as (gs & Hi & _);
        [by apply calls_are_ok|exact E|done|]. by apply (ii_config _ _ _ (proj1 (proj2 Hi))).
    + intros evs' ps' s' E'.
      destruct (log_run pid tid localtime (given calls) Hpid Htid evs evs' now calls ps s ps' s') as (gs & _ & Hk & _);
        [by apply calls_are_ok|exact E|exact E'|]. by apply Hk.
Qed.
End Properties.

(** ** Witnesses: two threads that initialise and write a line *)
Definition sample_localtime (_ : Z) : Z * Z * Z := (113, 5, 14).
Definition sample_tid (t : nat) : Z := 100 + Z.of_nat t.
Definition fine : sys_answer := SysAnswer 0 0 false.
Definition sample_log_config (level : Z) : log_config := LogConfig (B "/log") (B "ucmq") level 0.
Definition sample_calls : list (list log_call) :=
  [[Init (sample_log_config 10); Log (B "a.c") 7 100 (B "one")];
   [Init (sample_log_config 100); Log (B "b.c") 9 1000 (B "two")]].
Definition alternate (n : nat) : list (tick (C := sys_answer) (E := Z)) :=
  mjoin (replicate n [Run 0%nat fine; Run 1%nat fine]).
Definition sample_now : Z := (15870 * 86400 + 3 * 3600 + 5 * 60 + 9) * SECOND.

Abbreviation sample_run evs calls :=
  (Threads.run (perform 42 sample_tid) env evs (thread sample_localtime <$> calls) (log_start sample_now)).

Lemma sample_tid_pos t : 0 < sample_tid t.
Proof. unfold sample_tid. lia. Qed.

Lemma sample_short : short_names sample_calls.
Proof. repeat constructor; cbn; lia. Qed.

(** Both threads are served by the same process number, so that the second one
    takes the lock of the first for its own: its line is in no file. *)
Example second_line_lost :
  map_to_list (k_files (sample_run (alternate 60) sample_calls).2) =
    [(B "/log/ucmq_20130614.log", B "[ INFO     42 03:05:09.001 a.c:7 ] one" ++ [10])] /\
  k_stderr (sample_run (alternate 60) sample_calls).2 = [B "uc_log_v has reentry"] /\
  s_var (sample_run (alternate 60) sample_calls).2 HAS_FORK = 1.
Proof. split_and!; vm_compute; reflexivity. Qed.

Lemma rotation_safe_witness : exists ps s,
  sample_run (alternate 20) sample_calls = (ps, s) /\ (size (dom (k_fds s)) <= 2)%nat /\
  (forall t, ps !! t <> Some Crash).
Proof.
  destruct (sample_run (alternate 20) sample_calls) as [ps s] eqn:E. exists ps, s.
  destruct (rotation_safe 42 sample_tid sample_localtime sample_calls (alternate 20) sample_now ps s)
    as (H1 & H2 & _); [lia|exact sample_tid_pos|exact sample_short|exact E|].
  by split_and!.
Defined.

Lemma init_once_witness : exists ps s,
  sample_run (alternate 60) sample_calls = (ps, s) /\ s_var s HAS_INIT = LOG_HAS_INIT /\
  s_config s ∈ given sample_calls.
Proof.
  destruct (sample_run (alternate 60) sample_calls) as [ps s] eqn:E. exists ps, s.
  destruct (init_once 42 sample_tid sample_localtime sample_calls (alternate 60) sample_now ps s)
    as (H1 & H2); [lia|exact sample_tid_pos|exact sample_short|exact E|].
  assert (s_var s HAS_INIT = LOG_HAS_INIT) as Hi.
  { apply H1. exists 0%nat, [0]. split; [|by left].
    replace ps with (sample_run (alternate 60) sample_calls).1 by by rewrite E. by vm_compute. }
  split_and!; [done|done|by apply H2].
Defined.

(** ** A thread that waits for ever *)

(** [log_init] waits for the thread that initialises; when that one fails it sets
    the state back, and the loop of the waiting thread does not look for this. *)
Definition uninit (_ : nat -> unit) (s : shared) : Prop := s_var s HAS_INIT = LOG_NEED_INIT.

(** An action that leaves the state of the initialisation alone. *)
Definition spares_act {X} (a : act X) : bool :=
  match a with
  | Write HAS_INIT _ | Swap HAS_INIT _ | Cas HAS_INIT _ _ => false
  | _ => true
  end.

(** A program of such actions only: one that does not call [log_init]. *)
Inductive spares : forall R, program R -> Prop :=
| spares_ret R (r : R) : spares R (Ret r)
| spares_crash R : spares R Crash
| spares_perform R X (a : act X) k : spares_act a = true -> (forall x, spares R (k x)) -> spares R (Act a k)
| spares_iter R I X (body : I -> program (I + X)) i k :
    (forall i, spares _ (body i)) -> (forall x, spares R (k x)) -> spares R (Iter body i k).
#[global] Arguments spares {R} _.

Lemma spares_pbind {R S} (p : program R) (f : R -> program S) :
  spares p -> (forall r, spares (f r)) -> spares (pbind p f).
Proof. induction 1; intros Hf; cbn; [done|constructor|by constructor; auto|by constructor; auto]. Qed.
Lemma spares_do {X} (a : act X) : spares_act a = true -> spares (do_act a).
Proof. intros H. constructor; [done|]. intros x. constructor. Qed.
Lemma spares_loop {I X} (body : I -> program (I + X)) i : (forall i, spares (body i)) -> spares (loop body i).
Proof. intros H. constructor; [done|]. intros x. constructor. Qed.

Ltac spares_step :=
  lazymatch goal with
  | |- spares (pbind _ _) => apply spares_pbind
  | |- spares (loop _ _) => apply spares_loop
  | |- spares (Ret _) => constructor
  | |- spares Crash => constructor
  | |- spares (do_act _) => by apply spares_do
  | |- spares (if ?b then _ else _) => destruct b
  | |- spares (match ?b with _ => _ end) => destruct b
  | |- forall _, _ => intros
  end.
Ltac spares_tac := repeat spares_step.

Lemma spares_mkdir_from done rest : spares (mkdir_from done rest).
Proof.
  revert done. induction rest as [|c rest IH]; intros done; cbn [mkdir_from]; unfold mkdir_one; spares_tac; auto.
Qed.
Lemma spares_log_write localtime file line level msg : spares (log_write localtime file line level msg).
Proof.
  unfold log_write, log_writev, log_write_impl, get_time, new_day, take_lock, open_log, close_retry, put_line, write_2_file.
  spares_tac.
Qed.

Definition no_init (c : log_call) : bool := match c with Init _ => false | _ => true end.

(** A thread that does not call [log_init], whatever else it calls. *)
Lemma spares_thread localtime calls : Forall no_init calls -> spares (thread localtime calls).
Proof.
  induction 1 as [|[config|file line level msg|ms] calls Hc Hf IH]; cbn [thread]; [constructor|done| |].
  - apply spares_pbind; [apply spares_log_write|done].
  - unfold do_sleep. spares_tac. apply IH.
Qed.

Section Waiting.
Context (pid : Z) (tid : nat -> Z).

Abbreviation ok := (Threads.ok (perform pid tid) uninit (fun _ _ => True)).

Lemma wait_init_hangs {R} n t (f : unit -> program R) Q : ok n t tt (pbind wait_init f) Q.
Proof.
  eapply (ok_pbind _ _ _ _ _ _ _ _ _ (fun _ _ => False)); [|by intros].
  apply (ok_iter _ _ _ _ _ (fun _ _ => True)); [|done]. intros m _ [] _ _.
  eapply (ok_pbind _ _ _ _ _ _ _ _ _ (fun x _ => x = LOG_NEED_INIT)).
  { apply ok_do. intros gs s c _ Hi. by exists tt. }
  intros m' x [] _ ->. cbv [Z.eqb LOG_NEED_INIT LOG_HAS_INIT].
  eapply (ok_pbind _ _ _ _ _ _ _ _ _ (fun _ _ => True)); [|intros; by apply ok_ret].
  unfold do_sleep. eapply (ok_pbind _ _ _ _ _ _ _ _ _ (fun _ _ => True)); [|intros; by apply ok_ret].
  apply (ok_iter _ _ _ _ _ (fun _ _ => True)); [|done]. intros m2 ns [] _ _.
  eapply (ok_pbind _ _ _ _ _ _ _ _ _ (fun _ _ => True)).
  - apply ok_do. intros gs s c _ Hi. exists tt. split_and!; try done. cbn. by destruct (c_errno c =? 0).
  - intros m3 r [] _ _. apply ok_ret. by destruct (_ && _).
Qed.

Lemma spares_perform_state t c X (a : act X) s :
  spares_act a = true -> s_var (perform pid tid t c X a s).2 HAS_INIT = s_var s HAS_INIT.
Proof.
  destruct a; cbn; try done; intros Hx;
    repeat first [case_decide | destruct (_ =? _) | case_match]; try done;
    cbn; rewrite fn_lookup_insert_ne; try done; by intros ->.
Qed.

Lemma spares_forward {R} t c (p : program R) s : spares p ->
  spares (forward (perform pid tid) t c p s).1 /\
  s_var (forward (perform pid tid) t c p s).2 HAS_INIT = s_var s HAS_INIT.
Proof.
  intros [R' r|R'|R' X a k Ha Hk|R' I X body i k Hb Hk]; cbn.
  - split; [constructor|done].
  - split; [constructor|done].
  - pose proof (spares_perform_state t c X a s Ha). destruct (perform _ _ _ _ _ _ _) as [x s'].
    split; [apply Hk|done].
  - split; [|done]. apply spares_pbind; [done|]. intros [i'|x]; [by constructor|done].
Qed.

(** A thread that is in the loop as long as the log is not initialised. *)
Definition stays {R} (t : nat) (p : program R) : Prop := forall n, ok n t tt p (fun _ _ => False).

Lemma stays_forward {R} t c (p : program R) s : stays t p -> s_var s HAS_INIT = LOG_NEED_INIT ->
  stays t (forward (perform pid tid) t c p s).1 /\
  s_var (forward (perform pid tid) t c p s).2 HAS_INIT = LOG_NEED_INIT.
Proof.
  intros H Hs. destruct p as [r| |X a k|I X body i k]; cbn.
  - destruct (H 1%nat).
  - destruct (H 1%nat).
  - destruct (perform pid tid t c X a s) as [x s'] eqn:E. cbn. split.
    + intros n. destruct (H (S n) (fun _ => tt) s c eq_refl Hs) as ([] & _ & _ & Ho). by rewrite E in Ho.
    + destruct (H 1%nat (fun _ => tt) s c eq_refl Hs) as (l & Hi & _). by rewrite E in Hi.
  - split; [|done]. intros n. apply (H (S n)).
Qed.

Lemma waiting_run {R} evs (ps : list (program R)) s :
  s_var s HAS_INIT = LOG_NEED_INIT ->
  (forall t p, ps !! t = Some p -> stays t p \/ spares p) ->
  forall t p, ps !! t = Some p -> stays t p ->
  exists p', (Threads.run (perform pid tid) env evs ps s).1 !! t = Some p' /\ stays t p'.
Proof.
  revert ps s. induction evs as [|[u c|e] evs IH]; intros ps s Hs Hps t p Ht Hp; cbn.
  - by exists p.
  - destruct (ps !! u) as [q|] eqn:Eu; [|by apply (IH ps s) with p].
    destruct (forward (perform pid tid) u c q s) as [q' s'] eqn:Ef.
    assert ((stays u q' \/ spares q') /\ (stays u q -> stays u q') /\ s_var s' HAS_INIT = LOG_NEED_INIT)
      as (Hq' & Hst & Hs').
    { destruct (Hps u q Eu) as [Hq|Hq].
      - pose proof (stays_forward u c q s Hq Hs) as [H1 H2]. rewrite Ef in H1, H2. auto.
      - pose proof (spares_forward u c q s Hq) as [H1 H2]. rewrite Ef in H1, H2. cbn in H2. rewrite Hs in H2.
        split_and!; [by right| |done]. intros Hq2.
        pose proof (stays_forward u c q s Hq2 Hs) as [H3 _]. by rewrite Ef in H3. }
    destruct (decide (t = u)) as [->|Hne].
    + rewrite Eu in Ht. injection Ht as <-. apply (IH _ s' Hs') with q'; [| |by apply Hst].
      * intros v r. rewrite list_lookup_insert_Some. intros [(-> & -> & _)|[_ Hr]]; [done|by apply Hps].
      * rewrite list_lookup_insert_eq; [done|by eapply lookup_lt_Some].
    + apply (IH _ s' Hs') with p; [| |done].
      * intros v r. rewrite list_lookup_insert_Some. intros [(-> & -> & _)|[_ Hr]]; [done|by apply Hps].
      * by rewrite list_lookup_insert_ne.
  - by apply (IH ps (env e s)) with p.
Qed.

(** C15: a thread that waits in [log_init] while the initialisation fails does not
    come back by itself: in whatever order the threads go on, with whatever answers
    of the system, and however the clock goes, no thread that waits returns as long
    as the other ones, in any number, do not call [log_init] again (they write
    lines, sleep or have ended). *)
Theorem waiter_hangs {R} (ps : list (program R)) s :
  s_var s HAS_INIT = LOG_NEED_INIT ->
  (forall t p, ps !! t = Some p -> (exists f, p = pbind wait_init f) \/ spares p) ->
  forall t f evs rs, ps !! t = Some (pbind wait_init f) ->
  (Threads.run (perform pid tid) env evs ps s).1 !! t <> Some (Ret rs).
Proof.
  intros Hs Hps t f evs rs Ht H.
  destruct (waiting_run evs ps s Hs) with t (pbind wait_init f) as (p' & Hp' & Hst); [|done| |].
  - intros u p Hu. destruct (Hps u p Hu) as [[g ->]|Hsp]; [|by right]. left. intros n. apply wait_init_hangs.
  - intros n. apply wait_init_hangs.
  - rewrite H in Hp'. injection Hp' as <-. destruct (Hst 1%nat).
Qed.
End Waiting.

Definition refused : sys_answer := SysAnswer 13 0 false.
Definition waiting_calls : list (list log_call) :=
  [[Init (sample_log_config 10)]; [Init (sample_log_config 10)]; [Log (B "c.c") 3 1000 (B "three"); Pause 5]].
(** Thread 0 claims the initialisation, thread 1 comes to wait, the directory of
    thread 0 is refused; thread 2 is about to write a line. *)
Definition failed_start : list (tick (C := sys_answer) (E := Z)) :=
  Run 0%nat fine :: Run 1%nat fine :: replicate 5 (Run 0%nat refused).

(** Then threads 1 and 2 go on by turns. *)
Definition long_wait : list (tick (C := sys_answer) (E := Z)) :=
  concat (replicate 50 [Run 1%nat fine; Run 2%nat fine]).

Lemma waiter_hangs_witness :
  let '(ps, s) := sample_run failed_start waiting_calls in
  ps !! 0%nat = Some (Ret [MQ_ENOENT]) /\
  (Threads.run (perform 42 sample_tid) env long_wait ps s).1 !! 1%nat <> Some (Ret [0]).
Proof.
  generalize long_wait. intros evs. unfold waiting_calls. cbn [fmap list_fmap].
  generalize (spares_thread sample_localtime [Log (B "c.c") 3 1000 (B "three"); Pause 5] ltac:(by repeat constructor)).
  generalize (thread sample_localtime [Log (B "c.c") 3 1000 (B "three"); Pause 5]). intros third Hthird.
  assert (exists f s, Threads.run (perform 42 sample_tid) env failed_start
            [thread sample_localtime [Init (sample_log_config 10)];
             thread sample_localtime [Init (sample_log_config 10)]; third] (log_start sample_now) =
            ([Ret [MQ_ENOENT]; pbind wait_init f; third], s) /\ s_var s HAS_INIT = LOG_NEED_INIT)
    as (f & s & -> & Hs).
  { eexists _, _. split; vm_compute; reflexivity. }
  split; [done|]. apply (waiter_hangs 42 sample_tid _ s Hs) with f; [|done].
  by intros [|[|[|t]]] p Hp; cbn in Hp; simplify_eq; [right; constructor|left; exists f|right].
Defined.
