(* ===== verification/LogSpec.v ===== *)
(** * What the log writes

    One thread, with a system that does what it is asked: the file of each day
    holds the lines of the messages of that day, in order.  The specification
    [a_session] is a function on a map from names to contents, without locks,
    descriptors or variables. *)
From S2P Require Import Prelude.
From S2P Require Import CLib.
From S2P Require Import Threads.
From S2P Require Import Log.
From S2P Require Import LogThreads.
From stdpp Require Import base functions list gmap.

#[local] Open Scope Z_scope.
#[local] Open Scope prog_scope.

(** ** The abstract log *)

(** The time zone as a number of hours, and the fields of a time in it. *)
Definition hours_east (config : log_config) : Z := i32 (time_zone config).
Definition local_sec (config : log_config) (sec : Z) : Z := sec + 3600 * hours_east config.
Definition local_day (config : log_config) (sec : Z) : Z := local_sec config sec / 86400.
Definition local_hour (config : log_config) (sec : Z) : Z := local_sec config sec mod 86400 / 3600.

Definition clock_info (config : log_config) (now : Z) : time_info :=
  let l := local_sec config (now / SECOND) in
  TimeInfo (l / 86400) (now mod SECOND / 1000000) (l mod 86400 / 3600) (l mod 3600 / 60) (l mod 60).

Section Spec.
Context (pid : Z) (localtime : Z -> Z * Z * Z) (config : log_config).

(** A message at the time [now], in nanoseconds: nothing below the level; a line
    in the file of the date; only the file when the line does not fit the buffer. *)
Definition a_log (now : Z) (file : bytes) (line level : Z) (msg : bytes) (files : gmap bytes bytes)
    : gmap bytes bytes :=
  if level <? log_level config then files
  else
    let text := line_head (level_str level) pid (clock_info config now) file line ++ msg in
    append_to (log_name config (localtime (now / SECOND)))
      (if strlen text <? LOG_BUF - 2 then with_newline text else []) files.

Fixpoint a_session (now : Z) (calls : list log_call) (files : gmap bytes bytes) : gmap bytes bytes :=
  match calls with
  | [] => files
  | Init _ :: rest => a_session now rest files
  | Log file line level msg :: rest => a_session now rest (a_log now file line level msg files)
  | Pause ms :: rest => a_session (now + ms * 1000000) rest files
  end.

(** ** What is asked of the calls *)

(** The seconds of the day count are those of a day 1 to 65535 in the time zone. *)
Definition good_sec (sec : Z) : Prop := 86400 <= sec /\ 1 <= local_day config sec < 65536.

(** Two messages that are written are less than 23 hours apart; [last] is the
    second of the one before. *)
Fixpoint steady (last : option Z) (now : Z) (calls : list log_call) : Prop :=
  match calls with
  | [] => True
  | Init _ :: rest => steady last now rest
  | Pause ms :: rest => 0 <= ms /\ steady last (now + ms * 1000000) rest
  | Log file _ level _ :: rest =>
      (length file <= 3800)%nat /\
      if level <? log_level config then steady last now rest
      else good_sec (now / SECOND) /\ (match last with Some p => Z.abs (now / SECOND - p) < 82800 | None => True end) /\
           steady (Some (now / SECOND)) now rest
  end.
End Spec.

(** ** Times *)
Ltac div_lia := Z.to_euclidean_division_equations; lia.

Lemma split_time a c m q :
  a = 86400 * q + 3600 * c + m -> 0 <= c < 24 -> 0 <= m < 3600 -> a / 86400 = q /\ a mod 86400 / 3600 = c.
Proof. intros -> Hc Hm. div_lia. Qed.

Lemma local_hour_range config sec : 0 <= local_hour config sec < 24.
Proof. unfold local_hour. div_lia. Qed.

(** The same hour on the clock within 23 hours is the same day. *)
Lemma same_hour_same_day config a b :
  local_hour config a = local_hour config b -> Z.abs (a - b) < 82800 -> local_day config a = local_day config b.
Proof.
  unfold local_hour, local_day, local_sec. set (k := 3600 * hours_east config). intros H Hab.
  div_lia.
Qed.

Lemma hour_day_spec config sec :
  0 <= sec -> -23 <= hours_east config <= 23 ->
  (hour_day config sec).1 = local_hour config sec /\
  (hour_day config sec).2 + Z.quot sec 86400 = local_day config sec.
Proof.
  intros Hs Htz. unfold hour_day.
  rewrite Z.rem_mod_nonneg by lia. rewrite (Z.quot_div_nonneg sec) by lia.
  pose proof (Z.mod_pos_bound sec 86400 ltac:(lia)) as Ht.
  rewrite Z.quot_div_nonneg by lia.
  set (t := sec mod 86400) in *. set (h := t / 3600).
  assert (0 <= h < 24) as Hh by (unfold h; div_lia).
  assert (i32 (h + time_zone config) = h + hours_east config) as ->.
  { unfold hours_east in *. rewrite <- (i32_u32 (h + time_zone config)).
    assert (u32 (h + time_zone config) = u32 (h + i32 (time_zone config))) as ->.
    { unfold u32. rewrite <- (Z.add_mod_idemp_r h (i32 _)) by lia.
      rewrite <- (Z.add_mod_idemp_r h (time_zone config)) by lia. f_equal. f_equal.
      symmetry. apply u32_i32. }
    rewrite i32_u32. apply i32_small. lia. }
  set (z := hours_east config) in *.
  assert (forall d, 0 <= h + z - 24 * d < 24 ->
            local_hour config sec = h + z - 24 * d /\ local_day config sec = sec / 86400 + d) as Hkey.
  { intros d Hd. unfold local_hour, local_day, local_sec. fold z. unfold h, t in *.
    destruct (split_time (sec + 3600 * z) ((sec mod 86400) / 3600 + z - 24 * d) ((sec mod 86400) mod 3600)
      (sec / 86400 + d)) as [-> ->]; [div_lia|done|div_lia|done]. }
  destruct (Z.leb_spec 24 (h + z)); [destruct (Z.ltb_spec (h + z - 24) 0); [lia|]|destruct (Z.ltb_spec (h + z) 0)]; cbn.
  - destruct (Hkey 1) as [-> ->]; lia.
  - destruct (Hkey (-1)) as [-> ->]; lia.
  - destruct (Hkey 0) as [-> ->]; lia.
Qed.

Lemma min_sec_spec config sec : 0 <= sec ->
  u8 (Z.quot (Z.rem (Z.rem sec 86400) 3600) 60) = local_sec config sec mod 3600 / 60 /\
  u8 (Z.rem (Z.rem (Z.rem sec 86400) 3600) 60) = local_sec config sec mod 60.
Proof.
  intros Hs. rewrite (Z.rem_mod_nonneg sec) by lia.
  pose proof (Z.mod_pos_bound sec 86400 ltac:(lia)) as Ht. rewrite (Z.rem_mod_nonneg _ 3600) by lia.
  pose proof (Z.mod_pos_bound (sec mod 86400) 3600 ltac:(lia)) as Hm.
  rewrite Z.quot_div_nonneg, Z.rem_mod_nonneg by lia.
  unfold local_sec. set (z := hours_east config).
  rewrite !u8_small by div_lia. split; div_lia.
Qed.

(** ** One thread *)
Section Alone.
Context (pid : Z) (tid : nat -> Z) (localtime : Z -> Z * Z * Z) (config : log_config).
Context (Hpid : 0 < pid) (Htz : -23 <= hours_east config <= 23).
(** localtime_r gives the seconds of one day in the time zone of the configuration the same date. *)
Context (Hdate : forall a b, good_sec config a -> good_sec config b ->
           local_day config a = local_day config b -> localtime a = localtime b).

(** The system does what it is asked. *)
Definition works (c : sys_answer) : Prop := c_errno c = 0 /\ c_part c = false.

Abbreviation must := (Threads.must (perform pid tid) works).
Abbreviation name_at := (fun sec => log_name config (localtime sec)).

Lemma must_let {X R} (a : act X) (f : X -> program R) Q s :
  (forall c, works c -> must Q (f (perform pid tid 0 c X a s).1) (perform pid tid 0 c X a s).2) ->
  must Q (pbind (do_act a) f) s.
Proof. intros H. apply must_act. exact H. Qed.

Ltac act_step :=
  apply must_let; let c := fresh "c" in let He := fresh "Herr" in let Hf := fresh "Hfull" in
  intros c [He Hf]; cbn [perform fst snd].

(** What a step leaves alone: everything but the variables [xs], the descriptors
    and the files. *)
Definition leaves (xs : list gvar) (s s' : shared) : Prop :=
  s_info s' = s_info s /\ s_config s' = s_config s /\ k_now s' = k_now s /\
  forall x, x ∉ xs -> s_var s' x = s_var s x.

Lemma leaves_refl xs s : leaves xs s s.
Proof. done. Qed.
Lemma leaves_trans xs s1 s2 s3 : leaves xs s1 s2 -> leaves xs s2 s3 -> leaves xs s1 s3.
Proof.
  intros (H1 & H2 & H3 & H4) (H5 & H6 & H7 & H8). split_and!; [congruence..|].
  intros x Hx. by rewrite H8, H4.
Qed.

(** *** The clock *)

(** What the variables of [get_time] hold after a message at the second [last]. *)
Definition clock_ok (last : option Z) (s : shared) : Prop :=
  match last with
  | None => s_var s SEC = 0 /\ s_info s = TimeInfo 0 0 0 0 0
  | Some p =>
      s_var s SEC = p /\ good_sec config p /\ ti_hour (s_info s) = local_hour config p /\
      ti_min (s_info s) = local_sec config p mod 3600 / 60 /\ ti_sec (s_info s) = local_sec config p mod 60 /\
      (ti_day (s_info s) = local_day config p \/ ti_day (s_info s) = 0)
  end.

Definition near (last : option Z) (sec : Z) : Prop :=
  match last with Some p => Z.abs (sec - p) < 82800 | None => True end.

(** The fields of [ti] that are printed. *)
Definition shows (ti : time_info) (now : Z) : Prop :=
  let i := clock_info config now in
  ti_hour ti = ti_hour i /\ ti_min ti = ti_min i /\ ti_sec ti = ti_sec i /\ ti_msec ti = ti_msec i.

Lemma u16_msec now : u16 (now mod SECOND / 1000000) = now mod SECOND / 1000000.
Proof. apply u16_small. unfold SECOND. div_lia. Qed.

Lemma must_get_time last s :
  clock_ok last s -> good_sec config (k_now s / SECOND) -> near last (k_now s / SECOND) ->
  s_config s = config ->
  must (fun ti s' =>
    shows ti (k_now s) /\ clock_ok (Some (k_now s / SECOND)) s' /\ ti_day ti = ti_day (s_info s') /\
    0 <= ti_day ti /\
    (forall p, last = Some p -> ti_day ti = ti_day (s_info s) -> local_day config p = local_day config (k_now s / SECOND)) /\
    s_config s' = config /\ k_now s' = k_now s /\ k_fds s' = k_fds s /\ k_files s' = k_files s /\
    forall x, x <> SEC -> s_var s' x = s_var s x) get_time s.
Proof using Htz.
  intros Hck Hq Hn Hcf. set (q := k_now s / SECOND) in *.
  assert (0 <= q) as Hq0 by (destruct Hq; lia).
  destruct (hour_day_spec config q Hq0 Htz) as [Hh Hd]. pose proof (min_sec_spec config q Hq0) as [Hmin Hsec].
  pose proof (local_hour_range config q) as Hhr.
  assert (0 <= ti_day (s_info s)) as Hday.
  { destruct last as [p|]; cbn in Hck; [|by destruct Hck as [_ ->]].
    destruct Hck as (_ & [_ Hp] & _ & _ & _ & [-> | ->]); lia. }
  unfold get_time. act_step. act_step. act_step. fold q.
  destruct (Z.eqb_spec (s_var s SEC) q) as [E|E].
  - apply must_ret. destruct last as [p|]; cbn in Hck; [|destruct Hq; lia].
    destruct Hck as (Hs & Hg & H1 & H2 & H3 & H4). assert (p = q) as -> by congruence.
    split_and!; try done.
    + unfold shows, clock_info. fold q. cbn. by rewrite H1, H2, H3, u16_msec.
    + by intros p' [= <-].
  - act_step. rewrite Hcf. act_step. act_step. act_step. apply must_ret. cbn [ti_msec ti_hour ti_day ti_min ti_sec].
    set (hd := hour_day config q) in *.
    assert ((if hd.1 =? ti_hour (s_info s) then ti_hour (s_info s) else u8 hd.1) = local_hour config q) as Eh.
    { destruct (Z.eqb_spec hd.1 (ti_hour (s_info s))) as [E1|E1]; [lia|]. rewrite Hh, u8_small; [done|lia]. }
    assert (u16 (hd.2 + Z.quot q 86400) = local_day config q) as Ed.
    { rewrite Hd, u16_small; [done|]. destruct Hq. lia. }
    rewrite Eh, Ed. set (same_hour := hd.1 =? ti_hour (s_info s)).
    assert (last <> None -> same_hour = true -> forall p, last = Some p -> local_day config p = local_day config q) as Hsame.
    { intros _ Hs p ->. cbn in Hck, Hn. apply same_hour_same_day; [|lia].
      destruct Hck as (_ & _ & Hp & _). unfold same_hour in Hs. apply Z.eqb_eq in Hs. lia. }
    assert (0 <= local_day config q) as Hd0 by (destruct Hq; lia).
    split_and!.
    + unfold shows, clock_info. fold q. cbn. rewrite u16_msec. by rewrite Hmin, Hsec.
    + cbn. rewrite Hmin, Hsec. split_and!; try done. destruct same_hour eqn:Es; [|by left].
      destruct last as [p|]; cbn in Hck.
      * destruct Hck as (_ & _ & _ & _ & _ & [-> | ->]); [left|by right]. by apply Hsame.
      * destruct Hck as [_ ->]. by right.
    + done.
    + by destruct same_hour.
    + intros p -> Heq. destruct same_hour eqn:Es; [by apply Hsame|]. cbn in Hck, Heq.
      destruct Hck as (_ & _ & _ & _ & _ & [Hp|Hp]); [lia|]. destruct Hq as [_ Hq]. lia.
    + done.
    + done.
    + done.
    + done.
    + intros x Hx. cbn. by rewrite fn_lookup_insert_ne.
Qed.

(** *** The file *)
Lemma must_close_retry s o path : k_fds s !! o = Some path ->
  must (fun _ s' => s' = put_fds (delete o (k_fds s)) s) (close_retry o) s.
Proof.
  intros Ho. apply must_once. act_step. unfold closed. rewrite Ho, Herr. apply must_ret. by exists tt.
Qed.

Lemma must_open_log s :
  (s_var s LOG_FD = -1 \/ exists path, k_fds s !! s_var s LOG_FD = Some path) ->
  let name := log_name (s_config s) (localtime (k_now s / SECOND)) in
  must (fun r s' => r = 0 /\ 2 < s_var s' LOG_FD /\ k_fds s' !! s_var s' LOG_FD = Some name /\
                    k_files s' = append_to name [] (k_files s) /\ leaves [LOG_FD] s s') (open_log localtime) s.
Proof.
  intros Hold name. unfold open_log. act_step. act_step. act_step. rewrite Herr1. cbn [Z.eqb fst snd].
  destruct (free_fd_fresh (k_fds s) (c_num c1)) as [Hfd Hfresh]. set (fd := free_fd (k_fds s) (c_num c1)) in *.
  destruct (Z.ltb_spec fd 0) as [Hneg|_]; [lia|]. act_step.
  change (s_var (put_files _ _) LOG_FD) with (s_var s LOG_FD).
  set (s1 := put_var LOG_FD fd _).
  assert (k_fds s1 !! fd = Some name /\ k_files s1 = append_to name [] (k_files s) /\ leaves [LOG_FD] s s1) as (H1 & H2 & H3).
  { split_and!; [by unfold s1; cbn; rewrite lookup_insert_eq|done|]. split_and!; try done.
    intros x Hx. unfold s1. cbn. rewrite fn_lookup_insert_ne; [done|]. intros <-. apply Hx. by left. }
  assert (s_var s1 LOG_FD = fd) as H4 by by unfold s1; cbn; rewrite fn_lookup_insert.
  assert (s_var s LOG_FD <> fd -> k_fds s1 !! s_var s LOG_FD = k_fds s !! s_var s LOG_FD) as H5.
  { intros Hne. unfold s1. cbn. by rewrite lookup_insert_ne. }
  clearbody s1.
  eapply (must_bind _ _ (fun _ s' => k_fds s' !! fd = Some name /\ s' = put_fds (k_fds s') s1)).
  - destruct (Z.eqb_spec (s_var s LOG_FD) (-1)) as [E|E].
    + apply must_ret. split; [done|]. by destruct s1.
    + destruct Hold as [Hold|[path Hold]]; [done|].
      assert (fd <> s_var s LOG_FD) as Hne by (intros He; rewrite <- He in Hold; congruence).
      eapply must_mono; [apply (must_close_retry s1 _ path)|].
      * rewrite H5; [exact Hold|congruence].
      * cbv beta. intros _ s' ->. split; [|done]. cbn [k_fds put_fds]. by rewrite lookup_delete_ne.
  - intros _ s' [Hn ->]. apply must_ret. cbn. rewrite H4. split_and!; [done|lia|done|exact H2|exact H3].
Qed.

Lemma must_take_lock s id : s_var s CURRENT_TID = 0 ->
  must (fun b s' => b = true /\ s' = put_var CURRENT_TID id s) (take_lock id) s.
Proof.
  intros H0. apply must_once. act_step. rewrite H0. cbn [Z.eqb]. apply must_ret. by exists true.
Qed.

Lemma must_new_day s ti id :
  s_var s CURRENT_TID = 0 -> (s_var s LOG_FD = -1 \/ exists path, k_fds s !! s_var s LOG_FD = Some path) ->
  ti_day ti <> s_var s LAST_DAY ->
  let name := log_name (s_config s) (localtime (k_now s / SECOND)) in
  must (fun b s' => b = true /\ 2 < s_var s' LOG_FD /\ k_fds s' !! s_var s' LOG_FD = Some name /\
                    k_files s' = append_to name [] (k_files s) /\ s_var s' LAST_DAY = ti_day ti /\
                    s_var s' CURRENT_TID = 0 /\ leaves [LOG_FD; LAST_DAY; CURRENT_TID] s s') (new_day localtime ti id) s.
Proof.
  intros H0 Hold Hday name. unfold new_day. eapply must_bind; [by apply must_take_lock|].
  intros b s1 [-> ->]. act_step. change (s_var (put_var CURRENT_TID id s) LAST_DAY) with (s_var s LAST_DAY).
  destruct (Z.eqb_spec (ti_day ti) (s_var s LAST_DAY)) as [E|_]; [done|].
  eapply (must_bind _ _ (fun _ s' => 2 < s_var s' LOG_FD /\ k_fds s' !! s_var s' LOG_FD = Some name /\
            k_files s' = append_to name [] (k_files s) /\ s_var s' LAST_DAY = ti_day ti /\
            leaves [LOG_FD; LAST_DAY; CURRENT_TID] s s')).
  - eapply must_bind; [by apply must_open_log|].
    cbv beta. cbn [k_now put_var s_config k_files]. fold name. intros r s2 (-> & H1 & H2 & H3 & H4 & H5 & H6 & H7).
    cbn [Z.eqb]. apply must_do. intros c2 _. cbn [perform fst snd].
    split_and!; [exact H1|exact H2|exact H3|done|split_and!; [exact H4|exact H5|exact H6|]].
    intros x Hx. cbn. rewrite !fn_lookup_insert_ne by set_solver. rewrite H7 by set_solver. cbn.
    by rewrite fn_lookup_insert_ne by set_solver.
  - cbv beta. intros _ s2 (H1 & H2 & H3 & H4 & H5). act_step. apply must_ret.
    destruct H5 as (H5 & H6 & H7 & H8).
    split_and!; [done|exact H1|exact H2|exact H3|exact H4|done|split_and!; [exact H5|exact H6|exact H7|]].
    intros x Hx. cbn. rewrite fn_lookup_insert_ne by set_solver. by apply H8.
Qed.

Lemma must_write_2_file s fd buf path : fd <> STDERR_FILENO -> k_fds s !! fd = Some path ->
  must (fun _ s' => s' = put_files (append_to path buf (k_files s)) s) (write_2_file fd buf) s.
Proof.
  intros Hfd Hp. apply must_once. act_step. rewrite Herr, Hfull. cbn [Z.eqb negb].
  destruct (Z.eqb_spec fd STDERR_FILENO) as [E|_]; [done|]. rewrite Hp. cbn [fst snd].
  destruct (Z.ltb_spec (strlen buf) 0) as [H|_]; [unfold strlen in H; lia|]. apply must_ret. by exists tt.
Qed.

(** *** A message *)

(** The log between two calls; [last] is the second of the last message written. *)
Definition file_ok (last : option Z) (s : shared) : Prop :=
  match last with
  | None => s_var s LAST_DAY = -1 /\ s_var s LOG_FD = -1
  | Some p =>
      s_var s LAST_DAY = ti_day (s_info s) /\ 2 < s_var s LOG_FD /\
      k_fds s !! s_var s LOG_FD = Some (name_at p) /\ is_Some (k_files s !! name_at p)
  end.

Record logging (last : option Z) (s : shared) : Prop := {
  lg_init : s_var s HAS_INIT = LOG_HAS_INIT; lg_fork : s_var s HAS_FORK = 1; lg_pid : s_var s PID = pid;
  lg_lock : s_var s CURRENT_TID = 0; lg_config : s_config s = config;
  lg_clock : clock_ok last s; lg_file : file_ok last s
}.

Lemma append_nothing path files : is_Some (files !! path) -> append_to path [] files = files.
Proof. intros [x Hx]. unfold append_to. rewrite Hx. cbn. rewrite app_nil_r. by apply insert_id. Qed.

Lemma append_twice path a b files : append_to path b (append_to path a files) = append_to path (a ++ b) files.
Proof. unfold append_to. rewrite lookup_insert_eq, insert_insert_eq. cbn. by rewrite app_assoc. Qed.

Lemma append_there path bs files : is_Some (append_to path bs files !! path).
Proof. unfold append_to. rewrite lookup_insert_eq. done. Qed.

(** The line at its file; the file is there already. *)
Lemma must_put_line s head msg path :
  s_var s HAS_INIT = LOG_HAS_INIT -> 2 < s_var s LOG_FD -> k_fds s !! s_var s LOG_FD = Some path ->
  is_Some (k_files s !! path) -> 0 < strlen head < LOG_BUF ->
  must (fun _ s' => s' = put_files (append_to path
          (if strlen (head ++ msg) <? LOG_BUF - 2 then with_newline (head ++ msg) else []) (k_files s)) s)
    (put_line head msg) s.
Proof.
  intros Hi Hfd Hp Hfile Hh. unfold put_line. rewrite line_text_run by done.
  assert (strlen (head ++ msg) = strlen head + strlen msg) as -> by (unfold strlen; rewrite length_app; lia).
  destruct (_ <? LOG_BUF - 2).
  - act_step. rewrite Hi. cbn [Z.eqb LOG_HAS_INIT Pos.eqb]. act_step.
    apply must_write_2_file; [unfold STDERR_FILENO; lia|done].
  - apply must_ret. rewrite append_nothing by done. by destruct s.
Qed.

Lemma header_cons ls id ti file line : 0 < strlen (line_head ls id ti file line).
Proof. unfold strlen, line_head. rewrite length_app. change (length (B "[ ")) with 2%nat. lia. Qed.

(** The printed head of the line depends on the fields that [shows] names. *)
Lemma shows_header ti now ls id file line : shows ti now ->
  line_head ls id ti file line = line_head ls id (clock_info config now) file line.
Proof. intros (H1 & H2 & H3 & H4). unfold line_head. by rewrite H1, H2, H3, H4. Qed.

(** The thread number is found at the first message; it is not used later. *)
Lemma must_own_tid {R} (f : unit -> program R) Q s t :
  (forall s', leaves [] s s' /\ k_fds s' = k_fds s /\ k_files s' = k_files s -> must Q (f tt) s') ->
  must Q (pbind (if t =? -1 then let! t' := do_act Gettid in do_act (WriteTid t') else Ret tt) f) s.
Proof.
  intros H. destruct (t =? -1); [|by apply H].
  eapply (must_bind _ _ (fun _ s' => leaves [] s s' /\ k_fds s' = k_fds s /\ k_files s' = k_files s)).
  - act_step. apply must_do. intros c' _. done.
  - intros []. apply H.
Qed.

(** The file of the day is open. *)
Definition at_file (q : Z) (s s' : shared) : Prop :=
  2 < s_var s' LOG_FD /\ k_fds s' !! s_var s' LOG_FD = Some (name_at q) /\
  k_files s' = append_to (name_at q) [] (k_files s) /\ s_var s' CURRENT_TID = 0 /\
  leaves [LOG_FD; LAST_DAY; CURRENT_TID] s s'.

Lemma must_day last s ti id :
  let q := k_now s / SECOND in
  s_var s CURRENT_TID = 0 -> s_config s = config -> 0 <= ti_day ti ->
  match last with
  | None => s_var s LAST_DAY = -1 /\ s_var s LOG_FD = -1
  | Some p => 2 < s_var s LOG_FD /\ k_fds s !! s_var s LOG_FD = Some (name_at p) /\
              is_Some (k_files s !! name_at p) /\ (ti_day ti = s_var s LAST_DAY -> name_at p = name_at q)
  end ->
  must (fun go s' => go = true /\ at_file q s s' /\ s_var s' LAST_DAY = ti_day ti)
    (let! last_day := do_act (Read LAST_DAY) in
     if ti_day ti =? last_day then Ret true else new_day localtime ti id) s.
Proof.
  intros q H0 Hc Hd Hlast. act_step. destruct (Z.eqb_spec (ti_day ti) (s_var s LAST_DAY)) as [E|E].
  - destruct last as [p|]; [|lia]. destruct Hlast as (H1 & H2 & H3 & H4). specialize (H4 E).
    apply must_ret. split_and!; [done| |done]. rewrite H4 in H2, H3. split_and!; try done. by rewrite append_nothing.
  - eapply must_mono; [apply must_new_day; [done| |done]|].
    + destruct last as [p|]; [right; exists (name_at p); apply Hlast|left; apply Hlast].
    + cbv beta. rewrite Hc. intros r s' (-> & H1 & H2 & H3 & H4 & H5 & H6). by split_and!.
Qed.

Lemma must_log_write last s file line level msg :
  let q := k_now s / SECOND in
  logging last s -> (length file <= 3800)%nat -> log_level config <= level -> good_sec config q -> near last q ->
  must (fun _ s' => logging (Some q) s' /\ k_now s' = k_now s /\
                    k_files s' = a_log pid localtime config (k_now s) file line level msg (k_files s))
    (log_write localtime file line level msg) s.
Proof using Hdate Hpid Htz.
  intros q [] Hfile Hlevel Hq Hn. unfold log_write, log_writev, log_write_impl. act_step. rewrite lg_config0.
  unfold a_log. destruct (Z.ltb_spec level (log_level config)) as [H|_]; [lia|].
  eapply must_bind; [by apply (must_get_time last)|]. cbv beta. fold q.
  intros ti s1 (Hshow & Hck & Hday & Hday0 & Hsame & Hcf & Hnow & Hfds & Hfiles & Hvars). act_step.
  apply must_own_tid. intros s2 ((Hi2 & Hcf2 & Hnow2 & Hv2) & Hfds2 & Hfiles2).
  assert (forall x, x <> SEC -> s_var s2 x = s_var s x) as Hv.
  { intros x Hx. rewrite Hv2 by set_solver. by apply Hvars. }
  act_step. rewrite Hv, lg_fork0 by done. cbn [Z.eqb Pos.eqb]. act_step. act_step.
  rewrite !Hv, lg_init0, lg_pid0 by done. cbn [Z.eqb Pos.eqb LOG_HAS_INIT].
  assert (k_now s2 = k_now s) as Hn2 by congruence.
  eapply must_bind; [apply (must_day last)|].
  - by rewrite Hv.
  - congruence.
  - done.
  - rewrite Hn2. fold q. rewrite Hfds2, Hfds, Hfiles2, Hfiles, !Hv by done. destruct last as [p|]; cbn in lg_file0; [|done].
    destruct lg_file0 as (H1 & H2 & H3 & H4). split_and!; try done.
    intros E. f_equal. apply Hdate; [apply lg_clock0|done|]. apply Hsame; [done|]. by rewrite <- H1.
  - cbv beta. rewrite Hn2. fold q. intros go s3 (-> & (H1 & H2 & H3 & H4 & H5 & H6 & H7 & H8) & H9).
    cbv iota. eapply must_mono.
    { apply (must_put_line s3 _ _ (name_at q)); [|done|done|rewrite H3; apply append_there|split; [apply header_cons|]].
      - rewrite H8 by set_solver. by rewrite Hv.
      - apply header_fits; [apply length_level_str|done]. }
    cbv beta. intros _ s4 ->. rewrite (shows_header ti (k_now s)) by done.
    split_and!.
    + split; cbn [s_var put_files s_config].
      * rewrite H8, Hv by set_solver. done.
      * rewrite H8, Hv by set_solver. done.
      * rewrite H8, Hv by set_solver. done.
      * done.
      * congruence.
      * revert Hck. cbn. rewrite H5, Hi2, H8, Hv2 by set_solver. done.
      * cbn. rewrite H9, H5, Hi2, Hday. split_and!; try done. apply append_there.
    + cbn. congruence.
    + cbn. rewrite H3, Hfiles2, Hfiles, append_twice. done.
Qed.

Lemma must_log_below last s file line level msg :
  logging last s -> level < log_level config ->
  must (fun _ s' => s' = s) (log_write localtime file line level msg) s.
Proof.
  intros [] Hl. unfold log_write, log_writev, log_write_impl. act_step. rewrite lg_config0.
  destruct (Z.ltb_spec level (log_level config)); [by apply must_ret|lia].
Qed.

Lemma must_sleep s ms : 0 <= ms ->
  must (fun _ s' => s' = put_now (k_now s + ms * 1000000) s) (do_sleep ms) s.
Proof.
  intros H. unfold do_sleep. destruct (Z.ltb_spec ms 0); [lia|].
  eapply (must_bind _ _ (fun _ s' => s' = put_now (k_now s + ms * 1000000) s)).
  - apply must_once. act_step. rewrite Herr. cbn. apply must_ret. eexists. split; [done|]. f_equal.
    unfold SECOND. div_lia.
  - intros r s' ->. by apply must_ret.
Qed.

(** *** The start, and a whole run *)
Lemma must_mkdir_one s path : must (fun r s' => r = 0 /\ exists d, s' = put_dirs d s) (mkdir_one path) s.
Proof.
  unfold mkdir_one. act_step. destruct (decide (path ∈ k_dirs s)) as [H|H].
  - apply must_ret. split; [done|]. exists (k_dirs s). by destruct s.
  - rewrite Herr. apply must_ret. split; [done|]. by eexists.
Qed.

Lemma must_mkdir_from done rest s :
  must (fun r s' => r = None /\ exists d, s' = put_dirs d s) (mkdir_from done rest) s.
Proof.
  revert done s. induction rest as [|c rest IH]; intros done s; cbn [mkdir_from].
  - apply must_ret. split; [reflexivity|]. exists (k_dirs s). by destruct s.
  - destruct (_ && _); [|apply IH]. eapply must_bind; [apply must_mkdir_one|]. cbv beta.
    intros r s1 (-> & d & ->). cbn [Z.eqb]. eapply must_mono; [apply IH|]. cbv beta.
    intros r s2 (-> & d' & ->). split; [reflexivity|]. by exists d'.
Qed.

Lemma must_do_mkdir s dir : must (fun r s' => r = 0 /\ exists d, s' = put_dirs d s) (do_mkdir dir) s.
Proof.
  unfold do_mkdir. eapply must_bind; [apply must_mkdir_from|]. cbv beta. intros r s1 (-> & d & ->).
  eapply must_mono; [apply must_mkdir_one|]. cbv beta. intros r s2 (-> & d' & ->). split; [done|]. by exists d'.
Qed.

Lemma must_first_init now :
  must (fun r s' => r = 0 /\ logging None s' /\ k_now s' = now /\ k_files s' = ∅)
    (log_init config) (log_start now).
Proof using Hpid.
  unfold log_init. act_step. cbn [log_start s_var Z.eqb LOG_NEED_INIT]. act_step. act_step.
  cbn [put_config s_config]. eapply must_bind; [apply must_do_mkdir|]. cbv beta. intros r s1 (-> & d & ->).
  cbn [Z.ltb Z.compare]. act_step.
  eapply (must_bind _ _ (fun _ s' => s' = put_var HAS_INIT LOG_HAS_INIT _)).
  { apply must_once. act_step. apply must_ret. by exists tt. }
  intros [] s2 ->. unfold note_pid. act_step. act_step.
  change (s_var _ PID) with 0. change (0 =? -1) with false. destruct (Z.eqb_spec 0 pid) as [E|_]; [lia|]. cbn [negb andb].
  eapply (must_bind _ _ (fun _ s' => s' = put_var HAS_FORK 1 (put_var PID pid _))).
  { act_step. apply must_do. intros c' _. reflexivity. }
  intros [] s3 ->. apply must_ret. split_and!; [done| |done|done]. split; done.
Qed.

Lemma must_again last s c : logging last s -> must (fun r s' => r = 0 /\ s' = s) (log_init c) s.
Proof.
  intros []. unfold log_init. act_step. rewrite lg_init0. cbn [Z.eqb LOG_HAS_INIT LOG_NEED_INIT LOG_INIT_ING Pos.eqb].
  unfold note_pid. act_step. act_step. rewrite lg_pid0, Z.eqb_refl, andb_false_r. by apply must_ret.
Qed.

Lemma logging_now last s now : logging last s -> logging last (put_now now s).
Proof. intros []. by split. Qed.

Lemma must_session last s calls :
  logging last s -> steady config last (k_now s) calls ->
  must (fun rs s' => Forall (eq 0) rs /\ k_files s' = a_session pid localtime config (k_now s) calls (k_files s))
    (thread localtime calls) s.
Proof using Hdate Hpid Htz.
  revert last s. induction calls as [|[c|file line level msg|ms] calls IH]; intros last s Hl Hs; cbn [thread a_session].
  - by apply must_ret.
  - eapply must_bind; [by eapply must_again|]. cbv beta. intros r s' [-> ->].
    eapply must_bind; [by eapply IH|]. cbv beta. intros rs s' [Hrs Hf]. apply must_ret. split; [by constructor|done].
  - cbn in Hs. destruct Hs as [Hfile Hs]. unfold a_log. destruct (Z.ltb_spec level (log_level config)) as [Hlev|Hlev].
    + eapply must_bind; [by eapply must_log_below|]. cbv beta. intros _ s' ->. by eapply IH.
    + destruct Hs as (Hg & Hn & Hs). eapply must_bind; [eapply must_log_write; [exact Hl|exact Hfile|exact Hlev|exact Hg|exact Hn]|]. cbv beta.
      intros _ s' (Hl' & Hnow & Hf).
      eapply must_mono; [eapply IH; [exact Hl'|by rewrite Hnow]|]. cbv beta. intros rs s2 [Hrs Hf2]. split; [done|].
      rewrite Hf2, Hnow, Hf. unfold a_log. destruct (Z.ltb_spec level (log_level config)); [lia|done].
  - destruct Hs as [Hms Hs]. eapply must_bind; [by apply must_sleep|]. cbv beta. intros _ s' ->.
    eapply must_mono; [eapply IH; [by apply logging_now|done]|]. done.
Qed.
End Alone.

(** ** The property *)

(** C12: the log of a single thread is a file of lines for each day.  When the only
    thread of the process initialises the log first and then makes any calls less
    than 23 hours apart, every system call succeeds, and the configured zone is that
    of localtime, the thread ends, without undefined behaviour, and the files hold
    exactly what the abstract log says: every message that reaches the level and
    fits the buffer is one line, with its level, number, time and place, in the
    file of the date on which it was written, in order, and nothing else is
    there.  [old_file_after_a_day] shows what a longer pause does. *)
Theorem log_refines pid tid localtime config calls now cs :
  0 < pid -> -23 <= hours_east config <= 23 ->
  (forall a b, good_sec config a -> good_sec config b ->
     local_day config a = local_day config b -> localtime a = localtime b) ->
  steady config None now calls -> (forall i, works (cs i)) ->
  exists n rs s,
    Threads.run (perform pid tid) env ((fun i => Run 0%nat (cs i)) <$> seq 0 n)
      [thread localtime (Init config :: calls)] (log_start now) = ([Ret rs], s) /\
    Forall (eq 0) rs /\ k_files s = a_session pid localtime config now calls ∅.
Proof.
  intros Hpid Htz Hdate Hs Hcs. apply (must_run (perform pid tid) env works); [|done]. cbn [thread].
  eapply must_bind; [by apply must_first_init|]. cbv beta. intros r s (-> & Hl & <- & Hf).
  eapply must_bind; [by eapply must_session|]. cbv beta. intros rs s' [Hrs Hf']. apply must_ret.
  split; [by constructor|]. by rewrite Hf', Hf.
Qed.

(** ** Witness: a day change, a message below the level and one that does not fit *)
Definition sample_date (sec : Z) : Z * Z * Z := (113, 5, sec / 86400 - 15856).

Definition sample_session : list log_call :=
  [Log (B "a.c") 7 LOG_INFO (B "one"); Pause 36000000; Log (B "a.c") 8 LOG_TRACE (B "none");
   Log (B "a.c") 9 LOG_DEBUG (replicate 5000 120); Pause 43200000; Log (B "b.c") 10 LOG_ERROR (B "two")].

Lemma sample_date_ok level a b :
  local_day (sample_log_config level) a = local_day (sample_log_config level) b -> sample_date a = sample_date b.
Proof.
  unfold local_day, local_sec. change (hours_east (sample_log_config level)) with 0.
  rewrite Z.mul_0_r, !Z.add_0_r. intros H. unfold sample_date. by rewrite H.
Qed.

Lemma log_refines_witness : exists n rs s,
  Threads.run (perform 42 sample_tid) env ((fun i => Run 0%nat fine) <$> seq 0 n)
    [thread sample_date (Init (sample_log_config 10) :: sample_session)] (log_start sample_now) = ([Ret rs], s) /\
  map_to_list (k_files s) =
    [(B "/log/ucmq_20130615.log", B "[ ERROR    42 01:05:09.000 b.c:10 ] two" ++ [10]);
     (B "/log/ucmq_20130614.log", B "[ INFO     42 03:05:09.000 a.c:7 ] one" ++ [10])].
Proof.
  destruct (log_refines 42 sample_tid sample_date (sample_log_config 10) sample_session sample_now (fun _ => fine))
    as (n & rs & s & E & _ & Hf).
  - lia.
  - vm_compute. split; discriminate.
  - intros a b _ _. apply sample_date_ok.
  - vm_compute. repeat (split; try lia; try discriminate).
  - by intros _.
  - exists n, rs, s. split; [exact E|]. rewrite Hf. vm_compute. reflexivity.
Defined.

(** The day is looked at only when the hour has changed: after a pause of a whole
    day the line goes into the file of the day before. *)
Example old_file_after_a_day :
  map_to_list (k_files (Threads.run (perform 42 sample_tid) env (replicate 100 (Run 0%nat fine))
    [thread sample_date [Init (sample_log_config 10); Log (B "a.c") 7 LOG_INFO (B "one"); Pause 86400000;
                         Log (B "a.c") 8 LOG_INFO (B "two")]] (log_start sample_now)).2) =
    [(B "/log/ucmq_20130614.log", B "[ INFO     42 03:05:09.000 a.c:7 ] one" ++ [10]
                               ++ B "[ INFO     42 03:05:09.000 a.c:8 ] two" ++ [10])].
Proof. vm_compute. reflexivity. Qed.
