(* ===== verification/Uthash.v ===== *)
(** * source/uthash.h: the hash table

    The macros that the table of the queues uses, on a heap of nodes: each node
    has its key, its value and its [UT_hash_handle], which links it twice, in the
    order in which the nodes were added and in the chain of its bucket.  A pointer
    to a node is its address, a pointer to its handle the address plus the offset
    of the member; NULL is 0.  When there is no memory the macros end the process:
    the result [None]. *)
From S2P Require Import Prelude.
From S2P Require Import CLib.
From S2P Require Import MqTypes.

Module Uthash.

(** ** The structures *)
Record UT_hash_bucket := Bucket {
  hh_head : Z;                (* UT_hash_handle * *)
  count : Z;                  (* unsigned *)
  expand_mult : Z             (* unsigned *)
}.
Definition bucket_zero : UT_hash_bucket := Bucket 0 0 0.

Record UT_hash_table := Table {
  buckets : Z;                (* UT_hash_bucket * *)
  num_buckets : Z;            (* unsigned *)
  log2_num_buckets : Z;       (* unsigned *)
  num_items : Z;              (* unsigned *)
  tail : Z;                   (* UT_hash_handle *, the last in app order *)
  hho : Z;                    (* ptrdiff_t, offset of the handle in a node *)
  ideal_chain_maxlen : Z;     (* unsigned *)
  nonideal_items : Z;         (* unsigned *)
  ineff_expands : Z;          (* unsigned *)
  noexpand : Z;               (* unsigned *)
  signature : Z               (* uint32_t *)
}.

Record UT_hash_handle := Handle {
  tbl : Z;                    (* UT_hash_table * *)
  prev : Z;                   (* void *, node before in app order *)
  next : Z;                   (* void *, node after in app order *)
  hh_prev : Z;                (* UT_hash_handle *, before in bucket order *)
  hh_next : Z;                (* UT_hash_handle *, after in bucket order *)
  key : Z;                    (* void *, the key of the node *)
  keylen : Z;                 (* unsigned *)
  hashv : Z                   (* unsigned *)
}.
Definition handle_zero : UT_hash_handle := Handle 0 0 0 0 0 0 0 0.

(** A node, [mq_queue_list_t]; the key without the zeros that fill it. *)
Record mq_queue_list := Node { n_key : bytes; n_queue : mq_queue; n_hh : UT_hash_handle }.

(** The offsets of the members of a node, and the sizes of the structures. *)
Definition QNAME_OFFSET : Z := 0.
Definition HH_OFFSET : Z := 200.
Definition NODE_SIZE : Z := 256.
Definition TABLE_SIZE : Z := 64.
Definition BUCKET_SIZE : Z := 16.

(** The memory of the table; a request of more than [h_limit] bytes fails. *)
Record heap := Heap {
  h_nodes : gmap Z mq_queue_list;
  h_tables : gmap Z UT_hash_table;
  h_arrays : gmap Z (list UT_hash_bucket);
  h_next : Z;
  h_limit : Z
}.

Definition set_nodes (f : gmap Z mq_queue_list -> gmap Z mq_queue_list) (s : heap) : heap :=
  Heap (f (h_nodes s)) (h_tables s) (h_arrays s) (h_next s) (h_limit s).
Definition set_tables (f : gmap Z UT_hash_table -> gmap Z UT_hash_table) (s : heap) : heap :=
  Heap (h_nodes s) (f (h_tables s)) (h_arrays s) (h_next s) (h_limit s).
Definition set_arrays (f : gmap Z (list UT_hash_bucket) -> gmap Z (list UT_hash_bucket)) (s : heap) : heap :=
  Heap (h_nodes s) (h_tables s) (f (h_arrays s)) (h_next s) (h_limit s).
Definition set_brk (n : Z) (s : heap) : heap :=
  Heap (h_nodes s) (h_tables s) (h_arrays s) n (h_limit s).

Definition on_hh (f : UT_hash_handle -> UT_hash_handle) (n : mq_queue_list) : mq_queue_list :=
  Node (n_key n) (n_queue n) (f (n_hh n)).

(** Fields of a handle. *)
Definition set_tbl x (h : UT_hash_handle) := Handle x (prev h) (next h) (hh_prev h) (hh_next h) (key h) (keylen h) (hashv h).
Definition set_prev x (h : UT_hash_handle) := Handle (tbl h) x (next h) (hh_prev h) (hh_next h) (key h) (keylen h) (hashv h).
Definition set_next x (h : UT_hash_handle) := Handle (tbl h) (prev h) x (hh_prev h) (hh_next h) (key h) (keylen h) (hashv h).
Definition set_hh_prev x (h : UT_hash_handle) := Handle (tbl h) (prev h) (next h) x (hh_next h) (key h) (keylen h) (hashv h).
Definition set_hh_next x (h : UT_hash_handle) := Handle (tbl h) (prev h) (next h) (hh_prev h) x (key h) (keylen h) (hashv h).
Definition set_key x n (h : UT_hash_handle) := Handle (tbl h) (prev h) (next h) (hh_prev h) (hh_next h) x n (hashv h).
Definition set_hashv x (h : UT_hash_handle) := Handle (tbl h) (prev h) (next h) (hh_prev h) (hh_next h) (key h) (keylen h) x.

(** Fields of a table. *)
Definition set_tail x (t : UT_hash_table) :=
  Table (buckets t) (num_buckets t) (log2_num_buckets t) (num_items t) x (hho t) (ideal_chain_maxlen t)
    (nonideal_items t) (ineff_expands t) (noexpand t) (signature t).
Definition set_items x (t : UT_hash_table) :=
  Table (buckets t) (num_buckets t) (log2_num_buckets t) x (tail t) (hho t) (ideal_chain_maxlen t)
    (nonideal_items t) (ineff_expands t) (noexpand t) (signature t).
Definition set_ideal x y (t : UT_hash_table) :=
  Table (buckets t) (num_buckets t) (log2_num_buckets t) (num_items t) (tail t) (hho t) x
    y (ineff_expands t) (noexpand t) (signature t).
Definition set_expanded b n g i e (t : UT_hash_table) :=
  Table b n g (num_items t) (tail t) (hho t) (ideal_chain_maxlen t)
    (nonideal_items t) i e (signature t).

(** ** Statements that may end the process *)
Definition U (A : Type) : Type := M heap (option A).
Definition uret {A} (a : A) : U A := ret (Some a).
Definition uthash_fatal {A} : U A := ret None.
Definition ubind {A C} (m : U A) (f : A -> U C) : U C :=
  let! o := m in match o with Some a => f a | None => ret None end.
#[local] Notation "'let?' x := m 'in' k" := (ubind m (fun x => k))
  (at level 10, x binder, m at level 100, k at level 200).
#[local] Notation "m ;? k" := (ubind m (fun _ => k)) (at level 100, k at level 200, right associativity).

(** Reads and writes; outside the memory of the table they are undefined. *)
Definition read_node (p : Z) : U mq_queue_list := fun s =>
  match h_nodes s !! p with Some n => Ok (Some n, s) | None => Fault end.
Definition read_table (t : Z) : U UT_hash_table := fun s =>
  match h_tables s !! t with Some x => Ok (Some x, s) | None => Fault end.
Definition read_bucket (a i : Z) : U UT_hash_bucket := fun s =>
  match h_arrays s !! a with
  | Some bs => match bs !! Z.to_nat i with Some b => Ok (Some b, s) | None => Fault end
  | None => Fault
  end.
Definition write_hh (p : Z) (f : UT_hash_handle -> UT_hash_handle) : U unit := fun s =>
  match h_nodes s !! p with
  | Some _ => Ok (Some tt, set_nodes (alter (on_hh f) p) s)
  | None => Fault
  end.
Definition write_table (t : Z) (f : UT_hash_table -> UT_hash_table) : U unit := fun s =>
  match h_tables s !! t with
  | Some _ => Ok (Some tt, set_tables (alter f t) s)
  | None => Fault
  end.
Definition write_bucket (a i : Z) (b : UT_hash_bucket) : U unit := fun s =>
  match h_arrays s !! a with
  | Some bs =>
      if (Z.to_nat i <? length bs)%nat then Ok (Some tt, set_arrays (<[a := <[Z.to_nat i := b]> bs]>) s) else Fault
  | None => Fault
  end.

(** NULL, or a new address. *)
Definition uthash_malloc (size : Z) : U Z := fun s =>
  if h_limit s <? size then Ok (Some 0, s) else Ok (Some (h_next s), set_brk (h_next s + Z.max 1 size) s).
Definition free_node (p : Z) : U unit := fun s =>
  match h_nodes s !! p with Some _ => Ok (Some tt, set_nodes (delete p) s) | None => Fault end.
Definition free_table (t : Z) : U unit := fun s =>
  match h_tables s !! t with Some _ => Ok (Some tt, set_tables (delete t) s) | None => Fault end.
Definition free_array (a : Z) : U unit := fun s =>
  match h_arrays s !! a with Some _ => Ok (Some tt, set_arrays (delete a) s) | None => Fault end.

(** ** The hash function *)
(** A [char] is signed; it is converted to [unsigned]. *)
Definition schar (c : Z) : Z := if c <? 128 then c else c - 256.
Definition shl (c : Z) (n : Z) : Z := u32 (Z.shiftl (u32 (schar c)) n).

Definition HASH_JEN_MIX (a b c : Z) : Z * Z * Z :=
  let a := u32 (a - b) in let a := u32 (a - c) in let a := Z.lxor a (Z.shiftr c 13) in
  let b := u32 (b - c) in let b := u32 (b - a) in let b := Z.lxor b (u32 (Z.shiftl a 8)) in
  let c := u32 (c - a) in let c := u32 (c - b) in let c := Z.lxor c (Z.shiftr b 13) in
  let a := u32 (a - b) in let a := u32 (a - c) in let a := Z.lxor a (Z.shiftr c 12) in
  let b := u32 (b - c) in let b := u32 (b - a) in let b := Z.lxor b (u32 (Z.shiftl a 16)) in
  let c := u32 (c - a) in let c := u32 (c - b) in let c := Z.lxor c (Z.shiftr b 5) in
  let a := u32 (a - b) in let a := u32 (a - c) in let a := Z.lxor a (Z.shiftr c 3) in
  let b := u32 (b - c) in let b := u32 (b - a) in let b := Z.lxor b (u32 (Z.shiftl a 10)) in
  let c := u32 (c - a) in let c := u32 (c - b) in let c := Z.lxor c (Z.shiftr b 15) in
  (a, b, c).

(** Four characters as a number, with the least first. *)
Definition word (c0 c1 c2 c3 : Z) : Z := u32 (schar c0 + shl c1 8 + shl c2 16 + shl c3 24).

(** The blocks of twelve characters; the result has what is left of the key. *)
Fixpoint jen_blocks (k : bytes) (i j h : Z) : bytes * Z * Z * Z :=
  match k with
  | c0 :: c1 :: c2 :: c3 :: c4 :: c5 :: c6 :: c7 :: c8 :: c9 :: c10 :: c11 :: k =>
      let i := u32 (i + word c0 c1 c2 c3) in
      let j := u32 (j + word c4 c5 c6 c7) in
      let h := u32 (h + word c8 c9 c10 c11) in
      let '(i, j, h) := HASH_JEN_MIX i j h in
      jen_blocks k i j h
  | _ => (k, i, j, h)
  end.

(** The last characters: [case] n is the n-th and falls through to the ones
    before. *)
Definition jen_tail (k : bytes) (i j h : Z) : Z * Z * Z :=
  let at_ n sh := if (n <? length k)%nat then shl (nth n k 0) sh else 0 in
  let first n := if (n <? length k)%nat then schar (nth n k 0) else 0 in
  (u32 (i + first 0%nat + at_ 1%nat 8 + at_ 2%nat 16 + at_ 3%nat 24),
   u32 (j + first 4%nat + at_ 5%nat 8 + at_ 6%nat 16 + at_ 7%nat 24),
   u32 (h + at_ 8%nat 8 + at_ 9%nat 16 + at_ 10%nat 24)).

Definition jen_hash (k : bytes) : Z :=
  let '(rest, i, j, h) := jen_blocks k 2654435769 2654435769 4276993775 in
  let h := u32 (h + strlen k) in
  let '(i, j, h) := jen_tail rest i j h in
  let '(_, _, h) := HASH_JEN_MIX i j h in h.

Definition HASH_TO_BKT (hashv num_bkts : Z) : Z := Z.land hashv (u32 (num_bkts - 1)).
Definition HASH_JEN (k : bytes) (num_bkts : Z) : Z * Z := (jen_hash k, HASH_TO_BKT (jen_hash k) num_bkts).

(** ** The macros *)
Definition HASH_INITIAL_NUM_BUCKETS : Z := 32.
Definition HASH_INITIAL_NUM_BUCKETS_LOG2 : Z := 5.
Definition HASH_BKT_CAPACITY_THRESH : Z := 10.
Definition HASH_SIGNATURE : Z := 2685476833.

Definition ELMT_FROM_HH (t : UT_hash_table) (hhp : Z) : Z := hhp - hho t.
(** The handle of a node, [&(p)->hh], and the node of a handle. *)
Definition hh_of (p : Z) : Z := p + HH_OFFSET.
Definition write_handle (hhp : Z) (f : UT_hash_handle -> UT_hash_handle) : U unit := write_hh (hhp - HH_OFFSET) f.
Definition read_handle (hhp : Z) : U UT_hash_handle :=
  let? n := read_node (hhp - HH_OFFSET) in uret (n_hh n).

(** [memcmp] of [n] characters of the key at the address [keyptr]; a key that is
    shorter ends in a zero, which no [k] has. *)
Definition HASH_KEYCMP (keyptr : Z) (k : bytes) (n : Z) : U Z :=
  let? e := read_node (keyptr - QNAME_OFFSET) in
  uret (strncmp (n_key e) k (Z.to_nat n)).

Definition chain_fuel (s : heap) : nat := S (size (h_nodes s)).

Section FindInBucket.
Context (t : UT_hash_table) (k : bytes).
Fixpoint find_in_chain (fuel : nat) (out : Z) : U Z :=
  match fuel with
  | O => fun _ => OutOfFuel
  | S fuel =>
      if out =? 0 then uret 0
      else
        let? e := read_node out in
        let? same := (if keylen (n_hh e) =? strlen k
                      then let? c := HASH_KEYCMP (key (n_hh e)) k (strlen k) in uret (c =? 0)
                      else uret false) in
        if same : bool then uret out
        else if negb (hh_next (n_hh e) =? 0) then find_in_chain fuel (ELMT_FROM_HH t (hh_next (n_hh e)))
        else find_in_chain fuel 0
  end.
Definition HASH_FIND_IN_BKT (b : UT_hash_bucket) : U Z := fun s =>
  find_in_chain (chain_fuel s) (if negb (hh_head b =? 0) then ELMT_FROM_HH t (hh_head b) else 0) s.
End FindInBucket.

(** The table of a node. *)
Definition table_of (p : Z) : U UT_hash_table :=
  let? e := read_node p in read_table (tbl (n_hh e)).

Definition HASH_FIND (head : Z) (k : bytes) : U Z :=
  if head =? 0 then uret 0
  else
    let? t := table_of head in
    let '(_, bkt) := HASH_JEN k (num_buckets t) in
    let? b := read_bucket (buckets t) bkt in
    HASH_FIND_IN_BKT t k b.

Definition HASH_MAKE_TABLE (head : Z) : U unit :=
  let? t := uthash_malloc TABLE_SIZE in
  if t =? 0 then write_hh head (set_tbl 0) ;? uthash_fatal
  else
    write_hh head (set_tbl t) ;?
    (fun s => Ok (Some tt, set_tables (<[t := Table 0 HASH_INITIAL_NUM_BUCKETS HASH_INITIAL_NUM_BUCKETS_LOG2
       0 (hh_of head) (hh_of head - head) 0 0 0 0 0]>) s)) ;?
    let? a := uthash_malloc (HASH_INITIAL_NUM_BUCKETS * BUCKET_SIZE) in
    if a =? 0 then uthash_fatal
    else
      write_table t (fun x => set_expanded a (num_buckets x) (log2_num_buckets x) (ineff_expands x) (noexpand x) x) ;?
      (fun s => Ok (Some tt, set_arrays (<[a := replicate (Z.to_nat HASH_INITIAL_NUM_BUCKETS) bucket_zero]>) s)) ;?
      write_table t (fun x => Table (buckets x) (num_buckets x) (log2_num_buckets x) (num_items x) (tail x) (hho x)
        (ideal_chain_maxlen x) (nonideal_items x) (ineff_expands x) (noexpand x) HASH_SIGNATURE).

(** [++count > ideal_chain_maxlen]: the bucket [b] with one more node. *)
Definition count_moved (tb : Z) (t : UT_hash_table) (b : UT_hash_bucket) : U UT_hash_bucket :=
  let cnt := u32 (count b + 1) in
  if ideal_chain_maxlen t <? cnt then
    write_table tb (set_ideal (ideal_chain_maxlen t) (u32 (nonideal_items t + 1))) ;?
    if ideal_chain_maxlen t =? 0 then (fun _ => Fault)
    else uret (Bucket (hh_head b) cnt (Z.quot cnt (ideal_chain_maxlen t)))
  else uret (Bucket (hh_head b) cnt (expand_mult b)).

(** The turn of the inner loop of [HASH_EXPAND_BUCKETS]: a handle moves to the
    array [nb] of the new buckets. *)
Definition move_handle (tb nb thh : Z) : U unit :=
  let? h := read_handle thh in
  let? t := read_table tb in
  let bkt := HASH_TO_BKT (hashv h) (u32 (num_buckets t * 2)) in
  let? b := read_bucket nb bkt in
  let? b := count_moved tb t b in
  write_handle thh (set_hh_prev 0) ;?
  write_handle thh (set_hh_next (hh_head b)) ;?
  (if negb (hh_head b =? 0) then write_handle (hh_head b) (set_hh_prev thh) else uret tt) ;?
  write_bucket nb bkt (Bucket thh (count b) (expand_mult b)).

Fixpoint move_chain (fuel : nat) (tb nb thh : Z) : U unit :=
  match fuel with
  | O => fun _ => OutOfFuel
  | S fuel =>
      if thh =? 0 then uret tt
      else
        let? h := read_handle thh in
        let nxt := hh_next h in
        move_handle tb nb thh ;?
        move_chain fuel tb nb nxt
  end.

Fixpoint move_chains (tb nb : Z) (idxs : list Z) : U unit :=
  match idxs with
  | [] => uret tt
  | i :: idxs =>
      let? t := read_table tb in
      let? b := read_bucket (buckets t) i in
      (fun s => move_chain (chain_fuel s) tb nb (hh_head b) s) ;?
      move_chains tb nb idxs
  end.

Definition HASH_EXPAND_BUCKETS (tb : Z) : U unit :=
  let? t := read_table tb in
  let n2 := u32 (2 * num_buckets t) in
  let? nb := uthash_malloc (n2 * BUCKET_SIZE) in
  if nb =? 0 then uthash_fatal
  else
    (fun s => Ok (Some tt, set_arrays (<[nb := replicate (Z.to_nat n2) bucket_zero]>) s)) ;?
    write_table tb (set_ideal
      (u32 (Z.shiftr (num_items t) (log2_num_buckets t + 1)
            + (if Z.land (num_items t) (u32 (n2 - 1)) =? 0 then 0 else 1))) 0) ;?
    move_chains tb nb (seqZ 0 (num_buckets t)) ;?
    free_array (buckets t) ;?
    let? t := read_table tb in
    let ineff := if Z.shiftr (num_items t) 1 <? nonideal_items t then u32 (ineff_expands t + 1) else 0 in
    write_table tb (set_expanded nb n2 (u32 (log2_num_buckets t + 1)) ineff
      (if 1 <? ineff then 1 else noexpand t)).

(** The bucket is [bkt] of the table of [addhh]. *)
Definition HASH_ADD_TO_BKT (a bkt addhh : Z) : U unit :=
  let? b := read_bucket a bkt in
  let cnt := u32 (count b + 1) in
  write_handle addhh (set_hh_next (hh_head b)) ;?
  write_handle addhh (set_hh_prev 0) ;?
  (if negb (hh_head b =? 0) then write_handle (hh_head b) (set_hh_prev addhh) else uret tt) ;?
  write_bucket a bkt (Bucket addhh cnt (expand_mult b)) ;?
  let? h := read_handle addhh in
  let? t := read_table (tbl h) in
  if (u32 (u32 (expand_mult b + 1) * HASH_BKT_CAPACITY_THRESH) <=? cnt) && negb (noexpand t =? 1)
  then HASH_EXPAND_BUCKETS (tbl h)
  else uret tt.

(** The parts of [HASH_ADD_KEYPTR]: the last node in app order, with the new value
    of [head]; and the bucket. *)
Definition add_in_app_order (head add : Z) : U Z :=
  if head =? 0 then
    write_hh add (set_prev 0) ;?
    HASH_MAKE_TABLE add ;?
    uret add
  else
    let? e := read_node head in
    let? t := read_table (tbl (n_hh e)) in
    write_handle (tail t) (set_next add) ;?
    write_hh add (set_prev (ELMT_FROM_HH t (tail t))) ;?
    write_table (tbl (n_hh e)) (set_tail (hh_of add)) ;?
    uret head.
Definition add_in_bucket (head : Z) (k : bytes) (add : Z) : U Z :=
  let? e := read_node head in
  let tb := tbl (n_hh e) in
  let? t := read_table tb in
  write_table tb (set_items (u32 (num_items t + 1))) ;?
  write_hh add (set_tbl tb) ;?
  let '(hv, bkt) := HASH_JEN k (num_buckets t) in
  write_hh add (set_hashv hv) ;?
  HASH_ADD_TO_BKT (buckets t) bkt (hh_of add) ;?
  uret head.

Definition HASH_ADD_KEYPTR (head keyptr : Z) (k : bytes) (add : Z) : U Z :=
  write_hh add (set_next 0) ;?
  write_hh add (set_key keyptr (u32 (strlen k))) ;?
  let? head := add_in_app_order head add in
  add_in_bucket head k add.

Definition HASH_DEL_IN_BKT (a bkt hh_del : Z) : U unit :=
  let? b := read_bucket a bkt in
  let? h := read_handle hh_del in
  write_bucket a bkt (Bucket (if hh_head b =? hh_del then hh_next h else hh_head b)
    (u32 (count b - 1)) (expand_mult b)) ;?
  (if negb (hh_prev h =? 0) then write_handle (hh_prev h) (set_hh_next (hh_next h)) else uret tt) ;?
  (if negb (hh_next h =? 0) then write_handle (hh_next h) (set_hh_prev (hh_prev h)) else uret tt).

(** The new value of [head]; it and [delptr] are different variables. *)
Definition HASH_DELETE (head delptr : Z) : U Z :=
  let? d := read_node delptr in
  let dh := n_hh d in
  if (prev dh =? 0) && (next dh =? 0) then
    let? e := read_node head in
    let? t := read_table (tbl (n_hh e)) in
    free_array (buckets t) ;?
    free_table (tbl (n_hh e)) ;?
    uret 0
  else
    let? e := read_node head in
    let? t := read_table (tbl (n_hh e)) in
    (if delptr =? ELMT_FROM_HH t (tail t)
     then write_table (tbl (n_hh e)) (set_tail (prev dh + hho t)) else uret tt) ;?
    let? head :=
      (if negb (prev dh =? 0) then write_handle (prev dh + hho t) (set_next (next dh)) ;? uret head
       else uret (next dh)) in
    (if negb (next dh =? 0) then
       let? t := table_of head in write_handle (next dh + hho t) (set_prev (prev dh))
     else uret tt) ;?
    let? e := read_node head in
    let? t := read_table (tbl (n_hh e)) in
    HASH_DEL_IN_BKT (buckets t) (HASH_TO_BKT (hashv dh) (num_buckets t)) (hh_of delptr) ;?
    write_table (tbl (n_hh e)) (set_items (u32 (num_items t - 1))) ;?
    uret head.

Definition HASH_COUNT (head : Z) : U Z :=
  if head =? 0 then uret 0 else let? t := table_of head in uret (num_items t).

(** ** The table of the queues, on its nodes *)
(** The pointer to the queue of the new node; the name must fit the node. *)
Definition node_add (qname : bytes) (q : mq_queue) (head : Z) : U (Z * Z) :=
  let? p := uthash_malloc NODE_SIZE in
  if p =? 0 then uret (0, head)
  else if (32 <? length qname)%nat then (fun _ => Fault)
  else
    (fun s => Ok (Some tt, set_nodes (<[p := Node qname q handle_zero]>) s)) ;?
    let? head := HASH_ADD_KEYPTR head (p + QNAME_OFFSET) qname p in
    uret (p, head).

Definition node_find (qname : bytes) (head : Z) : U (Z * Z) :=
  let? p := HASH_FIND head qname in uret (p, head).

Definition node_del (qname : bytes) (head : Z) : U (unit * Z) :=
  let? p := HASH_FIND head qname in
  if negb (p =? 0) then
    let? head := HASH_DELETE head p in
    free_node p ;?
    uret (tt, head)
  else uret (tt, head).

(** [HASH_ITER] reads the successor before the body runs. *)
Fixpoint clear_from (fuel : nat) (cur tmp head : Z) : U Z :=
  match fuel with
  | O => fun _ => OutOfFuel
  | S fuel =>
      if cur =? 0 then uret head
      else
        let? head := HASH_DELETE head cur in
        free_node cur ;?
        let? nxt := (if tmp =? 0 then uret 0 else let? e := read_node tmp in uret (next (n_hh e))) in
        clear_from fuel tmp nxt head
  end.
Definition table_clear (head : Z) : U (bool * Z) :=
  if head =? 0 then uret (true, head)
  else
    let? e := read_node head in
    let? head := (fun s => clear_from (chain_fuel s) head (next (n_hh e)) head s) in
    (if negb (head =? 0) then free_node head else uret tt) ;?
    uret (true, head).

(** The queues in the order of [hh.next], as the loops of the program see them. *)
Fixpoint nodes_from (fuel : nat) (p : Z) : U (list (Z * (bytes * mq_queue))) :=
  match fuel with
  | O => fun _ => OutOfFuel
  | S fuel =>
      if p =? 0 then uret []
      else
        let? e := read_node p in
        let? l := nodes_from fuel (next (n_hh e)) in
        uret ((p, (n_key e, n_queue e)) :: l)
  end.
Definition all_nodes (head : Z) : U (list (Z * (bytes * mq_queue)) * Z) :=
  let? l := (fun s => nodes_from (chain_fuel s) head s) in uret (l, head).

(** The program changes a queue through its pointer. *)
Definition node_update (p : Z) (f : mq_queue -> mq_queue) (head : Z) : U (unit * Z) :=
  let? e := read_node p in
  (fun s => Ok (Some tt, set_nodes (<[p := Node (n_key e) (f (n_queue e)) (n_hh e)]>) s)) ;?
  uret (tt, head).
End Uthash.
