(* ===== verification/UthashChains.v ===== *)
(** * The chains of the hash table

    Doubly linked lists, the fields of the nodes as functions of their address,
    and the buckets: every handle is in the chain of the bucket that its hash
    value selects.  Putting a node into a bucket, taking one out and doubling the
    array keep this, for every distribution of the hash values, and touch nothing
    but the links of the buckets. *)
From S2P Require Import Prelude.
From S2P Require Import CLib.
From S2P Require Import MqTypes.
From S2P Require Import Uthash.
Import Uthash.

(** ** Doubly linked lists *)
(** The nodes [xs] between [p] and [n], for the fields [nx] and [pv]. *)
Fixpoint dseg (nx pv : Z -> Z) (p : Z) (xs : list Z) (n : Z) : Prop :=
  match xs with
  | [] => True
  | x :: xs => pv x = p /\ nx x = hd n xs /\ dseg nx pv x xs n
  end.

(** The last node, or [d]. *)
Definition lst (d : Z) (xs : list Z) : Z := default d (last xs).

Section Dseg.
Implicit Types (nx pv : Z -> Z) (xs ys : list Z).

Lemma lst_cons d x xs : lst d (x :: xs) = lst x xs.
Proof. unfold lst. rewrite last_cons. by destruct (last xs). Qed.
Lemma lst_snoc d xs x : lst d (xs ++ [x]) = x.
Proof. unfold lst. by rewrite last_snoc. Qed.
Lemma lst_default d d' xs : xs <> [] -> lst d xs = lst d' xs.
Proof. unfold lst. intros H. destruct (last xs) eqn:E; [done|]. by apply last_None in E. Qed.
Lemma lst_in d xs : xs <> [] -> lst d xs ∈ xs.
Proof.
  intros H. unfold lst. destruct (last xs) eqn:E; [|by apply last_None in E].
  apply last_Some in E as [ys ->]. apply elem_of_app. right. by left.
Qed.
Lemma hd_in (d : Z) xs : xs <> [] -> hd d xs ∈ xs.
Proof. destruct xs; [done|]. by left. Qed.

Lemma dseg_app nx pv p xs ys n :
  dseg nx pv p (xs ++ ys) n <-> dseg nx pv p xs (hd n ys) /\ dseg nx pv (lst p xs) ys n.
Proof.
  revert p. induction xs as [|x xs IH]; intros p; [simpl; tauto|].
  rewrite lst_cons. cbn [app dseg]. rewrite IH. destruct xs; simpl; tauto.
Qed.

(** The same nodes with other fields: but for the ends they agree. *)
Lemma dseg_change nx pv nx' pv' p p' xs n n' :
  NoDup xs -> dseg nx pv p xs n ->
  (forall x, x ∈ xs -> x <> lst 0 xs -> nx' x = nx x) ->
  (forall x, x ∈ xs -> x <> hd 0 xs -> pv' x = pv x) ->
  (xs <> [] -> nx' (lst 0 xs) = n') -> (xs <> [] -> pv' (hd 0 xs) = p') ->
  dseg nx' pv' p' xs n'.
Proof.
  revert p p'. induction xs as [|x xs IH]; intros p p'; [done|].
  intros [Hx Hnd]%NoDup_cons (Hp & Hn & Hd) Hnx Hpv Hl Hh. cbn [dseg hd] in *. rewrite lst_cons in *.
  assert (xs <> [] -> lst x xs = lst 0 xs) as Hlast by (intros; by apply lst_default).
  split; [by apply Hh|]. split.
  - destruct xs as [|y xs]; [by apply Hl|]. cbn [hd] in *. rewrite <- Hn. apply Hnx; [by left|].
    rewrite Hlast by done. intros E. apply Hx. rewrite E. by apply lst_in.
  - apply (IH x x Hnd Hd).
    + intros y Hy Hyl. apply Hnx; [by right|]. rewrite Hlast; [done|]. by intros ->; apply elem_of_nil in Hy.
    + intros y Hy Hyh. apply Hpv; [by right|]. by intros ->.
    + intros Hne. rewrite <- Hlast by done. by apply Hl.
    + intros Hne. destruct xs as [|y xs]; [done|]. cbn [hd] in *. destruct Hd as (Hpy & _).
      rewrite Hpv; [done|by right; left|]. intros ->. apply Hx. by left.
Qed.

Lemma dseg_ext nx pv nx' pv' p xs n : dseg nx pv p xs n ->
  (forall x, x ∈ xs -> nx' x = nx x /\ pv' x = pv x) -> dseg nx' pv' p xs n.
Proof.
  revert p. induction xs as [|x xs IH]; intros p; [done|]. intros (Hp & Hn & Hd) He.
  destruct (He x) as [En Ep]; [by left|]. cbn [dseg]. rewrite En, Ep. split_and!; [done..|]. apply IH; [done|].
  intros y Hy. apply He. by right.
Qed.
Lemma dseg_last nx pv p xs n : dseg nx pv p xs n -> xs <> [] -> nx (lst 0 xs) = n.
Proof.
  intros Hd Hne. destruct (exists_last Hne) as (ys & y & ->). rewrite lst_snoc.
  by apply dseg_app in Hd as [_ (_ & ? & _)].
Qed.
Lemma dseg_head nx pv p xs n : dseg nx pv p xs n -> xs <> [] -> pv (hd 0 xs) = p.
Proof. destruct xs; [done|]. by intros (? & _). Qed.

(** A new first node. *)
Lemma dseg_push nx pv nx' pv' x xs : NoDup xs -> dseg nx pv 0 xs 0 ->
  nx' x = hd 0 xs -> pv' x = 0 -> (xs <> [] -> pv' (hd 0 xs) = x) ->
  (forall y, y ∈ xs -> nx' y = nx y) -> (forall y, y ∈ xs -> y <> hd 0 xs -> pv' y = pv y) ->
  dseg nx' pv' 0 (x :: xs) 0.
Proof.
  intros Hnd Hd E1 E2 E3 Hn Hp. cbn [dseg]. split_and!; [done..|].
  eapply dseg_change; [done|exact Hd|by auto..| |done]. intros Hne.
  rewrite Hn by by apply lst_in. by eapply dseg_last.
Qed.

(** A new last node. *)
Lemma dseg_snoc nx pv nx' pv' x xs : NoDup xs -> dseg nx pv 0 xs 0 ->
  nx' x = 0 -> pv' x = lst 0 xs -> (xs <> [] -> nx' (lst 0 xs) = x) ->
  (forall y, y ∈ xs -> pv' y = pv y) -> (forall y, y ∈ xs -> y <> lst 0 xs -> nx' y = nx y) ->
  dseg nx' pv' 0 (xs ++ [x]) 0.
Proof.
  intros Hnd Hd E1 E2 E3 Hp Hn. apply dseg_app. cbn [dseg hd]. split_and!; [|done..].
  eapply dseg_change; [done|exact Hd|by auto..|]. intros Hne.
  rewrite Hp by by apply hd_in. by eapply dseg_head.
Qed.

(** A node taken out: its neighbours are linked to each other. *)
Lemma dseg_remove nx pv nx' pv' l1 x l2 : NoDup (l1 ++ x :: l2) ->
  dseg nx pv 0 (l1 ++ x :: l2) 0 ->
  (l1 <> [] -> nx' (lst 0 l1) = hd 0 l2) -> (l2 <> [] -> pv' (hd 0 l2) = lst 0 l1) ->
  (forall y, y ∈ l1 ++ l2 -> (l1 <> [] -> y <> lst 0 l1) -> nx' y = nx y) ->
  (forall y, y ∈ l1 ++ l2 -> (l2 <> [] -> y <> hd 0 l2) -> pv' y = pv y) ->
  dseg nx' pv' 0 (l1 ++ l2) 0.
Proof.
  intros (Hn1 & H12 & [Hx Hn2]%NoDup_cons)%NoDup_app [Hd1 (_ & _ & Hd2)]%dseg_app E1 E2 Hnx Hpv.
  assert (forall y, y ∈ l1 -> l2 <> [] -> y <> hd 0 l2) as Hh.
  { intros y Hy Hne ->. apply (H12 (hd 0 l2) Hy). right. by apply hd_in. }
  assert (forall y, y ∈ l2 -> l1 <> [] -> y <> lst 0 l1) as Hl.
  { intros y Hy Hne ->. apply (H12 (lst 0 l1)); [by apply lst_in|by right]. }
  apply dseg_app. split.
  - eapply dseg_change; [done|exact Hd1|..].
    + intros y Hy Hyl. apply Hnx; [apply elem_of_app; by left|done].
    + intros y Hy _. apply Hpv; [apply elem_of_app; by left|by apply Hh].
    + done.
    + intros Hne. rewrite Hpv; [by eapply dseg_head|apply elem_of_app; left; by apply hd_in|].
      apply Hh. by apply hd_in.
  - eapply dseg_change; [done|exact Hd2|..].
    + intros y Hy _. apply Hnx; [apply elem_of_app; by right|by apply Hl].
    + intros y Hy Hyh. apply Hpv; [apply elem_of_app; by right|done].
    + intros Hne. rewrite Hnx; [by eapply dseg_last|apply elem_of_app; right; by apply lst_in|].
      apply Hl. by apply lst_in.
    + done.
Qed.
End Dseg.

(** ** The fields of the nodes *)
Implicit Types (E : gmap Z mq_queue_list) (p q x y : Z).
Definition fld (g : UT_hash_handle -> Z) E p : Z :=
  match E !! p with Some n => g (n_hh n) | None => 0 end.
Definition val E p : option (bytes * mq_queue) := (fun n => (n_key n, n_queue n)) <$> E !! p.
Abbreviation upd f p E := (alter (on_hh f) p E).

Lemma val_some E p n : E !! p = Some n -> val E p = Some (n_key n, n_queue n).
Proof. unfold val. by intros ->. Qed.
Lemma fld_some g E p n : E !! p = Some n -> fld g E p = g (n_hh n).
Proof. unfold fld. by intros ->. Qed.
Lemma node_upd f p E q : is_Some (upd f p E !! q) <-> is_Some (E !! q).
Proof. by rewrite lookup_alter_is_Some. Qed.
Lemma val_upd f p E q : val (upd f p E) q = val E q.
Proof.
  unfold val. destruct (decide (p = q)) as [->|]; [|by rewrite lookup_alter_ne].
  rewrite lookup_alter_eq. by destruct (E !! q).
Qed.
Lemma fld_upd_ne g f p E q : q <> p -> fld g (upd f p E) q = fld g E q.
Proof. intros H. unfold fld. by rewrite lookup_alter_ne. Qed.
Lemma fld_upd_id g f p E q : (forall h, g (f h) = g h) -> fld g (upd f p E) q = fld g E q.
Proof.
  intros H. destruct (decide (q = p)) as [->|]; [|by apply fld_upd_ne].
  unfold fld. rewrite lookup_alter_eq. destruct (E !! p); simpl; [by rewrite H|done].
Qed.
Lemma fld_upd_eq g f p E c : is_Some (E !! p) -> (forall h, g (f h) = c) -> fld g (upd f p E) p = c.
Proof. intros [n Hn] H. unfold fld. rewrite lookup_alter_eq, Hn. apply H. Qed.

(** All but the links of the buckets. *)
Definition shape (n : mq_queue_list) : bytes * mq_queue * (Z * Z * Z * Z * Z * Z) :=
  (n_key n, n_queue n, (tbl (n_hh n), prev (n_hh n), next (n_hh n), key (n_hh n), keylen (n_hh n), hashv (n_hh n))).
Definition core E := shape <$> E.
Definition in_core (g : UT_hash_handle -> Z) : Prop :=
  forall n n', shape n = shape n' -> g (n_hh n) = g (n_hh n').
Lemma in_core_fields : in_core tbl /\ in_core prev /\ in_core next /\ in_core key /\ in_core keylen /\ in_core hashv.
Proof. unfold in_core, shape. split_and!; intros n n' H; by injection H. Qed.

Lemma core_upd f p E : (forall n, shape (on_hh f n) = shape n) -> core (upd f p E) = core E.
Proof.
  intros H. apply map_eq. intros q. unfold core. rewrite !lookup_fmap.
  destruct (decide (p = q)) as [->|]; [|by rewrite lookup_alter_ne]. rewrite lookup_alter_eq.
  destruct (E !! q); simpl; [by rewrite H|done].
Qed.
Lemma core_shape E E' p : core E' = core E -> shape <$> E' !! p = shape <$> E !! p.
Proof. intros H. unfold core in H. by rewrite <- !lookup_fmap, H. Qed.
Lemma core_fld g E E' p : in_core g -> core E' = core E -> fld g E' p = fld g E p.
Proof.
  intros Hg H%(core_shape _ _ p). unfold fld. destruct (E' !! p), (E !! p); try discriminate; [|done].
  apply Hg. by apply (inj Some).
Qed.
Lemma core_val E E' p : core E' = core E -> val E' p = val E p.
Proof.
  intros H%(core_shape _ _ p). unfold val. destruct (E' !! p), (E !! p); try discriminate; [|done].
  apply (inj Some) in H. unfold shape in H. cbn. congruence.
Qed.
Lemma core_node E E' p : core E' = core E -> is_Some (E' !! p) <-> is_Some (E !! p).
Proof.
  intros H%(core_shape _ _ p). destruct (E' !! p), (E !! p); try discriminate; split; intros [? ?]; by eauto || done.
Qed.
Lemma core_size E E' : core E' = core E -> size E' = size E.
Proof.
  intros H. rewrite <- !(size_dom (D := gset Z)). f_equal. unfold core in H.
  by rewrite <- (dom_fmap_L shape E'), <- (dom_fmap_L shape E), H.
Qed.

(** ** The chains of the buckets *)
Definition hnx E x : Z := fld hh_next E (x - HH_OFFSET).
Definition hpv E x : Z := fld hh_prev E (x - HH_OFFSET).
Definition hval E x : Z := fld hashv E (x - HH_OFFSET).
Definition is_handle E x : Prop := x <> 0 /\ is_Some (E !! (x - HH_OFFSET)).

(** The handles of bucket [i] among [hs], with [nb] buckets. *)
Definition of_bucket E (nb : Z) (i : nat) (x : Z) : Prop := HASH_TO_BKT (hval E x) nb = Z.of_nat i.
#[local] Instance of_bucket_dec E nb i x : Decision (of_bucket E nb i x).
Proof. unfold of_bucket. apply _. Defined.

Definition chain E (b : UT_hash_bucket) (xs : list Z) : Prop :=
  count b = Z.of_nat (length xs) /\ hh_head b = hd 0 xs /\ dseg (hnx E) (hpv E) 0 xs 0.
Definition chains E (bs : list UT_hash_bucket) (hs : list Z) : Prop :=
  forall i b, bs !! i = Some b ->
    exists xs, xs ≡ₚ filter (of_bucket E (Z.of_nat (length bs)) i) hs /\ chain E b xs.

(** [x] has been put before the chain [xs]. *)
Record pushed E E' x (xs : list Z) : Prop := {
  pu_core : core E' = core E;
  pu_next : hnx E' x = hd 0 xs;
  pu_prev : hpv E' x = 0;
  pu_nexts y : y <> x -> hnx E' y = hnx E y;
  pu_head : xs <> [] -> hpv E' (hd 0 xs) = x;
  pu_prevs y : y <> x -> (xs <> [] -> y <> hd 0 xs) -> hpv E' y = hpv E y
}.
(** [x] has been taken out between [l1] and [l2]. *)
Record unlinked E E' (l1 l2 : list Z) : Prop := {
  un_core : core E' = core E;
  un_next : l1 <> [] -> hnx E' (lst 0 l1) = hd 0 l2;
  un_prev : l2 <> [] -> hpv E' (hd 0 l2) = lst 0 l1;
  un_nexts y : (l1 <> [] -> y <> lst 0 l1) -> hnx E' y = hnx E y;
  un_prevs y : (l2 <> [] -> y <> hd 0 l2) -> hpv E' y = hpv E y
}.

Lemma of_bucket_core E E' nb i x : core E' = core E -> of_bucket E' nb i x <-> of_bucket E nb i x.
Proof.
  intros H. unfold of_bucket, hval. rewrite (core_fld hashv E E'); [done|apply in_core_fields|done].
Qed.
Lemma filter_core E E' nb i (hs : list Z) : core E' = core E ->
  filter (of_bucket E' nb i) hs = filter (of_bucket E nb i) hs.
Proof. intros H. apply list_filter_iff. intros x. by apply of_bucket_core. Qed.

Lemma chains_perm E bs hs hs' : hs ≡ₚ hs' -> chains E bs hs -> chains E bs hs'.
Proof. intros Hp Hc i b Hb. destruct (Hc i b Hb) as (xs & Hx & Hch). exists xs. by rewrite <- Hp. Qed.

Lemma filter_ext_in (P Q : Z -> Prop) `{!forall x, Decision (P x), !forall x, Decision (Q x)} (l : list Z) :
  (forall x, x ∈ l -> P x <-> Q x) -> filter P l = filter Q l.
Proof.
  induction l as [|x l IH]; intros Heq; [done|]. rewrite !filter_cons.
  rewrite IH by (intros y Hy; apply Heq; by right). pose proof (Heq x ltac:(by left)).
  repeat case_decide; tauto.
Qed.

Lemma chains_ext E E' bs hs : chains E bs hs ->
  (forall x, x ∈ hs -> hnx E' x = hnx E x /\ hpv E' x = hpv E x /\ hval E' x = hval E x) -> chains E' bs hs.
Proof.
  intros Hc He i b Hb. destruct (Hc i b Hb) as (xs & Hx & Hn & Hh & Hd). exists xs. split.
  - rewrite Hx. apply Permutation_refl', filter_ext_in.
    intros x Hin. unfold of_bucket. by destruct (He x Hin) as (_ & _ & ->).
  - split_and!; [done..|]. eapply dseg_ext; [exact Hd|]. intros x Hin. rewrite Hx in Hin.
    apply list_elem_of_filter in Hin as [_ Hin]. by destruct (He x Hin) as (-> & -> & _).
Qed.

Lemma chain_nodup E nb i (hs xs : list Z) : NoDup hs -> xs ≡ₚ filter (of_bucket E nb i) hs -> NoDup xs.
Proof. intros Hn ->. by apply NoDup_filter. Qed.

Lemma chains_push E E' bs hs i b xs x m :
  NoDup hs -> x ∉ hs -> chains E bs hs -> of_bucket E (Z.of_nat (length bs)) i x -> bs !! i = Some b ->
  xs ≡ₚ filter (of_bucket E (Z.of_nat (length bs)) i) hs -> chain E b xs -> pushed E E' x xs ->
  chains E' (<[i := Bucket x (count b + 1) m]> bs) (hs ++ [x]).
Proof.
  intros Hnd Hx Hc Hi Hb Hxs (Hn & Hh & Hd) [Hcore P1 P2 P3 P4 P5] j bj Hbj.
  rewrite length_insert. rewrite (filter_core E E') by done. rewrite filter_app.
  assert (x ∉ xs) as Hnx by (rewrite Hxs, list_elem_of_filter; tauto).
  pose proof (chain_nodup _ _ _ _ _ Hnd Hxs) as Hndx. destruct (decide (i = j)) as [<-|Hij].
  - rewrite list_lookup_insert_eq in Hbj by by eapply lookup_lt_Some. injection Hbj as <-.
    exists (x :: xs). split.
    + rewrite filter_cons_True, filter_nil by done. rewrite <- Hxs. by rewrite (Permutation_app_comm xs [x]).
    + split_and!; [cbn [count length]; lia|done|]. eapply dseg_push; try done.
      * intros y Hy. apply P3. by intros ->.
      * intros y Hy Hyh. apply P5; [by intros ->|done].
  - rewrite list_lookup_insert_ne in Hbj by done. destruct (Hc j bj Hbj) as (ys & Hys & Hn' & Hh' & Hd').
    exists ys. assert (~ of_bucket E (Z.of_nat (length bs)) j x) as Hj.
    { unfold of_bucket in *. rewrite Hi. lia. }
    split; [by rewrite filter_cons_False, filter_nil, app_nil_r by done|]. split_and!; [done..|].
    eapply dseg_ext; [exact Hd'|]. intros y Hy. rewrite Hys in Hy. apply list_elem_of_filter in Hy as [Hyj Hy].
    assert (y <> x) as Hyx by by intros ->. split; [by apply P3|]. apply P5; [done|]. intros Hne ->.
    pose proof (hd_in 0 xs Hne) as Hz. rewrite Hxs in Hz at 2. apply list_elem_of_filter in Hz as [Hz _].
    unfold of_bucket in *. rewrite Hz in Hyj. lia.
Qed.

Lemma chains_unlink E E' bs hs hs' i b l1 x l2 m :
  NoDup hs -> hs ≡ₚ x :: hs' -> chains E bs hs -> of_bucket E (Z.of_nat (length bs)) i x -> bs !! i = Some b ->
  l1 ++ x :: l2 ≡ₚ filter (of_bucket E (Z.of_nat (length bs)) i) hs -> chain E b (l1 ++ x :: l2) ->
  unlinked E E' l1 l2 ->
  chains E' (<[i := Bucket (hd 0 (l1 ++ l2)) (count b - 1) m]> bs) hs'.
Proof.
  intros Hnd Hperm Hc Hi Hb Hxs (Hn & Hh & Hd) [Hcore U1 U2 U3 U4] j bj Hbj.
  rewrite length_insert. rewrite (filter_core E E') by done.
  pose proof (chain_nodup _ _ _ _ _ Hnd Hxs) as Hndx.
  assert (forall y, y ∈ l1 ++ x :: l2 -> of_bucket E (Z.of_nat (length bs)) i y) as Hin.
  { intros y Hy. rewrite Hxs in Hy. by apply list_elem_of_filter in Hy as [? _]. }
  rewrite Hperm in Hxs. rewrite filter_cons_True in Hxs by done. destruct (decide (i = j)) as [<-|Hij].
  - rewrite list_lookup_insert_eq in Hbj by by eapply lookup_lt_Some. injection Hbj as <-.
    exists (l1 ++ l2). split; [|split_and!].
    + apply (Permutation_cons_inv (a := x)). by rewrite <- Hxs, Permutation_middle.
    + cbn [count]. rewrite Hn, !length_app. simpl. lia.
    + done.
    + eapply dseg_remove; [exact Hndx|exact Hd|done|done|by auto..].
  - rewrite list_lookup_insert_ne in Hbj by done. destruct (Hc j bj Hbj) as (ys & Hys & Hn' & Hh' & Hd').
    assert (~ of_bucket E (Z.of_nat (length bs)) j x) as Hj.
    { unfold of_bucket in *. rewrite Hi. lia. }
    assert (forall y, y ∈ ys -> y ∉ l1 ++ x :: l2) as Hap.
    { intros y Hy Hyx%Hin. rewrite Hys in Hy. apply list_elem_of_filter in Hy as [Hyj _].
      unfold of_bucket in *. rewrite Hyx in Hyj. lia. }
    exists ys. split; [by rewrite Hys, Hperm, filter_cons_False|]. split_and!; [done..|].
    eapply dseg_ext; [exact Hd'|]. intros y Hy. split.
    + apply U3. intros Hne ->. apply (Hap _ Hy), elem_of_app. left. by apply lst_in.
    + apply U4. intros Hne ->. apply (Hap _ Hy), elem_of_app. right. right. by apply hd_in.
Qed.

(** ** Running the statements *)
Section Run.
Context {A : Type}.
Implicit Types (Ts : gmap Z UT_hash_table) (As : gmap Z (list UT_hash_bucket)) (n m : Z).

Lemma ubind_ok {C} (u : U C) (k : C -> U A) s c s' : u s = Ok (Some c, s') -> ubind u k s = k c s'.
Proof. intros H. unfold ubind, bind. by rewrite H. Qed.
Lemma ubind_exit {C} (u : U C) (k : C -> U A) s s' : u s = Ok (None, s') -> ubind u k s = Ok (None, s').
Proof. intros H. unfold ubind, bind. by rewrite H. Qed.
Lemma ubind_assoc {C D} (u : U C) (f : C -> U D) (k : D -> U A) s :
  ubind (ubind u f) k s = ubind u (fun c => ubind (f c) k) s.
Proof. unfold ubind, bind. by destruct (u s) as [[[c|] s']| |]. Qed.
Lemma ubind_ext {C} (u : U C) (f k : C -> U A) s : (forall c s', f c s' = k c s') -> ubind u f s = ubind u k s.
Proof. intros H. unfold ubind, bind. destruct (u s) as [[[c|] s']| |]; auto. Qed.
Lemma run_ret {C} (c : C) (k : C -> U A) s : ubind (uret c) k s = k c s.
Proof. done. Qed.

Lemma run_read_node p e (k : mq_queue_list -> U A) E Ts As n m : E !! p = Some e ->
  ubind (read_node p) k (Heap E Ts As n m) = k e (Heap E Ts As n m).
Proof. intros H. apply ubind_ok. unfold read_node. cbn. by rewrite H. Qed.
Lemma run_read_handle x e (k : UT_hash_handle -> U A) E Ts As n m : E !! (x - HH_OFFSET) = Some e ->
  ubind (read_handle x) k (Heap E Ts As n m) = k (n_hh e) (Heap E Ts As n m).
Proof. intros H. apply ubind_ok. unfold read_handle, ubind, bind, read_node. cbn. by rewrite H. Qed.
Lemma run_read_table t T (k : UT_hash_table -> U A) E Ts As n m : Ts !! t = Some T ->
  ubind (read_table t) k (Heap E Ts As n m) = k T (Heap E Ts As n m).
Proof. intros H. apply ubind_ok. unfold read_table. cbn. by rewrite H. Qed.
Lemma run_read_bucket a i bs b (k : UT_hash_bucket -> U A) E Ts As n m :
  As !! a = Some bs -> bs !! Z.to_nat i = Some b ->
  ubind (read_bucket a i) k (Heap E Ts As n m) = k b (Heap E Ts As n m).
Proof. intros H1 H2. apply ubind_ok. unfold read_bucket. cbn. by rewrite H1, H2. Qed.
Lemma run_write_hh p f (k : unit -> U A) E Ts As n m : is_Some (E !! p) ->
  ubind (write_hh p f) k (Heap E Ts As n m) = k tt (Heap (upd f p E) Ts As n m).
Proof. intros [e H]. apply ubind_ok. unfold write_hh. cbn. by rewrite H. Qed.
Lemma run_write_handle x f (k : unit -> U A) E Ts As n m : is_Some (E !! (x - HH_OFFSET)) ->
  ubind (write_handle x f) k (Heap E Ts As n m) = k tt (Heap (upd f (x - HH_OFFSET) E) Ts As n m).
Proof. apply run_write_hh. Qed.
Lemma run_write_table t T f (k : unit -> U A) E As n m :
  ubind (write_table t f) k (Heap E {[t := T]} As n m) = k tt (Heap E {[t := f T]} As n m).
Proof.
  apply ubind_ok. unfold write_table. cbn. rewrite lookup_singleton_eq. unfold set_tables. cbn.
  by rewrite alter_singleton_eq.
Qed.
Lemma run_write_bucket a i bs b (k : unit -> U A) E Ts As n m :
  As !! a = Some bs -> (Z.to_nat i < length bs)%nat ->
  ubind (write_bucket a i b) k (Heap E Ts As n m) = k tt (Heap E Ts (<[a := <[Z.to_nat i := b]> bs]> As) n m).
Proof.
  intros H1 H2. apply ubind_ok. unfold write_bucket. cbn [h_arrays]. rewrite H1. by rewrite (proj2 (Nat.ltb_lt _ _)).
Qed.
Lemma run_malloc size (k : Z -> U A) E Ts As n m : size <= m ->
  ubind (uthash_malloc size) k (Heap E Ts As n m) = k n (Heap E Ts As (n + Z.max 1 size) m).
Proof. intros H. apply ubind_ok. unfold uthash_malloc. cbn. by rewrite (proj2 (Z.ltb_ge _ _)). Qed.
Lemma run_no_malloc size (k : Z -> U A) E Ts As n m : m < size ->
  ubind (uthash_malloc size) k (Heap E Ts As n m) = k 0 (Heap E Ts As n m).
Proof. intros H. apply ubind_ok. unfold uthash_malloc. cbn. by rewrite (proj2 (Z.ltb_lt _ _)). Qed.
Lemma run_free_array a bs (k : unit -> U A) E Ts As n m : As !! a = Some bs ->
  ubind (free_array a) k (Heap E Ts As n m) = k tt (Heap E Ts (delete a As) n m).
Proof. intros H. apply ubind_ok. unfold free_array. cbn. by rewrite H. Qed.
Lemma run_free_table t T (k : unit -> U A) E As n m :
  ubind (free_table t) k (Heap E {[t := T]} As n m) = k tt (Heap E ∅ As n m).
Proof.
  apply ubind_ok. unfold free_table. cbn. rewrite lookup_singleton_eq. unfold set_tables. cbn.
  by rewrite delete_singleton_eq.
Qed.
Lemma run_free_node p (k : unit -> U A) E Ts As n m : is_Some (E !! p) ->
  ubind (free_node p) k (Heap E Ts As n m) = k tt (Heap (delete p E) Ts As n m).
Proof. intros [e H]. apply ubind_ok. unfold free_node. cbn. by rewrite H. Qed.

(** A node before the chain of a bucket, in either order of the two links. *)
Definition push_nodes x b E : gmap Z mq_queue_list :=
  let E1 := upd (set_hh_prev 0) (x - HH_OFFSET) (upd (set_hh_next (hh_head b)) (x - HH_OFFSET) E) in
  if hh_head b =? 0 then E1 else upd (set_hh_prev x) (hh_head b - HH_OFFSET) E1.

Lemma push_nodes_swap x v E :
  upd (set_hh_next v) (x - HH_OFFSET) (upd (set_hh_prev 0) (x - HH_OFFSET) E)
  = upd (set_hh_prev 0) (x - HH_OFFSET) (upd (set_hh_next v) (x - HH_OFFSET) E).
Proof. rewrite !alter_alter_eq. apply alter_ext. by intros [? ? []]. Qed.

Lemma run_push_head x b (k : unit -> U A) E Ts As n m :
  (hh_head b <> 0 -> is_Some (E !! (hh_head b - HH_OFFSET))) ->
  ubind (if negb (hh_head b =? 0) then write_handle (hh_head b) (set_hh_prev x) else uret tt) k
    (Heap (upd (set_hh_prev 0) (x - HH_OFFSET) (upd (set_hh_next (hh_head b)) (x - HH_OFFSET) E)) Ts As n m)
  = k tt (Heap (push_nodes x b E) Ts As n m).
Proof.
  intros H. unfold push_nodes. destruct (Z.eqb_spec (hh_head b) 0); cbn [negb]; [done|].
  apply run_write_handle. rewrite !node_upd. by apply H.
Qed.

Lemma push_nodes_pushed x b xs E : is_handle E x -> x ∉ xs -> chain E b xs -> Forall (is_handle E) xs ->
  pushed E (push_nodes x b E) x xs.
Proof.
  intros [Hx0 Hx] Hnx (_ & Hh & _) Hall. unfold push_nodes. rewrite Hh.
  set (E1 := upd (set_hh_prev 0) _ _).
  assert (forall f p E, (forall e, shape (on_hh f e) = shape e) -> core (upd f p E) = core E) as Hcu
    by (intros; by apply core_upd).
  assert (hnx E1 x = hd 0 xs) as H1.
  { unfold hnx, E1. rewrite fld_upd_id by done. by apply fld_upd_eq. }
  assert (hpv E1 x = 0) as H2.
  { unfold hpv, E1. apply fld_upd_eq; [by rewrite node_upd|done]. }
  assert (forall y, y <> x -> hnx E1 y = hnx E y /\ hpv E1 y = hpv E y) as H3.
  { intros y Hy. unfold hnx, hpv, E1. by rewrite !fld_upd_ne by lia. }
  assert (core E1 = core E) as H4 by (unfold E1; by rewrite !core_upd by done).
  destruct xs as [|y xs]; cbn [hd].
  - rewrite Z.eqb_refl. split; auto; try done; intros; by apply H3.
  - apply Forall_cons in Hall as [[Hy0 Hy] _]. rewrite (proj2 (Z.eqb_neq y 0)) by done.
    assert (x <> y) as Hxy by (intros ->; apply Hnx; by left).
    split; unfold hnx, hpv in *; cbn [hd].
    + by rewrite core_upd.
    + by rewrite fld_upd_id.
    + by rewrite fld_upd_ne by lia.
    + intros z Hz. rewrite fld_upd_id by done. by apply H3.
    + intros _. apply fld_upd_eq; [|done]. unfold E1. by rewrite !node_upd.
    + intros z Hz Hzy. specialize (Hzy ltac:(done)). rewrite fld_upd_ne by lia. by apply H3.
Qed.
End Run.

(** Taking a handle out of its bucket. *)
Definition unlink_nodes (pv nx : Z) E : gmap Z mq_queue_list :=
  let E1 := if pv =? 0 then E else upd (set_hh_next nx) (pv - HH_OFFSET) E in
  if nx =? 0 then E1 else upd (set_hh_prev pv) (nx - HH_OFFSET) E1.

Lemma unlink_nodes_unlinked E l1 x l2 : NoDup (l1 ++ x :: l2) -> Forall (is_handle E) (l1 ++ x :: l2) ->
  unlinked E (unlink_nodes (lst 0 l1) (hd 0 l2) E) l1 l2.
Proof.
  intros Hnd Hall. unfold unlink_nodes. set (E1 := if lst 0 l1 =? 0 then _ else _).
  rewrite Forall_forall in Hall.
  assert (l1 <> [] -> is_handle E (lst 0 l1)) as Hl by (intros; apply Hall, elem_of_app; left; by apply lst_in).
  assert (l2 <> [] -> is_handle E (hd 0 l2)) as Hh by (intros; apply Hall, elem_of_app; right; right; by apply hd_in).
  assert (l1 <> [] -> hnx E1 (lst 0 l1) = hd 0 l2) as H1.
  { intros Hne. destruct (Hl Hne) as [H0 Hs]. unfold E1. rewrite (proj2 (Z.eqb_neq _ _)) by done. by apply fld_upd_eq. }
  assert (forall y, (l1 <> [] -> y <> lst 0 l1) -> hnx E1 y = hnx E y) as H2.
  { intros y Hy. unfold E1. destruct (Z.eqb_spec (lst 0 l1) 0) as [|Hne]; [done|].
    apply fld_upd_ne. assert (l1 <> []) as Hne' by by intros ->. specialize (Hy Hne'). lia. }
  assert (forall y, hpv E1 y = hpv E y) as H3.
  { intros y. unfold E1. destruct (lst 0 l1 =? 0); [done|]. by apply fld_upd_id. }
  assert (core E1 = core E) as H4 by (unfold E1; destruct (_ =? 0); [done|by apply core_upd]).
  assert (forall p, is_Some (E1 !! p) <-> is_Some (E !! p)) as H5 by (intros; by apply core_node).
  clearbody E1. destruct (Z.eqb_spec (hd 0 l2) 0) as [Hz|Hz].
  - split; auto. intros Hne. by destruct (Hh Hne).
  - assert (l2 <> []) as Hne by by intros ->. destruct (Hh Hne) as [_ Hs]. split; unfold hnx, hpv in *.
    + by rewrite core_upd.
    + intros Hne1. rewrite fld_upd_id by done. by apply H1.
    + intros _. apply fld_upd_eq; [by apply H5|done].
    + intros y Hy. rewrite fld_upd_id by done. by apply H2.
    + intros y Hy. rewrite fld_upd_ne by (specialize (Hy Hne); lia). apply H3.
Qed.

Lemma run_del_in_bkt {A} a i x bs b l1 l2 (k : unit -> U A) E Ts As n m :
  As !! a = Some bs -> bs !! Z.to_nat i = Some b -> chain E b (l1 ++ x :: l2) ->
  NoDup (l1 ++ x :: l2) -> Forall (is_handle E) (l1 ++ x :: l2) -> count b <= UINT_MAX ->
  ubind (HASH_DEL_IN_BKT a i x) k (Heap E Ts As n m)
  = k tt (Heap (unlink_nodes (lst 0 l1) (hd 0 l2) E) Ts
            (<[a := <[Z.to_nat i := Bucket (hd 0 (l1 ++ l2)) (count b - 1) (expand_mult b)]> bs]> As) n m).
Proof.
  intros Ha Hb (Hn & Hh & Hd) Hnd Hall Hc. apply dseg_app in Hd as [_ (Hpv & Hnx & _)].
  assert (forall y, y ∈ l1 ++ x :: l2 -> is_handle E y) as Hin by by apply Forall_forall.
  assert (is_handle E x) as [_ [e He]] by (apply Hin, elem_of_app; right; by left).
  unfold hpv, hnx in *. rewrite (fld_some _ _ _ _ He) in Hpv. rewrite (fld_some _ _ _ _ He) in Hnx.
  unfold HASH_DEL_IN_BKT. rewrite ubind_assoc. erewrite run_read_bucket by done. rewrite ubind_assoc.
  erewrite run_read_handle by done. rewrite ubind_assoc.
  rewrite length_app in Hn. simpl in Hn. unfold UINT_MAX in Hc. rewrite u32_small by lia. rewrite Hpv, Hnx.
  assert ((if hh_head b =? x then hd 0 l2 else hh_head b) = hd 0 (l1 ++ l2)) as ->.
  { rewrite Hh. destruct l1 as [|y l1]; cbn [app hd]; [by rewrite Z.eqb_refl|].
    rewrite (proj2 (Z.eqb_neq y x)); [done|]. intros ->. apply NoDup_cons in Hnd as [Hnd _].
    apply Hnd, elem_of_app. right. by left. }
  erewrite run_write_bucket by (done || by eapply lookup_lt_Some). rewrite ubind_assoc. unfold unlink_nodes.
  assert (hd 0 l2 <> 0 -> is_Some (E !! (hd 0 l2 - HH_OFFSET))) as H2.
  { intros Hne. destruct l2; [done|]. apply Hin, elem_of_app. right. right. by left. }
  destruct (Z.eqb_spec (lst 0 l1) 0) as [H1|H1]; cbn [negb].
  - rewrite run_ret. destruct (Z.eqb_spec (hd 0 l2) 0); cbn [negb]; [done|]. apply run_write_handle. by apply H2.
  - rewrite run_write_handle.
    + destruct (Z.eqb_spec (hd 0 l2) 0); cbn [negb]; [done|]. apply run_write_handle. rewrite node_upd. by apply H2.
    + apply Hin, elem_of_app. left. apply lst_in. by intros ->.
Qed.

(** ** The growth of the array *)
Lemma to_bkt_range h k : 0 <= k <= 31 -> 0 <= HASH_TO_BKT h (2 ^ k) < 2 ^ k.
Proof.
  intros Hk. unfold HASH_TO_BKT. assert (2 ^ k <= 2 ^ 31) by (apply Z.pow_le_mono_r; lia).
  assert (0 < 2 ^ k) by (apply Z.pow_pos_nonneg; lia).
  rewrite u32_small by lia. replace (2 ^ k - 1) with (Z.ones k) by (rewrite Z.ones_equiv; lia).
  rewrite Z.land_ones by lia. apply Z.mod_pos_bound. lia.
Qed.
(** No bucket is over-full by no measure. *)
Lemma ideal_pos items k : 0 <= k <= 30 -> 1 <= items <= UINT_MAX ->
  u32 (Z.shiftr items (k + 1) + (if Z.land items (u32 (2 ^ (k + 1) - 1)) =? 0 then 0 else 1)) <> 0.
Proof.
  unfold UINT_MAX. intros Hk Hi. assert (2 ^ (k + 1) <= 2 ^ 31) by (apply Z.pow_le_mono_r; lia).
  assert (2 <= 2 ^ (k + 1)) by (change 2 with (2 ^ 1) at 1; apply Z.pow_le_mono_r; lia).
  rewrite (u32_small (2 ^ (k + 1) - 1)) by lia.
  replace (2 ^ (k + 1) - 1) with (Z.ones (k + 1)) by (rewrite Z.ones_equiv; lia).
  rewrite Z.land_ones, Z.shiftr_div_pow2 by lia.
  pose proof (Z.div_mod items (2 ^ (k + 1)) ltac:(lia)). pose proof (Z.mod_pos_bound items (2 ^ (k + 1)) ltac:(lia)).
  assert (0 <= items / 2 ^ (k + 1) <= items / 2).
  { split; [apply Z.div_pos; lia|apply Z.div_le_compat_l; lia]. }
  assert (items / 2 < 2147483648) by (apply Z.div_lt_upper_bound; lia).
  destruct (Z.eqb_spec (items mod 2 ^ (k + 1)) 0) as [E|]; rewrite u32_small by lia; nia.
Qed.

Lemma handles_size E xs : NoDup xs -> Forall (is_handle E) xs -> (length xs <= size E)%nat.
Proof.
  intros Hnd Hall. rewrite <- (length_fmap (fun x => x - HH_OFFSET) xs), <- (size_dom (D := gset Z)).
  rewrite <- (size_list_to_set (C := gset Z)).
  - apply subseteq_size. intros p Hp. apply elem_of_list_to_set, list_elem_of_fmap in Hp as (x & -> & Hx).
    apply elem_of_dom. rewrite Forall_forall in Hall. by apply Hall.
  - apply NoDup_fmap_2; [|done]. intros x y. lia.
Qed.

(** The nodes in the order of [hh_next]. *)
Fixpoint nexts (nx : Z -> Z) (xs : list Z) : Prop :=
  match xs with [] => True | x :: xs => nx x = hd 0 xs /\ nexts nx xs end.
Lemma dseg_nexts nx pv p xs : dseg nx pv p xs 0 -> nexts nx xs.
Proof. revert p. induction xs as [|x xs IH]; intros p; [done|]. intros (_ & ? & Hd). split; [done|by eapply IH]. Qed.
Lemma nexts_ext nx nx' xs : (forall x, x ∈ xs -> nx' x = nx x) -> nexts nx xs -> nexts nx' xs.
Proof.
  induction xs as [|x xs IH]; [done|]. intros He [Hx Hn]. split; [rewrite He; [done|by left]|].
  apply IH; [|done]. intros y Hy. apply He. by right.
Qed.

Lemma is_handle_core E E' x : core E' = core E -> is_handle E' x <-> is_handle E x.
Proof. intros H. unfold is_handle. by rewrite (core_node E E'). Qed.
Lemma handles_core E E' xs : core E' = core E -> Forall (is_handle E) xs -> Forall (is_handle E') xs.
Proof. intros H Hall. eapply Forall_impl; [exact Hall|]. intros x. by apply is_handle_core. Qed.

Lemma forall2_impl_in {A C} (R R' : A -> C -> Prop) l l' : Forall2 R l l' ->
  (forall a c, c ∈ l' -> R a c -> R' a c) -> Forall2 R' l l'.
Proof.
  induction 1 as [|a c l l' Hac Hl IH]; intros Hi; [constructor|]. constructor; [apply Hi; [by left|done]|].
  apply IH. intros a' c' Hc. apply Hi. by right.
Qed.

Lemma elem_of_concat y (ls : list (list Z)) : y ∈ concat ls <-> exists ys, y ∈ ys /\ ys ∈ ls.
Proof.
  rewrite list_elem_of_In, in_concat. split; intros (ys & H1 & H2); exists ys; by rewrite !list_elem_of_In in *.
Qed.

Section Move.
Context {A : Type} (tb nb k : Z) (T : UT_hash_table) (n m : Z) (Hk : 0 <= k <= 30).
Context (Hnum : num_buckets T = 2 ^ k) (Hideal : ideal_chain_maxlen T <> 0).
#[local] Abbreviation with_nonideal v := (set_ideal (ideal_chain_maxlen T) v T).

Lemma doubled : u32 (2 ^ k * 2) = 2 ^ (k + 1).
Proof using Hk.
  rewrite Z.pow_add_r by lia. change (2 ^ 1) with 2. apply u32_small.
  assert (2 ^ k <= 2 ^ 30) by (apply Z.pow_le_mono_r; lia). assert (0 < 2 ^ k) by (apply Z.pow_pos_nonneg; lia). lia.
Qed.

Lemma run_count_moved b (kk : UT_hash_bucket -> U A) E As v : 0 <= count b < UINT_MAX ->
  exists v' mult, ubind (count_moved tb (with_nonideal v) b) kk (Heap E {[tb := with_nonideal v]} As n m)
    = kk (Bucket (hh_head b) (count b + 1) mult) (Heap E {[tb := with_nonideal v']} As n m).
Proof using Hideal.
  clear Hk Hnum. intros Hb. unfold count_moved, UINT_MAX in *. rewrite u32_small by lia.
  change (ideal_chain_maxlen (with_nonideal v)) with (ideal_chain_maxlen T).
  destruct (_ <? _); [|by eexists v, _]. rewrite ubind_assoc, run_write_table.
  rewrite (proj2 (Z.eqb_neq _ 0)) by done. eexists (u32 (v + 1)), _. reflexivity.
Qed.

Lemma run_move_handle x moved nbs (kk : unit -> U A) E As v :
  is_handle E x -> NoDup moved -> x ∉ moved -> Forall (is_handle E) moved ->
  Z.of_nat (length moved) < UINT_MAX -> As !! nb = Some nbs -> Z.of_nat (length nbs) = 2 ^ (k + 1) ->
  chains E nbs moved ->
  exists E' nbs' v', ubind (move_handle tb nb x) kk (Heap E {[tb := with_nonideal v]} As n m)
      = kk tt (Heap E' {[tb := with_nonideal v']} (<[nb := nbs']> As) n m) /\
    core E' = core E /\ (forall y, y <> x -> hnx E' y = hnx E y) /\
    chains E' nbs' (moved ++ [x]) /\ length nbs' = length nbs.
Proof using Hk Hnum Hideal.
  intros Hx Hnd Hxm Hall Hlen Has Hnl Hc. pose proof Hx as [_ [e He]]. unfold UINT_MAX in Hlen.
  unfold move_handle. rewrite ubind_assoc. erewrite run_read_handle by done.
  rewrite ubind_assoc. erewrite run_read_table by apply lookup_singleton_eq. cbv zeta.
  change (num_buckets (with_nonideal v)) with (num_buckets T). rewrite Hnum, doubled.
  assert (hashv (n_hh e) = hval E x) as Hhv by (unfold hval; by rewrite (fld_some _ _ _ _ He)).
  rewrite Hhv. pose proof (to_bkt_range (hval E x) (k + 1) ltac:(lia)) as Hr.
  set (i := HASH_TO_BKT (hval E x) (2 ^ (k + 1))) in *.
  destruct (lookup_lt_is_Some_2 nbs (Z.to_nat i)) as [b Hb]; [lia|].
  destruct (Hc (Z.to_nat i) b Hb) as (xs & Hxs & Hch).
  assert (of_bucket E (Z.of_nat (length nbs)) (Z.to_nat i) x) as Hi.
  { unfold of_bucket. rewrite Hnl. fold i. lia. }
  assert (Forall (is_handle E) xs) as Hxall.
  { rewrite Hxs. apply Forall_forall. intros y [_ Hy]%list_elem_of_filter. by eapply Forall_forall in Hall. }
  assert (length xs <= length moved)%nat as Hle by (rewrite Hxs; apply length_filter).
  pose proof Hch as (Hn & Hh & _).
  rewrite ubind_assoc. erewrite run_read_bucket by done.
  rewrite ubind_assoc. match goal with |- context [ubind (count_moved _ _ _) ?K _] =>
    destruct (run_count_moved b K E As v) as (v' & mult & ->) end; [unfold UINT_MAX; lia|].
  cbn [hh_head count expand_mult].
  rewrite ubind_assoc, run_write_handle by by eexists.
  rewrite ubind_assoc, run_write_handle by (rewrite node_upd; by eexists).
  rewrite push_nodes_swap, ubind_assoc, run_push_head.
  2:{ intros Hne. rewrite Hh in Hne |- *. destruct xs as [|y xs]; [done|]. by apply Forall_cons in Hxall as [[_ ?] _]. }
  assert (pushed E (push_nodes x b E) x xs) as Hp.
  { apply push_nodes_pushed; try done. rewrite Hxs, list_elem_of_filter. tauto. }
  erewrite run_write_bucket by (done || lia). do 3 eexists. split; [reflexivity|]. split_and!.
  - apply Hp.
  - apply Hp.
  - by eapply chains_push.
  - by rewrite length_insert.
Qed.

Lemma run_move_chain xs : forall fuel moved nbs (kk : unit -> U A) E As v,
  NoDup (moved ++ xs) -> Forall (is_handle E) (moved ++ xs) -> nexts (hnx E) xs ->
  Z.of_nat (length (moved ++ xs)) <= UINT_MAX -> As !! nb = Some nbs -> Z.of_nat (length nbs) = 2 ^ (k + 1) ->
  chains E nbs moved -> (length xs < fuel)%nat ->
  exists E' nbs' v', ubind (move_chain fuel tb nb (hd 0 xs)) kk (Heap E {[tb := with_nonideal v]} As n m)
      = kk tt (Heap E' {[tb := with_nonideal v']} (<[nb := nbs']> As) n m) /\
    core E' = core E /\ (forall y, y ∉ xs -> hnx E' y = hnx E y) /\
    chains E' nbs' (moved ++ xs) /\ length nbs' = length nbs.
Proof using Hk Hnum Hideal.
  induction xs as [|x xs IH]; intros [|fuel] moved nbs kk E As v Hnd Hall Hn Hlen Has Hnl Hc Hfuel; simpl in Hfuel; try lia.
  - exists E, nbs, v. rewrite app_nil_r, insert_id by done. by split_and!.
  - cbn [hd]. destruct Hn as [Hx Hn]. pose proof Hnd as (Hnd1 & Hnd2 & Hnd3)%NoDup_app.
    pose proof Hall as [Hall1 [Hhx Hall2]%Forall_cons]%Forall_app. pose proof Hhx as [Hx0 [e He]].
    apply NoDup_cons in Hnd3 as [Hxx Hnd3]. rewrite length_app in Hlen. cbn [length] in Hlen. unfold UINT_MAX in *.
    destruct (run_move_handle x moved nbs (fun _ => ubind (move_chain fuel tb nb (hd 0 xs)) kk) E As v)
      as (E1 & nbs1 & v1 & E1q & Hcore & Hnx & Hc1 & Hl1); try done.
    { intros Hin. apply (Hnd2 x Hin). by left. }
    { unfold UINT_MAX. lia. }
    destruct (IH fuel (moved ++ [x]) nbs1 kk E1 (<[nb := nbs1]> As) v1) as (E2 & nbs2 & v2 & E2q & Hcore2 & Hnx2 & Hc2 & Hl2).
    + by rewrite <- app_assoc.
    + rewrite <- app_assoc. by eapply handles_core.
    + eapply nexts_ext; [|exact Hn]. intros y Hy. apply Hnx. by intros ->.
    + rewrite !length_app. cbn [length]. lia.
    + by rewrite lookup_insert_eq.
    + lia.
    + done.
    + lia.
    + exists E2, nbs2, v2. split_and!.
      * cbn [move_chain]. rewrite (proj2 (Z.eqb_neq x 0)) by done. rewrite ubind_assoc.
        erewrite run_read_handle by done. cbv zeta. rewrite ubind_assoc.
        unfold hnx in Hx. rewrite (fld_some _ _ _ _ He) in Hx. rewrite Hx, E1q, E2q. by rewrite insert_insert_eq.
      * congruence.
      * intros y [Hyx Hy]%not_elem_of_cons. rewrite Hnx2, Hnx; done.
      * by rewrite <- app_assoc in Hc2.
      * congruence.
Qed.

(** The chain of an old bucket. *)
Definition old_chain E (bs : list UT_hash_bucket) (i : Z) (xs : list Z) : Prop :=
  exists b, bs !! Z.to_nat i = Some b /\ hh_head b = hd 0 xs /\ nexts (hnx E) xs.

Lemma run_move_chains chs : forall idxs moved nbs (kk : unit -> U A) E As v bs,
  Forall2 (old_chain E bs) idxs chs -> NoDup (moved ++ concat chs) -> Forall (is_handle E) (moved ++ concat chs) ->
  Z.of_nat (length (moved ++ concat chs)) <= UINT_MAX -> As !! nb = Some nbs -> Z.of_nat (length nbs) = 2 ^ (k + 1) ->
  As !! buckets T = Some bs -> buckets T <> nb -> chains E nbs moved ->
  exists E' nbs' v', ubind (move_chains tb nb idxs) kk (Heap E {[tb := with_nonideal v]} As n m)
      = kk tt (Heap E' {[tb := with_nonideal v']} (<[nb := nbs']> As) n m) /\
    core E' = core E /\ chains E' nbs' (moved ++ concat chs) /\ length nbs' = length nbs.
Proof using Hk Hnum Hideal.
  induction chs as [|xs chs IH]; intros idxs moved nbs kk E As v bs Hch Hnd Hall Hlen Has Hnl Hbs Hne Hc.
  - apply Forall2_nil_inv_r in Hch as ->. exists E, nbs, v. cbn [concat]. rewrite app_nil_r, insert_id by done. by split_and!.
  - apply Forall2_cons_inv_r in Hch as (i & idxs' & (b & Hb & Hh & Hn) & Hch & ->). cbn [concat] in *.
    pose proof Hall as Hall'. rewrite app_assoc in Hnd, Hall', Hlen.
    pose proof Hnd as (Hnd1 & Hnd2 & _)%NoDup_app. pose proof Hall' as [Hall1 _]%Forall_app.
    rewrite length_app in Hlen. unfold UINT_MAX in Hlen.
    pose proof Hnd1 as (_ & _ & Hndx)%NoDup_app. pose proof Hall1 as [_ Hallx]%Forall_app.
    destruct (run_move_chain xs (S (size E)) moved nbs (fun _ => ubind (move_chains tb nb idxs') kk) E As v)
      as (E1 & nbs1 & v1 & E1q & Hcore & Hnx & Hc1 & Hl1); try done.
    { unfold UINT_MAX. lia. }
    { pose proof (handles_size E xs Hndx Hallx). lia. }
    destruct (IH idxs' (moved ++ xs) nbs1 kk E1 (<[nb := nbs1]> As) v1 bs) as (E2 & nbs2 & v2 & E2q & Hcore2 & Hc2 & Hl2); try done.
    + eapply forall2_impl_in; [exact Hch|]. intros j ys Hys (b' & ? & ? & Hn'). exists b'. split_and!; [done..|].
      eapply nexts_ext; [|exact Hn']. intros y Hy. apply Hnx. intros Hyx. apply (Hnd2 y).
      * apply elem_of_app. by right.
      * apply elem_of_concat. by exists ys.
    + by eapply handles_core.
    + rewrite length_app. unfold UINT_MAX. lia.
    + by rewrite lookup_insert_eq.
    + lia.
    + by rewrite lookup_insert_ne.
    + exists E2, nbs2, v2. split_and!; [|congruence|by rewrite app_assoc|congruence].
      cbn [move_chains]. rewrite ubind_assoc. erewrite run_read_table by apply lookup_singleton_eq.
      rewrite ubind_assoc. erewrite run_read_bucket by done. rewrite ubind_assoc, Hh.
      etransitivity; [exact E1q|]. by rewrite E2q, insert_insert_eq.
Qed.
End Move.

(** The buckets divide the handles. *)
Lemma partition_concat (f : Z -> Z) (js : list Z) : forall hs, NoDup js -> (forall x, x ∈ hs -> f x ∈ js) ->
  concat ((fun i => filter (fun x => f x = i) hs) <$> js) ≡ₚ hs.
Proof.
  induction js as [|i js IH]; intros hs Hnd Hin.
  - destruct hs as [|x hs]; [done|]. exfalso. eapply not_elem_of_nil, (Hin x). by left.
  - apply NoDup_cons in Hnd as [Hi Hnd]. cbn [fmap list_fmap concat].
    transitivity (filter (fun x => f x = i) hs ++ filter (fun x => ~ f x = i) hs);
      [f_equiv|apply filter_app_complement].
    rewrite <- (IH (filter (fun x => ~ f x = i) hs)) at 1; [|done|].
    + apply Permutation_refl'. f_equal. apply list_fmap_ext. intros j y Hj.
      rewrite list_filter_filter. apply filter_ext_in. intros x _. split; [|tauto].
      intros <-. split; [done|]. intros E. apply Hi. rewrite <- E. by eapply list_elem_of_lookup_2.
    + intros x [Hx Hxin]%list_elem_of_filter. apply Hin in Hxin as [Heq|?]%elem_of_cons; [by destruct Hx|done].
Qed.

Lemma chains_split E bs hs k : 0 <= k <= 31 -> Z.of_nat (length bs) = 2 ^ k -> chains E bs hs ->
  exists chs, Forall2 (old_chain E bs) (seqZ 0 (2 ^ k)) chs /\ concat chs ≡ₚ hs.
Proof.
  intros Hk Hl Hc. set (f := fun x => HASH_TO_BKT (hval E x) (2 ^ k)).
  assert (forall js, (forall i, i ∈ js -> 0 <= i < 2 ^ k) -> exists chs, Forall2 (old_chain E bs) js chs /\
    concat chs ≡ₚ concat ((fun i => filter (fun x => f x = i) hs) <$> js)) as Hex.
  { induction js as [|i js IH]; intros His; [by exists []|].
    destruct IH as (chs & Hf & Hp); [intros j Hj; apply His; by right|].
    assert (0 <= i < 2 ^ k) as Hi by (apply His; by left).
    destruct (lookup_lt_is_Some_2 bs (Z.to_nat i)) as [b Hb]; [lia|].
    destruct (Hc _ b Hb) as (xs & Hxs & _ & Hh & Hd). exists (xs :: chs). split.
    - constructor; [|done]. exists b. split_and!; [done..|]. by eapply dseg_nexts.
    - cbn [fmap list_fmap concat]. rewrite Hp. f_equiv. rewrite Hxs, Hl. apply Permutation_refl', filter_ext_in.
      intros x _. unfold of_bucket, f. by rewrite Z2Nat.id by lia. }
  destruct (Hex (seqZ 0 (2 ^ k))) as (chs & Hf & Hp); [intros i Hi; apply elem_of_seqZ in Hi; lia|].
  exists chs. split; [done|]. rewrite Hp. apply partition_concat; [apply NoDup_seqZ|].
  intros x _. apply elem_of_seqZ. unfold f. pose proof (to_bkt_range (hval E x) k Hk). lia.
Qed.

(** The array [bs] of the table [T] holds the handles [hs]. *)
Record array_ok E (T : UT_hash_table) (bs : list UT_hash_bucket) (hs : list Z) : Prop := {
  ar_log : 0 <= log2_num_buckets T <= 30;
  ar_num : num_buckets T = 2 ^ log2_num_buckets T;
  ar_len : Z.of_nat (length bs) = num_buckets T;
  ar_chains : chains E bs hs
}.

(** An address space of less than 32 GB, so that the number of buckets stays
    below 2^31. *)
Definition LIMIT : Z := 2 ^ 35.

Lemma chains_empty E N : chains E (replicate N bucket_zero) [].
Proof.
  intros i b Hb. apply lookup_replicate in Hb as [-> _]. exists []. by rewrite filter_nil.
Qed.

Lemma run_expand {A} tb T bs hs (kk : unit -> U A) E n m :
  array_ok E T bs hs -> NoDup hs -> Forall (is_handle E) hs -> 1 <= num_items T <= UINT_MAX ->
  Z.of_nat (length hs) <= UINT_MAX -> 0 < n -> buckets T < n -> m < LIMIT ->
  (m < 2 * num_buckets T * BUCKET_SIZE /\
   ubind (HASH_EXPAND_BUCKETS tb) kk (Heap E {[tb := T]} {[buckets T := bs]} n m)
   = Ok (None, Heap E {[tb := T]} {[buckets T := bs]} n m)) \/
  exists E' T' bs' n', ubind (HASH_EXPAND_BUCKETS tb) kk (Heap E {[tb := T]} {[buckets T := bs]} n m)
      = kk tt (Heap E' {[tb := T']} {[buckets T' := bs']} n' m) /\
    core E' = core E /\ array_ok E' T' bs' hs /\ num_items T' = num_items T /\ tail T' = tail T /\ hho T' = hho T /\
    n <= buckets T' < n' /\ n < n'.
Proof.
  intros [Hk Hnum Hlen Hc] Hnd Hall Hitems Hhs Hn Hbn Hm. set (k := log2_num_buckets T) in *.
  assert (2 ^ k <= 2 ^ 30) as Hp by (apply Z.pow_le_mono_r; lia).
  assert (0 < 2 ^ k) as Hpos by (apply Z.pow_pos_nonneg; lia).
  assert (2 ^ (k + 1) = 2 * 2 ^ k) as Hdbl by (rewrite Z.pow_add_r by lia; change (2 ^ 1) with 2; lia).
  unfold HASH_EXPAND_BUCKETS. rewrite !ubind_assoc. erewrite run_read_table by apply lookup_singleton_eq. cbv zeta.
  rewrite Hnum, (u32_small (2 * 2 ^ k)) by lia. rewrite ubind_assoc. unfold BUCKET_SIZE in *.
  destruct (Z.ltb_spec m (2 * 2 ^ k * 16)) as [Hsmall|Hbig].
  { left. split; [done|]. by rewrite run_no_malloc. }
  right. unfold LIMIT in Hm. rewrite run_malloc by lia. rewrite (proj2 (Z.eqb_neq n 0)) by lia.
  rewrite ubind_assoc. erewrite ubind_ok by reflexivity. unfold set_arrays. cbn [h_nodes h_tables h_arrays h_next h_limit].
  rewrite ubind_assoc, run_write_table. fold k.
  set (ideal := u32 _). assert (ideal <> 0) as Hideal.
  { unfold ideal. rewrite <- Hdbl. by apply ideal_pos; [lia|]. }
  set (As := <[n := _]> _). destruct (chains_split E bs hs k) as (chs & Hchs & Hperm); [lia|lia|done|].
  assert (k + 1 <= 30) as Hk1.
  { destruct (Z.le_gt_cases (k + 1) 30) as [|Hgt]; [done|]. assert (2 ^ 31 <= 2 ^ (k + 1)) by (apply Z.pow_le_mono_r; lia).
    change (2 ^ 31) with 2147483648 in *. change (2 ^ 35) with 34359738368 in *. lia. }
  rewrite ubind_assoc. match goal with |- context [ubind (move_chains _ _ _) ?K _] =>
    destruct (run_move_chains tb n k (set_ideal ideal 0 T) (n + Z.max 1 (2 * 2 ^ k * 16)) m ltac:(lia) Hnum Hideal
      chs (seqZ 0 (2 ^ k)) [] (replicate (Z.to_nat (2 * 2 ^ k)) bucket_zero) K E As 0 bs)
      as (E' & nbs' & v' & Erun & Hcore & Hc' & Hl') end.
  - done.
  - cbn [app]. by rewrite Hperm.
  - cbn [app]. by rewrite Hperm.
  - cbn [app]. by rewrite Hperm.
  - apply lookup_insert_eq.
  - rewrite length_replicate. lia.
  - unfold As. rewrite lookup_insert_ne by (cbn; lia). apply lookup_singleton_eq.
  - cbn. lia.
  - apply chains_empty.
  - rewrite length_replicate in Hl'.
    match type of Erun with ?lhs = _ => match goal with |- exists E' T' bs' n', ?g = _ /\ _ =>
      change g with lhs end end. rewrite Erun. clear Erun.
    assert (delete (buckets T) (<[n := nbs']> As) = {[n := nbs']}) as Hdel.
    { unfold As. rewrite insert_insert_eq, delete_insert_ne by lia. by rewrite delete_singleton_eq. }
    rewrite ubind_assoc. erewrite run_free_array; cycle 1.
    { unfold As. rewrite !lookup_insert_ne by lia. apply lookup_singleton_eq. }
    rewrite ubind_assoc. erewrite run_read_table by apply lookup_singleton_eq. rewrite run_write_table.
    match goal with |- exists _ _ _ _, kk tt (Heap _ {[tb := ?t]} _ _ _) = _ /\ _ =>
      exists E', t, nbs', (n + Z.max 1 (2 * 2 ^ k * 16)) end.
    split; [rewrite Hdel; reflexivity|].
    split_and!; try done; try (cbn [buckets set_expanded]; lia).
    split; cbn [log2_num_buckets num_buckets set_expanded set_ideal]; fold k; rewrite ?u32_small by lia; try lia.
    eapply chains_perm; [exact Hperm|done].
Qed.

(** A table that can not grow: the process ends. *)
Definition no_room (T : UT_hash_table) (m : Z) : Prop := m < 2 * num_buckets T * BUCKET_SIZE.

Lemma run_add_to_bkt {A} tb T bs hs x (kk : unit -> U A) E n m :
  array_ok E T bs hs -> NoDup (hs ++ [x]) -> Forall (is_handle E) (hs ++ [x]) -> fld tbl E (x - HH_OFFSET) = tb ->
  1 <= num_items T <= UINT_MAX -> Z.of_nat (length (hs ++ [x])) <= UINT_MAX -> 0 < n -> 0 < buckets T < n -> m < LIMIT ->
  let s := Heap E {[tb := T]} {[buckets T := bs]} n m in
  let run := ubind (HASH_ADD_TO_BKT (buckets T) (HASH_TO_BKT (hval E x) (num_buckets T)) x) kk s in
  (no_room T m /\ exists E' bs', run = Ok (None, Heap E' {[tb := T]} {[buckets T := bs']} n m)) \/
  exists E' T' bs' n', run = kk tt (Heap E' {[tb := T']} {[buckets T' := bs']} n' m) /\
    core E' = core E /\ array_ok E' T' bs' (hs ++ [x]) /\ num_items T' = num_items T /\ tail T' = tail T /\
    hho T' = hho T /\ 0 < buckets T' < n' /\ n <= n'.
Proof.
  intros Ha Hnd Hall Htb Hitems Hlen Hn Hbn Hm s run. pose proof Ha as [Hk Hnum Hl Hc].
  pose proof Hnd as (Hnd1 & Hnd2 & _)%NoDup_app. pose proof Hall as [Hall1 [Hx _]%Forall_cons]%Forall_app.
  pose proof Hx as [_ Hxs]. assert (x ∉ hs) as Hxhs by (intros Hin; apply (Hnd2 x Hin); by left).
  pose proof (to_bkt_range (hval E x) (log2_num_buckets T) ltac:(lia)) as Hr. rewrite <- Hnum in Hr.
  subst run s. set (i := HASH_TO_BKT (hval E x) (num_buckets T)) in *.
  destruct (lookup_lt_is_Some_2 bs (Z.to_nat i)) as [b Hb]; [lia|].
  destruct (Hc _ b Hb) as (xs & Hxsp & Hch). pose proof Hch as (Hcnt & Hh & _).
  assert (length xs <= length hs)%nat as Hle by (rewrite Hxsp; apply length_filter).
  rewrite length_app in Hlen. cbn [length] in Hlen. unfold UINT_MAX in *.
  assert (Forall (is_handle E) xs) as Hxall.
  { rewrite Hxsp. apply Forall_forall. intros y [_ Hy]%list_elem_of_filter. by eapply Forall_forall in Hall1. }
  unfold HASH_ADD_TO_BKT. rewrite ubind_assoc. erewrite run_read_bucket by (done || apply lookup_singleton_eq).
  rewrite u32_small by lia. cbv zeta. rewrite ubind_assoc, run_write_handle by done.
  rewrite ubind_assoc, run_write_handle by by rewrite node_upd.
  rewrite ubind_assoc, run_push_head; cycle 1.
  { intros Hne. rewrite Hh in Hne |- *. destruct xs as [|y xs]; [done|]. by apply Forall_cons in Hxall as [[_ ?] _]. }
  assert (pushed E (push_nodes x b E) x xs) as Hp.
  { apply push_nodes_pushed; try done. rewrite Hxsp, list_elem_of_filter. tauto. }
  rewrite ubind_assoc. erewrite run_write_bucket by (apply lookup_singleton_eq || lia).
  rewrite insert_singleton_eq.
  assert (core (push_nodes x b E) = core E) as Hcore by apply Hp.
  assert (array_ok (push_nodes x b E) T (<[Z.to_nat i := Bucket x (count b + 1) (expand_mult b)]> bs) (hs ++ [x])) as Ha'.
  { split; [done|done|by rewrite length_insert|]. eapply chains_push; try done.
    unfold of_bucket. rewrite Hl, Z2Nat.id by lia. done. }
  destruct (proj2 (core_node E (push_nodes x b E) (x - HH_OFFSET) Hcore) Hxs) as [e He].
  rewrite ubind_assoc. erewrite run_read_handle by done.
  assert (tbl (n_hh e) = tb) as Ht.
  { rewrite <- (fld_some tbl _ _ _ He). rewrite (core_fld tbl E); [done|apply in_core_fields|done]. }
  rewrite Ht, ubind_assoc. erewrite run_read_table by apply lookup_singleton_eq.
  destruct (_ && _).
  - destruct (run_expand tb T _ (hs ++ [x]) kk (push_nodes x b E) n m Ha') as [[Hr1 Hr2]|Hrun]; try done; try lia.
    + by eapply handles_core.
    + rewrite length_app. unfold UINT_MAX. cbn [length]. lia.
    + left. split; [done|]. rewrite Hr2. by do 2 eexists.
    + right. destruct Hrun as (E' & T' & bs' & n' & -> & Hcore' & Ha2 & ? & ? & ? & ? & ?).
      exists E', T', bs', n'. split_and!; try done; [congruence|lia..].
  - right. exists (push_nodes x b E), T, (<[Z.to_nat i := Bucket x (count b + 1) (expand_mult b)]> bs), n.
    rewrite run_ret. split_and!; try done; lia.
Qed.
