(* ===== verification/UthashSpec.v ===== *)
(** * The hash table is the list of its nodes

    A heap with a table stands for the list of its nodes in app order, each with
    its address, its key and its queue; there is nothing else in the memory of the
    table.  Finding a name and adding a node, through every growth of the array of
    the buckets. *)
From S2P Require Import Prelude.
From S2P Require Import CLib.
From S2P Require Import World.
From S2P Require Import MqTypes.
From S2P Require Import QueueManage.
From S2P Require Import Uthash.
From S2P Require Import UthashChains.
Import Uthash.

Implicit Types (E : gmap Z mq_queue_list) (p t x : Z) (k : bytes) (q : mq_queue).
Abbreviation nodes := (list (Z * (bytes * mq_queue))).
Implicit Types (l : nodes).

(** ** What a heap stands for *)
Record linked E t l : Prop := {
  ln_val p k q : (p, (k, q)) ∈ l -> val E p = Some (k, q);
  ln_fld p k q : (p, (k, q)) ∈ l -> fld tbl E p = t /\ fld key E p = p + QNAME_OFFSET /\
    fld keylen E p = strlen k /\ fld hashv E p = jen_hash k;
  ln_list : dseg (fld next E) (fld prev E) 0 l.*1 0
}.

Record table_ok E (T : UT_hash_table) bs l : Prop := {
  tk_array : array_ok E T bs (hh_of <$> l.*1);
  tk_items : num_items T = Z.of_nat (length l);
  tk_tail : tail T = hh_of (lst 0 l.*1);
  tk_hho : hho T = HH_OFFSET
}.

(** The table when there is one; without nodes there is none. *)
Definition the_table (s : heap) l : Prop :=
  exists t T bs, h_tables s = {[t := T]} /\ h_arrays s = {[buckets T := bs]} /\
    0 < buckets T < h_next s /\ linked (h_nodes s) t l /\ table_ok (h_nodes s) T bs l.
Definition holds_table (s : heap) l : Prop :=
  match l with [] => h_tables s = ∅ /\ h_arrays s = ∅ | _ => the_table s l end.

Record rep (s : heap) (head : Z) l : Prop := {
  rp_dom p : is_Some (h_nodes s !! p) <-> p ∈ l.*1;
  rp_nodup : NoDup l.*1;
  rp_old p : p ∈ l.*1 -> 0 < p < h_next s;
  rp_next : 0 < h_next s;
  rp_head : head = hd 0 l.*1;
  rp_keys p k q : (p, (k, q)) ∈ l -> (length k <= 32)%nat;
  rp_table : holds_table s l
}.

Lemma holds_table_ne s l : l <> [] -> holds_table s l <-> the_table s l.
Proof. by destruct l. Qed.
Lemma rep_the_table s head l : rep s head l -> l <> [] -> the_table s l.
Proof. intros Hr Hne. apply (holds_table_ne _ _ Hne), Hr. Qed.
Lemma hh_of_back p : hh_of p - HH_OFFSET = p.
Proof. unfold hh_of. lia. Qed.
Lemma addr_in l p k q : (p, (k, q)) ∈ l -> p ∈ l.*1.
Proof. intros H. apply list_elem_of_fmap. by exists (p, (k, q)). Qed.
Lemma in_addr l p : p ∈ l.*1 -> exists k q, (p, (k, q)) ∈ l.
Proof. intros ([p' [k q]] & -> & H)%list_elem_of_fmap. eauto. Qed.
Lemma addr_snoc l p (n : bytes * mq_queue) x : x ∈ (l ++ [(p, n)]).*1 <-> x ∈ l.*1 \/ x = p.
Proof. rewrite fmap_app, elem_of_app. cbn [fmap list_fmap fst]. by rewrite list_elem_of_singleton. Qed.
Lemma handles_nodup l : NoDup l.*1 -> NoDup (hh_of <$> l.*1).
Proof. intros H. apply NoDup_fmap_2; [|done]. intros x y. unfold hh_of. lia. Qed.
Lemma rep_handles s head l : rep s head l -> Forall (is_handle (h_nodes s)) (hh_of <$> l.*1).
Proof.
  intros Hr. apply Forall_fmap, Forall_forall. intros p Hp. split; [|rewrite hh_of_back; by apply (rp_dom _ _ _ Hr)].
  pose proof (rp_old _ _ _ Hr p Hp). unfold hh_of, HH_OFFSET. lia.
Qed.
Lemma handle_in l y : y ∈ hh_of <$> l.*1 -> exists p k q, y = hh_of p /\ (p, (k, q)) ∈ l.
Proof. intros (p & -> & Hp)%list_elem_of_fmap. apply in_addr in Hp as (k & q & ?). eauto. Qed.

(** ** Finding *)
Lemma strcmp_eq (a b : bytes) : strcmp a b = 0 <-> a = b.
Proof.
  revert b. induction a as [|x a IH]; intros [|y b]; simpl; try done.
  destruct (Z.ltb_spec x y); [split; [done|intros [= -> ->]; lia]|].
  destruct (Z.ltb_spec y x); [split; [done|intros [= -> ->]; lia]|].
  rewrite IH. assert (x = y) as -> by lia. split; [by intros ->|by intros [= ->]].
Qed.

(** The first node with the key. *)
Definition is_key k (n : Z * (bytes * mq_queue)) : Prop := n.2.1 = k.
#[local] Instance is_key_dec k n : Decision (is_key k n).
Proof. unfold is_key. apply _. Defined.
Fixpoint find_node l k : option (Z * mq_queue) :=
  match l with
  | [] => None
  | (p, (k', q)) :: l => if bool_decide (k' = k) then Some (p, q) else find_node l k
  end.

Lemma find_node_in l k p q : find_node l k = Some (p, q) -> (p, (k, q)) ∈ l.
Proof.
  induction l as [|[p' [k' q']] l IH]; simpl; [done|]. case_bool_decide; [|by right; apply IH].
  intros [= -> ->]. subst. by left.
Qed.
Lemma in_find_node l k p q : NoDup l.*2.*1 -> (p, (k, q)) ∈ l -> find_node l k = Some (p, q).
Proof.
  induction l as [|[p' [k' q']] l IH]; simpl; [by intros _ ?%elem_of_nil|].
  intros [Hn Hd]%NoDup_cons [[= -> -> ->]|Hin]%elem_of_cons; [by rewrite bool_decide_true|].
  rewrite bool_decide_false; [by apply IH|]. intros ->. apply Hn, list_elem_of_fmap. exists (k, q).
  split; [done|]. apply list_elem_of_fmap. by exists (p, (k, q)).
Qed.
Lemma find_node_none l k : find_node l k = None -> forall p q, (p, (k, q)) ∉ l.
Proof.
  induction l as [|[p' [k' q']] l IH]; simpl; [intros _ ? ? ?%elem_of_nil; done|].
  case_bool_decide; [done|]. intros H1 p q [[= -> -> ->]|Hin]%elem_of_cons; [done|by eapply IH].
Qed.
Lemma find_node_kv l k : find_kv l.*2 k = snd <$> find_node l k.
Proof. induction l as [|[p [k' q]] l IH]; simpl; [done|]. by case_bool_decide. Qed.

Definition start (xs : list Z) : Z := match xs with [] => 0 | x :: _ => x - HH_OFFSET end.

Lemma run_find_chain T k xs l : hho T = HH_OFFSET -> forall fuel E Ts As n m,
  nexts (hnx E) xs -> (forall x, x ∈ xs -> exists p k' q, x = hh_of p /\ 0 < p /\ (p, (k', q)) ∈ l) ->
  (forall p k' q, (p, (k', q)) ∈ l -> val E p = Some (k', q) /\ fld key E p = p + QNAME_OFFSET /\ fld keylen E p = strlen k') ->
  (length xs < fuel)%nat ->
  exists r, find_in_chain T k fuel (start xs) (Heap E Ts As n m) = Ok (Some r, Heap E Ts As n m) /\
    ((exists q, (r, (k, q)) ∈ l /\ 0 < r) \/ r = 0 /\ forall p q, (p, (k, q)) ∈ l -> hh_of p ∉ xs).
Proof.
  intros Hho. induction xs as [|x xs IH]; intros [|fuel] E Ts As n m Hn Hin Hf Hfuel; simpl in Hfuel; try lia.
  { exists 0. split; [done|]. right. split; [done|]. intros p q _ ?%elem_of_nil. done. }
  destruct (Hin x) as (p & k' & q & -> & Hp & Hpl); [by left|]. cbn [start]. rewrite hh_of_back.
  destruct (Hf _ _ _ Hpl) as (Hval & Hkey & Hlen). destruct Hn as [Hx Hn].
  unfold val in Hval. destruct (E !! p) as [e|] eqn:He; [|done]. injection Hval as Hk Hq.
  rewrite (fld_some _ _ _ _ He) in Hkey. rewrite (fld_some _ _ _ _ He) in Hlen.
  unfold hnx in Hx. rewrite hh_of_back, (fld_some _ _ _ _ He) in Hx.
  assert (forall s : heap, (exists r, find_in_chain T k fuel (start xs) (Heap E Ts As n m) = Ok (Some r, Heap E Ts As n m) /\
    ((exists q, (r, (k, q)) ∈ l /\ 0 < r) \/ r = 0 /\ forall p q, (p, (k, q)) ∈ l -> hh_of p ∉ xs))) as Hrest.
  { intros _. apply IH; [done| |done|lia]. intros y Hy. apply Hin. by right. }
  cbn [find_in_chain]. rewrite (proj2 (Z.eqb_neq p 0)) by lia. erewrite run_read_node by done.
  assert (exists same : bool, (same = true <-> k' = k) /\ forall A (K : bool -> U A),
    ubind (if keylen (n_hh e) =? strlen k
           then ubind (HASH_KEYCMP (key (n_hh e)) k (strlen k)) (fun c => uret (c =? 0)) else uret false) K
      (Heap E Ts As n m) = K same (Heap E Ts As n m)) as (same & Hsame & Hcmp).
  { rewrite Hlen. unfold strlen. destruct (Z.eqb_spec (Z.of_nat (length k')) (Z.of_nat (length k))) as [El|El].
    - exists (strcmp k' k =? 0). rewrite Z.eqb_eq, strcmp_eq. split; [done|]. intros A K.
      rewrite ubind_assoc. erewrite ubind_ok; [reflexivity|]. unfold HASH_KEYCMP. rewrite Hkey.
      replace (p + QNAME_OFFSET - QNAME_OFFSET) with p by lia. erewrite run_read_node by done.
      unfold strncmp. rewrite Hk, !take_ge by lia. reflexivity.
    - exists false. split; [|done]. split; [done|]. by intros ->. }
  rewrite Hcmp. destruct same.
  - exists p. split; [done|]. left. rewrite <- (proj1 Hsame eq_refl). eauto.
  - assert (k' <> k) as Hne by (intros E'; by apply Hsame in E').
    destruct (Hrest (Heap E Ts As n m)) as (r & Er & Hr). exists r. split.
    + rewrite <- Er, Hx. destruct xs as [|y xs]; cbn [hd start].
      * done.
      * destruct (Hin y) as (p' & _ & _ & -> & Hp' & _); [by right; left|].
        rewrite (proj2 (Z.eqb_neq _ 0)) by (unfold hh_of, HH_OFFSET; lia). cbn [negb]. unfold ELMT_FROM_HH. by rewrite Hho.
    + destruct Hr as [?|[-> Hr]]; [by left|right]. split; [done|]. intros p1 q1 Hp1 [E1|Hp2]%elem_of_cons; [|by eapply Hr].
      assert (p1 = p) as -> by (unfold hh_of in E1; lia). destruct (Hf _ _ _ Hp1) as (Hval & _). unfold val in Hval. rewrite He in Hval.
      injection Hval as ? ?. congruence.
Qed.

Definition addr (o : option (Z * mq_queue)) : Z := match o with Some (p, _) => p | None => 0 end.

Lemma linked_facts E t l p k q : linked E t l -> (p, (k, q)) ∈ l ->
  val E p = Some (k, q) /\ fld key E p = p + QNAME_OFFSET /\ fld keylen E p = strlen k.
Proof. intros Hl Hin. destruct (ln_fld _ _ _ Hl _ _ _ Hin) as (_ & ? & ? & _). split_and!; [by eapply ln_val|done..]. Qed.

Lemma node_table E t l p k q : linked E t l -> (p, (k, q)) ∈ l -> exists e, E !! p = Some e /\ tbl (n_hh e) = t /\
  n_key e = k /\ n_queue e = q.
Proof.
  intros Hl Hin. pose proof (ln_val _ _ _ Hl _ _ _ Hin) as Hv. unfold val in Hv.
  destruct (E !! p) as [e|] eqn:He; [|done]. injection Hv as ? ?. exists e. split_and!; try done.
  rewrite <- (fld_some tbl _ _ _ He). by eapply ln_fld.
Qed.

Lemma run_hash_find s head l k : rep s head l -> NoDup l.*2.*1 ->
  HASH_FIND head k s = Ok (Some (addr (find_node l k)), s).
Proof.
  intros Hr Hk. pose proof (rp_head _ _ _ Hr) as ->. destruct l as [|[p0 [k0 q0]] l0]; [done|].
  set (l := (p0, (k0, q0)) :: l0) in *. unfold HASH_FIND. cbn [hd l fmap list_fmap fst].
  assert (0 < p0) by (apply (rp_old _ _ _ Hr); by left). rewrite (proj2 (Z.eqb_neq p0 0)) by lia.
  destruct (rp_table _ _ _ Hr) as (t & T & bs & Ht & Ha & Hb & Hln & [[Hlg Hnum Hlen Hch] Hit Htl Hho]).
  assert ((p0, (k0, q0)) ∈ l) as Hin0 by by left.
  destruct (node_table _ _ _ _ _ _ Hln Hin0) as (e0 & He0 & Ht0 & _).
  pose proof (rep_handles _ _ _ Hr) as Hhs. pose proof (rp_nodup _ _ _ Hr) as Hnd. pose proof (rp_old _ _ _ Hr) as Hold.
  destruct s as [E Ts As n m]. cbn [h_nodes h_tables h_arrays h_next] in *. subst Ts As.
  unfold table_of. rewrite ubind_assoc. erewrite run_read_node by done. rewrite Ht0.
  erewrite run_read_table by apply lookup_singleton_eq. unfold HASH_JEN. cbv beta iota.
  pose proof (to_bkt_range (jen_hash k) (log2_num_buckets T) ltac:(lia)) as Hrange. rewrite <- Hnum in Hrange.
  set (i := HASH_TO_BKT (jen_hash k) (num_buckets T)) in *.
  destruct (lookup_lt_is_Some_2 bs (Z.to_nat i)) as [b Hbk]; [lia|].
  erewrite run_read_bucket by (done || apply lookup_singleton_eq).
  destruct (Hch _ b Hbk) as (xs & Hxs & _ & Hh & Hd).
  assert (forall x, x ∈ xs -> x ∈ hh_of <$> l.*1) as Hsub.
  { intros x Hx. rewrite Hxs in Hx. by apply list_elem_of_filter in Hx as [_ ?]. }
  assert (forall x, x ∈ xs -> exists p k' q, x = hh_of p /\ 0 < p /\ (p, (k', q)) ∈ l) as Hxin.
  { intros x Hx. destruct (handle_in l x (Hsub x Hx)) as (p & k' & q & -> & Hp). exists p, k', q.
    split_and!; [done| |done]. apply (Hold p). by eapply addr_in. }
  assert ((if negb (hh_head b =? 0) then ELMT_FROM_HH T (hh_head b) else 0) = start xs) as Hst.
  { rewrite Hh. destruct xs as [|x xs]; [done|]. destruct (Hxin x) as (p & _ & _ & -> & Hp & _); [by left|].
    cbn [hd start]. rewrite (proj2 (Z.eqb_neq _ 0)) by (unfold hh_of, HH_OFFSET; lia). unfold ELMT_FROM_HH. by rewrite Hho. }
  unfold HASH_FIND_IN_BKT, chain_fuel. cbn [h_nodes]. rewrite Hst.
  destruct (run_find_chain T k xs l Hho (S (size E)) E {[t := T]} {[buckets T := bs]} n m) as (r & -> & Hres).
  - by eapply dseg_nexts.
  - done.
  - intros p k' q Hp. by eapply linked_facts.
  - assert (NoDup xs) as Hndx by (eapply chain_nodup; [by apply handles_nodup, Hnd|exact Hxs]).
    pose proof (handles_size E xs Hndx). rewrite Forall_forall in Hhs. cut (length xs <= size E)%nat; [lia|].
    apply H0, Forall_forall. intros x Hx. by apply Hhs, Hsub.
  - do 3 f_equal. destruct Hres as [(q & Hq & _)|[-> Hno]].
    + by rewrite (in_find_node l k r q).
    + destruct (find_node l k) as [[p q]|] eqn:Ef; [|done]. exfalso. apply find_node_in in Ef.
      apply (Hno p q Ef). rewrite Hxs. apply list_elem_of_filter. split.
      * unfold of_bucket, hval. rewrite hh_of_back. destruct (ln_fld _ _ _ Hln _ _ _ Ef) as (_ & _ & _ & ->).
        rewrite Hlen. fold i. lia.
      * apply list_elem_of_fmap. exists p. split; [done|]. by eapply addr_in.
Qed.

(** ** Adding *)
Lemma fld_insert_ne g p e E x : x <> p -> fld g (<[p := e]> E) x = fld g E x.
Proof. intros H. unfold fld. by rewrite lookup_insert_ne. Qed.
Lemma val_insert_ne p e E x : x <> p -> val (<[p := e]> E) x = val E x.
Proof. intros H. unfold val. by rewrite lookup_insert_ne. Qed.

(** [E'] is [E] with the node [p], linked after the nodes of [l]. *)
Record appended E E' l p k q : Prop := {
  ap_node : is_Some (E' !! p) /\ val E' p = Some (k, q) /\ fld key E' p = p + QNAME_OFFSET /\ fld keylen E' p = strlen k;
  ap_links : fld next E' p = 0 /\ fld prev E' p = lst 0 l.*1 /\ (l <> [] -> fld next E' (lst 0 l.*1) = p);
  ap_nodes x : x <> p -> is_Some (E' !! x) <-> is_Some (E !! x);
  ap_vals x : x <> p -> val E' x = val E x;
  ap_next x : x <> p -> x <> lst 0 l.*1 -> fld next E' x = fld next E x;
  ap_same g x : x <> p -> (forall v h, g (set_next v h) = g h) -> fld g E' x = fld g E x
}.

Lemma appended_linked E E' t l p k q : appended E E' l p k q -> linked E t l -> NoDup l.*1 -> p ∉ l.*1 ->
  fld tbl E' p = t -> fld hashv E' p = jen_hash k -> linked E' t (l ++ [(p, (k, q))]).
Proof.
  intros [(_ & Hv & Hk & Hkl) (Hn & Hp & Hln) _ Hvs Hns Hsame] [L1 L2 L3] Hnd Hpl Ht Hh.
  assert (forall x k' q', (x, (k', q')) ∈ l -> x <> p) as Hne by (intros x k' q' Hx ->; by apply Hpl; eapply addr_in).
  split.
  - intros x k' q' [Hx|Hx]%elem_of_app; [rewrite Hvs by (by eapply Hne); by apply L1|].
    by apply list_elem_of_singleton in Hx as [= -> -> ->].
  - intros x k' q' [Hx|Hx]%elem_of_app.
    + rewrite !Hsame by (done || by eapply Hne). by eapply L2.
    + apply list_elem_of_singleton in Hx as [= -> -> ->]. done.
  - rewrite fmap_app. eapply dseg_snoc; [done|exact L3|done|done| | |].
    + intros Hl. apply Hln. by intros ->.
    + intros y Hy. apply Hsame; [|done]. by intros ->.
    + intros y Hy Hyl. apply Hns; [|done]. by intros ->.
Qed.

Lemma appended_array E E' T bs l p k q : appended E E' l p k q -> p ∉ l.*1 ->
  array_ok E T bs (hh_of <$> l.*1) -> array_ok E' T bs (hh_of <$> l.*1).
Proof.
  intros Ha Hpl [? ? ? Hc]. split; [done..|]. eapply chains_ext; [exact Hc|].
  intros x (y & -> & Hy)%list_elem_of_fmap. unfold hnx, hpv, hval. rewrite hh_of_back.
  assert (y <> p) by by intros ->. split_and!; by apply (ap_same _ _ _ _ _ _ Ha).
Qed.

Lemma appended_upd f E E1 l p k q : appended E E1 l p k q ->
  (forall h, next (f h) = next h /\ prev (f h) = prev h /\ key (f h) = key h /\ keylen (f h) = keylen h) ->
  appended E (upd f p E1) l p k q.
Proof.
  intros [(N1 & N2 & N3 & N4) (L1 & L2 & L3) A1 A2 A3 A4] Hf.
  assert (forall g x, (forall h, g (f h) = g h) -> fld g (upd f p E1) x = fld g E1 x) as Hid by (intros; by apply fld_upd_id).
  split.
  - rewrite node_upd, val_upd, !Hid by (intros h; by destruct (Hf h) as (_ & _ & ? & ?)). done.
  - rewrite !Hid by (intros h; by destruct (Hf h) as (? & ? & _)). done.
  - intros x Hx. rewrite node_upd. by apply A1.
  - intros x Hx. rewrite val_upd. by apply A2.
  - intros x Hx Hl. rewrite Hid by (intros h; by destruct (Hf h)). by apply A3.
  - intros g x Hx Hg. rewrite fld_upd_ne by done. by apply A4.
Qed.

Lemma linked_core E E' t l : core E' = core E -> linked E t l -> linked E' t l.
Proof.
  intros Hc [L1 L2 L3]. pose proof in_core_fields as (C1 & C2 & C3 & C4 & C5 & C6). split.
  - intros p k q Hin. rewrite (core_val E E') by done. by apply L1.
  - intros p k q Hin. rewrite !(core_fld _ E E') by done. by eapply L2.
  - eapply dseg_ext; [exact L3|]. intros x _. by rewrite !(core_fld _ E E') by done.
Qed.

(** The node [p] is linked in app order, but not yet in a bucket. *)
Record placed E l p k q t E1 T bs : Prop := {
  pl_app : appended E E1 l p k q;
  pl_array : array_ok E1 T bs (hh_of <$> l.*1);
  pl_items : num_items T = Z.of_nat (length l);
  pl_tail : tail T = hh_of p;
  pl_hho : hho T = HH_OFFSET;
  pl_linked : linked E t l;
  pl_tbl : fld tbl E1 (hd p l.*1) = t
}.

(** The array of the buckets can not be doubled. *)
Definition cramped (s : heap) : Prop := exists t T, h_tables s !! t = Some T /\ no_room T (h_limit s).

Section Add.
Context {A : Type} (E : gmap Z mq_queue_list) (t : Z) (l : nodes) (p : Z) (k : bytes) (q : mq_queue).
Context (Hdom : forall x, is_Some (E !! x) <-> x ∈ l.*1) (Hnd : NoDup l.*1) (Hpos : forall x, x ∈ l.*1 -> 0 < x).
Context (Hp : 0 < p) (Hpl : p ∉ l.*1) (Hlen : Z.of_nat (length l) < UINT_MAX).
Context (m : Z) (Hm : m < LIMIT).

(** What adding leaves behind. *)
Definition added (E2 : gmap Z mq_queue_list) (T' : UT_hash_table) bs' : Prop :=
  linked E2 t (l ++ [(p, (k, q))]) /\ table_ok E2 T' bs' (l ++ [(p, (k, q))]) /\
  forall x, is_Some (E2 !! x) <-> x ∈ (l ++ [(p, (k, q))]).*1.

Lemma run_add_in_bucket E1 T bs n head (kk : Z -> U A) :
  placed E l p k q t E1 T bs -> head = hd p l.*1 -> 0 < buckets T < n ->
  let run := ubind (add_in_bucket head k p) kk (Heap E1 {[t := T]} {[buckets T := bs]} n m) in
  (exists s', run = Ok (None, s') /\ cramped s') \/
  exists E2 T' bs' n', run = kk head (Heap E2 {[t := T']} {[buckets T' := bs']} n' m) /\
    added E2 T' bs' /\ 0 < buckets T' < n' /\ n <= n'.
Proof.
  intros [Ha Har Hit Htl Hho Hln Htb] Hhd Hb run. rewrite <- Hhd in Htb. subst run. unfold UINT_MAX in Hlen.
  assert (forall x, is_Some (E1 !! x) <-> x ∈ l.*1 \/ x = p) as Hdom1.
  { intros x. destruct (decide (x = p)) as [->|Hx].
    - split; [by right|]. intros _. apply Ha.
    - rewrite (ap_nodes _ _ _ _ _ _ Ha) by done. rewrite Hdom. tauto. }
  assert (is_Some (E1 !! head)) as [e He].
  { rewrite Hhd, Hdom1. destruct l; [by right|left; by left]. }
  rewrite (fld_some _ _ _ _ He) in Htb. set (T1 := set_items (Z.of_nat (length l) + 1) T).
  set (E1' := upd (set_hashv (jen_hash k)) p (upd (set_tbl t) p E1)).
  assert (is_Some (E1 !! p)) as Hp1 by (apply Hdom1; by right).
  assert (appended E E1' l p k q) as Ha' by (do 2 (apply appended_upd; [|by intros []]); done).
  assert (fld hashv E1' p = jen_hash k) as Hhv by (apply fld_upd_eq; [by rewrite node_upd|done]).
  assert (fld tbl E1' p = t) as Ht1 by (unfold E1'; rewrite fld_upd_id by done; by apply fld_upd_eq).
  assert (array_ok E1' T1 bs (hh_of <$> l.*1)) as Har'.
  { destruct Har as [? ? ? Hc]. split; [done..|]. eapply chains_ext; [exact Hc|].
    intros x (y & -> & Hy)%list_elem_of_fmap. unfold hnx, hpv, hval. rewrite hh_of_back.
    assert (y <> p) by by intros ->. unfold E1'. by rewrite !fld_upd_ne by done. }
  assert (run_eq : ubind (add_in_bucket head k p) kk (Heap E1 {[t := T]} {[buckets T := bs]} n m)
    = ubind (HASH_ADD_TO_BKT (buckets T1) (HASH_TO_BKT (hval E1' (hh_of p)) (num_buckets T1)) (hh_of p)) (fun _ => kk head)
        (Heap E1' {[t := T1]} {[buckets T1 := bs]} n m)).
  { unfold add_in_bucket. rewrite ubind_assoc. erewrite run_read_node by done. rewrite Htb. cbv zeta.
    rewrite ubind_assoc. erewrite run_read_table by apply lookup_singleton_eq.
    rewrite ubind_assoc, run_write_table, ubind_assoc, run_write_hh by done. unfold HASH_JEN. cbv beta iota.
    rewrite ubind_assoc, run_write_hh by by rewrite node_upd. rewrite ubind_assoc, Hit, u32_small by lia.
    unfold hval. rewrite hh_of_back, Hhv. done. }
  assert (hh_of <$> (l ++ [(p, (k, q))]).*1 = (hh_of <$> l.*1) ++ [hh_of p]) as Hhs by by rewrite !fmap_app.
  destruct (run_add_to_bkt t T1 bs (hh_of <$> l.*1) (hh_of p) (fun _ => kk head) E1' n m Har') as [[Hr1 (E' & bs' & Hr2)]|Hrun].
  - rewrite <- Hhs. apply handles_nodup. rewrite fmap_app. apply NoDup_app. split_and!; [done| |apply NoDup_singleton].
    intros x Hx Hx2%list_elem_of_singleton. by subst x.
  - rewrite <- Hhs. apply Forall_fmap, Forall_forall. intros x Hx. split.
    + rewrite addr_snoc in Hx. unfold hh_of, HH_OFFSET.
      destruct Hx as [Hx| ->]; [apply Hpos in Hx|]; cbn; lia.
    + rewrite hh_of_back. unfold E1'. rewrite !node_upd, Hdom1.
      by rewrite addr_snoc in Hx.
  - by rewrite hh_of_back.
  - unfold T1, UINT_MAX. cbn. lia.
  - rewrite length_app, !length_fmap. cbn [length]. unfold UINT_MAX. lia.
  - cbn in *. lia.
  - done.
  - done.
  - left. eexists. split; [by rewrite run_eq, Hr2|]. exists t, T1. split; [apply lookup_singleton_eq|done].
  - right. destruct Hrun as (E2 & T' & bs' & n' & Hrun & Hcore & Har2 & Hit2 & Htl2 & Hho2 & Hb2 & Hn2).
    exists E2, T', bs', n'. split; [by rewrite run_eq|]. split; [|by split]. unfold added. split_and!.
    + eapply linked_core; [exact Hcore|]. by eapply appended_linked.
    + split.
      * rewrite Hhs. done.
      * rewrite Hit2, length_app. unfold T1. cbn [set_items num_items length]. lia.
      * rewrite Htl2, fmap_app. cbn [fmap list_fmap]. by rewrite lst_snoc.
      * by rewrite Hho2.
    + intros x. rewrite (core_node _ _ _ Hcore). unfold E1'. rewrite !node_upd, Hdom1.
      by rewrite addr_snoc.
Qed.
End Add.

(** The nodes after the first statements of adding, and after its first part. *)
Definition key_nodes E p k q : gmap Z mq_queue_list :=
  upd (set_key (p + QNAME_OFFSET) (strlen k)) p (upd (set_next 0) p (<[p := Node k q handle_zero]> E)).
Definition app_nodes E l p k q : gmap Z mq_queue_list :=
  upd (set_prev (lst 0 l.*1)) p
    (if decide (l = []) then key_nodes E p k q else upd (set_next p) (lst 0 l.*1) (key_nodes E p k q)).

Lemma app_nodes_appended E l p k q : E !! p = None -> (forall x, x ∈ l.*1 -> is_Some (E !! x)) ->
  appended E (app_nodes E l p k q) l p k q.
Proof.
  intros Hp Hl. unfold app_nodes. set (E0 := key_nodes E p k q).
  assert (is_Some (E0 !! p)) as Hs by (unfold E0, key_nodes; rewrite !node_upd, lookup_insert_eq; by eexists).
  assert (l <> [] -> lst 0 l.*1 <> p /\ is_Some (E0 !! lst 0 l.*1)) as Hlast.
  { intros Hne. assert (is_Some (E !! lst 0 l.*1)) as Hx by (apply Hl, lst_in; by destruct l).
    assert (lst 0 l.*1 <> p) as Hd by (intros Heq; rewrite Heq, Hp in Hx; by destruct Hx).
    split; [done|]. unfold E0, key_nodes. by rewrite !node_upd, lookup_insert_ne. }
  assert (val E0 p = Some (k, q) /\ fld next E0 p = 0 /\ fld key E0 p = p + QNAME_OFFSET /\ fld keylen E0 p = strlen k) as H0.
  { unfold E0, key_nodes, val, fld. by rewrite !lookup_alter_eq, lookup_insert_eq. }
  assert (forall x, x <> p -> E0 !! x = E !! x) as H1.
  { intros x Hx. unfold E0, key_nodes. by rewrite !lookup_alter_ne, lookup_insert_ne. }
  clearbody E0. set (E1 := if decide (l = []) then E0 else _).
  assert (forall g x, (forall v h, g (set_next v h) = g h) -> fld g E1 x = fld g E0 x) as Hg.
  { intros g x Hid. unfold E1. case_decide; [done|]. by apply fld_upd_id. }
  assert (forall x, (l <> [] -> x <> lst 0 l.*1) -> fld next E1 x = fld next E0 x) as Hn.
  { intros x Hx. unfold E1. case_decide; [done|]. apply fld_upd_ne. by apply Hx. }
  assert (forall x, val E1 x = val E0 x /\ (is_Some (E1 !! x) <-> is_Some (E0 !! x))) as Hv.
  { intros x. unfold E1. case_decide; [done|]. by rewrite val_upd, node_upd. }
  assert (l <> [] -> fld next E1 (lst 0 l.*1) = p) as Hx.
  { intros Hne. unfold E1. rewrite decide_False by done. apply fld_upd_eq; [by apply Hlast|done]. }
  clearbody E1. destruct H0 as (V & N & K & L). assert (forall g x, E0 !! x = E !! x -> fld g E0 x = fld g E x) as Hf
    by (intros g x Heq; unfold fld; by rewrite Heq).
  split.
  - rewrite node_upd, val_upd, !fld_upd_id, !Hg by done. destruct (Hv p) as [-> ->]. done.
  - rewrite (fld_upd_id next) by done. rewrite (fld_upd_eq prev _ _ _ (lst 0 l.*1)); [|by apply Hv|done]. split_and!; [|done|].
    + rewrite Hn; [done|]. intros Hne Heq. by apply Hlast in Hne as [? _].
    + intros Hne. rewrite fld_upd_id by done. by apply Hx.
  - intros x Hxp. rewrite node_upd. destruct (Hv x) as [_ ->]. by rewrite H1.
  - intros x Hxp. rewrite val_upd. destruct (Hv x) as [-> _]. unfold val. by rewrite H1.
  - intros x Hxp Hxl. rewrite fld_upd_id by done. rewrite Hn by done. by apply Hf, H1.
  - intros g x Hxp Hid. rewrite fld_upd_ne by done. rewrite Hg by done. by apply Hf, H1.
Qed.

Section AppOrder.
Context {A : Type} (E : gmap Z mq_queue_list) (p : Z) (k : bytes) (q : mq_queue) (kk : Z -> U A) (m : Z).
Context (Hnone : E !! p = None).

Lemma key_nodes_some : is_Some (key_nodes E p k q !! p).
Proof using. unfold key_nodes. rewrite !node_upd, lookup_insert_eq. by eexists. Qed.
Lemma key_nodes_ne x : x <> p -> key_nodes E p k q !! x = E !! x.
Proof using. intros H. unfold key_nodes. by rewrite !lookup_alter_ne, lookup_insert_ne. Qed.

(** The first node, with a new table. *)
Lemma run_first_node : 0 < p -> 1024 <= m ->
  exists t T bs n' E1, placed E [] p k q t E1 T bs /\ 0 < buckets T < n' /\ p < n' /\
    ubind (add_in_app_order 0 p) kk (Heap (key_nodes E p k q) ∅ ∅ (p + 256) m)
    = kk p (Heap E1 {[t := T]} {[buckets T := bs]} n' m).
Proof using Hnone.
  intros Hp Hm.
  pose proof (app_nodes_appended E [] p k q Hnone (fun x Hx => False_ind _ (not_elem_of_nil x Hx))) as Happ.
  exists (p + 256), (Table (p + 320) 32 5 0 (hh_of p) (hh_of p - p) 0 0 0 0 HASH_SIGNATURE),
    (replicate 32 bucket_zero), (p + 832), (upd (set_tbl (p + 256)) p (app_nodes E [] p k q)).
  split_and!; try (cbn; lia).
  - split; cbn [hd fmap list_fmap num_items tail hho length]; try done.
    + by apply appended_upd; [|by intros []].
    + split; [done..|]. apply chains_empty.
    + unfold hh_of. lia.
    + split; [by intros ? ? ? ?%elem_of_nil..|done].
    + apply fld_upd_eq; [apply Happ|done].
  - unfold add_in_app_order. change (0 =? 0) with true. cbv iota. rewrite ubind_assoc.
    rewrite run_write_hh by apply key_nodes_some.
    unfold HASH_MAKE_TABLE. rewrite !ubind_assoc, run_malloc by (unfold TABLE_SIZE; lia).
    rewrite (proj2 (Z.eqb_neq _ 0)) by lia.
    rewrite ubind_assoc, run_write_hh by (rewrite node_upd; apply key_nodes_some).
    rewrite ubind_assoc. erewrite ubind_ok by reflexivity. unfold set_tables. cbn [h_nodes h_tables h_arrays h_next h_limit].
    rewrite ubind_assoc, run_malloc by (unfold HASH_INITIAL_NUM_BUCKETS, BUCKET_SIZE; lia).
    rewrite (proj2 (Z.eqb_neq _ 0)) by (unfold TABLE_SIZE; lia). rewrite insert_empty, ubind_assoc, run_write_table.
    rewrite ubind_assoc. erewrite ubind_ok by reflexivity. unfold set_arrays. cbn [h_nodes h_tables h_arrays h_next h_limit].
    rewrite run_write_table, run_ret, insert_empty. unfold TABLE_SIZE.
    replace (p + 256 + Z.max 1 64) with (p + 320) by lia.
    replace (p + 320 + Z.max 1 (HASH_INITIAL_NUM_BUCKETS * BUCKET_SIZE)) with (p + 832)
      by (unfold HASH_INITIAL_NUM_BUCKETS, BUCKET_SIZE; lia).
    done.
Qed.

(** Another node. *)
Lemma run_next_node l t T bs n : l <> [] -> (forall x, is_Some (E !! x) <-> x ∈ l.*1) -> hd p l.*1 <> 0 ->
  linked E t l -> table_ok E T bs l ->
  placed E l p k q t (app_nodes E l p k q) (set_tail (hh_of p) T) bs /\
  ubind (add_in_app_order (hd p l.*1) p) kk (Heap (key_nodes E p k q) {[t := T]} {[buckets T := bs]} n m)
  = kk (hd p l.*1) (Heap (app_nodes E l p k q) {[t := set_tail (hh_of p) T]} {[buckets T := bs]} n m).
Proof using Hnone.
  intros Hne Hdom Hh0 Hln [Har Hit Htl Hho].
  pose proof (app_nodes_appended E l p k q Hnone (fun x Hx => proj2 (Hdom x) Hx)) as Happ.
  assert (forall x, x ∈ l.*1 -> x <> p) as Hpl.
  { intros x Hx%Hdom ->. rewrite Hnone in Hx. by destruct Hx. }
  destruct (in_addr l (hd p l.*1)) as (k0 & q0 & Hin); [apply hd_in; by destruct l|].
  set (h := hd p l.*1) in *. destruct (node_table _ _ _ _ _ _ Hln Hin) as (e & He & Hte & _).
  pose proof (Hpl h ltac:(by eapply addr_in)) as Hhp.
  assert (lst 0 l.*1 ∈ l.*1) as Hl by (apply lst_in; by destruct l). pose proof (Hpl _ Hl) as Hlp. split.
  - split; try done.
    + eapply appended_array; [exact Happ|intros Hx; by apply Hpl in Hx|]. by destruct Har.
    + rewrite (ap_same _ _ _ _ _ _ Happ) by done. by eapply ln_fld.
  - unfold add_in_app_order. rewrite (proj2 (Z.eqb_neq h 0)) by lia.
    rewrite ubind_assoc. erewrite run_read_node by (rewrite key_nodes_ne by done; exact He).
    rewrite Hte, ubind_assoc. erewrite run_read_table by apply lookup_singleton_eq.
    rewrite Htl. unfold ELMT_FROM_HH. rewrite Hho, hh_of_back.
    rewrite ubind_assoc, run_write_handle by (rewrite hh_of_back, key_nodes_ne by done; by apply Hdom).
    rewrite hh_of_back.
    rewrite ubind_assoc, run_write_hh by (rewrite node_upd; apply key_nodes_some).
    rewrite ubind_assoc, run_write_table, run_ret. unfold app_nodes. by rewrite decide_False.
Qed.
End AppOrder.

Lemma run_node_key s head k q : (length k <= 32)%nat -> NODE_SIZE <= h_limit s -> 0 < h_next s ->
  node_add k q head s
  = ubind (add_in_app_order head (h_next s)) (fun head => ubind (add_in_bucket head k (h_next s)) (fun head => uret (h_next s, head)))
      (Heap (key_nodes (h_nodes s) (h_next s) k q) (h_tables s) (h_arrays s) (h_next s + 256) (h_limit s)).
Proof.
  intros Hk Hm Hn. destruct s as [E Ts As n m]. cbn [h_nodes h_tables h_arrays h_next h_limit] in *.
  assert (strlen k = Z.of_nat (length k)) as Hsl by done.
  unfold node_add. rewrite run_malloc by done. rewrite (proj2 (Z.eqb_neq n 0)) by lia.
  rewrite (proj2 (Nat.ltb_ge _ _)) by lia. unfold HASH_ADD_KEYPTR.
  erewrite ubind_ok by reflexivity. unfold set_nodes. cbn [h_nodes h_tables h_arrays h_next h_limit].
  rewrite ubind_assoc, run_write_hh by (rewrite lookup_insert_eq; by eexists).
  rewrite ubind_assoc, run_write_hh by (rewrite node_upd, lookup_insert_eq; by eexists).
  by rewrite ubind_assoc, u32_small by lia.
Qed.

Lemma run_node_place s head l k q : rep s head l -> 1024 <= h_limit s -> (length k <= 32)%nat ->
  let p := h_next s in
  exists t T bs n' E1, placed (h_nodes s) l p k q t E1 T bs /\ 0 < buckets T < n' /\ p < n' /\
    node_add k q head s = ubind (add_in_bucket (hd p l.*1) k p) (fun head => uret (p, head))
                            (Heap E1 {[t := T]} {[buckets T := bs]} n' (h_limit s)).
Proof.
  intros [Hdom Hnd Hold Hn0 Hhd Hkeys Htab] Hm Hk p. rewrite run_node_key by (unfold NODE_SIZE; lia || done). fold p.
  assert (h_nodes s !! p = None) as Hnone.
  { apply eq_None_not_Some. intros Hin%Hdom%Hold. lia. }
  destruct s as [E Ts As n m]. cbn [h_nodes h_tables h_arrays h_next h_limit] in *. subst p.
  destruct (decide (l = [])) as [->|Hne].
  - destruct Htab as [Ht0 Ha0]. cbn in Ht0, Ha0, Hhd. subst Ts As head.
    destruct (run_first_node E n k q (fun head => ubind (add_in_bucket head k n) (fun head => uret (n, head))) m Hnone Hn0 Hm)
      as (t & T & bs & n' & E1 & ? & ? & ? & ->).
    exists t, T, bs, n', E1. split_and!; try done; lia.
  - apply (holds_table_ne _ _ Hne) in Htab as (t & T & bs & Ht0 & Ha0 & Hb & Hln & Htk).
    cbn [h_nodes h_tables h_arrays h_next] in *. subst Ts As.
    assert (hd n l.*1 = head) as Hh by (rewrite Hhd; by destruct l).
    assert (hd n l.*1 <> 0) as Hh0 by (assert (hd n l.*1 ∈ l.*1) as Hin%Hold by (apply hd_in; by destruct l); lia).
    rewrite <- Hh.
    destruct (run_next_node E n k q (fun head => ubind (add_in_bucket head k n) (fun head => uret (n, head))) m Hnone
      l t T bs (n + 256) Hne Hdom Hh0 Hln Htk) as [Hpl ->].
    exists t, (set_tail (hh_of n) T), bs, (n + 256), (app_nodes E l n k q).
    split_and!; [done|cbn; lia..|done].
Qed.

Lemma run_node_add s head l k q : rep s head l -> (length k <= 32)%nat -> Z.of_nat (length l) < UINT_MAX ->
  1024 <= h_limit s < LIMIT ->
  (exists s', node_add k q head s = Ok (None, s') /\ cramped s') \/
  exists p head' s', node_add k q head s = Ok (Some (p, head'), s') /\ rep s' head' (l ++ [(p, (k, q))]) /\
    h_next s <= p /\ h_limit s' = h_limit s.
Proof.
  intros Hr Hk Hlen Hm. pose proof Hr as [Hdom Hnd Hold Hn0 Hhd Hkeys Htab].
  assert (h_next s ∉ l.*1) as Hnl by (intros Hin; apply Hold in Hin; lia).
  assert (forall x, x ∈ l.*1 -> 0 < x) as Hpos by (intros x Hx; by apply Hold).
  destruct (run_node_place s head l k q Hr ltac:(lia) Hk) as (t & T & bs & n' & E1 & Hpl & Hb & Hn & ->).
  set (n := h_next s) in *.
  destruct (run_add_in_bucket (h_nodes s) t l n k q Hdom Hnd Hpos Hn0 Hnl Hlen (h_limit s) (proj2 Hm) E1 T bs n' (hd n l.*1)
      (fun head => uret (n, head)) Hpl eq_refl Hb)
    as [Hex|(E2 & T' & bs' & n2 & Hex & (Hln2 & Htk2 & Hdom2) & Hb2 & Hn2)].
  - by left.
  - right. exists n, (hd n l.*1), (Heap E2 {[t := T']} {[buckets T' := bs']} n2 (h_limit s)).
    split; [by rewrite Hex|]. split_and!; [|done..]. split; cbn [h_nodes h_next].
    + done.
    + rewrite fmap_app. apply NoDup_app. split_and!; [done| |apply NoDup_singleton].
      intros x Hx Hx2%list_elem_of_singleton. by subst x.
    + intros x [Hx| ->]%addr_snoc; [apply Hold in Hx|]; lia.
    + lia.
    + by destruct l.
    + intros x k' q' [Hx|Hx]%elem_of_app; [by eapply Hkeys|]. by apply list_elem_of_singleton in Hx as [= -> -> ->].
    + apply holds_table_ne; [by destruct l|]. exists t, T', bs'. split_and!; cbn [h_next]; try done; lia.
Qed.
