(* ===== verification/UthashDelete.v ===== *)
(** * Deleting from the hash table

    [HASH_DELETE] takes a node out of the order of the nodes and out of its bucket;
    with the last node goes the table.  The others stay what they are. *)
From S2P Require Import Prelude.
From S2P Require Import CLib.
From S2P Require Import MqTypes.
From S2P Require Import Uthash.
From S2P Require Import UthashChains.
From S2P Require Import UthashSpec.
Import Uthash.

Implicit Types (E : gmap Z mq_queue_list) (p t x : Z) (k : bytes) (q : mq_queue) (l : nodes).

(** ** Deleting *)
(** The nodes [l1] and [l2] are linked to each other in app order. *)
Definition app_unlink E (l1 l2 : list Z) : gmap Z mq_queue_list :=
  let E1 := if decide (l1 = []) then E else upd (set_next (hd 0 l2)) (lst 0 l1) E in
  if decide (l2 = []) then E1 else upd (set_prev (lst 0 l1)) (hd 0 l2) E1.

Lemma app_unlink_same E (l1 l2 : list Z) g x : (forall v h, g (set_next v h) = g h) -> (forall v h, g (set_prev v h) = g h) ->
  fld g (app_unlink E l1 l2) x = fld g E x.
Proof. intros Hn Hp. unfold app_unlink. repeat case_decide; by rewrite ?fld_upd_id by done. Qed.
Lemma app_unlink_val E (l1 l2 : list Z) x : val (app_unlink E l1 l2) x = val E x.
Proof. unfold app_unlink. repeat case_decide; by rewrite ?val_upd. Qed.
Lemma app_unlink_node E (l1 l2 : list Z) x : is_Some (app_unlink E l1 l2 !! x) <-> is_Some (E !! x).
Proof. unfold app_unlink. repeat case_decide; by rewrite ?node_upd. Qed.

Lemma app_unlink_dseg E (l1 : list Z) x (l2 : list Z) : NoDup (l1 ++ x :: l2) -> (forall y, y ∈ l1 ++ x :: l2 -> is_Some (E !! y)) ->
  dseg (fld next E) (fld prev E) 0 (l1 ++ x :: l2) 0 ->
  dseg (fld next (app_unlink E l1 l2)) (fld prev (app_unlink E l1 l2)) 0 (l1 ++ l2) 0.
Proof.
  intros Hnd Hs Hd. eapply dseg_remove; [exact Hnd|exact Hd|..]; unfold app_unlink; set (E1 := if decide (l1 = []) then E else _).
  - intros Hne. assert (fld next E1 (lst 0 l1) = hd 0 l2) as H1.
    { unfold E1. rewrite decide_False by done. apply fld_upd_eq; [|done].
      apply Hs, elem_of_app. left. by apply lst_in. }
    case_decide; [done|]. by rewrite fld_upd_id.
  - intros Hne. rewrite decide_False by done. apply fld_upd_eq; [|done].
    assert (is_Some (E !! hd 0 l2)) as H2 by (apply Hs, elem_of_app; right; right; by apply hd_in).
    unfold E1. case_decide; [done|]. by rewrite node_upd.
  - intros y _ Hy. assert (fld next E1 y = fld next E y) as <-.
    { unfold E1. case_decide; [done|]. apply fld_upd_ne. by apply Hy. }
    case_decide; [done|]. by rewrite fld_upd_id.
  - intros y _ Hy. assert (fld prev E1 y = fld prev E y) as <-.
    { unfold E1. case_decide; [done|]. by apply fld_upd_id. }
    case_decide; [done|]. apply fld_upd_ne. by apply Hy.
Qed.

Lemma app_unlink_linked E t l1 n l2 : NoDup (l1 ++ n :: l2).*1 ->
  (forall y, y ∈ (l1 ++ n :: l2).*1 -> is_Some (E !! y)) ->
  linked E t (l1 ++ n :: l2) -> linked (app_unlink E l1.*1 l2.*1) t (l1 ++ l2).
Proof.
  intros Hnd Hs [L1 L2 L3].
  assert (forall m, m ∈ l1 ++ l2 -> m ∈ l1 ++ n :: l2) as Hin.
  { intros m. rewrite !elem_of_app, elem_of_cons. tauto. }
  rewrite fmap_app in Hnd, L3. setoid_rewrite fmap_app in Hs. cbn [fmap list_fmap] in Hnd, L3, Hs. split.
  - intros p k q H%Hin. rewrite app_unlink_val. by apply L1.
  - intros p k q H%Hin. rewrite !app_unlink_same by done. by eapply L2.
  - rewrite fmap_app. by eapply app_unlink_dseg.
Qed.

Lemma fld_delete_ne g p E x : x <> p -> fld g (delete p E) x = fld g E x.
Proof. intros H. unfold fld. by rewrite lookup_delete_ne. Qed.
Lemma linked_delete E t l p : p ∉ l.*1 -> linked E t l -> linked (delete p E) t l.
Proof.
  intros Hp [L1 L2 L3]. assert (forall x k q, (x, (k, q)) ∈ l -> x <> p) as Hne.
  { intros x k q Hx ->. apply Hp. by eapply addr_in. }
  split.
  - intros x k q Hx. unfold val. rewrite lookup_delete_ne by (symmetry; by eapply Hne). by apply L1.
  - intros x k q Hx. rewrite !fld_delete_ne by by eapply Hne. by eapply L2.
  - eapply dseg_ext; [exact L3|]. intros x Hx. by rewrite !fld_delete_ne by (by intros ->).
Qed.

(** The node [p] is out of its bucket. *)
Lemma run_del_bucket {A} E t T bs l1 p k q l2 n m (kk : unit -> U A) :
  let l := l1 ++ (p, (k, q)) :: l2 in
  NoDup l.*1 -> Forall (is_handle E) (hh_of <$> l.*1) -> array_ok E T bs (hh_of <$> l.*1) ->
  fld hashv E p = jen_hash k -> Z.of_nat (length l) <= UINT_MAX ->
  exists E' bs', ubind (HASH_DEL_IN_BKT (buckets T) (HASH_TO_BKT (jen_hash k) (num_buckets T)) (hh_of p)) kk
      (Heap E {[t := T]} {[buckets T := bs]} n m)
    = kk tt (Heap E' {[t := T]} {[buckets T := bs']} n m) /\
    core E' = core E /\ array_ok E' T bs' (hh_of <$> (l1 ++ l2).*1).
Proof.
  intros l Hnd Hall [Hk Hnum Hl Hc] Hhv Hlen.
  pose proof (to_bkt_range (jen_hash k) (log2_num_buckets T) ltac:(lia)) as Hr. rewrite <- Hnum in Hr.
  set (i := HASH_TO_BKT (jen_hash k) (num_buckets T)) in *.
  destruct (lookup_lt_is_Some_2 bs (Z.to_nat i)) as [b Hb]; [lia|].
  destruct (Hc _ b Hb) as (xs & Hxs & Hch).
  assert (hh_of <$> l.*1 ≡ₚ hh_of p :: (hh_of <$> (l1 ++ l2).*1)) as Hperm.
  { unfold l. rewrite !fmap_app. cbn [fmap list_fmap fst]. by rewrite Permutation_middle. }
  assert (of_bucket E (Z.of_nat (length bs)) (Z.to_nat i) (hh_of p)) as Hi.
  { unfold of_bucket, hval. rewrite hh_of_back, Hhv, Hl. fold i. lia. }
  assert (hh_of p ∈ xs) as Hin.
  { rewrite Hxs. apply list_elem_of_filter. split; [done|]. rewrite Hperm. by left. }
  apply list_elem_of_split in Hin as (c1 & c2 & ->).
  assert (NoDup (c1 ++ hh_of p :: c2)) as Hndx by (eapply chain_nodup; [by apply handles_nodup, Hnd|exact Hxs]).
  assert (Forall (is_handle E) (c1 ++ hh_of p :: c2)) as Hallx.
  { apply Forall_forall. intros x Hx. rewrite Hxs in Hx. apply list_elem_of_filter in Hx as [_ Hx].
    by eapply Forall_forall in Hall. }
  assert (count b <= UINT_MAX) as Hcb.
  { destruct Hch as (-> & _). etransitivity; [|exact Hlen]. rewrite Hxs. apply inj_le.
    etransitivity; [apply length_filter|]. by rewrite !length_fmap. }
  exists (unlink_nodes (lst 0 c1) (hd 0 c2) E),
    (<[Z.to_nat i := Bucket (hd 0 (c1 ++ c2)) (count b - 1) (expand_mult b)]> bs).
  pose proof (unlink_nodes_unlinked E c1 (hh_of p) c2 Hndx Hallx) as Hu. split_and!; [|apply Hu|].
  - erewrite run_del_in_bkt by (done || apply lookup_singleton_eq). by rewrite insert_singleton_eq.
  - split; [done|done|by rewrite length_insert|].
    eapply (chains_unlink E _ bs (hh_of <$> l.*1));
      [by apply handles_nodup|exact Hperm|exact Hc|exact Hi|exact Hb|exact Hxs|exact Hch|exact Hu].
Qed.

Lemma lst_app_cons (d : Z) xs x (ys : list Z) : ys <> [] -> lst d (xs ++ x :: ys) = lst d ys.
Proof.
  intros Hy. revert d. induction xs as [|z xs IH]; intros d; cbn [app]; rewrite lst_cons.
  - by apply lst_default.
  - rewrite IH. by apply lst_default.
Qed.
Lemma lst_app (d : Z) xs ys : lst d (xs ++ ys) = lst (lst d xs) ys.
Proof. revert d. induction xs as [|x xs IH]; intros d; [done|]. cbn [app]. by rewrite !lst_cons. Qed.
Lemma lst_zero (xs : list Z) : (forall x, x ∈ xs -> 0 < x) -> (lst 0 xs =? 0) = bool_decide (xs = []).
Proof.
  intros H. case_bool_decide as Hx; [by subst|]. apply Z.eqb_neq. specialize (H _ (lst_in 0 xs Hx)). lia.
Qed.
Lemma hd_zero (xs : list Z) : (forall x, x ∈ xs -> 0 < x) -> (hd 0 xs =? 0) = bool_decide (xs = []).
Proof.
  intros H. case_bool_decide as Hx; [by subst|]. apply Z.eqb_neq. specialize (H _ (hd_in 0 xs Hx)). lia.
Qed.
Lemma node_fld E x t : is_Some (E !! x) -> fld tbl E x = t -> exists e, E !! x = Some e /\ tbl (n_hh e) = t.
Proof. intros [e He] Ht. exists e. split; [done|]. by rewrite <- (fld_some tbl _ _ _ He). Qed.

Section Delete.
Context {A : Type} (s : heap) (head : Z) (l1 : nodes) (p : Z) (k : bytes) (q : mq_queue) (l2 : nodes).
#[local] Abbreviation l := (l1 ++ (p, (k, q)) :: l2).
Context (Hr : rep s head l) (Hlen : Z.of_nat (length l) <= UINT_MAX) (kk : Z -> U A).

Lemma delete_table : the_table s l.
Proof using Hr. apply holds_table_ne; [by intros [_ ?]%app_nil|apply Hr]. Qed.

(** The node is alone: the table goes with it. *)
Lemma run_delete_only : l1 = [] -> l2 = [] ->
  ubind (HASH_DELETE head p) kk s = kk 0 (Heap (h_nodes s) ∅ ∅ (h_next s) (h_limit s)).
Proof using Hr.
  clear Hlen. intros E1 E2. pose proof (rp_head _ _ _ Hr) as Hhd.
  destruct delete_table as (t & T & bs & Ht & Ha & Hb & Hln & Htk).
  subst l1 l2. cbn in Hhd. subst head.
  destruct (node_table _ _ _ p k q Hln) as (e & He & Hte & _); [by left|].
  destruct (ln_list _ _ _ Hln) as (Hpv & Hnx & _). cbn [app fmap list_fmap hd fst] in *.
  rewrite (fld_some _ _ _ _ He) in Hpv. rewrite (fld_some _ _ _ _ He) in Hnx.
  destruct s as [E Ts As n m]. cbn [h_nodes h_tables h_arrays h_next h_limit] in *. subst Ts As.
  unfold HASH_DELETE. rewrite ubind_assoc. erewrite run_read_node by done. cbv zeta. rewrite Hpv, Hnx. cbn [Z.eqb andb].
  rewrite ubind_assoc. erewrite run_read_node by done. rewrite Hte, ubind_assoc.
  erewrite run_read_table by apply lookup_singleton_eq. rewrite ubind_assoc.
  erewrite run_free_array by apply lookup_singleton_eq. rewrite delete_singleton_eq.
  by rewrite ubind_assoc, run_free_table, run_ret.
Qed.

(** The links of the neighbours of the node [p] with the handle [dh]. *)
Lemma run_relink E (xs ys : list Z) dh t T As n m (K : Z -> U A) hd0 :
  prev dh = lst 0 xs -> next dh = hd 0 ys -> (forall x, x ∈ xs ++ ys -> 0 < x) ->
  (forall x, x ∈ xs ++ ys -> is_Some (E !! x) /\ fld tbl E x = t) -> hho T = HH_OFFSET ->
  (xs <> [] -> hd0 = hd 0 xs) -> xs ++ ys <> [] ->
  ubind (if negb (prev dh =? 0) then ubind (write_handle (prev dh + hho T) (set_next (next dh))) (fun _ => uret hd0)
         else uret (next dh))
    (fun head => ubind (if negb (next dh =? 0)
        then ubind (table_of head) (fun T' => write_handle (next dh + hho T') (set_prev (prev dh))) else uret tt)
      (fun _ => K head)) (Heap E {[t := T]} As n m)
  = K (hd 0 (xs ++ ys)) (Heap (app_unlink E xs ys) {[t := T]} As n m).
Proof using.
  intros Hpv Hnx Hpos Hs Hho Hh0 Hne. rewrite Hpv, Hnx, Hho.
  rewrite lst_zero by (intros; apply Hpos, elem_of_app; by left).
  rewrite hd_zero by (intros; apply Hpos, elem_of_app; by right). unfold app_unlink.
  set (E1 := if decide (xs = []) then E else _).
  trans (ubind (if negb (bool_decide (ys = []))
        then ubind (table_of (hd 0 (xs ++ ys))) (fun T' => write_handle (hd 0 ys + hho T') (set_prev (lst 0 xs))) else uret tt)
      (fun _ => K (hd 0 (xs ++ ys))) (Heap E1 {[t := T]} As n m)).
  - unfold E1. destruct (decide (xs = [])) as [->|Hx]; [done|]. rewrite bool_decide_false by done. cbn [negb].
    rewrite ubind_assoc, run_write_handle, run_ret; fold (hh_of (lst 0 xs)); rewrite hh_of_back.
    + rewrite Hh0 by done. by destruct xs.
    + apply Hs, elem_of_app. left. by apply lst_in.
  - case_bool_decide as Hy; cbn [negb]; [by rewrite decide_True|]. rewrite decide_False by done.
    assert (forall x, x ∈ xs ++ ys -> is_Some (E1 !! x) /\ fld tbl E1 x = t) as Hs1.
    { intros x Hx. unfold E1. case_decide; [by apply Hs|]. rewrite node_upd, fld_upd_id by done. by apply Hs. }
    destruct (Hs1 (hd 0 (xs ++ ys))) as [Hn Ht]; [by apply hd_in|].
    destruct (node_fld _ _ _ Hn Ht) as (e & He & Hte). rewrite ubind_assoc. unfold table_of.
    rewrite ubind_assoc. erewrite run_read_node by done. rewrite Hte.
    erewrite run_read_table by apply lookup_singleton_eq. rewrite Hho. fold (hh_of (hd 0 ys)).
    rewrite run_write_handle; rewrite hh_of_back; [done|]. apply Hs1, elem_of_app. right. by apply hd_in.
Qed.

(** The first part of [HASH_DELETE] with other nodes: the order. *)
Lemma run_delete_order : l1 ++ l2 <> [] -> exists t T bs,
  let T1 := if decide (l2 = []) then set_tail (hh_of (lst 0 l1.*1)) T else T in
  let E2 := app_unlink (h_nodes s) l1.*1 l2.*1 in
  let head' := hd 0 (l1 ++ l2).*1 in
  h_tables s = {[t := T]} /\ h_arrays s = {[buckets T := bs]} /\
  0 < buckets T < h_next s /\ linked (h_nodes s) t l /\ table_ok (h_nodes s) T bs l /\
  ubind (HASH_DELETE head p) kk s
  = ubind (HASH_DEL_IN_BKT (buckets T) (HASH_TO_BKT (jen_hash k) (num_buckets T)) (hh_of p))
      (fun _ => ubind (write_table t (set_items (u32 (num_items T - 1)))) (fun _ => kk head'))
      (Heap E2 {[t := T1]} {[buckets T := bs]} (h_next s) (h_limit s)).
Proof using Hr.
  intros Hne. destruct delete_table as (t & T & bs & Ht & Ha & Hb & Hln & Htk).
  exists t, T, bs. intros T1 E2 head'. do 5 (split; [done|]).
  pose proof Hr as [Hdom Hnd Hold Hn0 Hhd _ _]. clear Hlen.
  assert ((p, (k, q)) ∈ l) as Hin by (apply elem_of_app; right; by left).
  assert (p ∈ l.*1) as Hinp by by eapply addr_in.
  assert (forall x, x ∈ (l1 ++ l2).*1 -> x ∈ l.*1) as Hsub.
  { intros x. rewrite !fmap_app, !elem_of_app, fmap_cons, elem_of_cons. tauto. }
  assert (forall x, x ∈ l.*1 -> is_Some (h_nodes s !! x) /\ fld tbl (h_nodes s) x = t) as Hs.
  { intros x Hx. split; [by apply Hdom|]. apply in_addr in Hx as (k' & q' & Hx). by eapply ln_fld. }
  destruct (Hs p Hinp) as [[d Hd] _]. destruct (Hs head) as [He Hte].
  { rewrite Hhd. apply hd_in. by destruct l1. }
  destruct (node_fld _ _ _ He Hte) as (e & He' & Hte').
  pose proof (ln_list _ _ _ Hln) as Hdl. rewrite fmap_app, fmap_cons in Hdl. apply dseg_app in Hdl as [_ (Hpv & Hnx & _)].
  cbn [fst] in Hpv, Hnx. rewrite (fld_some _ _ _ _ Hd) in Hpv. rewrite (fld_some _ _ _ _ Hd) in Hnx.
  destruct (ln_fld _ _ _ Hln _ _ _ Hin) as (_ & _ & _ & Hhv). rewrite (fld_some _ _ _ _ Hd) in Hhv.
  destruct s as [E Ts As n m]. cbn [h_nodes h_tables h_arrays h_next h_limit] in *. subst Ts As.
  unfold HASH_DELETE. rewrite ubind_assoc. erewrite run_read_node by done. cbv zeta.
  assert (forall x, x ∈ l1.*1 ++ l2.*1 -> 0 < x) as Hpos by (intros x; rewrite <- fmap_app; intros Hx; by apply Hold, Hsub).
  assert (l1.*1 ++ l2.*1 <> []) as Hne' by (rewrite <- fmap_app; by intros ?%fmap_nil_inv).
  assert ((prev (n_hh d) =? 0) && (next (n_hh d) =? 0) = false) as ->.
  { rewrite Hpv, Hnx, lst_zero, hd_zero by (intros; apply Hpos, elem_of_app; tauto). apply andb_false_iff.
    destruct (decide (l1.*1 = [])) as [E1|]; [right|left; by apply bool_decide_false].
    apply bool_decide_false. intros E2'. by rewrite E1, E2' in Hne'. }
  rewrite ubind_assoc. erewrite run_read_node by done. rewrite Hte', ubind_assoc.
  erewrite run_read_table by apply lookup_singleton_eq.
  assert ((p =? ELMT_FROM_HH T (tail T)) = bool_decide (l2 = [])) as ->.
  { unfold ELMT_FROM_HH. rewrite (tk_tail _ _ _ _ Htk), (tk_hho _ _ _ _ Htk), hh_of_back, fmap_app, fmap_cons.
    cbn [fst]. case_bool_decide as Hl2; [subst; cbn; rewrite lst_snoc; apply Z.eqb_refl|]. apply Z.eqb_neq.
    rewrite fmap_app, fmap_cons in Hnd. apply NoDup_app in Hnd as (_ & _ & [Hx _]%NoDup_cons). intros Heq. apply Hx.
    cbn [fst]. rewrite Heq at 1. rewrite lst_app_cons by (by intros ?%fmap_nil_inv). apply lst_in. by intros ?%fmap_nil_inv. }
  rewrite ubind_assoc.
  assert (forall K : unit -> U A, ubind (if bool_decide (l2 = []) then write_table t (set_tail (prev (n_hh d) + hho T)) else uret tt) K
    (Heap E {[t := T]} {[buckets T := bs]} n m) = K tt (Heap E {[t := T1]} {[buckets T := bs]} n m)) as ->.
  { intros K. unfold T1. case_bool_decide as Hl2; [|by rewrite decide_False]. rewrite decide_True by done.
    by rewrite run_write_table, Hpv, (tk_hho _ _ _ _ Htk). }
  assert (hho T1 = HH_OFFSET /\ num_buckets T1 = num_buckets T /\ buckets T1 = buckets T /\ num_items T1 = num_items T)
    as (Ho1 & Hn1 & Hb1 & Hi1) by (unfold T1; case_decide; split_and!; try done; apply Htk).
  set (K := fun c => ubind (read_node c) (fun e => ubind (read_table (tbl (n_hh e))) (fun T' =>
    ubind (HASH_DEL_IN_BKT (buckets T') (HASH_TO_BKT (hashv (n_hh d)) (num_buckets T')) (hh_of p)) (fun _ =>
    ubind (write_table (tbl (n_hh e)) (set_items (u32 (num_items T' - 1)))) (fun _ => kk c))))).
  rewrite ubind_assoc, (ubind_ext _ _ (fun c => ubind (if negb (next (n_hh d) =? 0)
    then ubind (table_of c) (fun T' => write_handle (next (n_hh d) + hho T') (set_prev (prev (n_hh d)))) else uret tt) (fun _ => K c))).
  2:{ intros c s1. unfold K. do 5 (rewrite ubind_assoc; apply ubind_ext; intros). done. }
  replace (hho T) with (hho T1) by (rewrite Ho1; symmetry; apply Htk).
  rewrite (run_relink E l1.*1 l2.*1 (n_hh d) t T1 _ n m K head); try done.
  - rewrite <- fmap_app. fold head' E2. unfold K.
    assert (head' ∈ (l1 ++ l2).*1) as Hh' by (apply hd_in; by intros ?%fmap_nil_inv).
    destruct (Hs head' (Hsub _ Hh')) as [Hx1 Hx2].
    destruct (node_fld E2 head' t) as (e2 & He2 & Hte2); [by apply app_unlink_node|by unfold E2; rewrite app_unlink_same|].
    erewrite run_read_node by done. rewrite Hte2. erewrite run_read_table by apply lookup_singleton_eq.
    by rewrite Hb1, Hn1, Hi1, Hhv.
  - intros x. rewrite <- fmap_app. intros Hx%Hsub. by apply Hs.
  - intros Hx1. rewrite Hhd. destruct l1; [done|]. done.
Qed.

(** The rest of the nodes without [p], for any memory that agrees on them. *)
Lemma rest_rep E' T' bs' t n : linked E' t (l1 ++ l2) -> array_ok E' T' bs' (hh_of <$> (l1 ++ l2).*1) ->
  num_items T' = Z.of_nat (length l) - 1 -> tail T' = hh_of (lst 0 (l1 ++ l2).*1) -> hho T' = HH_OFFSET ->
  (forall x, is_Some (E' !! x) <-> is_Some (h_nodes s !! x)) -> 0 < buckets T' < n -> h_next s <= n -> l1 ++ l2 <> [] ->
  rep (Heap (delete p E') {[t := T']} {[buckets T' := bs']} n (h_limit s)) (hd 0 (l1 ++ l2).*1) (l1 ++ l2).
Proof using Hr.
  clear kk A Hlen. intros Hln Har Hit Htl Hho Hdom' Hb Hn Hne. pose proof Hr as [Hdom Hnd Hold Hn0 Hhd Hkeys _].
  pose proof Hnd as Hnd'. rewrite fmap_app, fmap_cons in Hnd'. cbn [fst] in Hnd'.
  rewrite <- Permutation_middle, <- fmap_app in Hnd'. apply NoDup_cons in Hnd' as [Hp Hndr].
  assert (forall x, x ∈ l.*1 <-> x = p \/ x ∈ (l1 ++ l2).*1) as Hl.
  { intros x. rewrite !fmap_app, fmap_cons, !elem_of_app, elem_of_cons. cbn [fst]. tauto. }
  split; cbn [h_nodes h_next]; try done; try lia.
  - intros x. destruct (decide (x = p)) as [->|Hx].
    + rewrite lookup_delete_eq. split; [by intros []|done].
    + rewrite lookup_delete_ne, Hdom', Hdom, Hl by done. tauto.
  - intros x Hx. assert (x ∈ l.*1) as Hxl by (apply Hl; by right). apply Hold in Hxl. lia.
  - intros x k' q' Hx. apply (Hkeys x k' q'). rewrite elem_of_app, elem_of_cons. apply elem_of_app in Hx. tauto.
  - apply holds_table_ne; [done|]. exists t, T', bs'. cbn [h_nodes h_tables h_arrays h_next]. split_and!; try done; try lia.
    + by apply linked_delete.
    + split; try done.
      * destruct Har as [? ? ? Hc]. split; [done..|]. eapply chains_ext; [exact Hc|].
        intros x (y & -> & Hy)%list_elem_of_fmap. unfold hnx, hpv, hval. rewrite hh_of_back.
        assert (y <> p) by by intros ->. by rewrite !fld_delete_ne.
      * rewrite Hit, !length_app. cbn [length]. lia.
Qed.

Lemma run_delete : exists s', ubind (HASH_DELETE head p) kk s = kk (hd 0 (l1 ++ l2).*1) s' /\
  is_Some (h_nodes s' !! p) /\ rep (set_nodes (delete p) s') (hd 0 (l1 ++ l2).*1) (l1 ++ l2) /\
  h_next s' = h_next s /\ h_limit s' = h_limit s.
Proof using Hr Hlen.
  pose proof Hr as [Hdom Hnd Hold Hn0 Hhd Hkeys _].
  assert (p ∈ l.*1) as Hinp by (rewrite fmap_app, elem_of_app; right; by left).
  destruct (decide (l1 ++ l2 = [])) as [Hnil|Hne].
  - apply app_nil in Hnil as Hnil2. destruct Hnil2 as [E1 E2]. rewrite run_delete_only by done. rewrite Hnil.
    eexists. split; [reflexivity|]. split_and!; [by apply Hdom| |done..].
    split; cbn [set_nodes h_nodes h_next]; try done; try (intros ? *; by intros ?%elem_of_nil); try apply NoDup_nil_2.
    intros x. destruct (decide (x = p)) as [->|Hx].
    + rewrite lookup_delete_eq. split; [by intros []|by intros ?%elem_of_nil].
    + rewrite lookup_delete_ne, Hdom, E1, E2 by done. cbn. rewrite list_elem_of_singleton. split; [done|by intros ?%elem_of_nil].
  - destruct (run_delete_order Hne) as (t & T & bs & Ht & Ha & Hb & Hln & Htk & ->).
    set (T1 := if decide (l2 = []) then _ else _). set (E2 := app_unlink _ _ _).
    assert (num_buckets T1 = num_buckets T /\ buckets T1 = buckets T /\ num_items T1 = num_items T /\ hho T1 = hho T /\
      log2_num_buckets T1 = log2_num_buckets T /\ tail T1 = hh_of (lst 0 (l1 ++ l2).*1)) as (Hn1 & Hb1 & Hi1 & Ho1 & Hg1 & Ht1).
    { rewrite fmap_app. unfold T1. case_decide as Hl2; split_and!; try done.
      - subst. cbn. by rewrite app_nil_r.
      - rewrite (tk_tail _ _ _ _ Htk), !fmap_app, fmap_cons, lst_app_cons, (lst_app _ l1.*1); [|by intros ?%fmap_nil_inv].
        f_equal. apply lst_default. by intros ?%fmap_nil_inv. }
    assert (array_ok E2 T1 bs (hh_of <$> l.*1)) as Har.
    { destruct (tk_array _ _ _ _ Htk) as [? ? ? Hc]. split; rewrite ?Hg1, ?Hn1; try done. eapply chains_ext; [exact Hc|].
      intros x _. unfold hnx, hpv, hval, E2. by rewrite !app_unlink_same. }
    assert (Forall (is_handle E2) (hh_of <$> l.*1)) as Hall.
    { eapply Forall_impl; [by eapply rep_handles|]. intros x [Hx Hs]. split; [done|]. by apply app_unlink_node. }
    destruct (ln_fld _ _ _ Hln p k q) as (_ & _ & _ & Hhv); [apply elem_of_app; right; by left|].
    rewrite <- Hb1, <- Hn1. match goal with |- context [ubind (HASH_DEL_IN_BKT _ _ _) ?K _] =>
      destruct (run_del_bucket E2 t T1 bs l1 p k q l2 (h_next s) (h_limit s) K Hnd Hall Har) as (E3 & bs' & -> & Hcore & Har') end;
      [unfold E2; by rewrite app_unlink_same|done|].
    rewrite run_write_table. eexists. split; [reflexivity|]. split_and!; [|apply (rest_rep E3 (set_items _ T1) bs' t)|done..].
    + by apply (core_node _ _ _ Hcore), app_unlink_node, Hdom.
    + eapply linked_core; [exact Hcore|]. apply (app_unlink_linked _ _ _ (p, (k, q))); [done| |done].
      intros y Hy. by apply Hdom.
    + by destruct Har'.
    + cbn [num_items set_items]. rewrite (tk_items _ _ _ _ Htk), u32_small; [done|].
      rewrite length_app in *. cbn [length] in *. unfold UINT_MAX in Hlen. lia.
    + done.
    + cbn. rewrite Ho1. apply Htk.
    + intros x. rewrite (core_node _ _ _ Hcore). apply app_unlink_node.
    + cbn. by rewrite Hb1.
    + done.
    + done.
Qed.
End Delete.
