(* ===== verification/UthashTable.v ===== *)
(** * The hash table is the table of the queues

    The operations of source/mq_queue_manage.c on its hash table do what the model
    of that file does to a list: the same answers in the same order, for every
    sequence of operations, until the memory has no room for an array of twice the
    buckets.  A pointer leads to its queue until that is deleted. *)
From S2P Require Import Prelude.
From S2P Require Import CLib.
From S2P Require Import World.
From S2P Require Import MqTypes.
From S2P Require Import MqUtil.
From S2P Require Import StoreManage.
From S2P Require Import QueueManage.
From S2P Require Import Uthash.
From S2P Require Import UthashChains.
From S2P Require Import UthashSpec.
From S2P Require Import UthashDelete.
Import Uthash.

Implicit Types (E : gmap Z mq_queue_list) (p t x : Z) (k : bytes) (q : mq_queue) (l : nodes).

(** ** The operations on the list *)
Fixpoint del_node l k : nodes :=
  match l with
  | [] => []
  | (p, (k', q)) :: l => if bool_decide (k' = k) then l else (p, (k', q)) :: del_node l k
  end.
Definition upd_node l p (f : mq_queue -> mq_queue) : nodes :=
  (fun n : Z * (bytes * mq_queue) => if decide (n.1 = p) then (n.1, (n.2.1, f n.2.2)) else n) <$> l.

Lemma del_node_kv l k : (del_node l k).*2 = del_kv l.*2 k.
Proof. induction l as [|[p [k' q]] l IH]; simpl; [done|]. case_bool_decide; simpl; by f_equal. Qed.
Lemma del_node_split l k p q : find_node l k = Some (p, q) ->
  exists l1 l2, l = l1 ++ (p, (k, q)) :: l2 /\ del_node l k = l1 ++ l2.
Proof.
  induction l as [|[p' [k' q']] l IH]; simpl; [done|]. case_bool_decide as Hk.
  - intros [= -> ->]. subst. by exists [], l.
  - intros (l1 & l2 & -> & ->)%IH. by exists ((p', (k', q')) :: l1), l2.
Qed.
Lemma del_node_absent l k : find_node l k = None -> del_node l k = l.
Proof. induction l as [|[p' [k' q']] l IH]; simpl; [done|]. case_bool_decide; [done|]. intros Hf. by rewrite IH. Qed.
Lemma del_node_keeps l k p k' q : (p, (k', q)) ∈ l -> k' <> k -> (p, (k', q)) ∈ del_node l k.
Proof.
  intros Hin Hk. induction l as [|[p1 [k1 q1]] l IH]; simpl; [done|].
  apply elem_of_cons in Hin as [[= -> -> ->]|Hin]; case_bool_decide; try done; [by left|by right; apply IH].
Qed.

Lemma del_node_length l k : (length (del_node l k) <= length l)%nat.
Proof. induction l as [|[p [k' q]] l IH]; cbn [del_node length]; [lia|]. case_bool_decide; cbn [length]; lia. Qed.

Lemma upd_node_addrs l p f : (upd_node l p f).*1 = l.*1.
Proof.
  unfold upd_node. rewrite <- list_fmap_compose. apply list_fmap_ext. intros i [p' n] _. simpl. by case_decide.
Qed.
Lemma upd_node_keys l p f : (upd_node l p f).*2.*1 = l.*2.*1.
Proof.
  unfold upd_node. rewrite <- !list_fmap_compose. apply list_fmap_ext. intros i [p' n] _. simpl. by case_decide.
Qed.
Lemma upd_node_in l p f x k q : (x, (k, q)) ∈ upd_node l p f ->
  exists q0, (x, (k, q0)) ∈ l /\ q = if decide (x = p) then f q0 else q0.
Proof.
  intros ([x' [k' q']] & Heq & Hin)%list_elem_of_fmap. simpl in Heq. exists q'. case_decide; injection Heq as -> -> ->.
  - split; [done|]. by rewrite decide_True.
  - split; [done|]. by rewrite decide_False.
Qed.
Lemma in_upd_node l p f x k q : (x, (k, q)) ∈ l -> (x, (k, if decide (x = p) then f q else q)) ∈ upd_node l p f.
Proof. intros Hin. apply list_elem_of_fmap. exists (x, (k, q)). split; [|done]. simpl. by case_decide. Qed.
Lemma upd_node_absent l p f : p ∉ l.*1 -> upd_node l p f = l.
Proof.
  intros Hp. unfold upd_node. transitivity ((fun n => n) <$> l); [|apply list_fmap_id].
  apply list_fmap_ext. intros i [x n] Hx. cbn [fst]. case_decide; [|done]. subst x. destruct Hp.
  apply list_elem_of_lookup_2 in Hx. apply list_elem_of_fmap. by exists (p, n).
Qed.
Lemma upd_node_kv l p k q f : NoDup l.*1 -> find_node l k = Some (p, q) -> (upd_node l p f).*2 = set_kv l.*2 k (f q).
Proof.
  induction l as [|[p' [k' q']] l IH]; [done|]. intros [Hp Hnd]%NoDup_cons Hf. cbn [find_node] in Hf.
  cbn [fst] in Hp. change (upd_node ((p', (k', q')) :: l) p f) with
    ((if decide (p' = p) then (p', (k', f q')) else (p', (k', q'))) :: upd_node l p f). cbn [fmap list_fmap set_kv snd].
  case_bool_decide as Hk.
  - injection Hf as -> ->. rewrite decide_True by done. by rewrite upd_node_absent.
  - rewrite decide_False; [by rewrite IH|]. intros ->. apply Hp. apply find_node_in in Hf. by eapply addr_in.
Qed.

(** ** Running the operations *)
Lemma run_node_find s head l k : rep s head l -> NoDup l.*2.*1 ->
  node_find k head s = Ok (Some (addr (find_node l k), head), s).
Proof. intros Hr Hk. unfold node_find. by erewrite ubind_ok by (by eapply run_hash_find). Qed.

Lemma found_pos s head l k p q : rep s head l -> find_node l k = Some (p, q) -> 0 < p.
Proof. intros Hr Hf. apply (rp_old _ _ _ Hr). apply find_node_in in Hf. by eapply addr_in. Qed.

Lemma run_node_del s head l k : rep s head l -> NoDup l.*2.*1 -> Z.of_nat (length l) <= UINT_MAX ->
  exists head' s', node_del k head s = Ok (Some (tt, head'), s') /\ rep s' head' (del_node l k) /\ h_limit s' = h_limit s.
Proof.
  intros Hr Hk Hlen. unfold node_del. erewrite ubind_ok by (by eapply run_hash_find).
  destruct (find_node l k) as [[p q]|] eqn:Hf; cbn [addr].
  - rewrite (proj2 (Z.eqb_neq p 0)) by (pose proof (found_pos _ _ _ _ _ _ Hr Hf); lia). cbn [negb].
    apply del_node_split in Hf as (l1 & l2 & -> & ->).
    match goal with |- context [ubind (HASH_DELETE _ _) ?K _] =>
      destruct (run_delete s head l1 p k q l2 Hr Hlen K) as (s' & -> & Hp & Hr' & Hn & Hm) end.
    destruct s' as [E Ts As n m]. rewrite run_free_node by done. eexists _, _. split; [done|]. by split.
  - rewrite del_node_absent by done. by exists head, s.
Qed.

Lemma run_count s head l : rep s head l -> HASH_COUNT head s = Ok (Some (Z.of_nat (length l)), s).
Proof.
  intros Hr. unfold HASH_COUNT. rewrite (rp_head _ _ _ Hr). destruct (decide (l = [])) as [->|Hne]; [done|].
  assert (hd 0 l.*1 ∈ l.*1) as Hin by (apply hd_in; by destruct l).
  pose proof (rp_old _ _ _ Hr _ Hin). rewrite (proj2 (Z.eqb_neq _ 0)) by lia.
  destruct (rep_the_table _ _ _ Hr Hne) as (t & T & bs & Ht & _ & _ & Hln & Htk).
  apply in_addr in Hin as (k & q & Hin). destruct (node_table _ _ _ _ _ _ Hln Hin) as (e & He & Hte & _).
  destruct s as [E Ts As n m]. cbn in Ht, He. subst Ts. unfold table_of. rewrite ubind_assoc.
  erewrite run_read_node by done. rewrite Hte. erewrite run_read_table by apply lookup_singleton_eq.
  by rewrite (tk_items _ _ _ _ Htk).
Qed.

Lemma rep_size s head l : rep s head l -> (length l <= size (h_nodes s))%nat.
Proof.
  intros Hr. pose proof (handles_size (h_nodes s) (hh_of <$> l.*1) (handles_nodup l (rp_nodup _ _ _ Hr)) (rep_handles _ _ _ Hr)).
  by rewrite !length_fmap in H.
Qed.

Lemma run_nodes_from E t l : linked E t l -> (forall p, p ∈ l.*1 -> 0 < p) -> forall fuel Ts As n m,
  (length l < fuel)%nat -> nodes_from fuel (hd 0 l.*1) (Heap E Ts As n m) = Ok (Some l, Heap E Ts As n m).
Proof.
  intros [L1 _ L3] Hpos. apply dseg_nexts in L3. induction l as [|[p [k q]] l IH]; intros [|fuel] Ts As n m Hf; simpl in Hf; try lia.
  { done. }
  cbn [fmap list_fmap hd fst nodes_from] in *. destruct L3 as [Hn L3].
  rewrite (proj2 (Z.eqb_neq p 0)) by (specialize (Hpos p ltac:(by left)); lia).
  pose proof (L1 p k q ltac:(by left)) as Hv. unfold val in Hv. destruct (E !! p) as [e|] eqn:He; [|done].
  injection Hv as <- <-. rewrite (fld_some _ _ _ _ He) in Hn. erewrite run_read_node by done. rewrite Hn.
  erewrite ubind_ok; [reflexivity|]. apply IH; [|done| |lia].
  - intros x k q Hx. apply L1. by right.
  - intros x Hx. apply Hpos. by right.
Qed.

Lemma run_all_nodes s head l : rep s head l -> all_nodes head s = Ok (Some (l, head), s).
Proof.
  intros Hr. unfold all_nodes. erewrite ubind_ok; [reflexivity|].
  pose proof (rep_size _ _ _ Hr) as Hsz. rewrite (rp_head _ _ _ Hr). destruct (decide (l = [])) as [->|Hne]; [done|].
  destruct (rep_the_table _ _ _ Hr Hne) as (t & T & bs & _ & _ & _ & Hln & _).
  pose proof (rp_old _ _ _ Hr) as Hold. destruct s as [E Ts As n m]. unfold chain_fuel. cbn [h_nodes] in *.
  eapply run_nodes_from; [exact Hln|intros p Hp; by apply Hold|lia].
Qed.

(** Writing through a pointer. *)
Lemma run_node_update s head l p k q f : rep s head l -> (p, (k, q)) ∈ l ->
  exists s', node_update p f head s = Ok (Some (tt, head), s') /\ rep s' head (upd_node l p f) /\ h_limit s' = h_limit s.
Proof.
  intros Hr Hin. assert (l <> []) as Hne by (intros ->; by apply elem_of_nil in Hin).
  destruct (rep_the_table _ _ _ Hr Hne) as (t & T & bs & Ht & Ha & Hb & Hln & Htk).
  pose proof Hr as [Hdom Hnd Hold Hn0 Hhd Hkeys _].
  destruct (node_table _ _ _ _ _ _ Hln Hin) as (e & He & _ & Hke & Hqe).
  destruct s as [E Ts As n m]. cbn [h_nodes h_tables h_arrays h_next h_limit] in *. subst Ts As.
  set (E' := <[p := Node (n_key e) (f (n_queue e)) (n_hh e)]> E).
  assert (forall g x, fld g E' x = fld g E x) as Hfld.
  { intros g x. unfold E', fld. destruct (decide (x = p)) as [->|Hx]; [by rewrite lookup_insert_eq, He|].
    by rewrite lookup_insert_ne. }
  exists (Heap E' {[t := T]} {[buckets T := bs]} n m). split; [|split; [|done]].
  { unfold node_update. erewrite run_read_node by done. by erewrite ubind_ok by reflexivity. }
  split; rewrite ?upd_node_addrs; cbn [h_nodes h_next]; try done.
  - intros x. rewrite <- Hdom. unfold E'. destruct (decide (x = p)) as [->|Hx].
    + rewrite lookup_insert_eq, He. split; intros _; by eexists.
    + by rewrite lookup_insert_ne.
  - intros x k' q' (q0 & Hx & _)%upd_node_in. by eapply Hkeys.
  - apply holds_table_ne; [by destruct l|]. exists t, T, bs. cbn [h_nodes h_tables h_arrays h_next]. do 2 (split; [done|]).
    split; [done|]. split.
    + destruct Hln as [L1 L2 L3]. split.
      * intros x k' q' (q0 & Hx & ->)%upd_node_in. unfold E', val. case_decide as Hp.
        -- subst x. rewrite lookup_insert_eq. pose proof (L1 _ _ _ Hx) as Hv. unfold val in Hv. rewrite He in Hv.
           injection Hv as <- <-. done.
        -- rewrite lookup_insert_ne by done. by apply L1.
      * intros x k' q' (q0 & Hx & _)%upd_node_in. rewrite !Hfld. by eapply L2.
      * rewrite upd_node_addrs. eapply dseg_ext; [exact L3|]. intros x _. by rewrite !Hfld.
    + destruct Htk as [[? ? ? Hc] Hit Htl Hho]. split; rewrite ?upd_node_addrs; try done.
      * split; [done..|]. eapply chains_ext; [exact Hc|]. intros x _. unfold hnx, hpv, hval. by rewrite !Hfld.
      * unfold upd_node. by rewrite length_fmap.
Qed.

(** Clearing frees every node once, and the table with the last. *)
Lemma run_clear_from l : forall fuel s head, rep s head l -> Z.of_nat (length l) <= UINT_MAX -> (length l < fuel)%nat ->
  exists s', clear_from fuel head (hd 0 (List.tl l).*1) head s = Ok (Some 0, s') /\ rep s' 0 [] /\ h_limit s' = h_limit s.
Proof.
  induction l as [|[p [k q]] l IH]; intros [|fuel] s head Hr Hlen Hf; simpl in Hf; try lia.
  { pose proof (rp_head _ _ _ Hr) as ->. by exists s. }
  pose proof (rp_head _ _ _ Hr) as Hh. cbn in Hh. subst head. cbn [clear_from List.tl].
  rewrite (proj2 (Z.eqb_neq p 0)) by (pose proof (rp_old _ _ _ Hr p (list_elem_of_here _ _)); lia).
  match goal with |- context [ubind (HASH_DELETE _ _) ?K _] =>
    destruct (run_delete s p [] p k q l Hr Hlen K) as (s1 & -> & Hp & Hr1 & Hn1 & Hm1) end. cbn [app] in *.
  destruct s1 as [E Ts As n m]. rewrite run_free_node by done.
  change (set_nodes (delete p) (Heap E Ts As n m)) with (Heap (delete p E) Ts As n m) in Hr1. cbn in Hn1, Hm1.
  assert (forall K : Z -> U Z, ubind (if hd 0 l.*1 =? 0 then uret 0 else ubind (read_node (hd 0 l.*1)) (fun e => uret (next (n_hh e)))) K
    (Heap (delete p E) Ts As n m) = K (hd 0 (List.tl l).*1) (Heap (delete p E) Ts As n m)) as ->.
  { intros K. destruct l as [|[p1 [k1 q1]] l]; [done|]. cbn [fmap list_fmap hd fst List.tl].
    assert (p1 ∈ ((p1, (k1, q1)) :: l).*1) as Hp1 by by left. pose proof (rp_old _ _ _ Hr1 _ Hp1).
    rewrite (proj2 (Z.eqb_neq p1 0)) by lia.
    destruct (rep_the_table _ _ _ Hr1) as (t & T & bs & _ & _ & _ & Hln & _); [done|].
    destruct (node_table _ _ _ p1 k1 q1 Hln) as (e & He & _); [by left|]. cbn [h_nodes] in He.
    destruct (ln_list _ _ _ Hln) as (_ & Hnx & _). cbn [h_nodes] in Hnx. rewrite (fld_some _ _ _ _ He) in Hnx.
    rewrite ubind_assoc. erewrite run_read_node by done. by rewrite run_ret, Hnx. }
  destruct (IH fuel _ _ Hr1) as (s' & -> & Hr' & Hm'); [cbn [length] in Hlen; lia|lia|].
  exists s'. split_and!; [done..|]. rewrite Hm'. cbn. by rewrite Hm1.
Qed.

Lemma run_table_clear s head l : rep s head l -> Z.of_nat (length l) <= UINT_MAX ->
  exists s', table_clear head s = Ok (Some (true, 0), s') /\ rep s' 0 [] /\ h_limit s' = h_limit s.
Proof.
  intros Hr Hlen. pose proof (rep_size _ _ _ Hr) as Hsz. unfold table_clear. pose proof (rp_head _ _ _ Hr) as Hh.
  destruct l as [|[p [k q]] l].
  { cbn in Hh. subst head. by exists s. }
  cbn in Hh. subst head. assert (p ∈ ((p, (k, q)) :: l).*1) as Hp by by left. pose proof (rp_old _ _ _ Hr _ Hp).
  rewrite (proj2 (Z.eqb_neq p 0)) by lia.
  destruct (run_clear_from ((p, (k, q)) :: l) (chain_fuel s) s p Hr Hlen) as (s' & Hrun & Hr' & Hm'); [unfold chain_fuel; lia|].
  destruct (rep_the_table _ _ _ Hr) as (t & T & bs & _ & _ & _ & Hln & _); [done|].
  destruct (node_table _ _ _ p k q Hln) as (e & He & _); [by left|].
  destruct (ln_list _ _ _ Hln) as (_ & Hnx & _). rewrite (fld_some _ _ _ _ He) in Hnx. fold (@fmap list _ _ _ (@fst Z (bytes * mq_queue)) l) in Hnx.
  destruct s as [E Ts As n m]. cbn [h_nodes] in He. erewrite run_read_node by done. rewrite Hnx.
  erewrite ubind_ok by exact Hrun. exists s'. by split.
Qed.

(** ** Operations, in the hash table and in the list *)
Inductive table_op :=
| Add k q                                 (* when the name is not there *)
| Find k
| Del k
| Change k (f : mq_queue -> mq_queue)     (* through the pointer *)
| Count
| All
| Clear.
Inductive answer (P N : Type) :=
| Pointer (p : P)
| Number (n : Z)
| Nodes (ns : list N)
| Done.
#[global] Arguments Pointer {P N}.
#[global] Arguments Number {P N}.
#[global] Arguments Nodes {P N}.
#[global] Arguments Done {P N}.
Abbreviation hh_answer := (answer Z (Z * (bytes * mq_queue))).
Abbreviation kv_answer := (answer (option bytes) (bytes * mq_queue)).

Definition hh_step (op : table_op) (head : Z) : U (hh_answer * Z) :=
  match op with
  | Add k q =>
      ubind (node_find k head) (fun r =>
      if negb (r.1 =? 0) then uret (Pointer r.1, r.2)
      else ubind (node_add k q r.2) (fun r => uret (Pointer r.1, r.2)))
  | Find k => ubind (node_find k head) (fun r => uret (Pointer r.1, r.2))
  | Del k => ubind (node_del k head) (fun r => uret (Done, r.2))
  | Change k f =>
      ubind (node_find k head) (fun r => ubind (node_update r.1 f r.2) (fun r => uret (Done, r.2)))
  | Count => ubind (HASH_COUNT head) (fun n => uret (Number n, head))
  | All => ubind (all_nodes head) (fun r => uret (Nodes r.1, r.2))
  | Clear => ubind (table_clear head) (fun r => uret (Done, r.2))
  end.
Fixpoint hh_run (ops : list table_op) (head : Z) : U (list hh_answer * Z) :=
  match ops with
  | [] => uret ([], head)
  | op :: ops =>
      ubind (hh_step op head) (fun r => ubind (hh_run ops r.2) (fun rs => uret (r.1 :: rs.1, rs.2)))
  end.

(** The same with the model of source/mq_queue_manage.c. *)
Definition kv_step (op : table_op) : M store kv_answer :=
  match op with
  | Add k q =>
      let! o := hash_find_queue_by_key k in
      match o with
      | Some k => ret (Pointer (Some k))
      | None => let! k := hash_add_node k q in ret (Pointer (Some k))
      end
  | Find k => let! o := hash_find_queue_by_key k in ret (Pointer o)
  | Del k => hash_del_queue k ;;; ret Done
  | Change k f => on_queue k (fun _ => update f) ;;; ret Done
  | Count => let! n := hash_get_queue_num in ret (Number n)
  | All => let! kvs := gets g_mq_qlist in ret (Nodes kvs)
  | Clear => let! _ := hash_clear_queue in ret Done
  end.
Fixpoint kv_run (ops : list table_op) : M store (list kv_answer) :=
  match ops with
  | [] => ret []
  | op :: ops => let! a := kv_step op in let! bs := kv_run ops in ret (a :: bs)
  end.

(** The answers agree; a pointer is the address of the node with the key. *)
Definition same_answer l (a : hh_answer) (b : kv_answer) : Prop :=
  match a, b with
  | Pointer p, Pointer None => p = 0
  | Pointer p, Pointer (Some k) => p <> 0 /\ exists q, (p, (k, q)) ∈ l
  | Number n, Number m => n = m
  | Nodes ns, Nodes kvs => ns = l /\ ns.*2 = kvs
  | Done, Done => True
  | _, _ => False
  end.
(** The nodes stay where they are. *)
Definition kept (op : table_op) l l' : Prop :=
  forall p k q, (p, (k, q)) ∈ l -> op <> Del k -> op <> Clear -> exists q', (p, (k, q')) ∈ l'.
Inductive agrees : nodes -> list table_op -> list hh_answer -> list kv_answer -> nodes -> Prop :=
| agrees_nil l : agrees l [] [] [] l
| agrees_cons l l1 l2 op ops a as_ b bs : kept op l l1 -> same_answer l1 a b -> agrees l1 ops as_ bs l2 ->
    agrees l (op :: ops) (a :: as_) (b :: bs) l2.

(** The heap stands for a list of nodes with different names. *)
Definition stands (s : heap) (head : Z) l : Prop := rep s head l /\ NoDup l.*2.*1.

Lemma find_kv_found l k : find_kv l.*2 k = None <-> find_node l k = None.
Proof. rewrite find_node_kv. by destruct (find_node l k). Qed.

Lemma stands_add s head l p k q : rep s head (l ++ [(p, (k, q))]) -> NoDup l.*2.*1 -> find_node l k = None ->
  stands s head (l ++ [(p, (k, q))]).
Proof.
  intros Hr Hk Hf. split; [done|]. rewrite !fmap_app. apply NoDup_app. split_and!; [done| |apply NoDup_singleton].
  intros x Hx Hx2%list_elem_of_singleton. cbn in Hx2. subst x. apply list_elem_of_fmap in Hx as (n & Hn & Hx).
  apply list_elem_of_fmap in Hx as ([p' [k' q']] & -> & Hx). cbn in Hn. subst k'. by eapply find_node_none.
Qed.
Lemma stands_del s head l k : rep s head (del_node l k) -> NoDup l.*2.*1 -> stands s head (del_node l k).
Proof.
  intros Hr Hk. split; [done|]. destruct (find_node l k) as [[p q]|] eqn:Hf; [|by rewrite del_node_absent].
  apply del_node_split in Hf as (l1 & l2 & -> & ->). rewrite !fmap_app in *. cbn in Hk.
  rewrite <- Permutation_middle in Hk. by apply NoDup_cons in Hk as [_ ?].
Qed.

(** One operation. *)
Definition step_to (op : table_op) w conf (s : heap) head l (b : kv_answer) (st' : store) : Prop :=
  exists a head' s' l', hh_step op head s = Ok (Some (a, head'), s') /\ st' = Store w conf l'.*2 /\ stands s' head' l' /\
    same_answer l' a b /\ kept op l l' /\ h_limit s' = h_limit s /\ (length l' <= S (length l))%nat.

Section Steps.
Context (w : world) (conf : ucmq_conf) (s : heap) (head : Z) (l : nodes).
Context (Hst : stands s head l) (Hlen : Z.of_nat (length l) < UINT_MAX) (Hm : 1024 <= h_limit s < LIMIT).
#[local] Abbreviation kvs := (Store w conf l.*2).

Lemma find_run {A} k (K : Z * Z -> U A) : ubind (node_find k head) K s = K (addr (find_node l k), head) s.
Proof using Hst. destruct Hst as [Hr Hk]. apply ubind_ok. by eapply run_node_find. Qed.
Lemma same_found k : same_answer l (Pointer (addr (find_node l k))) (Pointer (match find_kv l.*2 k with Some _ => Some k | None => None end)).
Proof using Hst.
  rewrite find_node_kv. destruct (find_node l k) as [[p q]|] eqn:Hf; cbn; [|done].
  pose proof (found_pos _ _ _ _ _ _ (proj1 Hst) Hf). split; [lia|]. exists q. by apply find_node_in.
Qed.
Lemma kept_refl op : kept op l l.
Proof using. intros p k q Hin _ _. by exists q. Qed.
Lemma unchanged op a b : hh_step op head s = Ok (Some (a, head), s) -> same_answer l a b -> step_to op w conf s head l b kvs.
Proof using Hst. intros Hrun Ha. exists a, head, s, l. split_and!; try done; [apply kept_refl|lia]. Qed.

Lemma step_find k b st' : kv_step (Find k) kvs = Ok (b, st') -> step_to (Find k) w conf s head l b st'.
Proof using Hst.
  intros [= <- <-]. apply (unchanged _ (Pointer (addr (find_node l k)))); [|apply same_found].
  cbn [hh_step]. by rewrite find_run.
Qed.

Lemma step_add k q b st' : kv_step (Add k q) kvs = Ok (b, st') ->
  (exists s', hh_step (Add k q) head s = Ok (None, s') /\ cramped s') \/ step_to (Add k q) w conf s head l b st'.
Proof using Hst Hlen Hm.
  pose proof Hst as [Hr Hk]. intros Hrun. cbn in Hrun. unfold bind, hash_find_queue_by_key, gets in Hrun. cbn in Hrun.
  pose proof (same_found k) as Hsame. rewrite find_node_kv in *. destruct (find_node l k) as [[p q0]|] eqn:Hf; cbn in Hrun, Hsame.
  - injection Hrun as <- <-. right. apply (unchanged _ (Pointer p)); [|exact Hsame]. cbn [hh_step]. rewrite find_run, Hf. cbn.
    pose proof (found_pos _ _ _ _ _ _ Hr Hf). by rewrite (proj2 (Z.eqb_neq p 0)) by lia.
  - unfold hash_add_node, MAX_QUEUE_NAME_LEN in Hrun. destruct (Nat.leb_spec (length k) 32) as [Hk32|]; [|done].
    cbn in Hrun. injection Hrun as <- <-. cbn [hh_step]. rewrite find_run, Hf. cbn.
    destruct (run_node_add s head l k q Hr Hk32 Hlen Hm) as [(s' & Hex & Hc)|(p & head' & s' & Hex & Hr' & Hp & Hm')].
    + left. exists s'. split; [|done]. by apply ubind_exit.
    + right. exists (Pointer p), head', s', (l ++ [(p, (k, q))]). split_and!; try done.
      * cbn [hh_step]. rewrite find_run, Hf. cbn. by erewrite ubind_ok by exact Hex.
      * unfold set_qlist. by rewrite fmap_app.
      * by apply stands_add.
      * cbn. pose proof (rp_next _ _ _ Hr). split; [lia|]. exists q. apply elem_of_app. right. by left.
      * intros p' k' q' Hin _ _. exists q'. apply elem_of_app. by left.
      * rewrite length_app. cbn [length]. lia.
Qed.

Lemma step_del k b st' : kv_step (Del k) kvs = Ok (b, st') -> step_to (Del k) w conf s head l b st'.
Proof using Hst Hlen.
  intros [= <- <-]. pose proof Hst as [Hr Hk].
  destruct (run_node_del s head l k Hr Hk) as (head' & s' & Hrun & Hr' & Hm'); [lia|].
  exists Done, head', s', (del_node l k). split_and!; try done.
  - cbn [hh_step]. by erewrite ubind_ok by exact Hrun.
  - unfold set_qlist. by rewrite del_node_kv.
  - by apply stands_del.
  - intros p k' q Hin Hne _. exists q. apply del_node_keeps; [done|]. by intros ->.
  - pose proof (del_node_length l k). lia.
Qed.

Lemma step_change k f b st' : kv_step (Change k f) kvs = Ok (b, st') -> step_to (Change k f) w conf s head l b st'.
Proof using Hst.
  intros Hrun. pose proof Hst as [Hr Hk]. cbn in Hrun. unfold bind, on_queue in Hrun. cbn in Hrun.
  rewrite find_node_kv in Hrun. destruct (find_node l k) as [[p q]|] eqn:Hf; cbn in Hrun; [|done].
  injection Hrun as <- <-. pose proof (find_node_in _ _ _ _ Hf) as Hin.
  destruct (run_node_update s head l p k q f Hr Hin) as (s' & Hex & Hr' & Hm').
  exists Done, head, s', (upd_node l p f). split_and!; try done.
  - cbn [hh_step]. rewrite find_run, Hf. cbn. by erewrite ubind_ok by exact Hex.
  - rewrite (upd_node_kv l p k q f); [done|apply Hr|done].
  - split; [done|]. by rewrite upd_node_keys.
  - intros p' k' q' Hin' _ _. eexists. by apply in_upd_node.
  - unfold upd_node. rewrite length_fmap. lia.
Qed.

Lemma step_clear b st' : kv_step Clear kvs = Ok (b, st') -> step_to Clear w conf s head l b st'.
Proof using Hst Hlen.
  intros [= <- <-]. pose proof Hst as [Hr _]. destruct (run_table_clear s head l Hr) as (s' & Hex & Hr' & Hm'); [lia|].
  exists Done, 0, s', []. split_and!; try done.
  - cbn [hh_step]. by erewrite ubind_ok by exact Hex.
  - split; [done|]. apply NoDup_nil_2.
  - by intros p k q _ _ [].
  - cbn. lia.
Qed.

Lemma step_kv op b st' : kv_step op kvs = Ok (b, st') ->
  (exists s', hh_step op head s = Ok (None, s') /\ cramped s') \/ step_to op w conf s head l b st'.
Proof using Hst Hlen Hm.
  pose proof Hst as [Hr _]. destruct op; intros Hrun.
  - by apply step_add.
  - right. by apply step_find.
  - right. by apply step_del.
  - right. by apply step_change.
  - right. injection Hrun as <- <-. apply (unchanged _ (Number (Z.of_nat (length l)))).
    + cbn [hh_step]. by erewrite ubind_ok by (by apply run_count).
    + cbn. by rewrite length_fmap.
  - right. injection Hrun as <- <-. apply (unchanged _ (Nodes l)); [|done].
    cbn [hh_step]. by erewrite ubind_ok by (by apply run_all_nodes).
  - right. by apply step_clear.
Qed.
End Steps.

(** C11: the hash table of source/uthash.h, run on a heap of nodes with the chains
    of its buckets, the order of its nodes and its growth, refines the list that the
    model of source/mq_queue_manage.c uses: for every sequence of adding, finding,
    deleting, changing a queue through its pointer, counting, walking and clearing
    that the list can run, the hash table gives the same answers in the same order,
    never touches memory that is not its own or freed, and stands for the same list
    afterwards; a pointer leads to the queue of its name, and a node stays where it
    is until its name is deleted.  The only other end is the exit of the process
    when an array of twice the buckets is more than the memory can give. *)
Theorem table_refines_list w conf ops s head l answers st' :
  stands s head l -> Z.of_nat (length l + length ops) < UINT_MAX -> 1024 <= h_limit s < LIMIT ->
  kv_run ops (Store w conf l.*2) = Ok (answers, st') ->
  (exists s', hh_run ops head s = Ok (None, s') /\ cramped s') \/
  exists answers' head' s' l', hh_run ops head s = Ok (Some (answers', head'), s') /\
    st' = Store w conf l'.*2 /\ stands s' head' l' /\ agrees l ops answers' answers l'.
Proof.
  revert s head l answers st'. induction ops as [|op ops IH]; intros s head l answers st' Hst Hlen Hm Hrun.
  { injection Hrun as <- <-. right. exists [], head, s, l. split_and!; try done. constructor. }
  cbn [length] in Hlen. cbn [kv_run] in Hrun. unfold bind in Hrun.
  destruct (kv_step op (Store w conf l.*2)) as [[b st1]| |] eqn:Hop; try done. cbn [hh_run].
  destruct (step_kv w conf s head l Hst ltac:(lia) Hm op b st1 Hop)
    as [(s' & Hex & Hc)|(a & head1 & s1 & l1 & Hex & -> & Hst1 & Ha & Hk & Hm1 & Hl1)].
  { left. exists s'. split; [by apply ubind_exit|done]. }
  rewrite (ubind_ok _ _ _ _ _ Hex). cbn [fst snd].
  destruct (kv_run ops (Store w conf l1.*2)) as [[bs st2]| |] eqn:Hops; try done. injection Hrun as <- <-.
  destruct (IH s1 head1 l1 bs st2 Hst1 ltac:(lia) ltac:(lia) Hops)
    as [(s' & Hex' & Hc)|(as' & head' & s' & l' & Hex' & -> & Hst' & Hag)].
  { left. exists s'. split; [by apply ubind_exit|done]. }
  right. exists (a :: as'), head', s', l'. split_and!; try done.
  - by erewrite ubind_ok by exact Hex'.
  - by econstructor.
Qed.

(** Ten names in one bucket: the tenth makes the table grow. *)
Definition colliding : list bytes :=
  [B "q009"; B "q019"; B "q116"; B "q166"; B "q244"; B "q282"; B "q313"; B "q320"; B "q356"; B "q367"].
Definition sample_ops : list table_op :=
  ((fun k => Add k mq_queue_zero) <$> colliding) ++
  [Find (B "q116"); Change (B "q244") (with_maxque 5); Del (B "q019"); Count; All; Clear; Add (B "q009") mq_queue_zero; Count].
Definition empty_heap : heap := Heap ∅ ∅ ∅ 16 (2 ^ 30).

Lemma empty_stands : stands empty_heap 0 [].
Proof.
  split; [|apply NoDup_nil_2]. split; try done.
  - intros p. split; [by intros []|by intros ?%elem_of_nil].
  - apply NoDup_nil_2.
  - intros p ?%elem_of_nil. done.
  - intros p k q ?%elem_of_nil. done.
Qed.

(** The array grows, and the table is still in use. *)
Example colliding_grow :
  match hh_run ((fun k => Add k mq_queue_zero) <$> colliding) 0 empty_heap with
  | Ok (Some (_, head), s) => exists T, map_to_list (h_tables s) = [(272, T)] /\ num_buckets T = 64 /\ num_items T = 10
  | _ => False
  end.
Proof. vm_compute. eexists. split_and!; reflexivity. Qed.

Lemma table_refines_list_witness :
  exists answers answers' head' s' l', hh_run sample_ops 0 empty_heap = Ok (Some (answers', head'), s') /\
    kv_run sample_ops (Store (sample_world 0 ∅) sample_conf []) = Ok (answers, Store (sample_world 0 ∅) sample_conf l'.*2) /\
    stands s' head' l' /\ agrees [] sample_ops answers' answers l'.
Proof.
  destruct (kv_run sample_ops (Store (sample_world 0 ∅) sample_conf [])) as [[answers st']| |] eqn:Hrun;
    [|vm_compute in Hrun; discriminate..].
  assert (match hh_run sample_ops 0 empty_heap with Ok (Some _, _) => true | _ => false end = true) as Hok
    by (vm_compute; reflexivity).
  destruct (table_refines_list (sample_world 0 ∅) sample_conf sample_ops empty_heap 0 [] answers st' empty_stands)
    as [(s' & Hex & _)|(answers' & head' & s' & l' & Hex & -> & Hst & Hag)].
  - vm_compute. reflexivity.
  - vm_compute. split; [discriminate|reflexivity].
  - exact Hrun.
  - rewrite Hex in Hok. discriminate Hok.
  - exists answers, answers', head', s', l'. by split_and!.
Defined.
